(* ===== verification/_CoqProject ===== *)
-Q . S2P
Prelude.v
Utf8.v
Json.v
Filesystem.v
Effects.v
Testbed.v
MessageValidation.v
Configurations.v
TaskDLQ.v
TaskExecutor.v
TaskScripts.v
WorkerStatus.v
Worker.v
StatusSchema.v
WorkerTrace.v
WorkerRuns.v
WorkerSafety.v
WorkerProtocol.v
WorkerSample.v
WorkerProperties.v
WorkerTransfers.v
WaitingTime.v
TaskResults.v
WorkerOutcomes.v
WorkerHistory.v
JobStates.v
Expiry.v
Lifecycle.v
LifecycleProperties.v
StartSteps.v
Program.v
ProgramProperties.v
Api.v
ApiGo.v
ApiPython.v
ApiJs.v
ApiContract.v
Posting.v
ApiSample.v
ApiProperties.v
ApiConfig.v
ApiHealth.v
ApiAdapters.v
ApiWorker.v
DocumentFields.v
PostedResults.v
Interleaving.v
SharedStore.v
