(* ===== verification/Prelude.v ===== *)
(** * TaskForge: a verification development

    ** The program

    TaskForge runs whitelisted command-line tasks on request. A REST service
    (three interchangeable implementations under src/Interface, in Go, Python
    and TypeScript) signs upload locations in S3, writes a status document to
    Redis and a request to an SQS FIFO queue; the worker under src/Main,
    written in C++, consumes the requests one after the other, and for each
    one validates it, fetches the inputs from S3, runs the task as a child
    process with a timeout, uploads the outputs, and records the status of the
    job (queued, running, done, failed) in Redis. A job that fails is put back
    on the queue with a count, up to a limit; the count is also kept in one
    file per job (the DLQ directory), whose number a monitor watches.
    This library models the worker (all of its own code in src/Main, with the
    program around it and the signals it handles), the tasks it ships, and the
    services, routes and configuration of the three REST implementations.

    ** Files, and the code they model

    - Prelude.v: this header; std::expected, machine integers and their casts,
      strings as bytes, C strings, std::format of integers, shared tactics.
    - Utf8.v: well-formed UTF-8 and the byte tests of the code.
    - Json.v: boost::json values, the accessors the code uses, and the class
      [JsonCodec] of parse and serialize with its laws [JsonCodecLaws] (round
      trip of well-formed values, rejection of text that is not UTF-8, no NUL
      in serialized text); a well-formed value is nested at most 32 deep, the
      limit of the parser; a reference codec shows that the laws can hold.
    - Filesystem.v: std::filesystem paths and a tree of files with faults
      (an operation may be denied at a path, a written file may lose its data).
    - Effects.v: everything outside the program as the class [Services] (Redis,
      S3, SQS, child processes, consumer, thread pool, clock, random numbers),
      the monad of the code ([M]: state of the machine, exceptions, undefined
      behaviour, and the trace of interactions), and rules over it: [emits]
      (every interaction satisfies a property), [safe] (no exception under an
      invariant of the file system), [returns].
    - Testbed.v: a simulated outside world, an instance of all these classes.
    - MessageValidation.v (Main/MessageValidation.cpp), Configurations.v
      (Main/Configurations.cpp and .h), TaskDLQ.v (Main/TaskDLQ.cpp),
      TaskExecutor.v (Main/TaskExecutor.cpp): one file per class of the code,
      with a record for its members and a definition per operation.
    - TaskScripts.v (Main/tasks): the two shipped scripts on the same tree of
      files.
    - WorkerStatus.v and Worker.v (Main/TaskForgeWorker.cpp): the free
      functions, the status document, and [Worker.handle_message] with
      everything it calls. Loops of the code are structural recursions over the
      list they go through or over the attempts that are left; scopes with
      destructors are [with_cleanup].
    - StatusSchema.v: the type of a status document ([schema]) and that merging
      typed updates keeps it.
    - WorkerTrace.v, WorkerRuns.v, WorkerSafety.v, WorkerProtocol.v: which
      interactions the operations can have, the relations between their traces
      and the services ([RunRelation]), that they throw nothing, and the
      abstract protocol [session] of one message with the proof that the
      handler follows it.
    - WorkerSample.v: a worker and a request for concrete runs.
    - WorkerProperties.v, WorkerOutcomes.v, WorkerTransfers.v,
      WorkerHistory.v: the theorems about message handling (below);
      WaitingTime.v: how long one message is worked on.
    - TaskResults.v: a job from its inputs to its results, with a shipped
      script as the child process ([runs_script]).
    - JobStates.v: typing of the stored documents over sequences of messages,
      and the abstract state machine of a job ([job_step]) that the worker
      refines; Expiry.v: a Redis whose entries have deadlines
      ([ExpiringRedis]) and what a finished job can rely on.
    - Lifecycle.v (Main/TaskForgeWorker.cpp, Main/main.cpp): the members of the
      worker, [start], [stop], the backlog monitor and [main] for a signal
      while it waits, as a state monad over the effects;
      LifecycleProperties.v: its theorems.
    - StartSteps.v: [start] again, as a machine with one step per statement
      ([start_step]), in which a call through a null member is undefined, and
      the proof that it is [start]. The fuel of a run is [start_measure], the
      number of threads and connection attempts plus a constant.
    - Program.v (Main/main.cpp): the process (globals, logger, SDK, signal
      dispositions), [main] one statement at a time ([main_step]), the signal
      handler, and the runs of both as a labelled step relation ([proc_step],
      [reaches]) in which a signal may arrive between any two statements;
      ProgramProperties.v: its invariant and theorems.
    - Api.v: what the interfaces share: the services they call ([ApiServices]),
      the monad of their functions, answers, identifiers. ApiGo.v
      (Interface/golang/internal/service/job.go and http/handlers), ApiPython.v
      (Interface/python/src/app: services, schemas, routes, exception handlers)
      and ApiJs.v (Interface/js/src: jobs, common): a module per
      implementation, with its own types, errors and answers.
    - ApiContract.v: creation of a job as a specification ([create_spec]) and
      the refinement of it by each implementation; Posting.v: the three POST
      routes as one operation ([post]) and what acceptance guarantees.
    - ApiSample.v: the interfaces on the simulated world; ApiProperties.v and
      ApiWorker.v: the theorems about the interfaces, and about interface and
      worker together; PostedResults.v: from the posted request to the results.
    - ApiConfig.v (golang/internal/config and cmd/api, python core/config.py,
      js config/configuration.ts): the environment of each interface and the
      check before it serves; ApiHealth.v (the readiness routes and the probes
      of the repositories): replies, deadlines and the rounds of probes;
      ApiAdapters.v (golang/internal/repository, python repositories, js
      infra): the repositories with their limits as instances of
      [ApiServices], over the clients they call ([Dependencies]), on a clock.
    - DocumentFields.v: the task and the time every status document names, from
      the posted request on.
    - Interleaving.v: histories of any number of creations and handlings whose
      calls interleave in any way; SharedStore.v: such histories on one Redis,
      in which a read returns what was stored before it, or fails.

    ** What is proved

    - One message: the handler refines the protocol [session], throws nothing
      on a healthy file system whatever the message, starts only whitelisted
      executables with a bounded timeout, leaves finished jobs alone, rejects
      invalid messages and unregistered tasks without running anything, merges
      status documents field by field, fetches and uploads exactly what it
      should, and leaves no temporary files.
    - Retries: a failure is retried exactly while its count is within the
      limit; what is republished is the same request with a larger count;
      retries are bounded; deduplication ids never collide; delays are bounded,
      and so is the time one message is worked on (with the shipped
      configuration it stays below the visibility timeout for up to three
      inputs).
    - Many messages: with a Redis whose reads return what was written last, or
      fail ([RedisStore]), a finished job never changes again while reads of
      its document are answered, and stored documents stay typed; where reads
      do not fail ([AnsweringStore]), the states written for a job are a run of
      its state machine. With a Redis that accepts writes every request is
      settled (done or failed written last, or found finished) after at most
      the retry limit plus one messages ([deliver], whose fuel is that number),
      unless a retry counter overflows. With entries that expire, a
      finished job is left alone for the lifetime of its document, and not
      longer.
    - The tasks: both scripts write one output per file their pattern matches
      and nothing else, and succeed exactly when there is one; a job that ends
      well has exactly these results.
    - Components: validation accepts exactly the request schema; a constructed
      configuration is always in range and loading is a round trip; the retry
      entries accumulate and are counted correctly; the output tail is the
      longest suffix within 2048 bytes that does not start inside a character.
    - Lifecycle: nothing is consumed before everything else is up; after a
      signal or a failed start [main] ends with everything released, with exit
      code 0 exactly after a successful start; of any number of concurrent
      calls of [stop] exactly one does the work; [start] statement by statement
      is [start].
    - The program under signals: nothing shared is used outside its life,
      every exit is clean, at most one signal is handled once all handlers are
      installed, [main] blocks only while it waits, a signal then makes it exit
      with code 0, and a null pointer is used only after a signal was handled
      inside [start].
    - The interfaces: each refines the specification of creation (calls in
      order, stop at the first failure); whatever is posted, the calls serve one
      new job, its document is typed and its request is valid for the worker
      (rejected with a stated error only for an explicit null timeout posted to
      JavaScript); on requests within shared limits the three agree in calls,
      state and the answer to a success; reading a job reads that job only, never another entry of the
      store. An interface that has come up has a bucket and a queue, one
      environment configures the three alike, and readiness is answered in
      bounded time. Whatever Redis and the queue do, every request is answered
      in bounded time, and a creation is answered 202 exactly when both
      confirmed in time. The bounds for Go contain the time after which its
      Redis client gives up, those for Python the time boto3 takes.
    - End to end: uploaded inputs reach the task under their names, a job
      answered with 202 is settled by the worker, a posted job processed to its
      end has exactly the results of its inputs, every document of a job names
      the task and the time of its creation, and in every interleaving of
      interfaces and workers the initial document of a job is written before
      any worker writes for it. On a shared store documents stay typed whatever
      the interleaving, and a finished job stays finished unless a handling
      writes that had looked at it before it was finished, or whose look
      failed.
    - Defects: with output that is not UTF-8 a finished job is not recognised
      as finished, and a failed one loses the count of its entry; the retry counter can overflow; a failure that cannot be
      recorded leaves its entry behind; an invalid message can turn a finished
      job to failed; a signal before the start is lost, one during the start
      crashes it; a null timeout accepted by the JavaScript interface is
      rejected by the worker; the interfaces differ at the edges of their
      contract, in the variables they read and in their time limits; a
      redelivered message can overwrite a finished status; inputs whose names
      begin with a period are ignored by the tasks.

    ** Modelling choices

    Integers are [Z] with the casts of the code written out ([to_int],
    [to_uint16]); overflow of a signed [int] is the outcome [Undefined], and
    theorems say where it can occur. Strings are byte strings; a
    [std::string] built from [c_str()] stops at the first NUL ([c_str]). JSON
    objects are finite maps, so the order of their keys is not modelled; the
    order of a directory's entries is some fixed order. A directory iteration
    that fails half-way, running out of memory, and the timing of log lines are
    not modelled. Reads that throw in the code throw in the model.

    What a child process and the event loop around it do is given by the order
    in which the completion handlers run and the exit code. The consumer calls
    the handler for one message at a time. A signal handler runs on the main
    thread between two statements of [main] or [start] and to its end (one
    attempt to connect to Redis, with the pause after it, is one statement); a
    second signal inside the handler, and locks of the logger, are not
    modelled. The logger, the AWS SDK and [std::signal] are the state they set.

    The interfaces are modelled from the decoded request on: the constraints
    gin, pydantic and class-validator check are boolean functions of the typed
    request, while bodies they cannot decode at all are not represented. How
    class-validator measures length, what google/uuid parses, and the JSON
    encoders are parameters. In a concurrent history each creation and handling
    has a state of the services of its own that gives the results it saw, so
    nothing is assumed of the services but that what is handled was sent.
    Readiness and the adapters count milliseconds: a dependency answers after a
    delay or never, and a call under a deadline ends when the deadline passes
    (its effect may come all the same); the Redis client of Go does not apply the deadline of
    a context to its socket, so when it gives up is a parameter ([GoRedis]), as
    is the time boto3 takes with the limits it is configured with. In Expiry.v a call is answered
    at the time of the state it is made in.

    ** Not modelled

    CppToolkit (logger, clients, thread pool) is a submodule that is not part
    of the repository: its operations are parameters. Of the REST services the
    routers (tables of paths), the liveness routes (a constant answer) and the
    servers with their shutdown are calls of the frameworks without logic of
    their own; what the vendor SDKs do is a parameter. The deployment files and
    end-to-end scripts drive the system from outside. Of src/Main everything is
    modelled but includes, declarations and plain accessors. *)

From stdpp Require Export base tactics strings list gmap pretty numbers relations.
From Stdlib Require Export ZArith Ascii.
From Stdlib Require String.

#[export] Set Default Proof Using "Type".
#[export] Set Warnings "-clear-no-such-hyp".

Declare Scope taskforge_scope.
Delimit Scope taskforge_scope with tf.
Open Scope Z_scope.

(** ** Hint database and tactics of the development *)

Create HintDb taskforge.
Create Rewrite HintDb taskforge.

(** Case analysis on the innermost discriminee of the goal or of a hypothesis. *)
Ltac destr_match :=
  match goal with
  | |- context [match ?x with _ => _ end] =>
      lazymatch x with context [match _ with _ => _ end] => fail | _ => destruct x eqn:? end
  | H : context [match ?x with _ => _ end] |- _ =>
      lazymatch x with context [match _ with _ => _ end] => fail | _ => destruct x eqn:? end
  end.

(** Turn the boolean tests of the code into propositions. *)
Ltac bool_to_prop :=
  repeat match goal with
  | H : (_ && _)%bool = true |- _ => apply andb_true_iff in H as [? ?]
  | H : (_ || _)%bool = false |- _ => apply orb_false_iff in H as [? ?]
  | H : negb _ = true |- _ => apply negb_true_iff in H
  | H : negb _ = false |- _ => apply negb_false_iff in H
  | H : (_ <? _) = true |- _ => apply Z.ltb_lt in H
  | H : (_ <? _) = false |- _ => apply Z.ltb_ge in H
  | H : (_ <=? _) = true |- _ => apply Z.leb_le in H
  | H : (_ <=? _) = false |- _ => apply Z.leb_gt in H
  | H : (_ =? _) = true |- _ => apply Z.eqb_eq in H
  | H : (_ =? _) = false |- _ => apply Z.eqb_neq in H
  | H : bool_decide _ = true |- _ => apply bool_decide_eq_true in H
  | H : bool_decide _ = false |- _ => apply bool_decide_eq_false in H
  end.

(** ** std::expected<T, std::string> *)

Inductive expected (A : Type) : Type :=
| Expected (a : A)
| Unexpected (e : string).
Arguments Expected {A} a.
Arguments Unexpected {A} e.

Definition has_value {A} (r : expected A) : bool :=
  match r with Expected _ => true | Unexpected _ => false end.

#[export] Instance expected_eq_dec {A} `{EqDecision A} : EqDecision (expected A).
Proof. solve_decision. Defined.

(** ** Machine integers

    [int] is a 32-bit two's-complement integer, [long], [long long] and
    [int64_t] are 64-bit ones; a cast [(int)x] keeps the low 32 bits. *)

Definition INT_MAX : Z := 2 ^ 31 - 1.
Definition INT_MIN : Z := - 2 ^ 31.
Definition INT64_MAX : Z := 2 ^ 63 - 1.
Definition INT64_MIN : Z := - 2 ^ 63.

Definition in_int (z : Z) : Prop := INT_MIN ≤ z ≤ INT_MAX.
Definition in_int64 (z : Z) : Prop := INT64_MIN ≤ z ≤ INT64_MAX.

#[export] Instance in_int_dec z : Decision (in_int z).
Proof. unfold in_int. apply _. Defined.
#[export] Instance in_int64_dec z : Decision (in_int64 z).
Proof. unfold in_int64. apply _. Defined.

(** The cast [(int)z] of an [int64_t]. *)
Definition to_int (z : Z) : Z := (z + 2 ^ 31) mod 2 ^ 32 - 2 ^ 31.

(** The cast [(uint16_t)z]. *)
Definition to_uint16 (z : Z) : Z := z mod 2 ^ 16.

Lemma to_int_range z : in_int (to_int z).
Proof.
  unfold in_int, to_int, INT_MIN, INT_MAX.
  pose proof (Z.mod_pos_bound (z + 2 ^ 31) (2 ^ 32) eq_refl). lia.
Qed.

Lemma to_int_id z : in_int z → to_int z = z.
Proof.
  unfold in_int, to_int, INT_MIN, INT_MAX. intros ?.
  rewrite Z.mod_small; lia.
Qed.

#[export] Hint Resolve to_int_range : taskforge.

(** ** Characters and strings

    A [std::string] is a sequence of bytes, here [string] (a list of 8-bit
    [ascii]). *)

Definition uchar (c : ascii) : Z := Z.of_N (N_of_ascii c).

(** [char] is signed on the target platform. *)
Definition schar (c : ascii) : Z := if uchar c <? 128 then uchar c else uchar c - 256.

Lemma uchar_range c : 0 ≤ uchar c < 256.
Proof.
  unfold uchar. pose proof (N_ascii_bounded c). lia.
Qed.

Definition size (s : string) : Z := Z.of_nat (String.length s).

Lemma size_zero s : (size s =? 0) = true ↔ s = "".
Proof. unfold size. rewrite Z.eqb_eq. destruct s; simpl; [naive_solver|]. split; [lia|done]. Qed.

Lemma size_nonzero s : (size s =? 0) = false ↔ s ≠ "".
Proof. rewrite <-size_zero. by destruct (size s =? 0). Qed.

Fixpoint str_forallb (f : ascii → bool) (s : string) : bool :=
  match s with
  | EmptyString => true
  | String c s => f c && str_forallb f s
  end.

Fixpoint str_In (c : ascii) (s : string) : Prop :=
  match s with
  | EmptyString => False
  | String d s => c = d ∨ str_In c s
  end.

#[export] Instance str_In_dec c s : Decision (str_In c s).
Proof. induction s; simpl; apply _. Defined.

(** The C string behind [s.c_str()], as the [std::string] constructor reads
    it: the bytes up to the first NUL. *)
Fixpoint c_str (s : string) : string :=
  match s with
  | EmptyString => EmptyString
  | String c s => if uchar c =? 0 then EmptyString else String c (c_str s)
  end.

Lemma str_forallb_In f s : str_forallb f s = true ↔ (∀ c, str_In c s → f c = true).
Proof.
  induction s as [|d s IH]; simpl; [naive_solver|].
  rewrite andb_true_iff, IH. naive_solver.
Qed.

Lemma str_In_app c s t : str_In c (s +:+ t) ↔ str_In c s ∨ str_In c t.
Proof. induction s as [|d s IH]; simpl; [naive_solver|]. rewrite IH. naive_solver. Qed.

Lemma c_str_id s : ¬ str_In "000" s → c_str s = s.
Proof.
  induction s as [|c s IH]; simpl; [done|]. intros Hn.
  destruct (uchar c =? 0) eqn:E; bool_to_prop.
  - destruct Hn. left. unfold uchar in E.
    assert (N_of_ascii c = 0%N) as Hc by lia.
    rewrite <-(ascii_N_embedding c), Hc. done.
  - f_equal. apply IH. naive_solver.
Qed.

Lemma c_str_idemp s : c_str (c_str s) = c_str s.
Proof. induction s as [|c s IH]; simpl; [done|]. destruct (uchar c =? 0) eqn:E; simpl; [done|]. by rewrite E, IH. Qed.

Lemma c_str_In c s : str_In c (c_str s) → str_In c s.
Proof. induction s as [|d s IH]; simpl; [done|]. destruct (uchar d =? 0); simpl; naive_solver. Qed.

Lemma str_app_assoc (s t u : string) : (s +:+ t) +:+ u = s +:+ (t +:+ u).
Proof. induction s as [|c s IH]; [done|]. by apply (f_equal (String c)). Qed.

Lemma str_app_nil_r (s : string) : s +:+ "" = s.
Proof. induction s as [|c s IH]; [done|]. by apply (f_equal (String c)). Qed.

Lemma str_app_inv_l (s t u : string) : s +:+ t = s +:+ u → t = u.
Proof. induction s as [|c s IH]; simpl; [done|]. intros [=]. auto. Qed.

Lemma str_length_app (s t : string) : String.length (s +:+ t) = (String.length s + String.length t)%nat.
Proof. induction s as [|c s IH]; [done|]. by apply (f_equal S). Qed.

Lemma str_app_inv_r (s t u : string) : s +:+ u = t +:+ u → s = t.
Proof.
  revert t. induction s as [|c s IH]; intros [|d t]; try done.
  - intros H. apply (f_equal String.length) in H. rewrite !str_length_app in H. simpl in H. lia.
  - intros H. apply (f_equal String.length) in H. rewrite !str_length_app in H. simpl in H. lia.
  - simpl. intros [=-> ?]. f_equal. auto.
Qed.

#[export] Hint Rewrite str_app_assoc str_app_nil_r str_length_app : taskforge.

(** [std::format("{}", n)] of an integer. *)
Definition fmt_int (z : Z) : string := pretty z.

(** The characters of a formatted natural number are decimal digits. *)
Definition is_digit (c : ascii) : bool := (48 <=? uchar c) && (uchar c <=? 57).

Lemma pretty_N_char_digit n : is_digit (pretty_N_char n) = true.
Proof. unfold pretty_N_char. by repeat destr_match. Qed.

Lemma pretty_N_go_digits n s :
  str_forallb is_digit s = true → str_forallb is_digit (pretty_N_go n s) = true.
Proof.
  revert s. induction (N.lt_wf_0 n) as [n _ IH]. intros s Hs.
  destruct (decide (n = 0%N)) as [->|Hn]; [by rewrite pretty_N_go_0|].
  rewrite pretty_N_go_step by lia. apply IH; [apply N.div_lt; lia|].
  simpl. by rewrite pretty_N_char_digit.
Qed.

Lemma fmt_int_digits z : 0 ≤ z → str_forallb is_digit (fmt_int z) = true.
Proof.
  intros Hz. unfold fmt_int. destruct z as [|p|]; [done| |lia].
  change (str_forallb is_digit (pretty_N_go (N.pos p) "") = true). by apply pretty_N_go_digits.
Qed.

Lemma fmt_int_no_nul z : 0 ≤ z → ¬ str_In "000" (fmt_int z).
Proof.
  intros Hz Hin. pose proof (proj1 (str_forallb_In _ _) (fmt_int_digits z Hz) _ Hin). done.
Qed.

Lemma fmt_int_inj a b : fmt_int a = fmt_int b → a = b.
Proof. apply (inj pretty). Qed.
