(* ===== verification/Utf8.v ===== *)
(** * UTF-8 well-formedness

    The byte sequences RFC 3629 admits, as a decidable predicate on byte
    strings, and the fact that makes the cut in
    [TaskExecutor::read_stdout_tail] safe: a well-formed string cut anywhere
    is well-formed again once the continuation bytes at its head are dropped. *)

From S2P Require Import Prelude.

(** [((unsigned char)b & 0xC0) == 0x80]: the test the code uses for a
    continuation byte. *)
Definition is_continuation (b : ascii) : bool := Z.land (uchar b) 0xC0 =? 0x80.

Definition byte_in (lo hi : Z) (b : ascii) : bool := (lo <=? uchar b) && (uchar b <=? hi).

(** The number of continuation bytes a lead byte announces with the range of
    the first of them (RFC 3629, section 4); [None] for a byte that starts no
    character. *)
Definition utf8_lead (b : ascii) : option (nat * (Z * Z)) :=
  let n := uchar b in
  if n <=? 0x7F then Some (0%nat, (0x80, 0xBF))
  else if byte_in 0xC2 0xDF b then Some (1%nat, (0x80, 0xBF))
  else if n =? 0xE0 then Some (2%nat, (0xA0, 0xBF))
  else if byte_in 0xE1 0xEC b then Some (2%nat, (0x80, 0xBF))
  else if n =? 0xED then Some (2%nat, (0x80, 0x9F))
  else if byte_in 0xEE 0xEF b then Some (2%nat, (0x80, 0xBF))
  else if n =? 0xF0 then Some (3%nat, (0x90, 0xBF))
  else if byte_in 0xF1 0xF3 b then Some (3%nat, (0x80, 0xBF))
  else if n =? 0xF4 then Some (3%nat, (0x80, 0x8F))
  else None.

(** The automaton: [k] continuation bytes are still expected, the next one in
    [lo, hi]. *)
Fixpoint utf8_run (k : nat) (lo hi : Z) (s : string) : bool :=
  match s with
  | EmptyString => match k with O => true | S _ => false end
  | String b s =>
      match k with
      | O => match utf8_lead b with
             | Some (n, (lo', hi')) => utf8_run n lo' hi' s
             | None => false
             end
      | S k => byte_in lo hi b && utf8_run k 0x80 0xBF s
      end
  end.

Definition valid_utf8 (s : string) : bool := utf8_run 0 0x80 0xBF s.

(** [std::string::substr(n)] for [n <= size()]. *)
Fixpoint str_drop (n : nat) (s : string) : string :=
  match n, s with
  | S n, String _ s => str_drop n s
  | _, _ => s
  end.

(** Dropping the leading continuation bytes. *)
Fixpoint drop_continuation (s : string) : string :=
  match s with
  | String b s' => if is_continuation b then drop_continuation s' else s
  | EmptyString => EmptyString
  end.

(** ** Lemmas *)

Lemma is_continuation_spec b : is_continuation b = byte_in 0x80 0xBF b.
Proof. destruct b as [[] [] [] [] [] [] [] []]; reflexivity. Qed.

Lemma utf8_lead_not_continuation b r : utf8_lead b = Some r → is_continuation b = false.
Proof. destruct b as [[] [] [] [] [] [] [] []]; vm_compute; congruence. Qed.

Lemma utf8_lead_ranges b n lo hi :
  utf8_lead b = Some (n, (lo, hi)) → 0x80 ≤ lo ∧ hi ≤ 0xBF.
Proof. unfold utf8_lead. intros. repeat case_match; simplify_eq; lia. Qed.

Lemma valid_utf8_no_leading s : valid_utf8 s = true → drop_continuation s = s.
Proof.
  destruct s as [|b s]; [done|]. unfold valid_utf8; simpl.
  destruct (utf8_lead b) as [[n [lo hi]]|] eqn:E; [|done]. intros _.
  by rewrite (utf8_lead_not_continuation _ _ E).
Qed.

Lemma byte_in_continuation lo hi b :
  0x80 ≤ lo → hi ≤ 0xBF → byte_in lo hi b = true → is_continuation b = true.
Proof.
  intros ??. rewrite is_continuation_spec. unfold byte_in.
  rewrite !andb_true_iff, !Z.leb_le. lia.
Qed.

(** In the middle of a character, the pending continuation bytes are exactly
    what [drop_continuation] removes. *)
Lemma drop_continuation_run k lo hi s :
  0x80 ≤ lo → hi ≤ 0xBF → utf8_run k lo hi s = true →
  valid_utf8 (drop_continuation s) = true.
Proof.
  revert k lo hi. induction s as [|b s IH]; intros k lo hi Hlo Hhi; [done|].
  destruct k as [|k].
  - intros H. by rewrite valid_utf8_no_leading.
  - simpl. rewrite andb_true_iff. intros [Hb Hs].
    rewrite (byte_in_continuation _ _ _ Hlo Hhi Hb). eapply (IH k); [| |done]; lia.
Qed.

(** Cutting a well-formed string anywhere and dropping the leading
    continuation bytes gives a well-formed string. *)
Lemma drop_continuation_drop_run n k lo hi s :
  0x80 ≤ lo → hi ≤ 0xBF → utf8_run k lo hi s = true →
  valid_utf8 (drop_continuation (str_drop n s)) = true.
Proof.
  revert k lo hi s. induction n as [|n IH]; intros k lo hi s Hlo Hhi Hs.
  - by eapply drop_continuation_run.
  - destruct s as [|b s]; [done|]. destruct k as [|k]; simpl in *.
    + destruct (utf8_lead b) as [[m [lo' hi']]|] eqn:E; [|done].
      apply utf8_lead_ranges in E as [??]. by eapply IH.
    + apply andb_true_iff in Hs as [_ Hs]. eapply (IH k); [| |done]; lia.
Qed.

Lemma drop_continuation_drop n s :
  valid_utf8 s = true → valid_utf8 (drop_continuation (str_drop n s)) = true.
Proof. by apply drop_continuation_drop_run. Qed.

(** How much can be lost: at most three bytes. *)
Fixpoint leading_continuation (s : string) : nat :=
  match s with
  | String b s' => if is_continuation b then S (leading_continuation s') else 0
  | EmptyString => 0
  end.

Lemma drop_continuation_length s :
  (String.length (drop_continuation s) + leading_continuation s = String.length s)%nat.
Proof. induction s as [|b s IH]; simpl; [done|]. destruct (is_continuation b); simpl; lia. Qed.

Lemma leading_continuation_run k lo hi s :
  utf8_run k lo hi s = true → (leading_continuation s ≤ k)%nat.
Proof.
  revert k lo hi. induction s as [|b s IH]; intros k lo hi; simpl; [lia|].
  destruct k as [|k].
  - destruct (utf8_lead b) as [[m [lo' hi']]|] eqn:E; [|done].
    by rewrite (utf8_lead_not_continuation _ _ E).
  - rewrite andb_true_iff. intros [_ Hs]. apply IH in Hs. destruct (is_continuation b); lia.
Qed.

Lemma utf8_lead_count b n r : utf8_lead b = Some (n, r) → (n ≤ 3)%nat.
Proof. unfold utf8_lead. intros. repeat case_match; simplify_eq; lia. Qed.

Lemma leading_continuation_drop_run n k lo hi s :
  (k ≤ 3)%nat → utf8_run k lo hi s = true → (leading_continuation (str_drop n s) ≤ 3)%nat.
Proof.
  revert k lo hi s. induction n as [|n IH]; intros k lo hi s Hk Hs.
  - apply leading_continuation_run in Hs. simpl. lia.
  - destruct s as [|b s]; [simpl; lia|]. destruct k as [|k]; simpl in *.
    + destruct (utf8_lead b) as [[m [lo' hi']]|] eqn:E; [|done].
      apply utf8_lead_count in E. by eapply IH.
    + apply andb_true_iff in Hs as [_ Hs]. eapply (IH k); [lia|done].
Qed.

Lemma leading_continuation_drop n s :
  valid_utf8 s = true → (leading_continuation (str_drop n s) ≤ 3)%nat.
Proof. apply leading_continuation_drop_run. lia. Qed.

Lemma str_drop_length n s : (String.length (str_drop n s) = String.length s - n)%nat.
Proof. revert s. induction n as [|n IH]; intros [|c s]; simpl; try done. Qed.

(** Dropping is taking a suffix. *)
Definition str_suffix (t s : string) : Prop := ∃ p, s = p +:+ t.

Lemma str_drop_suffix n s : str_suffix (str_drop n s) s.
Proof.
  revert s. induction n as [|n IH]; intros s; [by exists ""|].
  destruct s as [|c s]; [by exists ""|]. destruct (IH s) as [p Hp].
  exists (String c p). simpl. by apply (f_equal (String c)).
Qed.

Lemma drop_continuation_suffix s : str_suffix (drop_continuation s) s.
Proof.
  induction s as [|b s [p Hp]]; simpl; [by exists ""|].
  destruct (is_continuation b); [|by exists ""].
  exists (String b p). by apply (f_equal (String b)).
Qed.

Lemma str_suffix_trans a b c : str_suffix a b → str_suffix b c → str_suffix a c.
Proof. intros [p ->] [q ->]. exists (q +:+ p). by rewrite str_app_assoc. Qed.

#[export] Hint Resolve str_drop_suffix drop_continuation_suffix str_suffix_trans : taskforge.

(** ASCII text is well-formed. *)
Lemma ascii_valid_utf8 s : (∀ c, str_In c s → uchar c ≤ 0x7F) → valid_utf8 s = true.
Proof.
  unfold valid_utf8. induction s as [|b s IH]; intros Hs; simpl; [done|].
  unfold utf8_lead. rewrite (proj2 (Z.leb_le (uchar b) 0x7F)) by (apply Hs; by left).
  apply IH. intros c Hc. apply Hs. by right.
Qed.

Lemma utf8_run_app k lo hi s t : utf8_run k lo hi s = true → valid_utf8 t = true → utf8_run k lo hi (s +:+ t) = true.
Proof.
  revert k lo hi. induction s as [|b s IH]; intros k lo hi Hs Ht; simpl in *; [by destruct k, t|].
  destruct k as [|k].
  - destruct (utf8_lead b) as [[n [lo' hi']]|]; [by apply IH|done].
  - apply andb_true_iff in Hs as [-> Hs]. by apply IH.
Qed.

Lemma valid_utf8_app s t : valid_utf8 s = true → valid_utf8 t = true → valid_utf8 (s +:+ t) = true.
Proof. apply utf8_run_app. Qed.

Lemma fmt_int_utf8 z : valid_utf8 (fmt_int z) = true.
Proof.
  assert (Hdigits : ∀ z, 0 ≤ z → valid_utf8 (fmt_int z) = true).
  { intros y Hy. apply ascii_valid_utf8. intros c Hc.
    pose proof (proj1 (str_forallb_In _ _) (fmt_int_digits y Hy) c Hc) as Hd.
    unfold is_digit in Hd. bool_to_prop. lia. }
  destruct z as [|p|p]; [by apply Hdigits..|].
  change (fmt_int (Z.neg p)) with ("-" +:+ fmt_int (Z.pos p)). apply valid_utf8_app; [done|]. by apply Hdigits.
Qed.

#[export] Hint Resolve valid_utf8_app fmt_int_utf8 : taskforge.
