(* ===== verification/Json.v ===== *)
(** * JSON values and the JSON library

    The data model of [boost::json]: a [value] is one of eight kinds, an
    [object] is a map from keys to values (two objects are equal when they
    have the same key/value pairs, whatever their order), so objects are
    [gmap string json].  The library's parser and serializer are not part of
    the repository: they are the operations of the class [JsonCodec], and the
    class [JsonCodecLaws] states what their documentation promises.  At the
    end of the file a reference codec shows that the laws can hold. *)

From S2P Require Import Prelude Utf8.

Unset Elimination Schemes.
Inductive json :=
| JNull
| JBool (b : bool)
| JInt64 (z : Z)
| JUInt64 (z : Z)
| JDouble (bits : Z)
| JString (s : string)
| JArray (l : list json)
| JObject (o : gmap string json).
Set Elimination Schemes.

Abbreviation object := (gmap string json).

(** ** The accessors the worker uses *)

Definition is_null (v : json) : bool := match v with JNull => true | _ => false end.
Definition is_object (v : json) : bool := match v with JObject _ => true | _ => false end.
Definition is_array (v : json) : bool := match v with JArray _ => true | _ => false end.
Definition is_string (v : json) : bool := match v with JString _ => true | _ => false end.
Definition is_int64 (v : json) : bool := match v with JInt64 _ => true | _ => false end.

Definition contains (o : object) (key : string) : bool := bool_decide (is_Some (o !! key)).

(** [at(key)] and [as_*()] throw on a missing key or another kind: [None]. *)
Definition at_ (o : object) (key : string) : option json := o !! key.
Definition as_object (v : json) : option object := match v with JObject o => Some o | _ => None end.
Definition as_array (v : json) : option (list json) := match v with JArray l => Some l | _ => None end.
Definition as_string (v : json) : option string := match v with JString s => Some s | _ => None end.
Definition as_int64 (v : json) : option Z := match v with JInt64 z => Some z | _ => None end.

(** The guarded reads [o.contains(k) && o.at(k).is_X()] and the value they
    give access to. *)
Definition get_string (o : object) (key : string) : option string := o !! key ≫= as_string.
Definition get_object (o : object) (key : string) : option object := o !! key ≫= as_object.
Definition get_array (o : object) (key : string) : option (list json) := o !! key ≫= as_array.
Definition get_int64 (o : object) (key : string) : option Z := o !! key ≫= as_int64.

Lemma get_string_Some o k s : get_string o k = Some s ↔ o !! k = Some (JString s).
Proof. unfold get_string. destruct (o !! k) as [[]|]; simpl; naive_solver. Qed.
Lemma get_object_Some o k x : get_object o k = Some x ↔ o !! k = Some (JObject x).
Proof. unfold get_object. destruct (o !! k) as [[]|]; simpl; naive_solver. Qed.
Lemma get_array_Some o k x : get_array o k = Some x ↔ o !! k = Some (JArray x).
Proof. unfold get_array. destruct (o !! k) as [[]|]; simpl; naive_solver. Qed.
Lemma get_int64_Some o k x : get_int64 o k = Some x ↔ o !! k = Some (JInt64 x).
Proof. unfold get_int64. destruct (o !! k) as [[]|]; simpl; naive_solver. Qed.

(** ** Induction on values *)

Fixpoint json_size (j : json) : nat :=
  match j with
  | JArray l => S (foldr (λ v n, json_size v + n)%nat 0%nat l)
  | JObject o => S (map_fold (λ _ v n, json_size v + n)%nat 0%nat o)
  | _ => 1%nat
  end.

Lemma json_size_array v l : v ∈ l → (json_size v < json_size (JArray l))%nat.
Proof.
  simpl. induction l as [|w l IH]; [by rewrite elem_of_nil|].
  rewrite elem_of_cons. intros [->|?]; simpl; [lia|]. specialize (IH ltac:(done)). lia.
Qed.

Lemma json_size_object k v (o : object) : o !! k = Some v → (json_size v < json_size (JObject o))%nat.
Proof.
  intros Hk. simpl.
  rewrite (map_fold_delete_L (λ _ v n, json_size v + n)%nat 0%nat k v o) by (done || (intros; lia)).
  lia.
Qed.

Lemma json_ind (P : json → Prop) :
  P JNull → (∀ b, P (JBool b)) → (∀ z, P (JInt64 z)) → (∀ z, P (JUInt64 z)) →
  (∀ z, P (JDouble z)) → (∀ s, P (JString s)) →
  (∀ l, Forall P l → P (JArray l)) →
  (∀ o : object, map_Forall (λ _ v, P v) o → P (JObject o)) →
  ∀ v, P v.
Proof.
  intros H1 H2 H3 H4 H5 H6 Harr Hobj v.
  remember (json_size v) as n eqn:Hn. revert v Hn.
  induction (lt_wf n) as [n _ IH]. intros v ->.
  destruct v; auto.
  - apply Harr, Forall_forall. intros w Hw. eapply IH; [|done]. by apply json_size_array.
  - apply Hobj. intros k w Hw. eapply IH; [|done]. by eapply json_size_object.
Qed.

(** ** Well-formed values

    [json_utf8]: every string and key is well-formed UTF-8. *)
Fixpoint json_utf8 (v : json) : bool :=
  match v with
  | JString s => valid_utf8 s
  | JArray l => forallb json_utf8 l
  | JObject o => map_fold (λ k v b, valid_utf8 k && json_utf8 v && b) true o
  | _ => true
  end.

(** [json_wf]: moreover integers lie in the range of their kind (an unsigned
    value is one [int64_t] cannot hold, as the parser produces it), there are
    no floating-point numbers, whose text the library does not promise to
    read back exactly, and arrays and objects are nested at most 32 deep, which
    is as deep as the parser goes by default. *)
Fixpoint json_wf_at (depth : nat) (v : json) {struct v} : bool :=
  match v with
  | JNull | JBool _ => true
  | JInt64 z => bool_decide (in_int64 z)
  | JUInt64 z => (INT64_MAX <? z) && (z <? 2 ^ 64)
  | JDouble _ => false
  | JString s => valid_utf8 s
  | JArray l => match depth with O => false | S depth => forallb (json_wf_at depth) l end
  | JObject o =>
      match depth with
      | O => false
      | S depth => map_fold (λ k v b, valid_utf8 k && json_wf_at depth v && b) true o
      end
  end.

Definition json_wf : json → bool := json_wf_at 32.
Arguments json_wf_at : simpl never.

Lemma json_wf_array d l : json_wf_at (S d) (JArray l) = forallb (json_wf_at d) l.
Proof. reflexivity. Qed.

Lemma map_fold_andb (f : string → json → bool) (o : object) :
  map_fold (λ k v b, f k v && b) true o = true ↔ map_Forall (λ k v, f k v = true) o.
Proof.
  induction o as [|k v o Hk Hfold IH] using map_first_key_ind.
  - rewrite map_fold_empty. split; [|done]. intros _. apply map_Forall_empty.
  - rewrite map_fold_insert_first_key, andb_true_iff, IH, map_Forall_insert by done. done.
Qed.

Lemma json_wf_object d (o : object) :
  json_wf_at (S d) (JObject o) = true ↔ map_Forall (λ k v, valid_utf8 k = true ∧ json_wf_at d v = true) o.
Proof.
  change (json_wf_at (S d) (JObject o)) with (map_fold (λ k v b, valid_utf8 k && json_wf_at d v && b) true o).
  rewrite (map_fold_andb (λ k v, valid_utf8 k && json_wf_at d v)).
  unfold map_Forall. by setoid_rewrite andb_true_iff.
Qed.

Lemma json_wf_insert d (o : object) k v :
  json_wf_at (S d) (JObject o) = true → valid_utf8 k = true → json_wf_at d v = true →
  json_wf_at (S d) (JObject (<[k:=v]> o)) = true.
Proof. rewrite !json_wf_object. intros. by apply map_Forall_insert_2. Qed.

Lemma json_wf_delete d (o : object) k :
  json_wf_at (S d) (JObject o) = true → json_wf_at (S d) (JObject (delete k o)) = true.
Proof. rewrite !json_wf_object. by apply map_Forall_delete. Qed.

Lemma json_wf_lookup d (o : object) k v :
  json_wf_at (S d) (JObject o) = true → o !! k = Some v → json_wf_at d v = true.
Proof. rewrite json_wf_object. intros H Hk. by apply (H k v). Qed.

Lemma json_wf_utf8 d v : json_wf_at d v = true → json_utf8 v = true.
Proof.
  revert d. induction v as [| | | | | |l IH|o IH] using json_ind; intros [|d]; try done.
  - rewrite json_wf_array. cbn [json_utf8]. rewrite !forallb_forall, Forall_forall in *.
    setoid_rewrite <-list_elem_of_In. intros Hl v Hv. by apply (IH v Hv d), Hl.
  - rewrite json_wf_object. intros H. simpl.
    rewrite (map_fold_andb (λ k v, valid_utf8 k && json_utf8 v)).
    intros k v Hk. destruct (H k v Hk). rewrite andb_true_iff. split; [done|]. by apply (IH k v Hk d).
Qed.

Lemma json_utf8_lookup (o : object) k v :
  json_utf8 (JObject o) = true → o !! k = Some v → json_utf8 v = true.
Proof.
  simpl. rewrite (map_fold_andb (λ k v, valid_utf8 k && json_utf8 v)). intros Ho Hk.
  specialize (Ho k v Hk). simpl in Ho. bool_to_prop. done.
Qed.

Lemma json_utf8_key (o : object) k v :
  json_utf8 (JObject o) = true → o !! k = Some v → valid_utf8 k = true.
Proof.
  simpl. rewrite (map_fold_andb (λ k v, valid_utf8 k && json_utf8 v)). intros Ho Hk.
  specialize (Ho k v Hk). simpl in Ho. bool_to_prop. done.
Qed.

(** ** The library *)

Class JsonCodec := {
  (** [boost::json::parse]: a value, or the [what()] of the exception. *)
  parse : string → json + string;
  (** [boost::json::serialize]. *)
  serialize : json → string;
}.

Class JsonCodecLaws `{JsonCodec} := {
  (** What [serialize] writes for a well-formed value, [parse] reads back. *)
  parse_serialize v : json_wf v = true → parse (serialize v) = inl v;
  (** [serialize] copies string bytes; with the default options [parse]
      rejects text that is not well-formed UTF-8. *)
  parse_serialize_invalid v : json_utf8 v = false → ∃ what, parse (serialize v) = inr what;
  (** Whatever else an object holds, a string member that is read back is the
      one that was written. *)
  parse_serialize_string o o' k s :
    parse (serialize (JObject o)) = inl (JObject o') → o !! k = Some (JString s) → o' !! k = Some (JString s);
  (** Control characters are written as escapes: the text holds no NUL. *)
  serialize_no_nul v : c_str (serialize v) = serialize v;
}.

(** ** Decidable equality and a reference codec

    Values are encoded as trees with string, integer and Boolean leaves, trees
    as positive numbers (stdpp's [Countable]), numbers as binary text. *)

Abbreviation leaf := (string + (Z + bool))%type.

Fixpoint json_to_tree (v : json) : gen_tree leaf :=
  match v with
  | JNull => GenNode 0 []
  | JBool b => GenNode 1 [GenLeaf (inr (inr b))]
  | JInt64 z => GenNode 2 [GenLeaf (inr (inl z))]
  | JUInt64 z => GenNode 3 [GenLeaf (inr (inl z))]
  | JDouble z => GenNode 4 [GenLeaf (inr (inl z))]
  | JString s => GenNode 5 [GenLeaf (inl s)]
  | JArray l => GenNode 6 (map json_to_tree l)
  | JObject o => GenNode 7 (map_fold (λ k v l, GenNode 0 [GenLeaf (inl k); json_to_tree v] :: l) [] o)
  end.

Fixpoint tree_to_json (t : gen_tree leaf) : json :=
  match t with
  | GenNode 1 [GenLeaf (inr (inr b))] => JBool b
  | GenNode 2 [GenLeaf (inr (inl z))] => JInt64 z
  | GenNode 3 [GenLeaf (inr (inl z))] => JUInt64 z
  | GenNode 4 [GenLeaf (inr (inl z))] => JDouble z
  | GenNode 5 [GenLeaf (inl s)] => JString s
  | GenNode 6 l => JArray (map tree_to_json l)
  | GenNode 7 l =>
      JObject (foldr (λ t m, match t with
                             | GenNode _ [GenLeaf (inl k); t'] => <[k := tree_to_json t']> m
                             | _ => m
                             end) ∅ l)
  | _ => JNull
  end.

Lemma tree_to_json_to_tree v : tree_to_json (json_to_tree v) = v.
Proof.
  induction v as [| | | | | |l IH|o IH] using json_ind; try done; cbn [json_to_tree tree_to_json]; f_equal.
  - induction IH as [|v l Hv _ IHl]; simpl; [done|]. by rewrite Hv, IHl.
  - induction o as [|k v o Hk Hfirst IHo] using map_first_key_ind.
    + by rewrite map_fold_empty.
    + rewrite map_fold_insert_first_key by done. cbn [foldr].
      rewrite map_Forall_insert in IH by done. destruct IH as [Hv Ho].
      by rewrite Hv, IHo.
Qed.

#[export] Instance json_eq_dec : EqDecision json.
Proof.
  refine (λ v w, cast_if (decide (json_to_tree v = json_to_tree w))).
  - abstract (rewrite <-(tree_to_json_to_tree v), <-(tree_to_json_to_tree w); congruence).
  - abstract congruence.
Defined.

#[export] Instance json_countable : Countable json :=
  inj_countable' json_to_tree tree_to_json tree_to_json_to_tree.

Module RefCodec.

(** Binary text of a positive number, most significant bit last. *)
Fixpoint pos_text (p : positive) : string :=
  match p with
  | xH => "."
  | xO p => String "0" (pos_text p)
  | xI p => String "1" (pos_text p)
  end.

Fixpoint text_pos (s : string) : option positive :=
  match s with
  | String "0" s => xO <$> text_pos s
  | String "1" s => xI <$> text_pos s
  | String "." EmptyString => Some xH
  | _ => None
  end.

Lemma text_pos_text p : text_pos (pos_text p) = Some p.
Proof. induction p as [p IH|p IH|]; simpl; [by rewrite IH..|done]. Qed.

Lemma pos_text_no_nul p : c_str (pos_text p) = pos_text p.
Proof. induction p as [p IH|p IH|]; simpl; [by rewrite IH..|done]. Qed.

Definition ref_serialize (v : json) : string := pos_text (encode v).

Definition ref_parse (s : string) : json + string :=
  match text_pos s ≫= decode with
  | Some v => if json_utf8 v then inl v else inr "syntax error"
  | None => inr "syntax error"
  end.

#[export] Instance ref_codec : JsonCodec := {| parse := ref_parse; serialize := ref_serialize |}.

Lemma ref_parse_serialize v :
  ref_parse (ref_serialize v) = if json_utf8 v then inl v else inr "syntax error".
Proof. unfold ref_parse, ref_serialize. rewrite text_pos_text. simpl. by rewrite decode_encode. Qed.

#[export] Instance ref_codec_laws : JsonCodecLaws.
Proof.
  split.
  - intros v Hv%(json_wf_utf8 32). change (ref_parse (ref_serialize v) = inl v). by rewrite ref_parse_serialize, Hv.
  - intros v Hv. change (∃ what, ref_parse (ref_serialize v) = inr what). rewrite ref_parse_serialize, Hv. eauto.
  - intros o o' k s. change (parse (serialize ?v)) with (ref_parse (ref_serialize v)). rewrite ref_parse_serialize. case_match; by intros [= <-].
  - intros v. apply pos_text_no_nul.
Qed.

End RefCodec.
