(* ===== verification/Filesystem.v ===== *)
(** * Paths and files

    What the worker uses of [std::filesystem] and the file streams, on a POSIX
    system: path composition ([operator/], [filename], [extension]), a tree of
    nodes keyed by the components of their absolute path, and the operations
    with their failures.  [denied] says which operation the system refuses
    at which place (permissions, full disk), [error_message] the text of the
    error; symbolic links are not modelled. *)

From S2P Require Import Prelude.

(** ** Paths *)

Definition is_absolute (p : string) : bool :=
  match p with String c _ => bool_decide (c = "/"%char) | EmptyString => false end.

Fixpoint last_char (s : string) : option ascii :=
  match s with
  | EmptyString => None
  | String c EmptyString => Some c
  | String _ s => last_char s
  end.

Definition has_filename (p : string) : bool :=
  match last_char p with Some c => negb (bool_decide (c = "/"%char)) | None => false end.

(** [p / q]. *)
Definition path_div (p q : string) : string :=
  if is_absolute q then q
  else if has_filename p then p +:+ "/" +:+ q
  else p +:+ q.

Fixpoint split_slash (s : string) : list string :=
  match s with
  | EmptyString => [""]
  | String c s =>
      if bool_decide (c = "/"%char) then "" :: split_slash s
      else match split_slash s with
           | h :: t => String c h :: t
           | [] => [String c ""]
           end
  end.

(** [path::filename()]: what follows the last separator. *)
Definition path_filename (p : string) : string := default "" (last (split_slash p)).

Fixpoint last_dot (s : string) : option string :=
  match s with
  | EmptyString => None
  | String c s' =>
      match last_dot s' with
      | Some e => Some e
      | None => if bool_decide (c = "."%char) then Some s else None
      end
  end.

(** [path::extension()]: from the last period of the filename; empty for "."
    and ".." and when the only period is the first character. *)
Definition path_extension (p : string) : string :=
  let f := path_filename p in
  if bool_decide (f = "." ∨ f = "..") then ""
  else match last_dot f with
       | Some e => if bool_decide (e = f) then "" else e
       | None => ""
       end.

(** One component applied to an absolute location. *)
Definition walk (at_dir : list string) (c : string) : list string :=
  if bool_decide (c = "" ∨ c = ".") then at_dir
  else if bool_decide (c = "..") then removelast at_dir
  else at_dir ++ [c].

(** A name that denotes a direct child of a directory. *)
Definition plain_name (c : string) : Prop := c ≠ "" ∧ c ≠ "." ∧ c ≠ ".." ∧ ¬ str_In "/" c.

(** ** The file system *)

Inductive node := RegularFile (content : string) | Directory | OtherNode.

#[export] Instance node_eq_dec : EqDecision node.
Proof. solve_decision. Defined.

Inductive FsOp := OpStat | OpRead | OpWrite | OpFlush | OpRemove | OpMkdir | OpIterate.

Record FileSystem := mkFS {
  nodes : gmap (list string) node;
  cwd : list string;
  temp_directory : option string;
  denied : FsOp → list string → bool;
  error_message : FsOp → list string → string;
}.

Definition with_nodes (fs : FileSystem) (ns : gmap (list string) node) : FileSystem :=
  mkFS ns (cwd fs) (temp_directory fs) (denied fs) (error_message fs).

Definition resolve (fs : FileSystem) (p : string) : list string :=
  foldl walk (if is_absolute p then [] else cwd fs) (split_slash p).

Definition node_at (fs : FileSystem) (p : list string) : option node :=
  match p with [] => Some Directory | _ => nodes fs !! p end.

(** [exists(p, ec)] and [is_regular_file(p, ec)]: false on an error. *)
Definition fs_exists (fs : FileSystem) (p : string) : bool :=
  negb (denied fs OpStat (resolve fs p)) && bool_decide (is_Some (node_at fs (resolve fs p))).

Definition fs_is_regular_file (fs : FileSystem) (p : string) : bool :=
  negb (denied fs OpStat (resolve fs p)) &&
  match node_at fs (resolve fs p) with Some (RegularFile _) => true | _ => false end.

(** An input stream on [p]: the content when the file can be opened. *)
Definition open_read (fs : FileSystem) (p : string) : option string :=
  if denied fs OpRead (resolve fs p) then None
  else match node_at fs (resolve fs p) with Some (RegularFile c) => Some c | _ => None end.

(** Whether [p] can be opened for writing: its directory exists and it is not
    itself a directory. *)
Definition can_open_write (fs : FileSystem) (p : string) : bool :=
  let r := resolve fs p in
  negb (denied fs OpWrite r) &&
  bool_decide (node_at fs (removelast r) = Some Directory) &&
  match node_at fs r with None | Some (RegularFile _) => true | _ => false end.

(** Opening for writing with truncation, then writing [c] and closing; [None]
    when the file cannot be opened. When the data cannot be flushed the file
    stays empty and the stream's error state is the only sign of it. *)
Definition write_file (fs : FileSystem) (p c : string) : option FileSystem :=
  let r := resolve fs p in
  if can_open_write fs p
  then Some (with_nodes fs (<[r := RegularFile (if denied fs OpFlush r then "" else c)]> (nodes fs)))
  else None.

(** The entries of a directory, by name. *)
Definition child_of (dir : list string) (kn : list string * node) : option (string * node) :=
  match last kn.1 with
  | Some name => if bool_decide (kn.1 = dir ++ [name]) then Some (name, kn.2) else None
  | None => None
  end.

Definition children (fs : FileSystem) (dir : list string) : list (string * node) :=
  omap (child_of dir) (map_to_list (nodes fs)).

(** [directory_iterator(p, ec)]: [None] when the directory cannot be opened. *)
Definition directory_entries (fs : FileSystem) (p : string) : option (list (string * node)) :=
  let r := resolve fs p in
  if denied fs OpIterate r then None
  else if bool_decide (node_at fs r = Some Directory) then Some (children fs r) else None.

(** [remove(p, ec)]: a file or an empty directory. *)
Definition fs_remove (fs : FileSystem) (p : string) : FileSystem :=
  let r := resolve fs p in
  if denied fs OpRemove r then fs
  else if bool_decide (node_at fs r = Some Directory) && negb (bool_decide (children fs r = [])) then fs
  else with_nodes fs (delete r (nodes fs)).

(** Neither [r] nor anything below it is denied removal. *)
Definition removable (fs : FileSystem) (r : list string) : Prop :=
  map_Forall (λ q _, r `prefix_of` q → denied fs OpRemove q = false) (nodes fs).

#[export] Instance removable_dec fs r : Decision (removable fs r).
Proof. unfold removable. apply _. Defined.

(** [remove_all(p, ec)]: the subtree, but for what cannot be removed and the
    directories above that. *)
Definition fs_remove_all (fs : FileSystem) (p : string) : FileSystem :=
  let r := resolve fs p in
  with_nodes fs (filter (λ kn, ¬ (r `prefix_of` kn.1 ∧ removable fs kn.1)) (nodes fs)).

Fixpoint make_dirs (fs : FileSystem) (at_dir todo : list string) : FileSystem * bool :=
  match todo with
  | [] => (fs, true)
  | c :: todo =>
      let d := at_dir ++ [c] in
      match nodes fs !! d with
      | Some Directory => make_dirs fs d todo
      | Some _ => (fs, false)
      | None =>
          if denied fs OpMkdir d then (fs, false)
          else make_dirs (with_nodes fs (<[d := Directory]> (nodes fs))) d todo
      end
  end.

(** [create_directories(p, ec)]: the new tree and whether it succeeded. *)
Definition create_directories (fs : FileSystem) (p : string) : FileSystem * bool :=
  make_dirs fs [] (resolve fs p).

(** ** Lemmas on paths *)

Lemma split_slash_nonempty s : split_slash s ≠ [].
Proof. destruct s as [|c s]; simpl; [done|]. repeat case_match; done. Qed.

Lemma split_slash_plain s : ¬ str_In "/" s → split_slash s = [s].
Proof.
  induction s as [|c s IH]; simpl; [done|]. intros Hn.
  rewrite bool_decide_eq_false_2 by naive_solver. rewrite IH by naive_solver. done.
Qed.

Lemma split_slash_app p q : split_slash (p +:+ "/" +:+ q) = split_slash p ++ split_slash q.
Proof.
  induction p as [|c p IH]; [done|]. simpl in *. rewrite IH.
  case_bool_decide; [done|].
  pose proof (split_slash_nonempty p). by destruct (split_slash p).
Qed.

Lemma no_filename_inv p : has_filename p = false → p = "" ∨ ∃ p', p = p' +:+ "/".
Proof.
  unfold has_filename. induction p as [|c p IH]; [by left|]. intros H. right.
  destruct p as [|d p].
  - simpl in H. case_bool_decide; simplify_eq/=. by exists "".
  - destruct (IH H) as [?|[p' Hp']]; [done|]. exists (String c p'). by apply (f_equal (String c)).
Qed.

Lemma walk_plain d c : plain_name c → walk d c = d ++ [c].
Proof.
  intros (? & ? & ? & ?). unfold walk.
  rewrite !bool_decide_eq_false_2 by naive_solver. done.
Qed.

Lemma is_absolute_app p q : p ≠ "" → is_absolute (p +:+ q) = is_absolute p.
Proof. by destruct p. Qed.

Lemma plain_name_relative c : plain_name c → is_absolute c = false.
Proof.
  intros (? & _ & _ & Hn). destruct c as [|a c]; [done|]. simpl in *.
  apply bool_decide_eq_false_2. intros ->. naive_solver.
Qed.

(** A plain name appended to a directory path denotes a direct child of that
    directory. *)
Lemma resolve_child fs p c : plain_name c → resolve fs (path_div p c) = resolve fs p ++ [c].
Proof.
  intros Hc. unfold path_div. rewrite plain_name_relative by done.
  assert (Hsc : split_slash c = [c]) by (apply split_slash_plain, Hc).
  destruct (has_filename p) eqn:Hf.
  - unfold resolve. rewrite is_absolute_app by (by intros ->).
    rewrite split_slash_app, Hsc, foldl_app. simpl. by apply walk_plain.
  - apply no_filename_inv in Hf as [->|[p' ->]].
    + change ("" +:+ c) with c. unfold resolve. rewrite Hsc, plain_name_relative by done.
      simpl. by rewrite walk_plain.
    + rewrite str_app_assoc. unfold resolve.
      replace (is_absolute (p' +:+ ("/" +:+ c))) with (is_absolute (p' +:+ "/")) by (by destruct p').
      change (p' +:+ "/") with (p' +:+ "/" +:+ "").
      rewrite !split_slash_app, Hsc, !foldl_app. simpl. by rewrite walk_plain.
Qed.

Lemma path_filename_child p c : plain_name c → path_filename (path_div p c) = c.
Proof.
  intros Hc. unfold path_filename, path_div. rewrite plain_name_relative by done.
  assert (Hsc : split_slash c = [c]) by (apply split_slash_plain, Hc).
  destruct (has_filename p) eqn:Hf.
  - by rewrite split_slash_app, Hsc, last_snoc.
  - apply no_filename_inv in Hf as [->|[p' ->]]; [change ("" +:+ c) with c; by rewrite Hsc|].
    by rewrite str_app_assoc, split_slash_app, Hsc, last_snoc.
Qed.

Lemma resolve_with_nodes fs ns p : resolve (with_nodes fs ns) p = resolve fs p.
Proof. done. Qed.

Lemma last_dot_app s t e : last_dot t = Some e → last_dot (s +:+ t) = Some e.
Proof. intros He. induction s as [|c s IH]; [done|]. simpl. by rewrite IH. Qed.

(** ** Lemmas on files *)

Lemma node_at_insert fs r n : r ≠ [] → node_at (with_nodes fs (<[r:=n]> (nodes fs))) r = Some n.
Proof. intros. destruct r; [done|]. simpl. by rewrite lookup_insert_eq. Qed.

Lemma child_of_Some dir k n name n' :
  child_of dir (k, n) = Some (name, n') → k = dir ++ [name] ∧ n = n'.
Proof. unfold child_of; simpl. intros. repeat case_match; simplify_eq. by bool_to_prop. Qed.

Lemma child_of_child dir name n : child_of dir (dir ++ [name], n) = Some (name, n).
Proof. unfold child_of; simpl. rewrite last_snoc. by rewrite bool_decide_eq_true_2. Qed.

Lemma children_elem fs dir name n :
  (name, n) ∈ children fs dir ↔ nodes fs !! (dir ++ [name]) = Some n.
Proof.
  unfold children. rewrite list_elem_of_omap. split.
  - intros ([k n'] & Hin & Heq). apply elem_of_map_to_list in Hin.
    by apply child_of_Some in Heq as [-> ->].
  - intros Hl. exists (dir ++ [name], n). split; [by apply elem_of_map_to_list|apply child_of_child].
Qed.

(** Adding, replacing and deleting an entry, seen from its directory. *)
Lemma children_insert_new (fs : FileSystem) (m : gmap (list string) node) (dir : list string) (name : string) (n : node) :
  m !! (dir ++ [name]) = None →
  children (with_nodes fs (<[dir ++ [name] := n]> m)) dir ≡ₚ (name, n) :: children (with_nodes fs m) dir.
Proof.
  intros Hn. unfold children. simpl. rewrite map_to_list_insert by done.
  cbn [omap list_omap]. by rewrite child_of_child.
Qed.

(** ** Operations change the tree only *)

Definition same_system (fs fs' : FileSystem) : Prop := ∃ ns, fs' = with_nodes fs ns.

Lemma same_system_refl fs : same_system fs fs.
Proof. exists (nodes fs). by destruct fs. Qed.

Lemma with_nodes_same fs ns : same_system fs (with_nodes fs ns).
Proof. by exists ns. Qed.

Lemma same_system_trans a b c : same_system a b → same_system b c → same_system a c.
Proof. intros [ns ->] [ns' ->]. by exists ns'. Qed.

Lemma make_dirs_same fs d todo : same_system fs (make_dirs fs d todo).1.
Proof.
  revert fs d. induction todo as [|c l IH]; intros fs d; simpl; [apply same_system_refl|].
  repeat case_match; simpl; try apply same_system_refl; try apply IH.
  eapply same_system_trans; [apply with_nodes_same|apply IH].
Qed.

Lemma create_directories_same fs p : same_system fs (create_directories fs p).1.
Proof. apply make_dirs_same. Qed.

Lemma fs_remove_same fs p : same_system fs (fs_remove fs p).
Proof. unfold fs_remove. repeat case_match; try apply same_system_refl. apply with_nodes_same. Qed.

Lemma fs_remove_all_same fs p : same_system fs (fs_remove_all fs p).
Proof. apply with_nodes_same. Qed.

Lemma write_file_same fs p c fs' : write_file fs p c = Some fs' → same_system fs fs'.
Proof. unfold write_file. intros. case_match; simplify_eq. apply with_nodes_same. Qed.

Create HintDb files.
#[export] Hint Resolve same_system_refl with_nodes_same create_directories_same fs_remove_same
  fs_remove_all_same write_file_same : files.

(** A file system on which status queries do not fail and which has a
    directory for temporary files. *)
Record healthy (fs : FileSystem) : Prop := {
  healthy_temp : is_Some (temp_directory fs);
  healthy_stat : ∀ p, denied fs OpStat p = false;
}.

Lemma healthy_same fs fs' : same_system fs fs' → healthy fs → healthy fs'.
Proof. intros [ns ->] []. by split. Qed.
#[export] Hint Resolve healthy_same : files.
