(* ===== verification/Effects.v ===== *)
(** * Effects: the machine, external services and the monad of the code

    Every operation of the worker is a function of type [M X A]: from a
    machine (the files and the state [X] of everything outside the program)
    it gives an outcome (a value, an exception, or undefined behaviour), the
    machine afterwards and the list of interactions in the order they
    happened.  The services the worker calls (Redis, S3, SQS, child processes,
    the clock and the random generator) are the operations of the class
    [Services]; nothing is assumed of their answers except where a theorem
    names one of the law classes. *)

From S2P Require Import Prelude Filesystem.

(** ** Interactions *)

Inductive LogTypes := LogError | LogWarning | LogInformation | LogDebug.

Inductive Event :=
| EvLog (level : LogTypes) (message : string)
| EvSleep (ms : Z)
| EvRedisConnect (r : expected unit)
| EvRedisDisconnect
| EvRedisGet (key : string) (r : expected string)
| EvRedisSet (key value : string) (ttl : option Z) (r : expected unit)
| EvDownload (bucket key path : string) (r : expected unit)
| EvUpload (bucket key path : string) (r : expected unit)
| EvPresign (bucket key : string) (ttl : Z) (r : expected string)
| EvSend (body group dedup : string) (r : expected unit)
| EvExec (executable : string) (arguments : list string) (timeout_sec : Z)
| EvConsumer (call : string) (r : expected unit)
| EvPool (call : string) (r : expected unit).

(** ** What a child process does while the event loop runs

    The completions of the two asynchronous waits in the order their handlers
    are called: the timer's with its error code (aborted when it was
    cancelled), the process's with its error code. *)
Inductive Completion :=
| TimerDone (error : option string)
| ProcessDone (error : option string).

#[export] Instance Completion_eq_dec : EqDecision Completion.
Proof. solve_decision. Defined.

Inductive ChildRun :=
| SpawnThrew (what : string)
| ChildRan (completions : list Completion) (exit_code : Z).

(** ** External services *)

Class Services (X : Type) := {
  redis_connect : X → expected unit * X;
  redis_disconnect : X → X;
  redis_get : string → X → expected string * X;
  redis_set : string → string → option Z → X → expected unit * X;
  s3_download_file : string → string → string → FileSystem → X → expected unit * FileSystem * X;
  s3_upload_file : string → string → string → FileSystem → X → expected unit * X;
  s3_presign : string → string → Z → X → expected string * X;
  sqs_send_message : string → string → string → X → expected unit * X;
  (** executable, arguments, captured output, timeout *)
  run_child : string → list string → string → Z → FileSystem → X → ChildRun * FileSystem * X;
  consumer_call : string → X → expected unit * X;
  pool_call : string → X → expected unit * X;
  (** seconds since the epoch *)
  system_clock_now : X → Z * X;
  (** a draw from [uniform_int_distribution(lo, hi)] *)
  uniform_int : Z → Z → X → Z * X;
}.

(** Downloads and child processes change the tree of files, nothing else of
    the file system (not what the worker is permitted to do there). *)
Class FileLaws (X : Type) `{Services X} := {
  download_nodes bucket key path fs x :
    ∃ ns, (s3_download_file bucket key path fs x).1.2 = with_nodes fs ns;
  child_nodes exe args out timeout fs x :
    ∃ ns, (run_child exe args out timeout fs x).1.2 = with_nodes fs ns;
}.

(** [uniform_int_distribution(lo, hi)] gives values of its interval. *)
Class UniformLaws (X : Type) `{Services X} :=
  uniform_int_range lo hi x : lo ≤ hi → lo ≤ (uniform_int lo hi x).1 ≤ hi.

(** ** The machine and the monad *)

Record Machine (X : Type) := mkMachine { files : FileSystem; ext : X }.
Arguments mkMachine {X} files ext.
Arguments files {X} _.
Arguments ext {X} _.

Inductive outcome (A : Type) :=
| Returned (a : A)
| Threw (what : string)
| Undefined.
Arguments Returned {A} a.
Arguments Threw {A} what.
Arguments Undefined {A}.

Definition M (X A : Type) : Type := Machine X → outcome A * Machine X * list Event.

#[export] Instance M_ret X : MRet (M X) := λ A a s, (Returned a, s, []).
#[export] Instance M_bind X : MBind (M X) := λ A B f m s,
  match m s with
  | (Returned a, s', es) => let '(o, s'', es') := f a s' in (o, s'', es ++ es')
  | (Threw w, s', es) => (Threw w, s', es)
  | (Undefined, s', es) => (Undefined, s', es)
  end.

Section Primitives.
Context {X : Type} `{Services X}.

Definition throw {A} (what : string) : M X A := λ s, (Threw what, s, []).
Definition undefined {A} : M X A := λ s, (Undefined, s, []).

(** [try { m } catch (const std::exception& e) { handler(e.what()) }] *)
Definition try_catch {A} (m : M X A) (handler : string → M X A) : M X A := λ s,
  match m s with
  | (Threw w, s', es) => let '(o, s'', es') := handler w s' in (o, s'', es ++ es')
  | r => r
  end.

(** Scope with a destructor that runs on every exit. *)
Definition with_cleanup {A} (m : M X A) (cleanup : M X unit) : M X A := λ s,
  let '(o, s', es) := m s in let '(_, s'', es') := cleanup s' in (o, s'', es ++ es').

(** A value that may throw when it is read ([at], [as_string], ...). *)
Definition unwrap {A} (what : string) (v : option A) : M X A :=
  match v with Some a => mret a | None => throw what end.

Definition emit (e : Event) : M X unit := λ s, (Returned (), s, [e]).
Definition log (level : LogTypes) (message : string) : M X unit := emit (EvLog level message).
Definition sleep_for (ms : Z) : M X unit := emit (EvSleep ms).

Definition get_files : M X FileSystem := λ s, (Returned (files s), s, []).
Definition set_files (fs : FileSystem) : M X unit := λ s, (Returned (), mkMachine fs (ext s), []).

(** A call to a service with the interaction it leaves. *)
Definition call {A} (op : X → A * X) (ev : A → list Event) : M X A := λ s,
  let '(a, x) := op (ext s) in (Returned a, mkMachine (files s) x, ev a).

Definition call_fs {A} (op : FileSystem → X → A * FileSystem * X) (ev : A → list Event) : M X A := λ s,
  let '(a, fs, x) := op (files s) (ext s) in (Returned a, mkMachine fs x, ev a).

Definition RedisConnect : M X (expected unit) := call redis_connect (λ r, [EvRedisConnect r]).
Definition RedisDisconnect : M X unit := call (λ x, ((), redis_disconnect x)) (λ _, [EvRedisDisconnect]).
Definition RedisGet (key : string) : M X (expected string) :=
  call (redis_get key) (λ r, [EvRedisGet key r]).
Definition RedisSet (key value : string) (ttl : option Z) : M X (expected unit) :=
  call (redis_set key value ttl) (λ r, [EvRedisSet key value ttl r]).
Definition S3Download (bucket key path : string) : M X (expected unit) :=
  call_fs (s3_download_file bucket key path) (λ r, [EvDownload bucket key path r]).
Definition S3Upload (bucket key path : string) : M X (expected unit) := λ s,
  call (s3_upload_file bucket key path (files s)) (λ r, [EvUpload bucket key path r]) s.
Definition S3Presign (bucket key : string) (ttl : Z) : M X (expected string) :=
  call (s3_presign bucket key ttl) (λ r, [EvPresign bucket key ttl r]).
Definition SqsSend (body group dedup : string) : M X (expected unit) :=
  call (sqs_send_message body group dedup) (λ r, [EvSend body group dedup r]).
Definition RunChild (exe : string) (args : list string) (stdout : string) (timeout : Z) : M X ChildRun :=
  call_fs (run_child exe args stdout timeout) (λ _, [EvExec exe args timeout]).
Definition ConsumerCall (what : string) : M X (expected unit) :=
  call (consumer_call what) (λ r, [EvConsumer what r]).
Definition PoolCall (what : string) : M X (expected unit) :=
  call (pool_call what) (λ r, [EvPool what r]).
Definition Now : M X Z := call system_clock_now (λ _, []).
Definition Uniform (lo hi : Z) : M X Z := call (uniform_int lo hi) (λ _, []).

Lemma assoc_bind {A B C} (m : M X A) (f : A → M X B) (g : B → M X C) s :
  ((m ≫= f) ≫= g) s = (m ≫= λ a, f a ≫= g) s.
Proof.
  unfold mbind, M_bind. destruct (m s) as [[[a|w|] s1] es1]; [|done..].
  destruct (f a s1) as [[[b|w|] s2] es2]; [|done..].
  destruct (g b s2) as [[o s3] es3]. by rewrite app_assoc.
Qed.

(** The trace of a sequence begins with that of its first part. *)
Lemma bind_trace {A B} (m : M X A) (f : A → M X B) s a s' es :
  m s = (Returned a, s', es) → ((m ≫= f) s).2 = es ++ (f a s').2.
Proof. intros Hm. unfold mbind, M_bind. rewrite Hm. by destruct (f a s') as [[o s2] es2]. Qed.

Lemma bind_prefix {A B} (m : M X A) (f : A → M X B) s : ∃ rest, ((m ≫= f) s).2 = (m s).2 ++ rest.
Proof.
  unfold mbind, M_bind. destruct (m s) as [[[a|w|] s1] es1]; [|exists []; by rewrite app_nil_r..].
  destruct (f a s1) as [[o s2] es2]. by exists es2.
Qed.

(** ** Inversion of runs that return *)

Lemma bind_Returned {A B} (m : M X A) (f : A → M X B) s b s' es :
  (m ≫= f) s = (Returned b, s', es) →
  ∃ a s1 es1 es2, m s = (Returned a, s1, es1) ∧ f a s1 = (Returned b, s', es2) ∧ es = es1 ++ es2.
Proof.
  unfold mbind, M_bind. destruct (m s) as [[[a|w|] s1] es1]; [|done..].
  destruct (f a s1) as [[o s2] es2] eqn:Hf. intros [= -> -> <-]. naive_solver.
Qed.

Lemma ret_Returned {A} (a b : A) (s s' : Machine X) es :
  (mret a : M X A) s = (Returned b, s', es) → b = a ∧ s' = s ∧ es = [].
Proof. by intros [=]. Qed.

Lemma with_cleanup_Returned {A} (m : M X A) c s a s' es :
  with_cleanup m c s = (Returned a, s', es) →
  ∃ s1 es1 o es2, m s = (Returned a, s1, es1) ∧ c s1 = (o, s', es2) ∧ es = es1 ++ es2.
Proof.
  unfold with_cleanup. destruct (m s) as [[o s1] es1]. destruct (c s1) as [[o' s2] es2] eqn:Hc.
  intros [= -> -> <-]. naive_solver.
Qed.

Lemma unwrap_Returned {A} what (v : option A) (s s' : Machine X) a es :
  unwrap what v s = (Returned a, s', es) → v = Some a ∧ s' = s ∧ es = [].
Proof. destruct v; [by intros [= <- <- <-]|done]. Qed.

(** ** Properties of all interactions, and absence of exceptions *)

Definition emits {A} (P : Event → Prop) (m : M X A) : Prop := ∀ s, Forall P (m s).2.

(** Neither an exception nor undefined behaviour: it returns. *)
Definition returns {A} (m : M X A) : Prop := ∀ s, ∃ a, (m s).1.1 = Returned a.

Lemma emits_ret {A} P (a : A) : emits P (mret a : M X A).
Proof. intros s. constructor. Qed.

Lemma emits_bind {A B} P (m : M X A) (f : A → M X B) :
  emits P m → (∀ a, emits P (f a)) → emits P (m ≫= f).
Proof.
  intros Hm Hf s. unfold mbind, M_bind. specialize (Hm s).
  destruct (m s) as [[[a|w|] s'] es]; simpl in *; [|done..].
  specialize (Hf a s'). destruct (f a s') as [[o s''] es']. by apply Forall_app.
Qed.

(** With the run of the first part at hand for the second. *)
Lemma emits_bind_run {A B} P (m : M X A) (f : A → M X B) :
  emits P m → (∀ s a s' es, m s = (Returned a, s', es) → emits P (f a)) → emits P (m ≫= f).
Proof.
  intros Hm Hf s. unfold mbind, M_bind. specialize (Hm s).
  destruct (m s) as [[[a|w|] s'] es] eqn:Hrun; simpl in *; [|done..].
  specialize (Hf s a s' es Hrun s'). destruct (f a s') as [[o s''] es']. by apply Forall_app.
Qed.

Lemma emits_try_catch {A} P (m : M X A) h :
  emits P m → (∀ w, emits P (h w)) → emits P (try_catch m h).
Proof.
  intros Hm Hh s. unfold try_catch. specialize (Hm s).
  destruct (m s) as [[[a|w|] s'] es]; simpl in *; [done| |done].
  specialize (Hh w s'). destruct (h w s') as [[o s''] es']. by apply Forall_app.
Qed.

Lemma emits_with_cleanup {A} P (m : M X A) c : emits P m → emits P c → emits P (with_cleanup m c).
Proof.
  intros Hm Hc s. unfold with_cleanup. specialize (Hm s).
  destruct (m s) as [[o s'] es]. specialize (Hc s'). destruct (c s') as [[o' s''] es'].
  by apply Forall_app.
Qed.

Lemma emits_throw {A} P w : emits P (throw w : M X A).
Proof. intros s. constructor. Qed.
Lemma emits_undefined {A} P : emits P (undefined : M X A).
Proof. intros s. constructor. Qed.
Lemma emits_unwrap {A} P w (v : option A) : emits P (unwrap w v).
Proof. destruct v; [apply emits_ret|apply emits_throw]. Qed.
Lemma emits_emit (P : Event → Prop) e : P e → emits P (emit e).
Proof. intros He s. by repeat constructor. Qed.
Lemma emits_get_files P : emits P get_files.
Proof. intros s. constructor. Qed.
Lemma emits_set_files P fs : emits P (set_files fs).
Proof. intros s. constructor. Qed.
Lemma emits_call {A} (P : Event → Prop) (op : X → A * X) ev : (∀ a, Forall P (ev a)) → emits P (call op ev).
Proof. intros He s. unfold call. destruct (op (ext s)). apply He. Qed.
Lemma emits_call_fs {A} (P : Event → Prop) (op : FileSystem → X → A * FileSystem * X) ev :
  (∀ a, Forall P (ev a)) → emits P (call_fs op ev).
Proof. intros He s. unfold call_fs. destruct (op (files s) (ext s)) as [[??]?]. apply He. Qed.
Lemma emits_mono {A} (P Q : Event → Prop) (m : M X A) : (∀ e, P e → Q e) → emits P m → emits Q m.
Proof. intros HPQ Hm s. eapply Forall_impl; [apply Hm|done]. Qed.

(** [safe I Q m]: from a file system satisfying [I], [m] throws nothing,
    keeps [I], and what it returns satisfies [Q]. Undefined behaviour is not
    excluded. *)
Definition safe {A} (I : FileSystem → Prop) (Q : A → Prop) (m : M X A) : Prop :=
  ∀ s, I (files s) →
    I (files (m s).1.2) ∧
    match (m s).1.1 with Returned a => Q a | Threw _ => False | Undefined => True end.

Section Safe.
Context (I : FileSystem → Prop).

Lemma safe_ret {A} (Q : A → Prop) a : Q a → safe I Q (mret a).
Proof. by intros Ha s Hs. Qed.

Lemma safe_bind {A B} (R : A → Prop) (Q : B → Prop) (m : M X A) (f : A → M X B) :
  safe I R m → (∀ a, R a → safe I Q (f a)) → safe I Q (m ≫= f).
Proof.
  intros Hm Hf s Hs. unfold mbind, M_bind. specialize (Hm s Hs).
  destruct (m s) as [[[a|w|] s'] es]; simpl in *; [|naive_solver..].
  destruct Hm as [Hs' Ha]. specialize (Hf a Ha s' Hs'). by destruct (f a s') as [[o s''] es'].
Qed.

Lemma safe_mono {A} (R Q : A → Prop) (m : M X A) : safe I R m → (∀ a, R a → Q a) → safe I Q m.
Proof.
  intros Hm HRQ s Hs. specialize (Hm s Hs). destruct (m s) as [[[a|w|] s'] es]; naive_solver.
Qed.

Lemma safe_emit e : safe I (λ _, True) (emit e).
Proof. by intros s Hs. Qed.
Lemma safe_undefined {A} (Q : A → Prop) : safe I Q undefined.
Proof. by intros s Hs. Qed.
Lemma safe_get_files : safe I I get_files.
Proof. by intros s Hs. Qed.
Lemma safe_set_files fs : I fs → safe I (λ _, True) (set_files fs).
Proof. by intros Hfs s Hs. Qed.
Lemma safe_call {A} (op : X → A * X) ev : safe I (λ _, True) (call op ev).
Proof. intros s Hs. unfold call. by destruct (op (ext s)). Qed.
Lemma safe_call_fs {A} (op : FileSystem → X → A * FileSystem * X) ev :
  (∀ fs x, I fs → I (op fs x).1.2) → safe I (λ _, True) (call_fs op ev).
Proof.
  intros Hop s Hs. unfold call_fs. specialize (Hop (files s) (ext s) Hs).
  by destruct (op (files s) (ext s)) as [[a fs] x].
Qed.
Lemma safe_run {A} (Q : A → Prop) (m : M X A) a :
  (∀ s, m s = (Returned a, s, [])) → Q a → safe I Q m.
Proof. intros Hm Ha s Hs. by rewrite Hm. Qed.
Lemma safe_with_cleanup {A} (Q : A → Prop) (m : M X A) c :
  safe I Q m → safe I (λ _, True) c → safe I Q (with_cleanup m c).
Proof.
  intros Hm Hc s Hs. unfold with_cleanup. specialize (Hm s Hs).
  destruct (m s) as [[o s'] es]; simpl in *. destruct Hm as [Hs' Ho].
  specialize (Hc s' Hs'). destruct (c s') as [[o' s''] es']; simpl in *. naive_solver.
Qed.
End Safe.

Lemma returns_ret {A} (a : A) : returns (mret a : M X A).
Proof. intros s. by exists a. Qed.
Lemma returns_bind {A B} (m : M X A) (f : A → M X B) :
  returns m → (∀ a, returns (f a)) → returns (m ≫= f).
Proof.
  intros Hm Hf s. unfold mbind, M_bind. destruct (Hm s) as [a Ha].
  destruct (m s) as [[o s'] es]; simpl in *; subst. destruct (Hf a s') as [b Hb].
  destruct (f a s') as [[o s''] es']; simpl in *. eauto.
Qed.
Lemma returns_emit e : returns (emit e).
Proof. intros s. by exists (). Qed.
Lemma returns_call {A} (op : X → A * X) ev : returns (call op ev).
Proof. intros s. unfold call. destruct (op (ext s)) as [a x]. by exists a. Qed.
Lemma returns_call_fs {A} (op : FileSystem → X → A * FileSystem * X) ev : returns (call_fs op ev).
Proof. intros s. unfold call_fs. destruct (op (files s) (ext s)) as [[a ?] ?]. by exists a. Qed.
Lemma returns_get_files : returns get_files.
Proof. intros s. by exists (files s). Qed.
Lemma returns_set_files fs : returns (set_files fs).
Proof. intros s. by exists (). Qed.

End Primitives.

Arguments M_ret : simpl never.
Arguments M_bind : simpl never.

#[export] Hint Resolve emits_ret emits_throw emits_undefined emits_unwrap emits_get_files
  emits_set_files returns_ret returns_emit returns_call returns_call_fs returns_get_files
  returns_set_files : taskforge.

(** Split a returning run of a sequence into the runs of its parts. *)
Tactic Notation "bind_inv" hyp(H) "as" simple_intropattern(pat) :=
  apply bind_Returned in H; destruct H as pat.
Tactic Notation "ret_inv" hyp(H) :=
  apply ret_Returned in H; destruct H as (? & ? & ?); simplify_eq.

(** Walk through a monadic program, leaving the interactions that need an
    argument. *)
Ltac emits_step :=
  lazymatch goal with
  | |- emits _ (_ ≫= _) => apply emits_bind; [|intros ?]
  | |- emits _ (try_catch _ _) => apply emits_try_catch; [|intros ?]
  | |- emits _ (with_cleanup _ _) => apply emits_with_cleanup
  | |- emits _ (if ?b then _ else _) => destruct b eqn:?
  | |- emits _ (match ?x with _ => _ end) => destruct x eqn:?
  | |- emits _ (let _ := _ in _) => cbv zeta
  | |- emits _ (log _ _) => apply emits_emit
  | |- emits _ (sleep_for _) => apply emits_emit
  | |- emits _ (emit _) => apply emits_emit
  | |- emits _ _ => first [ solve [auto with taskforge] | apply emits_call; intros ? | apply emits_call_fs; intros ? ]
  | |- Forall _ [_] => apply Forall_singleton
  end.
Ltac emits_tac := repeat emits_step; try done; eauto with taskforge.

Ltac returns_step :=
  lazymatch goal with
  | |- returns (_ ≫= _) => apply returns_bind; [|intros ?]
  | |- returns (if ?b then _ else _) => destruct b eqn:?
  | |- returns (match ?x with _ => _ end) => destruct x eqn:?
  | |- returns (let _ := _ in _) => cbv zeta
  | |- returns (log _ _) => apply returns_emit
  | |- returns (sleep_for _) => apply returns_emit
  | |- returns _ => first [ solve [auto with taskforge] | apply returns_call | apply returns_call_fs ]
  end.
Ltac returns_tac := repeat returns_step; eauto with taskforge.
