(* ===== verification/Testbed.v ===== *)
(** * A simulated outside world

    A concrete instance of [Services]: Redis and S3 as maps, the queue as a
    list, a clock that ticks, and a child process that prints a given text,
    writes given files into its output directory and exits with a given code
    (or hangs until it is killed). The instances of the law classes show that
    the assumptions made about the services can hold; concrete runs of the
    worker are evaluated on it. *)

From S2P Require Import Prelude Json Filesystem Effects.

Record Sim := mkSim {
  sim_redis : gmap string string;
  sim_objects : gmap (string * string) string;
  sim_queue : list (string * string);
  sim_clock : Z;
  sim_exit_code : Z;
  sim_hangs : bool;
  sim_stdout : string;
  sim_outputs : list (string * string);
  sim_refuse_send : bool;
}.

Definition sim_with_redis (x : Sim) (r : gmap string string) : Sim :=
  mkSim r (sim_objects x) (sim_queue x) (sim_clock x) (sim_exit_code x) (sim_hangs x)
    (sim_stdout x) (sim_outputs x) (sim_refuse_send x).
Definition sim_with_objects (x : Sim) (o : gmap (string * string) string) : Sim :=
  mkSim (sim_redis x) o (sim_queue x) (sim_clock x) (sim_exit_code x) (sim_hangs x)
    (sim_stdout x) (sim_outputs x) (sim_refuse_send x).
Definition sim_with_queue (x : Sim) (q : list (string * string)) : Sim :=
  mkSim (sim_redis x) (sim_objects x) q (sim_clock x) (sim_exit_code x) (sim_hangs x)
    (sim_stdout x) (sim_outputs x) (sim_refuse_send x).
Definition sim_tick (x : Sim) : Sim :=
  mkSim (sim_redis x) (sim_objects x) (sim_queue x) (sim_clock x + 1) (sim_exit_code x) (sim_hangs x)
    (sim_stdout x) (sim_outputs x) (sim_refuse_send x).

Definition put_file (fs : FileSystem) (p c : string) : FileSystem :=
  with_nodes fs (<[resolve fs p := RegularFile c]> (nodes fs)).

#[export] Instance sim_services : Services Sim := {|
  redis_connect x := (Expected (), x);
  redis_disconnect x := x;
  redis_get key x :=
    (match sim_redis x !! key with Some v => Expected v | None => Unexpected "nil" end, x);
  redis_set key value _ x := (Expected (), sim_with_redis x (<[key := value]> (sim_redis x)));
  s3_download_file bucket key path fs x :=
    match sim_objects x !! (bucket, key) with
    | Some c => (Expected (), put_file fs path c, x)
    | None => (Unexpected "NoSuchKey", fs, x)
    end;
  s3_upload_file bucket key path fs x :=
    match open_read fs path with
    | Some c => (Expected (), sim_with_objects x (<[(bucket, key) := c]> (sim_objects x)))
    | None => (Unexpected "cannot read", x)
    end;
  s3_presign bucket key _ x := (Expected ("https://" +:+ bucket +:+ "/" +:+ key), x);
  sqs_send_message body _ dedup x :=
    if sim_refuse_send x then (Unexpected "refused", x)
    else (Expected (), sim_with_queue x (sim_queue x ++ [(body, dedup)]));
  run_child _ args out _ fs x :=
    let outputs := default "" (args !! 1%nat) in
    let fs' := put_file fs out (sim_stdout x) in
    if sim_hangs x then (ChildRan [TimerDone None; ProcessDone None] 9, fs', x)
    else (ChildRan [ProcessDone None; TimerDone (Some "aborted")] (sim_exit_code x),
          foldl (λ fs '(name, c), put_file fs (path_div outputs name) c) fs' (sim_outputs x), x);
  consumer_call _ x := (Expected (), x);
  pool_call _ x := (Expected (), x);
  system_clock_now x := (sim_clock x, sim_tick x);
  uniform_int lo _ x := (lo, x);
|}.

#[export] Instance sim_uniform : UniformLaws Sim.
Proof. intros lo hi x Hle. simpl. lia. Qed.

#[export] Instance sim_files : FileLaws Sim.
Proof.
  split; simpl.
  - intros bucket key path fs x. destruct (sim_objects x !! _); simpl.
    + apply with_nodes_same.
    + apply same_system_refl.
  - intros exe args out timeout fs x.
    assert (Hfold : ∀ (l : list (string * string)) dir fs0,
      same_system fs0 (foldl (λ fs '(name, c), put_file fs (path_div dir name) c) fs0 l)).
    { induction l as [|[n c] l IH]; intros dir fs0; simpl; [apply same_system_refl|].
      eapply same_system_trans; [apply with_nodes_same|apply IH]. }
    destruct (sim_hangs x); simpl; [apply with_nodes_same|].
    eapply same_system_trans; [apply with_nodes_same|apply Hfold].
Qed.

(** A file system with a directory for temporary files, an installed task and
    no faults. *)
Definition sim_fs : FileSystem := {|
  nodes := list_to_map [
    (["tmp"], Directory);
    (["srv"], Directory);
    (["srv"; "dlq"], Directory);
    (["srv"; "tasks"], Directory);
    (["srv"; "tasks"; "wordcount.sh"], RegularFile "#!/usr/bin/env bash")];
  cwd := [];
  temp_directory := Some "/tmp";
  denied := λ _ _, false;
  error_message := λ _ _, "error";
|}.

Lemma sim_fs_healthy : healthy sim_fs.
Proof. split; [by eexists|done]. Qed.
