(* ===== verification/MessageValidation.v ===== *)
(** * Request validation (Main/MessageValidation.{h,cpp})

    The static checks on a request message and on a job identifier, the
    declarative contract they implement, and what acceptance guarantees to
    the code that later reads the message without checking. *)

From S2P Require Import Prelude Utf8 Json Filesystem.

Module MessageValidation.

Definition job_id_max_length : Z := 64.

(** The lambda of [is_valid_job_id]. *)
Definition job_id_char (character : ascii) : bool :=
  ((schar "a" <=? schar character) && (schar character <=? schar "z"))
  || ((schar "A" <=? schar character) && (schar character <=? schar "Z"))
  || ((schar "0" <=? schar character) && (schar character <=? schar "9"))
  || bool_decide (character = "-"%char) || bool_decide (character = "_"%char).

Definition is_valid_job_id (job_id : string) : bool :=
  if (size job_id =? 0) || (job_id_max_length <? size job_id) then false
  else str_forallb job_id_char job_id.

(** The loop over [task.arguments]: the first error, if any. *)
Fixpoint check_arguments (arguments : list json) : expected unit :=
  match arguments with
  | [] => Expected ()
  | argument :: rest =>
      if negb (is_string argument) then Unexpected "task.arguments must contain only strings"
      else check_arguments rest
  end.

(** The body of the loop over [download_s3]. *)
Definition check_download_entry (entry : json) : expected unit :=
  match as_object entry with
  | None => Unexpected "download_s3 entries must be objects"
  | Some entry_object =>
      match get_string entry_object "bucket" with
      | None => Unexpected "download_s3.bucket is required and must be a non-empty string"
      | Some bucket =>
      if size bucket =? 0 then Unexpected "download_s3.bucket is required and must be a non-empty string"
      else
      match get_string entry_object "key" with
      | None => Unexpected "download_s3.key is required and must be a non-empty string"
      | Some key =>
      if size key =? 0 then Unexpected "download_s3.key is required and must be a non-empty string"
      else
      match get_string entry_object "method" with
      | None => Unexpected "download_s3.method is required and must be a string"
      | Some _ => Expected ()
      end end end
  end.

Fixpoint check_downloads (entries : list json) : expected unit :=
  match entries with
  | [] => Expected ()
  | entry :: rest =>
      match check_download_entry entry with
      | Unexpected e => Unexpected e
      | Expected _ => check_downloads rest
      end
  end.

(** The checks on the [task] object. *)
Definition check_task (task : object) : expected unit :=
  match get_string task "name" with
  | None => Unexpected "task.name is required and must be a non-empty string"
  | Some name =>
  if size name =? 0 then Unexpected "task.name is required and must be a non-empty string"
  else
  let arguments_checked :=
    match at_ task "arguments" with
    | None => Expected ()
    | Some arguments =>
        match as_array arguments with
        | None => Unexpected "task.arguments must be an array of strings"
        | Some l => check_arguments l
        end
    end in
  match arguments_checked with
  | Unexpected e => Unexpected e
  | Expected _ =>
  match at_ task "timeout_sec" with
  | Some t => if is_int64 t then Expected () else Unexpected "task.timeout_sec must be an integer"
  | None => Expected ()
  end end end.

(** The checks after [task]: [download_s3] and [output_prefix]. *)
Definition check_transfers (message : object) : expected unit :=
  match get_array message "download_s3" with
  | None => Unexpected "download_s3 is required and must be an array"
  | Some entries =>
  match check_downloads entries with
  | Unexpected e => Unexpected e
  | Expected _ =>
  match get_string message "output_prefix" with
  | None => Unexpected "output_prefix is required and must be a non-empty string"
  | Some prefix =>
  if size prefix =? 0 then Unexpected "output_prefix is required and must be a non-empty string"
  else Expected ()
  end end end.

Definition validate_request (message : object) : expected unit :=
  match get_string message "job_id" with
  | None => Unexpected "job_id is required and must be a non-empty string"
  | Some job_id =>
  if size job_id =? 0 then Unexpected "job_id is required and must be a non-empty string"
  else
  if negb (is_valid_job_id job_id)
  then Unexpected ("job_id must match [A-Za-z0-9_-]{1," +:+ fmt_int job_id_max_length +:+ "}")
  else
  match get_string message "mode" with
  | None => Unexpected "mode is required and must be a string"
  | Some mode =>
  if negb (bool_decide (mode = "execute")) then Unexpected ("unsupported mode: " +:+ c_str mode)
  else
  match get_object message "task" with
  | None => Unexpected "task is required and must be an object"
  | Some task =>
  match check_task task with
  | Unexpected e => Unexpected e
  | Expected _ => check_transfers message
  end end end end.

(** ** The contract *)

Definition job_id_alphabet : string :=
  "abcdefghijklmnopqrstuvwxyzABCDEFGHIJKLMNOPQRSTUVWXYZ0123456789-_".

Definition job_id_language (job_id : string) : Prop :=
  1 ≤ size job_id ≤ 64 ∧ ∀ c, str_In c job_id → str_In c job_id_alphabet.

Definition string_value (v : json) : Prop := ∃ s, v = JString s.

Definition valid_download (entry : json) : Prop :=
  ∃ (e : object) bucket key method,
    entry = JObject e ∧ e !! "bucket" = Some (JString bucket) ∧ bucket ≠ "" ∧
    e !! "key" = Some (JString key) ∧ key ≠ "" ∧ e !! "method" = Some (JString method).

Record valid_task (task : object) : Prop := {
  task_has_name : ∃ name, task !! "name" = Some (JString name) ∧ name ≠ "";
  task_has_arguments : ∀ v, task !! "arguments" = Some v → ∃ l, v = JArray l ∧ Forall string_value l;
  task_has_timeout : ∀ v, task !! "timeout_sec" = Some v → ∃ z, v = JInt64 z;
}.

Record valid_request (message : object) : Prop := {
  request_job_id : ∃ id, message !! "job_id" = Some (JString id) ∧ job_id_language id;
  request_mode : message !! "mode" = Some (JString "execute");
  request_task : ∃ task, message !! "task" = Some (JObject task) ∧ valid_task task;
  request_downloads : ∃ l, message !! "download_s3" = Some (JArray l) ∧ Forall valid_download l;
  request_prefix : ∃ p, message !! "output_prefix" = Some (JString p) ∧ p ≠ "";
}.

(** ** Lemmas *)

Lemma job_id_char_alphabet c : job_id_char c = true ↔ str_In c job_id_alphabet.
Proof.
  rewrite <-(bool_decide_eq_true (str_In c job_id_alphabet)).
  destruct c as [[] [] [] [] [] [] [] []]; vm_compute; done.
Qed.

Lemma check_arguments_ok l : check_arguments l = Expected () ↔ Forall string_value l.
Proof.
  induction l as [|v l IH]; simpl; [by split|].
  rewrite Forall_cons, <-IH. unfold string_value. destruct v; simpl; naive_solver.
Qed.

Lemma check_download_entry_ok v : check_download_entry v = Expected () ↔ valid_download v.
Proof.
  unfold check_download_entry, valid_download. split.
  - intros Hc. destruct v as [| | | | | | |e]; simpl in Hc; try done.
    repeat case_match; try done.
    repeat match goal with
    | H : get_string _ _ = Some _ |- _ => apply get_string_Some in H
    | H : (size _ =? 0) = false |- _ => apply size_nonzero in H
    end.
    naive_solver.
  - intros (e & bucket & key & method & -> & Hb & ? & Hk & ? & Hm). simpl.
    apply get_string_Some in Hb, Hk, Hm. rewrite Hb, Hk, Hm.
    by rewrite !(proj2 (size_nonzero _)).
Qed.

Lemma check_downloads_ok l : check_downloads l = Expected () ↔ Forall valid_download l.
Proof.
  induction l as [|v l IH]; simpl; [by split|].
  rewrite Forall_cons, <-check_download_entry_ok, <-IH.
  destruct (check_download_entry v) as [[]|]; naive_solver.
Qed.

Lemma check_task_ok task : check_task task = Expected () ↔ valid_task task.
Proof.
  unfold check_task, at_. split.
  - intros Hc.
    destruct (get_string task "name") as [name|] eqn:Hn; [|done]. apply get_string_Some in Hn.
    destruct (size name =? 0) eqn:Hs; [done|]. apply size_nonzero in Hs.
    destruct (task !! "arguments") as [a|] eqn:Ha; [destruct (as_array a) as [l|] eqn:Hl; [|done];
      destruct (check_arguments l) as [[]|] eqn:Hc'; [|done]; apply check_arguments_ok in Hc'|];
    (split; [naive_solver|intros v ?; simplify_eq|]).
    + destruct a; simplify_eq/=. eauto.
    + intros t Ht. rewrite Ht in Hc. destruct t; naive_solver.
    + intros t Ht. rewrite Ht in Hc. destruct t; naive_solver.
  - intros [(name & Hn & Hne) Ha Ht]. rewrite (proj2 (get_string_Some _ _ _) Hn).
    rewrite (proj2 (size_nonzero _) Hne).
    destruct (task !! "arguments") as [a|].
    + destruct (Ha _ eq_refl) as (l & -> & Hl). simpl. rewrite (proj2 (check_arguments_ok l) Hl).
      destruct (task !! "timeout_sec") as [t|]; [|done]. by destruct (Ht _ eq_refl) as [z ->].
    + destruct (task !! "timeout_sec") as [t|]; [|done]. by destruct (Ht _ eq_refl) as [z ->].
Qed.

Lemma check_transfers_ok message :
  check_transfers message = Expected () ↔
  (∃ l, message !! "download_s3" = Some (JArray l) ∧ Forall valid_download l) ∧
  (∃ p, message !! "output_prefix" = Some (JString p) ∧ p ≠ "").
Proof.
  unfold check_transfers. split.
  - intros Hc.
    destruct (get_array message "download_s3") as [l|] eqn:Hl; [|done]. apply get_array_Some in Hl.
    destruct (check_downloads l) as [[]|] eqn:Hd; [|done]. apply check_downloads_ok in Hd.
    destruct (get_string message "output_prefix") as [p|] eqn:Hp; [|done]. apply get_string_Some in Hp.
    destruct (size p =? 0) eqn:Hs; [done|]. apply size_nonzero in Hs. eauto 10.
  - intros [(l & Hl & Hd) (p & Hp & Hne)].
    rewrite (proj2 (get_array_Some _ _ _) Hl), (proj2 (check_downloads_ok l) Hd).
    by rewrite (proj2 (get_string_Some _ _ _) Hp), (proj2 (size_nonzero _) Hne).
Qed.

Lemma is_valid_job_id_iff job_id : is_valid_job_id job_id = true ↔ job_id_language job_id.
Proof.
  unfold is_valid_job_id, job_id_language, job_id_max_length.
  setoid_rewrite <-job_id_char_alphabet. rewrite <-str_forallb_In.
  assert (0 ≤ size job_id) by (unfold size; lia).
  destruct (_ || _) eqn:E.
  - split; [done|]. rewrite orb_true_iff, Z.eqb_eq, Z.ltb_lt in E. lia.
  - bool_to_prop. split; [|naive_solver]. intros. split; [lia|done].
Qed.

Lemma job_id_alphabet_safe c :
  str_In c job_id_alphabet → c ≠ "/"%char ∧ c ≠ "."%char ∧ c ≠ "000"%char.
Proof. intros Hc. repeat split; intros ->; revert Hc; vm_compute; naive_solver. Qed.

Lemma valid_job_id_nonempty id : is_valid_job_id id = true → id ≠ "".
Proof. rewrite is_valid_job_id_iff. intros [? _] ->. unfold size in *. simpl in *. lia. Qed.

Lemma valid_job_id_chars id c :
  is_valid_job_id id = true → str_In c id → c ≠ "/"%char ∧ c ≠ "."%char ∧ c ≠ "000"%char.
Proof. rewrite is_valid_job_id_iff. intros [_ H] Hc. by apply job_id_alphabet_safe, H. Qed.

Lemma valid_job_id_c_str id : is_valid_job_id id = true → c_str id = id.
Proof. intros Hid. apply c_str_id. intros Hin. by destruct (valid_job_id_chars id _ Hid Hin) as (_ & _ & ?). Qed.

Lemma valid_job_id_utf8 id : is_valid_job_id id = true → valid_utf8 id = true.
Proof.
  rewrite is_valid_job_id_iff. intros [_ Hc]. apply ascii_valid_utf8. intros c Hin.
  apply Hc, job_id_char_alphabet in Hin. revert Hin.
  destruct c as [[] [] [] [] [] [] [] []]; vm_compute; congruence.
Qed.

(** A name built from a valid identifier and a suffix that adds no separator
    is a plain file name, so it cannot leave its directory. *)
Lemma valid_job_id_plain id suffix :
  is_valid_job_id id = true → ¬ str_In "/" suffix → plain_name (id +:+ suffix).
Proof.
  intros Hid Hs. pose proof (valid_job_id_nonempty _ Hid) as Hne.
  destruct id as [|a id]; [done|].
  assert (a ≠ "."%char) as Ha by (by apply (valid_job_id_chars _ a Hid); left).
  split_and!; [done|intros [= -> _]; done..|].
  rewrite str_In_app. intros [Hin|?]; [|done].
  by destruct (valid_job_id_chars _ _ Hid Hin).
Qed.

Lemma valid_request_iff message : validate_request message = Expected () ↔ valid_request message.
Proof.
  unfold validate_request. split.
  - intros Hc.
    destruct (get_string message "job_id") as [id|] eqn:Hid; [|done]. apply get_string_Some in Hid.
    destruct (size id =? 0) eqn:Hs; [done|].
    destruct (is_valid_job_id id) eqn:Hv; simpl in Hc; [|done]. apply is_valid_job_id_iff in Hv.
    destruct (get_string message "mode") as [mode|] eqn:Hm; [|done]. apply get_string_Some in Hm.
    case_bool_decide; simpl in Hc; [|done]. subst.
    destruct (get_object message "task") as [task|] eqn:Ht; [|done]. apply get_object_Some in Ht.
    destruct (check_task task) as [[]|] eqn:Htask; [|done]. apply check_task_ok in Htask.
    apply check_transfers_ok in Hc as [Hd Hp]. split; eauto.
  - intros [(id & Hid & Hl) Hmode (task & Ht & Htask) Hd Hp].
    rewrite (proj2 (get_string_Some _ _ _) Hid), (proj2 (get_string_Some _ _ _) Hmode).
    rewrite (proj2 (get_object_Some _ _ _) Ht), (proj2 (check_task_ok _) Htask).
    rewrite (proj2 (is_valid_job_id_iff id) Hl). simpl.
    rewrite (proj2 (size_nonzero id)); [by apply check_transfers_ok|].
    by apply valid_job_id_nonempty, is_valid_job_id_iff.
Qed.

(** ** Properties *)

Definition job_id_errors : list string :=
  ["job_id is required and must be a non-empty string"; "job_id must match [A-Za-z0-9_-]{1,64}"].

Lemma validate_request_error_order message e :
  validate_request message = Unexpected e →
  e ∈ job_id_errors ∨ ∃ id, message !! "job_id" = Some (JString id) ∧ is_valid_job_id id = true.
Proof.
  unfold validate_request. intros He.
  destruct (get_string message "job_id") as [id|] eqn:Hid; [|left; simplify_eq; by left].
  apply get_string_Some in Hid.
  destruct (size id =? 0); [left; simplify_eq; by left|].
  destruct (is_valid_job_id id) eqn:Hv; [right; by exists id|].
  left. simpl in He. simplify_eq. right. left.
Qed.

(** C9: [validate_request] accepts exactly the messages of the request
    contract, and an error that does not concern [job_id] is only reported for
    a message whose [job_id] is well-formed. *)
Theorem validate_request_correct message :
  match validate_request message with
  | Expected _ => valid_request message
  | Unexpected e =>
      ¬ valid_request message ∧
      (e ∈ job_id_errors ∨ ∃ id, message !! "job_id" = Some (JString id) ∧ job_id_language id)
  end.
Proof.
  destruct (validate_request message) as [[]|e] eqn:Hv; [by apply valid_request_iff|].
  split; [rewrite <-valid_request_iff; congruence|].
  setoid_rewrite <-is_valid_job_id_iff. by apply validate_request_error_order.
Qed.

(** An accepted job identifier stays inside any directory it is joined to:
    with a suffix free of separators it names a direct child of that
    directory, and converting it to a C string loses nothing. *)
Theorem job_id_cannot_escape fs dir job_id suffix :
  is_valid_job_id job_id = true → ¬ str_In "/" suffix →
  resolve fs (path_div dir (job_id +:+ suffix)) = resolve fs dir ++ [job_id +:+ suffix] ∧
  c_str job_id = job_id.
Proof.
  intros Hid Hs. split; [by apply resolve_child, valid_job_id_plain|by apply valid_job_id_c_str].
Qed.

Lemma job_id_cannot_escape_witness :
  let fs := mkFS ∅ ["srv"] None (λ _ _, false) (λ _ _, "") in
  resolve fs (path_div "dlq/" ("a-1" +:+ ".json")) = ["srv"; "dlq"; "a-1.json"].
Proof.
  intros fs.
  destruct (job_id_cannot_escape fs "dlq/" "a-1" ".json") as [-> _]; [reflexivity| |reflexivity].
  vm_compute. naive_solver.
Defined.

End MessageValidation.
