(* ===== verification/Configurations.v ===== *)
(** * Worker configuration (Main/Configurations.{h,cpp})

    Construction in the code's three phases: the JSON file over the built-in
    defaults ([load]), the command line over the file ([parse_arguments]), and
    the repair of out-of-range values ([validate_configuration]); then the
    check for settings without a usable default ([validate_required]).

    The argument parser, the file reader and the numeric value of
    [LogTypes::Information] belong to CppToolkit and are parameters. *)

From S2P Require Import Prelude Utf8 Json Filesystem Effects.

Record TaskDefinition := mkTask {
  task_name : string;
  task_executable : string;
  task_description : string;
}.

#[export] Instance TaskDefinition_eq_dec : EqDecision TaskDefinition.
Proof. solve_decision. Defined.

Record Configurations := mkConfig {
  root_path_ : string;
  config_path_ : string;
  worker_title_ : string;
  write_file_log_ : Z;
  write_console_log_ : Z;
  write_interval_ : Z;
  log_root_path_ : string;
  high_priority_count_ : Z;
  normal_priority_count_ : Z;
  low_priority_count_ : Z;
  redis_host_ : string;
  redis_port_ : Z;
  redis_db_index_ : Z;
  redis_ttl_sec_ : Z;
  aws_region_ : string;
  aws_access_key_ : string;
  aws_secret_key_ : string;
  aws_endpoint_ : string;
  sqs_request_queue_url_ : string;
  sqs_message_group_id_ : string;
  sqs_wait_time_seconds_ : Z;
  sqs_visibility_timeout_ : Z;
  sqs_max_number_of_messages_ : Z;
  s3_bucket_ : string;
  presign_ttl_sec_ : Z;
  dlq_path_ : string;
  dlq_max_retry_count_ : Z;
  dlq_backlog_alert_count_ : Z;
  default_timeout_sec_ : Z;
  task_whitelist_ : list TaskDefinition;
}.

(** CppToolkit's [ArgumentParser]. *)
Record ArgumentParser := mkArguments {
  program_folder : string;
  arg_to_string : string → option string;
  arg_to_int : string → option Z;
}.

(** What opening and reading the configuration file gives. *)
Inductive ConfigFile :=
| OpenFailed
| ReadFailed (error : string)
| FileBytes (text : string).

(** ** Accessors that convert *)

(** The [auto write_interval() -> uint16_t] cast. *)
Definition write_interval (c : Configurations) : Z := to_uint16 (write_interval_ c).

(** The values of the enumeration [LogTypes] are those of its underlying
    integer type. *)
Definition write_file_log (c : Configurations) : Z := write_file_log_ c.
Definition write_console_log (c : Configurations) : Z := write_console_log_ c.
Definition log_root_path (c : Configurations) : string := log_root_path_ c.
Definition worker_title (c : Configurations) : string := worker_title_ c.

(** ** Construction *)

Section Construction.
Context `{JsonCodec}.
Context (log_information : Z).

(** The member initializers of the constructor. *)
Definition default_configurations : Configurations := {|
  root_path_ := "";
  config_path_ := "";
  worker_title_ := "TaskForgeWorker";
  write_file_log_ := log_information;
  write_console_log_ := log_information;
  write_interval_ := 1000;
  log_root_path_ := "";
  high_priority_count_ := 1;
  normal_priority_count_ := 2;
  low_priority_count_ := 1;
  redis_host_ := "127.0.0.1";
  redis_port_ := 6379;
  redis_db_index_ := 0;
  redis_ttl_sec_ := 3600;
  aws_region_ := "us-east-1";
  aws_access_key_ := "";
  aws_secret_key_ := "";
  aws_endpoint_ := "";
  sqs_request_queue_url_ := "";
  sqs_message_group_id_ := "request";
  sqs_wait_time_seconds_ := 5;
  sqs_visibility_timeout_ := 60;
  sqs_max_number_of_messages_ := 1;
  s3_bucket_ := "";
  presign_ttl_sec_ := 600;
  dlq_path_ := "";
  dlq_max_retry_count_ := 3;
  dlq_backlog_alert_count_ := 10;
  default_timeout_sec_ := 30;
  task_whitelist_ := [];
|}.

(** The three reading lambdas: the new value of the target. *)
Definition read_string (message : object) (key : string) (target : string) : string :=
  match get_string message key with Some s => c_str s | None => target end.

Definition read_int (message : object) (key : string) (target : Z) : Z :=
  match get_int64 message key with Some z => to_int z | None => target end.

(** [long] has 64 bits: the cast changes nothing. *)
Definition read_long (message : object) (key : string) (target : Z) : Z :=
  match get_int64 message key with Some z => z | None => target end.

(** One round of the [task_whitelist] loop: the definition to push, if any,
    and the log lines. *)
Definition read_whitelist_entry (entry : json) : option TaskDefinition * list Event :=
  match as_object entry with
  | None => (None, [])
  | Some entry_object =>
      match get_string entry_object "name", get_string entry_object "executable" with
      | Some name, Some executable =>
          (Some {| task_name := c_str name;
                   task_executable := c_str executable;
                   task_description :=
                     match get_string entry_object "description" with
                     | Some d => c_str d
                     | None => ""
                     end |}, [])
      | _, _ => (None, [EvLog LogWarning "task_whitelist entry without name/executable is ignored"])
      end
  end.

Fixpoint read_whitelist (entries : list json) : list TaskDefinition * list Event :=
  match entries with
  | [] => ([], [])
  | entry :: rest =>
      let '(d, es) := read_whitelist_entry entry in
      let '(ds, es') := read_whitelist rest in
      (match d with Some d => d :: ds | None => ds end, es ++ es')
  end.

(** The part of [load] after the root is known to be an object. *)
Definition load_object (c : Configurations) (message : object) : Configurations * list Event :=
  let '(whitelist, es) :=
    match get_array message "task_whitelist" with
    | Some entries => read_whitelist entries
    | None => (task_whitelist_ c, [])
    end in
  ({| root_path_ := root_path_ c;
      config_path_ := config_path_ c;
      worker_title_ := read_string message "worker_title" (worker_title_ c);
      write_file_log_ := read_int message "write_file_log" (write_file_log_ c);
      write_console_log_ := read_int message "write_console_log" (write_console_log_ c);
      write_interval_ := read_int message "write_interval" (write_interval_ c);
      log_root_path_ := read_string message "log_root_path" (log_root_path_ c);
      high_priority_count_ := read_int message "high_priority_count" (high_priority_count_ c);
      normal_priority_count_ := read_int message "normal_priority_count" (normal_priority_count_ c);
      low_priority_count_ := read_int message "low_priority_count" (low_priority_count_ c);
      redis_host_ := read_string message "redis_host" (redis_host_ c);
      redis_port_ := read_int message "redis_port" (redis_port_ c);
      redis_db_index_ := read_int message "redis_db_index" (redis_db_index_ c);
      redis_ttl_sec_ := read_long message "redis_ttl_sec" (redis_ttl_sec_ c);
      aws_region_ := read_string message "aws_region" (aws_region_ c);
      aws_access_key_ := read_string message "aws_access_key" (aws_access_key_ c);
      aws_secret_key_ := read_string message "aws_secret_key" (aws_secret_key_ c);
      aws_endpoint_ := read_string message "aws_endpoint" (aws_endpoint_ c);
      sqs_request_queue_url_ := read_string message "sqs_request_queue_url" (sqs_request_queue_url_ c);
      sqs_message_group_id_ := read_string message "sqs_message_group_id" (sqs_message_group_id_ c);
      sqs_wait_time_seconds_ := read_int message "sqs_wait_time_seconds" (sqs_wait_time_seconds_ c);
      sqs_visibility_timeout_ := read_int message "sqs_visibility_timeout" (sqs_visibility_timeout_ c);
      sqs_max_number_of_messages_ :=
        read_int message "sqs_max_number_of_messages" (sqs_max_number_of_messages_ c);
      s3_bucket_ := read_string message "s3_bucket" (s3_bucket_ c);
      presign_ttl_sec_ := read_int message "presign_ttl_sec" (presign_ttl_sec_ c);
      dlq_path_ := read_string message "dlq_path" (dlq_path_ c);
      dlq_max_retry_count_ := read_int message "dlq_max_retry_count" (dlq_max_retry_count_ c);
      dlq_backlog_alert_count_ := read_int message "dlq_backlog_alert_count" (dlq_backlog_alert_count_ c);
      default_timeout_sec_ := read_int message "default_timeout_sec" (default_timeout_sec_ c);
      task_whitelist_ := whitelist |}, es).

Definition load (c : Configurations) (file : ConfigFile) : Configurations * list Event :=
  match file with
  | OpenFailed =>
      (c, [EvLog LogWarning ("cannot open configuration file (defaults applied): " +:+ config_path_ c)])
  | ReadFailed e =>
      (c, [EvLog LogWarning ("cannot read configuration file (defaults applied): " +:+ e)])
  | FileBytes text =>
      match parse text with
      | inr what =>
          (c, [EvLog LogError ("cannot parse configuration file (defaults applied): " +:+ what)])
      | inl (JObject message) => load_object c message
      | inl _ => (c, [EvLog LogError "configuration root is not a JSON object (defaults applied)"])
      end
  end.

(** [Configurations::parse]: the command line. *)
Definition parse_arguments (c : Configurations) (arguments : ArgumentParser) : Configurations := {|
  root_path_ := root_path_ c;
  config_path_ := config_path_ c;
  worker_title_ := default (worker_title_ c) (arg_to_string arguments "--worker_title");
  write_file_log_ := default (write_file_log_ c) (arg_to_int arguments "--write_file_log");
  write_console_log_ := default (write_console_log_ c) (arg_to_int arguments "--write_console_log");
  write_interval_ := write_interval_ c;
  log_root_path_ := log_root_path_ c;
  high_priority_count_ := high_priority_count_ c;
  normal_priority_count_ := normal_priority_count_ c;
  low_priority_count_ := low_priority_count_ c;
  redis_host_ := default (redis_host_ c) (arg_to_string arguments "--redis_host");
  redis_port_ := redis_port_ c;
  redis_db_index_ := redis_db_index_ c;
  redis_ttl_sec_ := redis_ttl_sec_ c;
  aws_region_ := aws_region_ c;
  aws_access_key_ := aws_access_key_ c;
  aws_secret_key_ := aws_secret_key_ c;
  aws_endpoint_ := default (aws_endpoint_ c) (arg_to_string arguments "--aws_endpoint");
  sqs_request_queue_url_ :=
    default (sqs_request_queue_url_ c) (arg_to_string arguments "--sqs_request_queue_url");
  sqs_message_group_id_ := sqs_message_group_id_ c;
  sqs_wait_time_seconds_ := sqs_wait_time_seconds_ c;
  sqs_visibility_timeout_ := sqs_visibility_timeout_ c;
  sqs_max_number_of_messages_ := sqs_max_number_of_messages_ c;
  s3_bucket_ := s3_bucket_ c;
  presign_ttl_sec_ := presign_ttl_sec_ c;
  dlq_path_ := dlq_path_ c;
  dlq_max_retry_count_ := dlq_max_retry_count_ c;
  dlq_backlog_alert_count_ := dlq_backlog_alert_count_ c;
  default_timeout_sec_ := default_timeout_sec_ c;
  task_whitelist_ := task_whitelist_ c;
|}.

Definition validate_configuration (c : Configurations) : Configurations := {|
  root_path_ := root_path_ c;
  config_path_ := config_path_ c;
  worker_title_ := worker_title_ c;
  write_file_log_ := write_file_log_ c;
  write_console_log_ := write_console_log_ c;
  write_interval_ := write_interval_ c;
  log_root_path_ := if size (log_root_path_ c) =? 0 then root_path_ c else log_root_path_ c;
  high_priority_count_ := if high_priority_count_ c <? 0 then 1 else high_priority_count_ c;
  normal_priority_count_ := if normal_priority_count_ c <? 0 then 2 else normal_priority_count_ c;
  low_priority_count_ := if low_priority_count_ c <? 0 then 1 else low_priority_count_ c;
  redis_host_ := redis_host_ c;
  redis_port_ := if (redis_port_ c <=? 0) || (65535 <? redis_port_ c) then 6379 else redis_port_ c;
  redis_db_index_ := redis_db_index_ c;
  redis_ttl_sec_ := if redis_ttl_sec_ c <? 0 then 3600 else redis_ttl_sec_ c;
  aws_region_ := aws_region_ c;
  aws_access_key_ := aws_access_key_ c;
  aws_secret_key_ := aws_secret_key_ c;
  aws_endpoint_ := aws_endpoint_ c;
  sqs_request_queue_url_ := sqs_request_queue_url_ c;
  sqs_message_group_id_ := sqs_message_group_id_ c;
  sqs_wait_time_seconds_ :=
    if (sqs_wait_time_seconds_ c <? 0) || (20 <? sqs_wait_time_seconds_ c) then 5
    else sqs_wait_time_seconds_ c;
  sqs_visibility_timeout_ := if sqs_visibility_timeout_ c <=? 0 then 60 else sqs_visibility_timeout_ c;
  sqs_max_number_of_messages_ :=
    if (sqs_max_number_of_messages_ c <=? 0) || (10 <? sqs_max_number_of_messages_ c) then 1
    else sqs_max_number_of_messages_ c;
  s3_bucket_ := s3_bucket_ c;
  presign_ttl_sec_ := if presign_ttl_sec_ c <=? 0 then 600 else presign_ttl_sec_ c;
  dlq_path_ := if size (dlq_path_ c) =? 0 then path_div (root_path_ c) "dlq" else dlq_path_ c;
  dlq_max_retry_count_ := if dlq_max_retry_count_ c <? 0 then 3 else dlq_max_retry_count_ c;
  dlq_backlog_alert_count_ := dlq_backlog_alert_count_ c;
  default_timeout_sec_ := if default_timeout_sec_ c <=? 0 then 30 else default_timeout_sec_ c;
  task_whitelist_ := task_whitelist_ c;
|}.

(** Where the constructor looks for the file. *)
Definition config_path (arguments : ArgumentParser) : string :=
  match arg_to_string arguments "--config_path" with
  | Some p => p
  | None => path_div (program_folder arguments) "task_forge_worker_configurations.json"
  end.

Definition with_paths (c : Configurations) (root path : string) : Configurations := {|
  root_path_ := root;
  config_path_ := path;
  worker_title_ := worker_title_ c;
  write_file_log_ := write_file_log_ c;
  write_console_log_ := write_console_log_ c;
  write_interval_ := write_interval_ c;
  log_root_path_ := log_root_path_ c;
  high_priority_count_ := high_priority_count_ c;
  normal_priority_count_ := normal_priority_count_ c;
  low_priority_count_ := low_priority_count_ c;
  redis_host_ := redis_host_ c;
  redis_port_ := redis_port_ c;
  redis_db_index_ := redis_db_index_ c;
  redis_ttl_sec_ := redis_ttl_sec_ c;
  aws_region_ := aws_region_ c;
  aws_access_key_ := aws_access_key_ c;
  aws_secret_key_ := aws_secret_key_ c;
  aws_endpoint_ := aws_endpoint_ c;
  sqs_request_queue_url_ := sqs_request_queue_url_ c;
  sqs_message_group_id_ := sqs_message_group_id_ c;
  sqs_wait_time_seconds_ := sqs_wait_time_seconds_ c;
  sqs_visibility_timeout_ := sqs_visibility_timeout_ c;
  sqs_max_number_of_messages_ := sqs_max_number_of_messages_ c;
  s3_bucket_ := s3_bucket_ c;
  presign_ttl_sec_ := presign_ttl_sec_ c;
  dlq_path_ := dlq_path_ c;
  dlq_max_retry_count_ := dlq_max_retry_count_ c;
  dlq_backlog_alert_count_ := dlq_backlog_alert_count_ c;
  default_timeout_sec_ := default_timeout_sec_ c;
  task_whitelist_ := task_whitelist_ c;
|}.

(** The constructor, with the answer of the file system for the path it asks
    for. *)
Definition make_configurations (arguments : ArgumentParser) (read_file : string → ConfigFile)
    : Configurations * list Event :=
  let path := config_path arguments in
  let '(loaded, es) := load (with_paths default_configurations (program_folder arguments) path) (read_file path) in
  (validate_configuration (parse_arguments loaded arguments), es).

End Construction.

Definition validate_required (c : Configurations) : expected unit :=
  if size (sqs_request_queue_url_ c) =? 0 then Unexpected "sqs_request_queue_url is required"
  else if size (s3_bucket_ c) =? 0 then Unexpected "s3_bucket is required"
  else match task_whitelist_ c with
       | [] => Unexpected "task_whitelist must contain at least one task"
       | _ :: _ => Expected ()
       end.

(** ** The invariant of a constructed configuration *)

(** The ranges the services accept. *)
Record config_ok (c : Configurations) : Prop := {
  ok_redis_port : 1 ≤ redis_port_ c ≤ 65535;
  ok_redis_ttl : 0 ≤ redis_ttl_sec_ c;
  ok_wait_time : 0 ≤ sqs_wait_time_seconds_ c ≤ 20;
  ok_visibility : 1 ≤ sqs_visibility_timeout_ c;
  ok_max_messages : 1 ≤ sqs_max_number_of_messages_ c ≤ 10;
  ok_presign_ttl : 1 ≤ presign_ttl_sec_ c;
  ok_max_retry : 0 ≤ dlq_max_retry_count_ c;
  ok_timeout : 1 ≤ default_timeout_sec_ c;
  ok_high : 0 ≤ high_priority_count_ c;
  ok_normal : 0 ≤ normal_priority_count_ c;
  ok_low : 0 ≤ low_priority_count_ c;
  ok_dlq_path : dlq_path_ c ≠ "";
  ok_log_root : root_path_ c ≠ "" → log_root_path_ c ≠ "";
}.

Lemma path_div_nonempty p q : q ≠ "" → path_div p q ≠ "".
Proof. unfold path_div. intros Hq. repeat case_match; [done|..]; destruct p; simpl; try done. Qed.

Lemma validate_configuration_ok c : config_ok (validate_configuration c).
Proof.
  split; simpl; repeat (case_match; bool_to_prop);
    rewrite ?orb_true_iff in *; bool_to_prop; try lia;
    try (by apply path_div_nonempty); try done;
    intros; intros Heq; rewrite Heq in *; simpl in *; done.
Qed.

Lemma validate_configuration_id c : config_ok c → validate_configuration c = c ∨ root_path_ c = "".
Proof.
  intros []. destruct (decide (root_path_ c = "")) as [|Hroot]; [by right|left].
  specialize (ok_log_root0 Hroot).
  destruct c; unfold validate_configuration; simpl in *.
  f_equal; rewrite ?(proj2 (size_nonzero _)) by done; try done;
    repeat match goal with
    | |- context [?a <? ?b] => destruct (Z.ltb_spec a b); try lia
    | |- context [?a <=? ?b] => destruct (Z.leb_spec a b); try lia
    end; done.
Qed.

(** ** A document that spells out a configuration *)

Definition task_json (t : TaskDefinition) : json := JObject (list_to_map [
  ("name", JString (task_name t));
  ("executable", JString (task_executable t));
  ("description", JString (task_description t))]).

(** Every member under the key of its name. *)
Definition config_json (c : Configurations) : object := list_to_map [
  ("worker_title", JString (worker_title_ c));
  ("write_file_log", JInt64 (write_file_log_ c));
  ("write_console_log", JInt64 (write_console_log_ c));
  ("write_interval", JInt64 (write_interval_ c));
  ("log_root_path", JString (log_root_path_ c));
  ("high_priority_count", JInt64 (high_priority_count_ c));
  ("normal_priority_count", JInt64 (normal_priority_count_ c));
  ("low_priority_count", JInt64 (low_priority_count_ c));
  ("redis_host", JString (redis_host_ c));
  ("redis_port", JInt64 (redis_port_ c));
  ("redis_db_index", JInt64 (redis_db_index_ c));
  ("redis_ttl_sec", JInt64 (redis_ttl_sec_ c));
  ("aws_region", JString (aws_region_ c));
  ("aws_access_key", JString (aws_access_key_ c));
  ("aws_secret_key", JString (aws_secret_key_ c));
  ("aws_endpoint", JString (aws_endpoint_ c));
  ("sqs_request_queue_url", JString (sqs_request_queue_url_ c));
  ("sqs_message_group_id", JString (sqs_message_group_id_ c));
  ("sqs_wait_time_seconds", JInt64 (sqs_wait_time_seconds_ c));
  ("sqs_visibility_timeout", JInt64 (sqs_visibility_timeout_ c));
  ("sqs_max_number_of_messages", JInt64 (sqs_max_number_of_messages_ c));
  ("s3_bucket", JString (s3_bucket_ c));
  ("presign_ttl_sec", JInt64 (presign_ttl_sec_ c));
  ("dlq_path", JString (dlq_path_ c));
  ("dlq_max_retry_count", JInt64 (dlq_max_retry_count_ c));
  ("dlq_backlog_alert_count", JInt64 (dlq_backlog_alert_count_ c));
  ("default_timeout_sec", JInt64 (default_timeout_sec_ c));
  ("task_whitelist", JArray (task_json <$> task_whitelist_ c))].

(** Members hold values of their C++ type: 32-bit integers, and strings
    without NUL (what [c_str] can hold). *)
Definition no_nul (s : string) : Prop := c_str s = s.

Record config_typed (c : Configurations) : Prop := {
  typed_ints : Forall in_int [write_file_log_ c; write_console_log_ c; write_interval_ c;
    high_priority_count_ c; normal_priority_count_ c; low_priority_count_ c; redis_port_ c;
    redis_db_index_ c; sqs_wait_time_seconds_ c; sqs_visibility_timeout_ c;
    sqs_max_number_of_messages_ c; presign_ttl_sec_ c; dlq_max_retry_count_ c;
    dlq_backlog_alert_count_ c; default_timeout_sec_ c];
  typed_strings : Forall no_nul [worker_title_ c; log_root_path_ c; redis_host_ c; aws_region_ c;
    aws_access_key_ c; aws_secret_key_ c; aws_endpoint_ c; sqs_request_queue_url_ c;
    sqs_message_group_id_ c; s3_bucket_ c; dlq_path_ c];
  typed_tasks : Forall (λ t, no_nul (task_name t) ∧ no_nul (task_executable t) ∧
    no_nul (task_description t)) (task_whitelist_ c);
}.

Lemma read_whitelist_tasks ts :
  Forall (λ t, no_nul (task_name t) ∧ no_nul (task_executable t) ∧ no_nul (task_description t)) ts →
  read_whitelist (task_json <$> ts) = (ts, []).
Proof.
  unfold no_nul. induction 1 as [|[n e d] ts (Hn & He & Hd) _ IH]; [done|].
  cbn [fmap list_fmap read_whitelist]. rewrite IH.
  assert (Hr : read_whitelist_entry (task_json (mkTask n e d)) =
               (Some (mkTask (c_str n) (c_str e) (c_str d)), [])) by reflexivity.
  simpl in *. rewrite Hr, Hn, He, Hd. done.
Qed.

Section Lookups.
Context (c : Configurations) (Hc : config_typed c).

Lemma read_int_config key z target :
  config_json c !! key = Some (JInt64 z) → in_int z → read_int (config_json c) key target = z.
Proof.
  intros Hk Hz. unfold read_int. rewrite (proj2 (get_int64_Some _ _ _) Hk). by apply to_int_id.
Qed.

Lemma read_string_config key s target :
  config_json c !! key = Some (JString s) → no_nul s → read_string (config_json c) key target = s.
Proof. intros Hk Hs. unfold read_string. by rewrite (proj2 (get_string_Some _ _ _) Hk). Qed.

(** Reading a document that spells out [c] gives back [c], over any base
    configuration with the same paths. *)
Lemma load_config_json base :
  load_object base (config_json c) = (with_paths c (root_path_ base) (config_path_ base), []).
Proof using Hc.
  destruct Hc as [Hi Hs Ht]. unfold load_object.
  assert (Hw : get_array (config_json c) "task_whitelist" = Some (task_json <$> task_whitelist_ c))
    by reflexivity.
  rewrite Hw, read_whitelist_tasks by done.
  repeat (rewrite Forall_cons in Hi || rewrite Forall_cons in Hs).
  unfold with_paths. f_equal.
  destruct_and?.
  f_equal; first
    [ done
    | apply read_string_config; [reflexivity|done]
    | apply read_int_config; [reflexivity|done]
    | unfold read_long; reflexivity ].
Qed.
End Lookups.

(** ** Properties *)

Section Properties.
Context `{JsonCodec} (log_information : Z).

(** C39: whatever the command line, the file and its content, a constructed
    configuration is within the ranges the code enforces, and its paths are
    set. *)
Theorem make_configurations_in_range arguments read_file :
  config_ok (make_configurations log_information arguments read_file).1.
Proof.
  unfold make_configurations. destruct (load _ _) as [loaded es]. apply validate_configuration_ok.
Qed.

(** Reading back a document that spells out a configuration recovers
    every member (so every key is read into the member of its name, and none
    is lost), for members of their C++ type. *)
Theorem load_roundtrip `{!JsonCodecLaws} base c :
  config_typed c → json_wf (JObject (config_json c)) = true →
  load base (FileBytes (serialize (JObject (config_json c)))) =
    (with_paths c (root_path_ base) (config_path_ base), []).
Proof.
  intros Hc Hwf. unfold load. rewrite parse_serialize by done. by apply load_config_json.
Qed.

(** A missing, unreadable, malformed or non-object configuration file
    leaves every setting as it was and is reported by one log line. *)
Theorem load_unusable_file c file :
  (∀ text message, file = FileBytes text → parse text ≠ inl (JObject message)) →
  ∃ level line, load c file = (c, [EvLog level line]).
Proof.
  intros Hf. destruct file as [|e|text]; simpl; [by eauto..|].
  specialize (Hf text). destruct (parse text) as [v|what]; [|by eauto].
  destruct v; try (by eauto). by destruct (Hf o).
Qed.

(** Settings given on the command line override the file and the
    defaults; without them the loaded value stands. *)
Theorem command_line_overrides arguments read_file :
  let c := (make_configurations log_information arguments read_file).1 in
  let path := config_path arguments in
  let loaded := (load (with_paths (default_configurations log_information) (program_folder arguments) path)
                   (read_file path)).1 in
  sqs_request_queue_url_ c =
    default (sqs_request_queue_url_ loaded) (arg_to_string arguments "--sqs_request_queue_url") ∧
  aws_endpoint_ c = default (aws_endpoint_ loaded) (arg_to_string arguments "--aws_endpoint") ∧
  redis_host_ c = default (redis_host_ loaded) (arg_to_string arguments "--redis_host") ∧
  worker_title_ c = default (worker_title_ loaded) (arg_to_string arguments "--worker_title") ∧
  write_file_log_ c = default (write_file_log_ loaded) (arg_to_int arguments "--write_file_log") ∧
  write_console_log_ c = default (write_console_log_ loaded) (arg_to_int arguments "--write_console_log") ∧
  s3_bucket_ c = s3_bucket_ loaded ∧ task_whitelist_ c = task_whitelist_ loaded.
Proof.
  unfold make_configurations. cbv zeta. by destruct (load _ _) as [loaded es].
Qed.

End Properties.

(** The configuration shipped with the worker (descriptions in English). *)
Definition shipped_configuration : Configurations :=
  {| root_path_ := "/srv"; config_path_ := "/srv/task_forge_worker_configurations.json";
     worker_title_ := "TaskForgeWorker"; write_file_log_ := 4; write_console_log_ := 4;
     write_interval_ := 1000; log_root_path_ := ""; high_priority_count_ := 1;
     normal_priority_count_ := 2; low_priority_count_ := 1; redis_host_ := "127.0.0.1";
     redis_port_ := 6379; redis_db_index_ := 0; redis_ttl_sec_ := 3600; aws_region_ := "us-east-1";
     aws_access_key_ := "test"; aws_secret_key_ := "test"; aws_endpoint_ := "http://127.0.0.1:4566";
     sqs_request_queue_url_ := "http://127.0.0.1:4566/000000000000/taskforge-jobs-request.fifo";
     sqs_message_group_id_ := "request"; sqs_wait_time_seconds_ := 5; sqs_visibility_timeout_ := 60;
     sqs_max_number_of_messages_ := 1; s3_bucket_ := "taskforge-jobs"; presign_ttl_sec_ := 600;
     dlq_path_ := ""; dlq_max_retry_count_ := 3; dlq_backlog_alert_count_ := 10;
     default_timeout_sec_ := 30;
     task_whitelist_ := [mkTask "wordcount" "tasks/wordcount.sh" "counts words";
                         mkTask "checksum" "tasks/checksum.sh" "SHA-256"] |}.

Lemma shipped_configuration_typed : config_typed shipped_configuration.
Proof. split; repeat constructor; vm_compute; done. Qed.

Lemma load_roundtrip_witness :
  @load RefCodec.ref_codec (default_configurations 4)
    (FileBytes (@serialize RefCodec.ref_codec (JObject (config_json shipped_configuration)))) =
  (with_paths shipped_configuration "" "", []).
Proof.
  refine (@load_roundtrip RefCodec.ref_codec RefCodec.ref_codec_laws (default_configurations 4)
    shipped_configuration shipped_configuration_typed _).
  vm_compute. reflexivity.
Defined.

Lemma load_unusable_file_witness :
  ∃ level line, load (H := RefCodec.ref_codec) (default_configurations 4) (FileBytes "{") =
    (default_configurations 4, [EvLog level line]).
Proof.
  apply (load_unusable_file (H := RefCodec.ref_codec)). intros text message [= <-]. vm_compute. done.
Defined.
