(* ===== verification/TaskDLQ.v ===== *)
(** * The file-based dead-letter queue (Main/TaskDLQ.{h,cpp})

    One JSON file per failed job under the queue's directory, holding the
    number of failures so far.  The count that matters is the larger of the
    file's and the one the message itself carries. *)

From S2P Require Import Prelude Utf8 Json Filesystem Effects Testbed MessageValidation.
Import MessageValidation.

Module TaskDLQ.

Record t := mkDLQ {
  dlq_path : string;
  max_retry_count : Z;
}.

(** [std::format("{}.json", job_id)] *)
Definition entry_name (job_id : string) : string := job_id +:+ ".json".

Definition entry_path (q : t) (job_id : string) : string := path_div (dlq_path q) (entry_name job_id).

Definition can_retry (q : t) (try_count : Z) : bool := try_count <=? max_retry_count q.

Section Operations.
Context {X : Type} `{JsonCodec}.

(** The constructor: the directory is created when it is missing. *)
Definition make (path : string) (max_retry : Z) : M X t :=
  fs ← get_files;
  let '(fs', created) := create_directories fs path in
  set_files fs';;
  (if created then mret ()
   else log LogWarning ("cannot create dlq directory [" +:+ path +:+ "]: "
                        +:+ error_message fs OpMkdir (resolve fs path)));;
  mret (mkDLQ path max_retry).

(** The count found in the text of an entry. *)
Definition stored_count (text : string) : option Z :=
  match parse text with
  | inl (JObject o) => to_int <$> get_int64 o "try_count"
  | _ => None
  end.

(** [entry[...] = ...] in [record_failure]. *)
Definition entry_object (job_id request_message failure_reason : string) (try_count : Z) : object :=
  <["request_message" := JString request_message]>
  (<["failure_reason" := JString failure_reason]>
  (<["try_count" := JInt64 try_count]>
  (<["job_id" := JString job_id]> ∅))).

(** The count read before the increment. *)
Definition previous_count (fs : FileSystem) (path : string) (inbound_try_count : Z) : Z :=
  let try_count := if 0 <? inbound_try_count then inbound_try_count else 0 in
  if bool_decide (is_Some (node_at fs (resolve fs path))) then
    match open_read fs path with
    | Some text =>
        match stored_count text with
        | Some n => Z.max try_count n
        | None => try_count
        end
    | None => try_count
    end
  else try_count.

(** [try_count += 1] on an [int]: undefined when it overflows. *)
Definition increment (try_count : Z) : M X Z :=
  if bool_decide (try_count = INT_MAX) then undefined else mret (try_count + 1).

Definition record_failure (q : t) (job_id request_message failure_reason : string)
    (inbound_try_count : Z) : M X (expected Z) :=
  let path := entry_path q job_id in
  fs ← get_files;
  if denied fs OpStat (resolve fs path) then throw (error_message fs OpStat (resolve fs path)) else
  try_count ← increment (previous_count fs path inbound_try_count);
  let entry := entry_object job_id request_message failure_reason try_count in
  match write_file fs path (serialize (JObject entry)) with
  | None => mret (Unexpected ("cannot write dlq entry: " +:+ path))
  | Some fs' => set_files fs';; mret (Expected try_count)
  end.

Definition remove (q : t) (job_id : string) : M X unit :=
  fs ← get_files;
  set_files (fs_remove fs (entry_path q job_id)).

(** The loop of [pending_count]; [is_regular_file()] throws when the entry's
    status cannot be read. *)
Fixpoint count_entries (fs : FileSystem) (dir : string) (entries : list (string * node)) (count : Z) : M X Z :=
  match entries with
  | [] => mret count
  | (name, n) :: rest =>
      if denied fs OpStat (resolve fs dir ++ [name])
      then throw (error_message fs OpStat (resolve fs dir ++ [name]))
      else
        let regular := match n with RegularFile _ => true | _ => false end in
        if regular && bool_decide (path_extension (path_div dir name) = ".json")
        then count_entries fs dir rest (count + 1)
        else count_entries fs dir rest count
  end.

Definition pending_count (q : t) : M X Z :=
  fs ← get_files;
  if negb (fs_exists fs (dlq_path q)) then mret 0
  else match directory_entries fs (dlq_path q) with
       | None => mret 0
       | Some entries => count_entries fs (dlq_path q) entries 0
       end.

(** ** Lemmas *)

Lemma previous_count_ge fs path inbound :
  0 ≤ previous_count fs path inbound ∧ inbound ≤ previous_count fs path inbound.
Proof.
  unfold previous_count. destruct (Z.ltb_spec 0 inbound); repeat case_match; lia.
Qed.

Lemma entry_try_count job_id req reason n :
  entry_object job_id req reason n !! "try_count" = Some (JInt64 n).
Proof. reflexivity. Qed.

Lemma entry_object_wf job_id req reason n :
  valid_utf8 job_id = true → valid_utf8 req = true → valid_utf8 reason = true → in_int64 n →
  json_wf (JObject (entry_object job_id req reason n)) = true.
Proof.
  intros. unfold entry_object, json_wf. repeat apply json_wf_insert; try done. simpl.
  by apply bool_decide_eq_true.
Qed.

(** The four ways [record_failure] can end. *)
Lemma record_failure_cases q job_id req reason inbound (s : Machine X) :
  let path := entry_path q job_id in
  let fs := files s in
  let n := previous_count fs path inbound in
  record_failure q job_id req reason inbound s =
    if denied fs OpStat (resolve fs path)
    then (Threw (error_message fs OpStat (resolve fs path)), s, [])
    else if bool_decide (n = INT_MAX) then (Undefined, s, [])
    else match write_file fs path (serialize (JObject (entry_object job_id req reason (n + 1)))) with
         | None => (Returned (Unexpected ("cannot write dlq entry: " +:+ path)), s, [])
         | Some fs' => (Returned (Expected (n + 1)), mkMachine fs' (ext s), [])
         end.
Proof.
  cbv zeta. unfold record_failure, increment. destruct s as [fs x].
  unfold mbind, M_bind, get_files; simpl.
  destruct (denied _ _ _); [done|]. case_bool_decide; [done|]. simpl.
  by destruct (write_file _ _ _).
Qed.

(** A recorded count exceeds the one the message carried. *)
Lemma record_failure_count q job_id req reason inbound (s s' : Machine X) es n :
  record_failure q job_id req reason inbound s = (Returned (Expected n), s', es) →
  1 ≤ n ∧ inbound < n.
Proof.
  rewrite record_failure_cases. cbv zeta.
  pose proof (previous_count_ge (files s) (entry_path q job_id) inbound).
  intros Hr. repeat case_match; simplify_eq. lia.
Qed.

(** It is a value of the counter's type. *)
Lemma record_failure_in_int q job_id req reason inbound (s s' : Machine X) es n :
  in_int inbound → record_failure q job_id req reason inbound s = (Returned (Expected n), s', es) → in_int n.
Proof.
  intros Hin. rewrite record_failure_cases. cbv zeta.
  pose proof (previous_count_ge (files s) (entry_path q job_id) inbound).
  assert (Hle : previous_count (files s) (entry_path q job_id) inbound ≤ INT_MAX).
  { assert (Hstored : ∀ text m, stored_count text = Some m → m ≤ INT_MAX).
    { intros text m. unfold stored_count. destruct (parse text) as [[]|]; try done.
      destruct (get_int64 _ _) as [z|]; [|done]. intros [= <-]. apply to_int_range. }
    unfold previous_count. unfold in_int in Hin. assert (0 ≤ INT_MAX) by done.
    destruct (0 <? inbound); repeat case_match; try lia;
      match goal with Hs : stored_count _ = Some _ |- _ => apply Hstored in Hs; lia end. }
  intros Hr. case_match; [done|]. case_bool_decide; [done|]. case_match; simplify_eq.
  unfold in_int, INT_MIN in *. lia.
Qed.

Lemma record_failure_emits P q job_id req reason inbound :
  emits P (record_failure q job_id req reason inbound).
Proof. unfold record_failure, increment. emits_tac. Qed.

Lemma remove_emits P q job_id : emits P (remove q job_id).
Proof. unfold remove. emits_tac. Qed.

Lemma remove_run q job_id (s : Machine X) :
  remove q job_id s = (Returned (), mkMachine (fs_remove (files s) (entry_path q job_id)) (ext s), []).
Proof. done. Qed.

Lemma remove_returns q job_id : returns (remove q job_id).
Proof. unfold remove. returns_tac. Qed.

Lemma entry_path_resolve (fs : FileSystem) q job_id :
  is_valid_job_id job_id = true →
  resolve fs (entry_path q job_id) = resolve fs (dlq_path q) ++ [entry_name job_id].
Proof.
  intros Hid. apply resolve_child, valid_job_id_plain; [done|].
  vm_compute. naive_solver.
Qed.

Lemma entry_path_nonroot (fs : FileSystem) q job_id :
  is_valid_job_id job_id = true → resolve fs (entry_path q job_id) ≠ [].
Proof. intros Hid. rewrite entry_path_resolve by done. by destruct (resolve fs (dlq_path q)). Qed.

Lemma entry_path_extension q job_id :
  is_valid_job_id job_id = true → path_extension (entry_path q job_id) = ".json".
Proof.
  intros Hid. pose proof (valid_job_id_nonempty _ Hid) as Hne.
  assert (Hp : plain_name (entry_name job_id)).
  { apply valid_job_id_plain; [done|]. vm_compute. naive_solver. }
  unfold path_extension, entry_path. rewrite path_filename_child by done.
  rewrite bool_decide_eq_false_2 by (destruct Hp; naive_solver).
  unfold entry_name. rewrite (last_dot_app _ ".json" ".json") by done.
  rewrite bool_decide_eq_false_2; [done|]. intros Heq.
  apply (f_equal String.length) in Heq. rewrite str_length_app in Heq. simpl in Heq.
  destruct job_id; [done|]. simpl in Heq. lia.
Qed.

(** Whether a directory entry counts as pending. *)
Definition pending_entry (dir : string) (e : string * node) : bool :=
  match e.2 with RegularFile _ => true | _ => false end
  && bool_decide (path_extension (path_div dir e.1) = ".json").

Lemma count_entries_run fs dir entries n (s : Machine X) :
  Forall (λ e, denied fs OpStat (resolve fs dir ++ [e.1]) = false) entries →
  count_entries fs dir entries n s =
    (Returned (n + Z.of_nat (length (filter (λ e, pending_entry dir e = true) entries))), s, []).
Proof.
  revert n. induction entries as [|[name nd] l IH]; intros n Hd; simpl.
  - unfold mret, M_ret. do 3 f_equal. lia.
  - apply Forall_cons in Hd as [Hd Hl]. simpl in Hd. rewrite Hd.
    change (_ && _) with (pending_entry dir (name, nd)).
    rewrite filter_cons. case_decide as Hp.
    + rewrite Hp, IH by done. cbn [length]. do 3 f_equal. lia.
    + apply not_true_is_false in Hp. by rewrite Hp, IH.
Qed.

End Operations.

(** ** Properties *)

Section Properties.
Context {X : Type} `{JsonCodec}.

(** The number of pending entries of the queue's directory. *)
Definition pending (fs : FileSystem) (q : t) : Z :=
  Z.of_nat (length (filter (λ e, pending_entry (dlq_path q) e = true)
                      (children fs (resolve fs (dlq_path q))))).

Lemma previous_count_bound fs path inbound : inbound ≤ INT_MAX → previous_count fs path inbound ≤ INT_MAX.
Proof.
  intros Hi. unfold previous_count, stored_count.
  assert (0 ≤ INT_MAX) by (vm_compute; done).
  destruct (0 <? inbound); repeat case_match; simplify_option_eq; try lia;
    match goal with |- context [to_int ?z] => pose proof (to_int_range z) as [_ ?] end; lia.
Qed.

Lemma entry_pending q job_id c :
  is_valid_job_id job_id = true → pending_entry (dlq_path q) (entry_name job_id, RegularFile c) = true.
Proof.
  intros Hid. unfold pending_entry; simpl.
  apply bool_decide_eq_true. by apply entry_path_extension.
Qed.

(** The file system after a recorded failure. *)
Lemma record_failure_Returned q job_id req reason inbound (s s' : Machine X) es n :
  record_failure q job_id req reason inbound s = (Returned (Expected n), s', es) →
  n = previous_count (files s) (entry_path q job_id) inbound + 1 ∧ n ≠ INT_MAX + 1 ∧
  write_file (files s) (entry_path q job_id)
    (serialize (JObject (entry_object job_id req reason n))) = Some (files s').
Proof.
  rewrite record_failure_cases. cbv zeta. intros Hr.
  destruct (denied _ _ _); [done|]. case_bool_decide; [done|].
  destruct (write_file _ _ _) as [fs'|] eqn:Hw; [|done]. simplify_eq. simpl. split_and!; [done|lia|done].
Qed.

(** C38: failures accumulate in the entry's file. After a failure recorded as
    the [n]-th, with a request and a reason in UTF-8 and no file fault at the
    entry, the file alone makes the next one the [n+1]-th, whatever smaller
    count the next message carries. *)
Theorem record_failure_accumulates `{!JsonCodecLaws} q job_id req reason inbound (s s' : Machine X) es n :
  is_valid_job_id job_id = true → valid_utf8 req = true → valid_utf8 reason = true →
  inbound ≤ INT_MAX → (∀ op, denied (files s) op (resolve (files s) (entry_path q job_id)) = false) →
  record_failure q job_id req reason inbound s = (Returned (Expected n), s', es) →
  ∀ inbound', inbound' ≤ n → previous_count (files s') (entry_path q job_id) inbound' = n.
Proof.
  intros Hid Hreq Hreason Hin Hden Hr inbound' Hle.
  apply record_failure_Returned in Hr as (Hn & Hmax & Hw).
  pose proof (previous_count_bound (files s) (entry_path q job_id) inbound Hin).
  pose proof (previous_count_ge (files s) (entry_path q job_id) inbound).
  unfold write_file in Hw. destruct (can_open_write _ _); [|done]. rewrite Hden in Hw.
  injection Hw as Hw. set (r := resolve (files s) (entry_path q job_id)) in *.
  assert (Hr : resolve (files s') (entry_path q job_id) = r) by (by rewrite <-Hw).
  assert (Hne : r ≠ []) by (by apply entry_path_nonroot).
  assert (Hnode : node_at (files s') r =
    Some (RegularFile (serialize (JObject (entry_object job_id req reason n))))).
  { rewrite <-Hw. by apply node_at_insert. }
  unfold previous_count, open_read. rewrite Hr, Hnode.
  replace (denied (files s') OpRead r) with (denied (files s) OpRead r) by (by rewrite <-Hw).
  rewrite Hden. rewrite bool_decide_eq_true_2 by done.
  unfold stored_count. rewrite parse_serialize.
  2:{ apply entry_object_wf; try done; [by apply valid_job_id_utf8|].
      unfold in_int64, INT64_MIN, INT64_MAX, INT_MAX in *. lia. }
  rewrite (proj2 (get_int64_Some _ _ _) (entry_try_count job_id req reason n)). simpl.
  rewrite to_int_id by (unfold in_int, INT_MIN in *; lia).
  destruct (0 <? inbound'); lia.
Qed.

(** The entry of a failure whose reason is not UTF-8 (it holds the output of
    the task as it is) cannot be read back: its count is lost. *)
Theorem invalid_reason_count_lost `{!JsonCodecLaws} job_id req reason n :
  valid_utf8 reason = false → stored_count (serialize (JObject (entry_object job_id req reason n))) = None.
Proof.
  intros Hr. unfold stored_count. destruct (parse_serialize_invalid (JObject (entry_object job_id req reason n)))
    as [what ->]; [|done].
  destruct (json_utf8 _) eqn:Hu; [|done].
  assert (Hk : entry_object job_id req reason n !! "failure_reason" = Some (JString reason)) by done.
  pose proof (json_utf8_lookup _ _ _ Hu Hk). simpl in *. congruence.
Qed.

(** Recording a failure is undefined behaviour exactly when the count
    already reached the largest [int]. *)
Theorem record_failure_overflow q job_id req reason inbound (s : Machine X) :
  denied (files s) OpStat (resolve (files s) (entry_path q job_id)) = false →
  (record_failure q job_id req reason inbound s).1.1 = Undefined ↔
  previous_count (files s) (entry_path q job_id) inbound = INT_MAX.
Proof.
  intros Hd. rewrite record_failure_cases. cbv zeta. rewrite Hd.
  case_bool_decide; [done|]. destruct (write_file _ _ _); simpl; naive_solver.
Qed.

Lemma pending_insert fs q job_id c r :
  is_valid_job_id job_id = true → r = resolve fs (entry_path q job_id) →
  pending (with_nodes fs (<[r := RegularFile c]> (nodes fs))) q =
  pending (with_nodes fs (delete r (nodes fs))) q + 1.
Proof.
  intros Hid ->. unfold pending. rewrite !resolve_with_nodes.
  rewrite entry_path_resolve, <-(insert_delete_eq (nodes fs)) by done.
  rewrite children_insert_new by apply lookup_delete_eq.
  rewrite filter_cons_True by (by apply entry_pending). simpl length. lia.
Qed.

(** The backlog the monitor sees. Recording a job's failure leaves one
    entry for it, however often it fails, and removing the job takes exactly
    that entry away. *)
Theorem pending_record_remove q job_id req reason inbound (s s' : Machine X) es n :
  is_valid_job_id job_id = true →
  denied (files s) OpRemove (resolve (files s) (entry_path q job_id)) = false →
  record_failure q job_id req reason inbound s = (Returned (Expected n), s', es) →
  let s'' := (remove q job_id s').1.2 in
  pending (files s') q = pending (files s'') q + 1 ∧
  (node_at (files s) (resolve (files s) (entry_path q job_id)) = None →
     pending (files s') q = pending (files s) q + 1) ∧
  (∀ old, node_at (files s) (resolve (files s) (entry_path q job_id)) = Some (RegularFile old) →
     pending (files s') q = pending (files s) q).
Proof.
  intros Hid Hdel Hr. apply record_failure_Returned in Hr as (_ & _ & Hw).
  unfold write_file in Hw. destruct (can_open_write _ _); [|done]. injection Hw as Hw. cbv zeta.
  rewrite remove_run. simpl. rewrite <-Hw. unfold fs_remove. rewrite !resolve_with_nodes.
  set (fs := files s) in *. set (r := resolve fs (entry_path q job_id)) in *.
  assert (Hne : r ≠ []) by (by apply entry_path_nonroot).
  change (denied (with_nodes _ _)) with (denied fs). rewrite Hdel, node_at_insert by done.
  rewrite bool_decide_eq_false_2 by done. simpl.
  rewrite (pending_insert _ _ job_id _ r) by done.
  change (with_nodes (with_nodes fs ?a) ?b) with (with_nodes fs b).
  split_and!.
  - by rewrite delete_insert_eq.
  - intros Hnone. rewrite delete_id by (by destruct r). by destruct fs.
  - intros old Hold. assert (Hl : nodes fs !! r = Some (RegularFile old)) by (by destruct r).
    rewrite <-(pending_insert _ _ job_id old r) by done. rewrite insert_id by done. by destruct fs.
Qed.

End Properties.

(** ** Concrete runs *)

Section Witnesses.
Import RefCodec.

Definition queue0 : t := mkDLQ "/srv/dlq" 3.
Definition machine0 : Machine Sim :=
  mkMachine sim_fs (mkSim ∅ ∅ [] 0 0 false "" [] false).
Definition machine1 : Machine Sim := (record_failure queue0 "job-1" "{}" "boom" 0 machine0).1.2.

Lemma record_failure_accumulates_witness :
  previous_count (files machine1) (entry_path queue0 "job-1") 0 = 1.
Proof.
  apply (record_failure_accumulates queue0 "job-1" "{}" "boom" 0 machine0 machine1 [] 1);
    try reflexivity; vm_compute; done.
Defined.

Lemma record_failure_overflow_witness :
  (record_failure queue0 "job-1" "{}" "boom" 2147483647 machine0).1.1 = Undefined.
Proof. apply record_failure_overflow; [reflexivity|vm_compute; reflexivity]. Defined.

Lemma pending_record_remove_witness :
  pending (files machine1) queue0 = pending (files machine0) queue0 + 1.
Proof.
  destruct (pending_record_remove queue0 "job-1" "{}" "boom" 0 machine0 machine1 [] 1)
    as (_ & Hnew & _); [vm_compute; reflexivity..|].
  apply Hnew. reflexivity.
Defined.

End Witnesses.

#[export] Hint Resolve record_failure_emits remove_emits remove_returns : taskforge.

End TaskDLQ.
