(* ===== verification/TaskExecutor.v ===== *)
(** * Running a whitelisted task (Main/TaskExecutor.{h,cpp})

    Lookup in the whitelist, resolution of the executable, the timeout clamp,
    the run itself (the child process and the event loop are [run_child] of
    [Services]; the two completion handlers are modelled here) and the tail of
    the captured output. *)

From S2P Require Import Prelude Utf8 Json Filesystem Effects Testbed Configurations.

Module TaskExecutor.

Record TaskExecutionResult := mkResult {
  exit_code : Z;
  timed_out : bool;
  stdout_tail : string;
}.

Record t := mkExecutor {
  whitelist : list TaskDefinition;
  root_path : string;
  default_timeout_sec : Z;
}.

Definition stdout_tail_bytes : nat := 2048.

Fixpoint find_in (definitions : list TaskDefinition) (name : string) : option TaskDefinition :=
  match definitions with
  | [] => None
  | definition :: rest =>
      if bool_decide (task_name definition = name) then Some definition else find_in rest name
  end.

Definition find_task (ex : t) (name : string) : option TaskDefinition := find_in (whitelist ex) name.

Definition resolve_executable (ex : t) (executable : string) : string :=
  if is_absolute executable then executable else path_div (root_path ex) executable.

(** The timeout in force: the request's when positive, the configured one
    otherwise, never more than the configured one. *)
Definition effective_timeout (ex : t) (timeout_sec : Z) : Z :=
  let effective := if 0 <? timeout_sec then timeout_sec else default_timeout_sec ex in
  if default_timeout_sec ex <? effective then default_timeout_sec ex else effective.

(** The scan [while (offset < tail.size() && (tail[offset] & 0xC0) == 0x80)]. *)
Fixpoint scan_continuation (tail : string) (offset : nat) : nat :=
  match tail with
  | String b rest => if is_continuation b then scan_continuation rest (S offset) else offset
  | EmptyString => offset
  end.

Definition read_stdout_tail (fs : FileSystem) (stdout_path : string) : string :=
  match open_read fs stdout_path with
  | None => ""
  | Some content =>
      let file_size := String.length content in
      let read_size := if (stdout_tail_bytes <? file_size)%nat then stdout_tail_bytes else file_size in
      let tail := str_drop (file_size - read_size) content in
      if (read_size <? file_size)%nat then
        let offset := scan_continuation tail 0 in
        if (0 <? offset)%nat then str_drop offset tail else tail
      else tail
  end.

Section Execution.
Context {X : Type} `{Services X}.

(** The completion handlers, called in the order of [completions]: the
    timer's sets [timed_out] and kills the process unless it was cancelled,
    the process's cancels the timer and reports a failed wait. *)
Fixpoint run_handlers (name : string) (completions : list Completion) (is_timed_out : bool) : M X bool :=
  match completions with
  | [] => mret is_timed_out
  | TimerDone (Some _) :: rest => run_handlers name rest is_timed_out
  | TimerDone None :: rest => run_handlers name rest true
  | ProcessDone None :: rest => run_handlers name rest is_timed_out
  | ProcessDone (Some e) :: rest =>
      log LogWarning ("process wait error [" +:+ name +:+ "]: " +:+ e);;
      run_handlers name rest is_timed_out
  end.

Definition execute (ex : t) (task : TaskDefinition) (arguments : list string)
    (inputs_dir outputs_dir stdout_path : string) (timeout_sec : Z)
    : M X (expected TaskExecutionResult) :=
  let executable_path := resolve_executable ex (task_executable task) in
  fs ← get_files;
  if negb (fs_exists fs executable_path) || negb (fs_is_regular_file fs executable_path)
  then mret (Unexpected ("task executable not found: " +:+ executable_path))
  else
  let timeout := effective_timeout ex timeout_sec in
  match write_file fs stdout_path "" with
  | None => mret (Unexpected ("cannot open stdout capture file: " +:+ stdout_path))
  | Some fs' =>
      set_files fs';;
      run ← RunChild executable_path (inputs_dir :: outputs_dir :: arguments) stdout_path timeout;
      match run with
      | SpawnThrew what =>
          mret (Unexpected ("cannot execute task [" +:+ task_name task +:+ "]: " +:+ what))
      | ChildRan completions code =>
          is_timed_out ← run_handlers (task_name task) completions false;
          fs'' ← get_files;
          let tail := read_stdout_tail fs'' stdout_path in
          if (is_timed_out : bool)
          then mret (Unexpected ("task [" +:+ task_name task +:+ "] timed out after "
                                 +:+ fmt_int timeout +:+ " seconds"))
          else mret (Expected (mkResult code false tail))
      end
  end.

(** ** Lemmas *)

Lemma execute_tail ex task args i o out timeout (s s' : Machine X) result es :
  execute ex task args i o out timeout s = (Returned (Expected result), s', es) →
  stdout_tail result = read_stdout_tail (files s') out.
Proof.
  unfold execute. intros Hr. bind_inv Hr as (fs & s1 & es1 & es2 & _ & Hr & ->).
  destruct (_ || _); [by ret_inv Hr|]. destruct (write_file _ _ _); [|by ret_inv Hr].
  bind_inv Hr as (? & s2 & es3 & es4 & _ & Hr & ->).
  bind_inv Hr as ([what|completions code] & s3 & es5 & es6 & _ & Hr & ->); [by ret_inv Hr|].
  bind_inv Hr as (b & s4 & es7 & es8 & _ & Hr & ->).
  bind_inv Hr as (fs'' & s5 & es9 & es10 & Hg & Hr & ->). unfold get_files in Hg. injection Hg as <- <- <-.
  destruct b; by ret_inv Hr.
Qed.

Lemma find_in_Some definitions name d :
  find_in definitions name = Some d → d ∈ definitions ∧ task_name d = name.
Proof.
  induction definitions as [|e l IH]; simpl; [done|]. case_bool_decide.
  - intros [= ->]. split; [by left|done].
  - intros Hd. destruct (IH Hd). split; [by right|done].
Qed.

Lemma find_in_None definitions name :
  find_in definitions name = None ↔ Forall (λ d, task_name d ≠ name) definitions.
Proof.
  induction definitions as [|e l IH]; simpl; [by split|]. rewrite Forall_cons.
  case_bool_decide; naive_solver.
Qed.

Lemma scan_continuation_spec tail n : scan_continuation tail n = (leading_continuation tail + n)%nat.
Proof.
  revert n. induction tail as [|b s IH]; intros n; simpl; [done|].
  destruct (is_continuation b); [|done]. rewrite IH. lia.
Qed.

Lemma drop_leading_continuation s : str_drop (leading_continuation s) s = drop_continuation s.
Proof. induction s as [|b s IH]; simpl; [done|]. by destruct (is_continuation b). Qed.

(** What the loop and the [erase] compute together. *)
Lemma read_stdout_tail_eq fs path content :
  open_read fs path = Some content →
  read_stdout_tail fs path =
    if (stdout_tail_bytes <? String.length content)%nat
    then drop_continuation (str_drop (String.length content - stdout_tail_bytes) content)
    else content.
Proof.
  intros Ho. unfold read_stdout_tail. rewrite Ho.
  destruct (Nat.ltb_spec stdout_tail_bytes (String.length content)) as [Hlt|Hge].
  - rewrite (proj2 (Nat.ltb_lt _ _) Hlt).
    set (t := str_drop _ _). rewrite scan_continuation_spec, Nat.add_0_r, <-drop_leading_continuation.
    by destruct (leading_continuation t).
  - rewrite Nat.ltb_irrefl, Nat.sub_diag. done.
Qed.

Definition timer_fired (completions : list Completion) : bool :=
  existsb (λ c, bool_decide (c = TimerDone None)) completions.

Lemma run_handlers_out name completions b (s : Machine X) :
  ∃ es, run_handlers name completions b s = (Returned (b || timer_fired completions), s, es).
Proof.
  revert b. induction completions as [|c l IH]; intros b; simpl.
  - exists []. by rewrite orb_false_r.
  - destruct c as [[e|]|[e|]]; simpl; try apply IH.
    + destruct (IH true) as [es Hes]. exists es. rewrite Hes. by rewrite orb_true_r.
    + unfold mbind, M_bind; simpl. destruct (IH b) as [es ->]. eauto.
Qed.

Lemma run_handlers_emits (P : Event → Prop) name completions b :
  (∀ l m, P (EvLog l m)) → emits P (run_handlers name completions b).
Proof.
  intros HP. revert b. induction completions as [|[[]|[]] l IH]; intros b; simpl; emits_tac.
Qed.

Lemma execute_emits (P : Event → Prop) ex task args i o out timeout :
  (∀ l m, P (EvLog l m)) →
  P (EvExec (resolve_executable ex (task_executable task)) (i :: o :: args) (effective_timeout ex timeout)) →
  emits P (execute ex task args i o out timeout).
Proof.
  intros HP He. unfold execute. emits_tac. by apply run_handlers_emits.
Qed.

Lemma execute_returns ex task args i o out timeout : returns (execute ex task args i o out timeout).
Proof.
  unfold execute. returns_tac.
  intros s. destruct (run_handlers_out (task_name task) completions false s) as [es ->]. simpl. eauto.
Qed.

Lemma effective_timeout_bounds ex timeout :
  1 ≤ default_timeout_sec ex → 1 ≤ effective_timeout ex timeout ≤ default_timeout_sec ex.
Proof. unfold effective_timeout. intros. repeat (case_match; bool_to_prop); lia. Qed.

(** ** Properties *)

(** The captured tail. A readable output of at most 2048 bytes is kept
    whole; of a longer one the result is a suffix of at most 2048 bytes. When
    the output is well-formed UTF-8 the tail is too, and the repair of the cut
    costs at most three bytes. *)
Theorem read_stdout_tail_correct fs path content :
  open_read fs path = Some content →
  let tail := read_stdout_tail fs path in
  str_suffix tail content ∧
  (String.length tail ≤ stdout_tail_bytes)%nat ∧
  ((String.length content ≤ stdout_tail_bytes)%nat → tail = content) ∧
  (valid_utf8 content = true → valid_utf8 tail = true) ∧
  (valid_utf8 content = true → (stdout_tail_bytes < String.length content)%nat →
     (stdout_tail_bytes - 3 ≤ String.length tail)%nat).
Proof.
  intros Ho. cbv zeta. rewrite (read_stdout_tail_eq _ _ _ Ho).
  destruct (Nat.ltb_spec stdout_tail_bytes (String.length content)) as [Hlt|Hge].
  - set (cut := str_drop _ content).
    pose proof (drop_continuation_length cut) as Hlen.
    assert (Hcut : String.length cut = stdout_tail_bytes) by (unfold cut; rewrite str_drop_length; lia).
    split_and!.
    + eauto with taskforge.
    + lia.
    + lia.
    + apply drop_continuation_drop.
    + intros Hv _. pose proof (leading_continuation_drop (String.length content - stdout_tail_bytes) _ Hv).
      fold cut in H0. lia.
  - split_and!; try done; [by exists ""|]. lia.
Qed.

(** The request cannot lengthen the timeout: whatever integer a message
    carries, after the cast to [int] the timeout in force lies between one
    second and the configured one, and a positive request below the
    configured value is honoured. *)
Theorem effective_timeout_clamped ex requested :
  1 ≤ default_timeout_sec ex →
  1 ≤ effective_timeout ex (to_int requested) ≤ default_timeout_sec ex ∧
  (1 ≤ requested ≤ default_timeout_sec ex → default_timeout_sec ex ≤ INT_MAX →
     effective_timeout ex (to_int requested) = requested) ∧
  (requested = 0 → effective_timeout ex (to_int requested) = default_timeout_sec ex).
Proof.
  intros Hd. split; [by apply effective_timeout_bounds|]. split.
  - intros Hr Hmax. rewrite to_int_id by (unfold in_int, INT_MIN; lia).
    unfold effective_timeout. repeat (case_match; bool_to_prop); lia.
  - intros ->. unfold effective_timeout. change (to_int 0) with 0. simpl.
    by rewrite Z.ltb_irrefl.
Qed.

(** The whitelist decides. A task is found exactly when some entry has
    its name, and the entry found is the first such one. *)
Theorem find_task_first ex name :
  match find_task ex name with
  | Some d => ∃ before after, whitelist ex = before ++ d :: after ∧ task_name d = name ∧
                Forall (λ e, task_name e ≠ name) before
  | None => Forall (λ e, task_name e ≠ name) (whitelist ex)
  end.
Proof.
  unfold find_task. induction (whitelist ex) as [|e l IH]; simpl; [constructor|].
  case_bool_decide as He; [by exists [], l|].
  destruct (find_in l name) as [d|]; [|by constructor].
  destruct IH as (before & after & -> & Hn & Hb). exists (e :: before), after. split_and!; try done.
  by constructor.
Qed.

(** One run, every branch. With the executable in place and the capture
    file open, the child is started once with the input and output directories
    before the requested arguments; a failure to start and an expired timer
    are errors, and otherwise the exit code and the tail are the result. *)
Theorem execute_outcome ex task args inputs outputs out timeout_sec (s : Machine X) fs' :
  let exe := resolve_executable ex (task_executable task) in
  let timeout := effective_timeout ex timeout_sec in
  fs_is_regular_file (files s) exe = true → write_file (files s) out "" = Some fs' →
  let '(run, fs'', x) := run_child exe (inputs :: outputs :: args) out timeout fs' (ext s) in
  ∃ logs, execute ex task args inputs outputs out timeout_sec s =
    (Returned
       match run with
       | SpawnThrew what => Unexpected ("cannot execute task [" +:+ task_name task +:+ "]: " +:+ what)
       | ChildRan completions code =>
           if timer_fired completions
           then Unexpected ("task [" +:+ task_name task +:+ "] timed out after " +:+ fmt_int timeout +:+ " seconds")
           else Expected (mkResult code false (read_stdout_tail fs'' out))
       end, mkMachine fs'' x, EvExec exe (inputs :: outputs :: args) timeout :: logs).
Proof.
  cbv zeta. intros Hreg Hw. destruct s as [fs x0]. simpl in *.
  destruct (run_child _ _ _ _ _ _) as [[run fs''] x] eqn:Hrun.
  assert (Hex : fs_exists fs (resolve_executable ex (task_executable task)) = true).
  { unfold fs_exists, fs_is_regular_file in *. apply andb_true_iff in Hreg as [-> Hn]. simpl.
    apply bool_decide_eq_true. destruct (node_at _ _); [by eexists|done]. }
  unfold execute, mbind, M_bind, get_files, set_files. simpl. rewrite Hex, Hreg, Hw. simpl.
  unfold RunChild, call_fs. simpl. rewrite Hrun.
  destruct run as [what|completions code]; [by exists []|].
  destruct (run_handlers_out (task_name task) completions false (mkMachine fs'' x)) as [es Hes].
  exists (es ++ []). simpl. rewrite Hes. simpl.
  destruct (timer_fired completions); simpl; by rewrite ?app_nil_r.
Qed.

End Execution.

(** ** Concrete runs *)

Section Witnesses.

Definition executor0 : t := mkExecutor (task_whitelist_ shipped_configuration) "/srv" 30.
Definition task0 : TaskDefinition := mkTask "wordcount" "tasks/wordcount.sh" "".
Definition machine0 : Machine Sim :=
  mkMachine sim_fs (mkSim ∅ ∅ [] 0 0 false "wordcount: a.txt -> 5 words" [("a.txt.wordcount.txt", "5")] false).
Definition machine_out : FileSystem := put_file sim_fs "/tmp/out.log" "done".

Lemma read_stdout_tail_correct_witness :
  read_stdout_tail machine_out "/tmp/out.log" = "done".
Proof.
  destruct (read_stdout_tail_correct machine_out "/tmp/out.log" "done") as (_ & _ & Hsmall & _);
    [vm_compute; reflexivity|]. apply Hsmall, Nat.leb_le. reflexivity.
Defined.

Lemma effective_timeout_clamped_witness : effective_timeout executor0 (to_int (2 ^ 32 + 40)) ≤ 30.
Proof.
  destruct (effective_timeout_clamped executor0 (2 ^ 32 + 40)) as [[_ Hle] _]; [vm_compute; done|].
  exact Hle.
Defined.

Lemma execute_outcome_witness :
  ∃ logs, (execute executor0 task0 ["x"] "/tmp/in" "/tmp/o" "/tmp/out.log" 5 machine0).2 =
          EvExec "/srv/tasks/wordcount.sh" ["/tmp/in"; "/tmp/o"; "x"] 5 :: logs.
Proof.
  pose proof (execute_outcome executor0 task0 ["x"] "/tmp/in" "/tmp/o" "/tmp/out.log" 5 machine0
    (put_file sim_fs "/tmp/out.log" "")) as Hx.
  cbv zeta in Hx. destruct (run_child _ _ _ _ _ _) as [[run fs''] x].
  destruct Hx as (logs & ->); [vm_compute; reflexivity..|]. exists logs. reflexivity.
Defined.

End Witnesses.

End TaskExecutor.
