(* ===== verification/TaskScripts.v ===== *)
(** * The tasks (Main/tasks)

    The scripts the shipped configuration registers, [wordcount.sh] and
    [checksum.sh], on the file system of [Filesystem]: the expansion of
    ["${inputs_dir}"/*], the loop over the files, the output file of each, and
    the exit status.  Both have the same shape ([script]); what [wc] and
    [sha256sum] print is a parameter, as is the collating order of the
    locale.  Diagnostics that bash and its tools print when a command fails
    are not part of [printed]. *)

From S2P Require Import Prelude Filesystem.

Definition newline : string := String "010" "".

(** What a command substitution leaves of its text: trailing newlines go. *)
Fixpoint strip_newlines (s : string) : string :=
  match s with
  | EmptyString => ""
  | String c s' =>
      match strip_newlines s' with
      | EmptyString => if bool_decide (c = "010"%char) then "" else String c ""
      | t => String c t
      end
  end.

(** The names an asterisk matches. *)
Definition star_matches (name : string) : bool :=
  match name with String c _ => negb (bool_decide (c = "."%char)) | EmptyString => false end.

(** How a script ends: exit status, files, and what it has printed. *)
Record script_run := mkRun { run_code : Z; run_files : FileSystem; run_printed : string }.

Section Script.
Context (collate : list string → list string).
(** Name of the script in its messages, suffix of its output files, the value
    it computes of a file (its path, its content), and the end of its report. *)
Context (label suffix : string) (measure : string → string → string) (report_end : string).
Context (inputs_dir outputs_dir : string).

(** ["${inputs_dir}"/*]; without a match the pattern itself stays. *)
Definition glob (fs : FileSystem) : list string :=
  match collate (filter (λ name, star_matches name = true)
                   (fst <$> default [] (directory_entries fs inputs_dir))) with
  | [] => [inputs_dir +:+ "/*"]
  | names => (λ name, inputs_dir +:+ "/" +:+ name) <$> names
  end.

Definition output_file (base_name : string) : string := outputs_dir +:+ "/" +:+ base_name +:+ suffix.

(** The body of the loop for the rest of the paths, and the check after it;
    [set -e] ends the script at the first command that fails. *)
Fixpoint script_loop (paths : list string) (fs : FileSystem) (found : bool) (printed : string) : script_run :=
  match paths with
  | [] =>
      if found then mkRun 0 fs printed
      else mkRun 1 fs (printed +:+ label +:+ ": no input files" +:+ newline)
  | input_file :: rest =>
      if negb (fs_is_regular_file fs input_file) then script_loop rest fs found printed else
      let base_name := strip_newlines (path_filename input_file) in
      match open_read fs input_file with
      | None => mkRun 1 fs printed
      | Some content =>
          let value := strip_newlines (measure input_file content) in
          match write_file fs (output_file base_name) (value +:+ newline) with
          | None => mkRun 1 fs printed
          | Some fs' =>
              if denied fs OpFlush (resolve fs (output_file base_name)) then mkRun 1 fs' printed
              else script_loop rest fs' true
                     (printed +:+ label +:+ ": " +:+ base_name +:+ " -> " +:+ value +:+ report_end +:+ newline)
          end
      end
  end.

Definition script (fs : FileSystem) : script_run := script_loop (glob fs) fs false "".
End Script.

(** [wc -w < file | tr -d '[:space:]'] sees the content only. *)
Definition wordcount (collate : list string → list string) (wc : string → string) : string → string → FileSystem → script_run :=
  script collate "wordcount" ".wordcount.txt" (λ _ content, wc content) " words".

(** [hash_command file | awk '{print $1}'] is given the path. *)
Definition checksum (collate : list string → list string) (hash : string → string → string)
    : string → string → FileSystem → script_run :=
  script collate "checksum" ".sha256.txt" hash "".

(** ** A directory of inputs and one of outputs *)

Lemma resolve_slash fs p c : p ≠ "" → plain_name c → resolve fs (p +:+ "/" +:+ c) = resolve fs p ++ [c].
Proof.
  intros Hp Hc. unfold resolve. rewrite is_absolute_app by done.
  rewrite split_slash_app, foldl_app, (split_slash_plain c) by apply Hc. simpl. by apply walk_plain.
Qed.

Lemma path_filename_slash p c : plain_name c → path_filename (p +:+ "/" +:+ c) = c.
Proof.
  intros Hc. unfold path_filename. rewrite split_slash_app, (split_slash_plain c) by apply Hc. by rewrite last_snoc.
Qed.

(** A suffix of a plain name. *)
Lemma plain_name_suffix c suffix :
  plain_name c → (2 < String.length suffix)%nat → ¬ str_In "/" suffix → plain_name (c +:+ suffix).
Proof.
  intros (_ & _ & _ & Hc) Hl Hs. pose proof (str_length_app c suffix) as Hsize.
  repeat split; [intros He; rewrite He in Hsize; simpl in Hsize; lia..|].
  by rewrite str_In_app; intros [?|?].
Qed.

Section ScriptLoop.
Context (collate : list string → list string) (collate_perm : ∀ l, collate l ≡ₚ l).
Context (label suffix : string) (measure : string → string → string) (report_end : string).
Context (suffix_long : (2 < String.length suffix)%nat) (suffix_plain : ¬ str_In "/" suffix).
Context (inputs_dir outputs_dir : string) (fs : FileSystem).

Abbreviation I := (resolve fs inputs_dir).
Abbreviation O := (resolve fs outputs_dir).

(** The directories a worker prepares: distinct, the one of the outputs empty,
    with nothing refused, and input files with plain names that do not end in
    a newline. *)
Record task_directories : Prop := {
  prepared_inputs : inputs_dir ≠ "" ∧ node_at fs I = Some Directory;
  prepared_outputs : outputs_dir ≠ "" ∧ node_at fs O = Some Directory;
  prepared_distinct : I ≠ O;
  prepared_empty name : nodes fs !! (O ++ [name]) = None;
  prepared_allowed op p : denied fs op p = false;
  prepared_names name n : nodes fs !! (I ++ [name]) = Some n → plain_name name ∧ strip_newlines name = name;
}.
Context (Hready : task_directories).

Abbreviation input_path name := (inputs_dir +:+ "/" +:+ name).
Abbreviation input name := (nodes fs !! (I ++ [name])).

(** The output of an input file. *)
Definition value_of (name content : string) : string := strip_newlines (measure (input_path name) content).
Definition target (name : string) : list string := O ++ [name +:+ suffix].

(** The tree in the course of the loop: only the outputs differ, and they are
    files. *)
Record progress (m : gmap (list string) node) : Prop := {
  progress_same q : (∀ y, q ≠ O ++ [y]) → m !! q = nodes fs !! q;
  progress_files y n : m !! (O ++ [y]) = Some n → ∃ c, n = RegularFile c;
}.

Lemma progress_input m name : progress m → m !! (I ++ [name]) = input name.
Proof using Hready.
  intros Hm. apply (progress_same _ Hm). intros y [Heq _]%app_inj_tail. by apply (prepared_distinct Hready).
Qed.

Lemma progress_write m name c : progress m → progress (<[target name := RegularFile c]> m).
Proof using Type.
  intros Hm. split.
  - intros q Hq. rewrite lookup_insert_ne by (intros <-; by eapply Hq). by apply (progress_same _ Hm).
  - intros y n. rewrite lookup_insert_Some. intros [[_ <-]|[_ Hy]]; [by eexists|by eapply (progress_files _ Hm)].
Qed.

Lemma node_at_child (t : FileSystem) d y : node_at t (d ++ [y]) = nodes t !! (d ++ [y]).
Proof. by destruct d. Qed.

Lemma progress_resolve m p : resolve (with_nodes fs m) p = resolve fs p.
Proof. done. Qed.

(** Reading an input and writing its output. *)
Lemma input_regular m name :
  progress m → plain_name name →
  fs_is_regular_file (with_nodes fs m) (input_path name)
    = match input name with Some (RegularFile _) => true | _ => false end.
Proof using Hready.
  intros Hm Hn. unfold fs_is_regular_file. simpl. rewrite (prepared_allowed Hready). simpl.
  rewrite progress_resolve, resolve_slash, node_at_child by (done || apply Hready). simpl.
  by rewrite progress_input.
Qed.

Lemma input_read m name c :
  progress m → plain_name name → input name = Some (RegularFile c) →
  open_read (with_nodes fs m) (input_path name) = Some c.
Proof using Hready.
  intros Hm Hn Hc. unfold open_read. simpl. rewrite (prepared_allowed Hready).
  rewrite progress_resolve, resolve_slash, node_at_child by (done || apply Hready). simpl.
  by rewrite progress_input, Hc.
Qed.

Lemma output_resolve name : plain_name name → resolve fs (output_file suffix outputs_dir name) = target name.
Proof using Hready suffix_long suffix_plain.
  intros Hn. unfold output_file. apply resolve_slash; [apply Hready|]. by apply plain_name_suffix.
Qed.

Lemma output_written m name c :
  progress m → plain_name name →
  write_file (with_nodes fs m) (output_file suffix outputs_dir name) c
    = Some (with_nodes fs (<[target name := RegularFile c]> m)).
Proof using Hready suffix_long suffix_plain.
  intros Hm Hn. unfold write_file, can_open_write. rewrite progress_resolve, output_resolve by done. simpl.
  rewrite !(prepared_allowed Hready). unfold target. rewrite removelast_last, node_at_child. simpl.
  assert (Hdir : node_at (with_nodes fs m) O = Some Directory).
  { destruct (prepared_outputs Hready) as [_ <-]. destruct O as [|a l] eqn:HO; [done|]. simpl. rewrite <-HO.
    apply (progress_same _ Hm). intros y Hy. apply (f_equal length) in Hy. rewrite length_app in Hy. simpl in Hy. lia. }
  rewrite Hdir, bool_decide_eq_true_2 by done. simpl.
  destruct (m !! (O ++ [name +:+ suffix])) as [n|] eqn:Hy; [|done].
  by destruct (progress_files _ Hm _ _ Hy) as [? ->].
Qed.

Lemma target_inj name name' : target name = target name' → name = name'.
Proof using Type. unfold target. intros [_ Heq]%app_inj_tail. by eapply str_app_inv_r. Qed.

Definition is_input (name : string) : bool := match input name with Some (RegularFile _) => true | _ => false end.

Abbreviation loop := (script_loop label suffix measure report_end outputs_dir).

Lemma loop_run names m found printed :
  progress m → Forall (λ name, plain_name name ∧ strip_newlines name = name) names →
  ∃ m', run_files (loop ((λ name, input_path name) <$> names) (with_nodes fs m) found printed) = with_nodes fs m' ∧
    run_code (loop ((λ name, input_path name) <$> names) (with_nodes fs m) found printed)
      = (if found || existsb is_input names then 0 else 1) ∧
    (∀ name c, name ∈ names → input name = Some (RegularFile c) →
       m' !! target name = Some (RegularFile (value_of name c +:+ newline))) ∧
    (∀ q, (∀ name c, name ∈ names → input name = Some (RegularFile c) → q ≠ target name) → m' !! q = m !! q).
Proof using Hready suffix_long suffix_plain.
  intros Hm Hnames. revert m found printed Hm. induction Hnames as [|name names [Hn Hs] _ IH]; intros m found printed Hm.
  { exists m. simpl. rewrite orb_false_r. split_and!; [by destruct found..|by intros ? ? ?%not_elem_of_nil|done]. }
  cbn [fmap list_fmap script_loop existsb]. rewrite input_regular by done. unfold is_input at 1.
  destruct (input name) as [[c| |]|] eqn:Hc.
  2-4: destruct (IH m found printed Hm) as (m' & Hfiles & Hcode & Hin & Hout); exists m';
    (split_and!; [done|exact Hcode| |]); [intros name' c' [->|?]%elem_of_cons; naive_solver|];
    intros q Hq; apply Hout; intros name' c' ?; apply Hq; by right.
  simpl. rewrite path_filename_slash, Hs by done. rewrite (input_read m name c) by done. fold (value_of name c).
  rewrite output_written by done. rewrite (prepared_allowed Hready).
  match goal with |- context [loop _ _ true ?text] => destruct (IH _ true text (progress_write m name (value_of name c +:+ newline) Hm))
    as (m' & Hfiles & Hcode & Hin & Hout) end.
  exists m'. split_and!; [done|rewrite orb_true_r; exact Hcode| |].
  - intros name' c' Hin' Hc'. destruct (decide (name' ∈ names)) as [Hlater|Hnot]; [by apply Hin|].
    apply elem_of_cons in Hin' as [->|?]; [|done]. simplify_eq.
    rewrite Hout; [by rewrite lookup_insert_eq|]. intros name' c' Hl _ Heq. by apply target_inj in Heq as <-.
  - intros q Hq. rewrite Hout by (intros name' c' ?; apply Hq; by right).
    apply lookup_insert_ne. intros <-. eapply Hq; [by left|done|done].
Qed.

(** The files a script processes: regular ones an asterisk matches. *)
Definition visible_input (name content : string) : Prop :=
  star_matches name = true ∧ input name = Some (RegularFile content).

(** What a run of the script leaves behind: one output per such file and no
    other output, everything else as it was, and success exactly when there was
    one. *)
Record processed (r : script_run) : Prop := {
  processed_outputs name n :
    (name, n) ∈ children (run_files r) O ↔
    ∃ input c, visible_input input c ∧ name = input +:+ suffix ∧ n = RegularFile (value_of input c +:+ newline);
  processed_rest q : (∀ y, q ≠ O ++ [y]) → nodes (run_files r) !! q = nodes fs !! q;
  processed_system : same_system fs (run_files r);
  processed_code : run_code r = 0 ∧ (∃ name c, visible_input name c) ∨ run_code r = 1 ∧ ∀ name c, ¬ visible_input name c;
}.

Lemma glob_names :
  ∃ names, glob collate inputs_dir fs = (λ name, input_path name) <$> names ∧
    Forall (λ name, plain_name name ∧ strip_newlines name = name) names ∧
    (∀ name c, visible_input name c ↔ name ∈ names ∧ input name = Some (RegularFile c)).
Proof using Hready collate_perm.
  destruct (prepared_inputs Hready) as [_ Hdir].
  set (listed := filter (λ name, star_matches name = true) (fst <$> children fs I)).
  assert (Hglob : glob collate inputs_dir fs = match collate listed with
    [] => [inputs_dir +:+ "/*"] | names => (λ name, input_path name) <$> names end).
  { unfold glob, directory_entries. by rewrite (prepared_allowed Hready), bool_decide_eq_true_2. }
  assert (Hlisted : ∀ name, name ∈ collate listed ↔ star_matches name = true ∧ is_Some (input name)).
  { intros name. rewrite (collate_perm listed). unfold listed. rewrite list_elem_of_filter, list_elem_of_fmap. split.
    - intros [Hv ([name' n] & -> & Hin)]. split; [done|]. apply children_elem in Hin. by eexists.
    - intros [Hv [n Hn]]. split; [done|]. exists (name, n). split; [done|]. by apply children_elem. }
  rewrite Hglob. destruct (collate listed) as [|name names].
  - exists ["*"]. split; [done|]. split.
    { constructor; [|done]. split; [|done]. repeat split; try done. by intros [?|[]]. }
    intros name c. split.
    + intros [Hv Hn]. exfalso. eapply not_elem_of_nil. apply Hlisted. split; [done|by eexists].
    + intros [->%list_elem_of_singleton Hn]. exfalso. eapply not_elem_of_nil. apply (Hlisted "*"). split; [done|by eexists].
  - exists (name :: names). split; [done|]. split.
    + apply Forall_forall. intros name' Hin. apply Hlisted in Hin as [_ [n Hn]]. by eapply (prepared_names Hready).
    + intros name' c. rewrite Hlisted. split; [intros [Hv Hn]; repeat split; [done|by eexists|done]|by intros [[? _] ?]].
Qed.

Lemma script_processed : processed (script collate label suffix measure report_end inputs_dir outputs_dir fs).
Proof using Hready collate_perm suffix_long suffix_plain.
  destruct glob_names as (names & Hglob & Hnames & Hvis). unfold script. rewrite Hglob.
  assert (Hstart : progress (nodes fs)).
  { split; [done|]. intros y n Hy. by rewrite (prepared_empty Hready) in Hy. }
  destruct (loop_run names (nodes fs) false "" Hstart Hnames) as (m & Hfiles & Hcode & Hin & Hout).
  assert (Hself : with_nodes fs (nodes fs) = fs) by (by destruct fs). rewrite Hself in *.
  split; rewrite ?Hfiles.
  - intros name n. rewrite children_elem. simpl. split.
    + intros Hn. destruct (decide (Exists (λ i, is_input i = true ∧ O ++ [name] = target i) names)) as [Hex|Hnone].
      * apply Exists_exists in Hex as (i & Hi & Hreg & Heq). unfold is_input in Hreg.
        destruct (input i) as [[c| |]|] eqn:Hc; [|done..]. exists i, c. split; [by apply Hvis|].
        rewrite Heq in Hn. rewrite (Hin i c Hi Hc) in Hn. injection Hn as <-. by apply app_inj_tail in Heq as [_ ->].
      * rewrite Hout in Hn; [by rewrite (prepared_empty Hready) in Hn|]. intros i c Hi Hc Heq. apply Hnone.
        apply Exists_exists. exists i. split; [done|]. split; [|done]. unfold is_input. by rewrite Hc.
    + intros (i & c & [Hi Hc]%Hvis & -> & ->). by apply Hin.
  - intros q Hq. simpl. apply Hout. intros i c _ _ ->. by eapply Hq.
  - apply with_nodes_same.
  - rewrite Hcode. simpl. destruct (existsb is_input names) eqn:Hex; [left|right]; (split; [done|]).
    + apply existsb_exists in Hex as (i & Hi%list_elem_of_In & Hreg). unfold is_input in Hreg.
      destruct (input i) as [[c| |]|] eqn:Hc; [|done..]. exists i, c. by apply Hvis.
    + intros i c [Hi Hc]%Hvis. apply not_true_iff_false in Hex. apply Hex, existsb_exists. exists i.
      split; [by apply list_elem_of_In|]. unfold is_input. by rewrite Hc.
Qed.
End ScriptLoop.

Ltac suffix_tac := first [apply Nat.ltb_lt; reflexivity|apply (bool_decide_eq_true_1 _); vm_compute; reflexivity].

(** C27: the tasks process their inputs. In the directories a worker prepares,
    [wordcount.sh] and [checksum.sh] write exactly one output per regular file
    an asterisk matches, with the value of its content, leave everything else
    as it was, and exit with 0 exactly when there was such a file (with 1
    otherwise). *)
Theorem scripts_process_inputs collate wc hash inputs_dir outputs_dir fs :
  (∀ l, collate l ≡ₚ l) → task_directories inputs_dir outputs_dir fs →
  processed ".wordcount.txt" (λ _ content, wc content) inputs_dir outputs_dir fs
    (wordcount collate wc inputs_dir outputs_dir fs) ∧
  processed ".sha256.txt" hash inputs_dir outputs_dir fs (checksum collate hash inputs_dir outputs_dir fs).
Proof.
  intros Hperm Hready.
  split; apply script_processed; first [done|suffix_tac].
Qed.

(** Hidden files are not processed. Where every input file has a name that
    begins with a period (which all three interfaces accept), both tasks write
    nothing and exit with 1, although there are input files. *)
Theorem hidden_inputs_ignored collate wc hash inputs_dir outputs_dir fs :
  (∀ l, collate l ≡ₚ l) → task_directories inputs_dir outputs_dir fs →
  (∀ name n, (name, n) ∈ children fs (resolve fs inputs_dir) → ∃ rest, name = String "." rest) →
  (∀ r, r = wordcount collate wc inputs_dir outputs_dir fs ∨ r = checksum collate hash inputs_dir outputs_dir fs →
     run_code r = 1 ∧ children (run_files r) (resolve fs outputs_dir) = []).
Proof.
  intros Hperm Hready Hhidden r Hr.
  assert (Hnone : ∀ name c, ¬ visible_input inputs_dir fs name c).
  { intros name c [Hv Hc]. apply children_elem, Hhidden in Hc as [rest ->]. done. }
  assert (Hp : ∃ suffix measure, processed suffix measure inputs_dir outputs_dir fs r).
  { destruct Hr as [->| ->]; eexists _, _; apply script_processed; first [done|suffix_tac]. }
  destruct Hp as (suffix & measure & Hp). split.
  - destruct (processed_code _ _ _ _ _ _ Hp) as [[_ (name & c & Hv)]|[Hcode _]]; [by destruct (Hnone name c)|done].
  - destruct (children (run_files r) (resolve fs outputs_dir)) as [|[name n] l] eqn:Hl; [reflexivity|]. exfalso.
    destruct (proj1 (processed_outputs _ _ _ _ _ _ Hp name n)) as (i & c & Hv & _); [rewrite Hl; by left|].
    by destruct (Hnone i c).
Qed.

(** ** Concrete runs *)

Module ScriptSample.
(** A file system with given input files. *)
Definition tree (inputs : list (string * string)) : list (list string * node) :=
  [(["in"], Directory); (["out"], Directory)] ++ ((λ f, (["in"; f.1], RegularFile f.2)) <$> inputs).
Definition script_fs (inputs : list (string * string)) : FileSystem := {|
  nodes := list_to_map (tree inputs); cwd := []; temp_directory := None;
  denied := λ _ _, false; error_message := λ _ _, "error" |}.

Lemma sample_prepared inputs :
  Forall (λ f, plain_name f.1 ∧ strip_newlines f.1 = f.1) inputs → task_directories "/in" "/out" (script_fs inputs).
Proof.
  intros Hin. split; [split; [done|]; simpl; by simplify_map_eq..|done| |done|].
  - intros name. destruct (nodes (script_fs inputs) !! _) as [n|] eqn:Hn; [exfalso|done].
    apply elem_of_list_to_map_2 in Hn. unfold tree in Hn. rewrite elem_of_app, !elem_of_cons, list_elem_of_fmap in Hn.
    destruct Hn as [[Hn|[Hn|Hn]]|(f & Hn & _)]; try discriminate Hn. by apply not_elem_of_nil in Hn.
  - intros name n Hn. apply elem_of_list_to_map_2 in Hn. unfold tree in Hn.
    rewrite elem_of_app, !elem_of_cons, list_elem_of_fmap in Hn.
    destruct Hn as [[Hn|[Hn|Hn]]|(f & Hn & Hf)]; try discriminate Hn; [by apply not_elem_of_nil in Hn|].
    rewrite Forall_forall in Hin. injection Hn as -> _. by apply Hin.
Qed.

Lemma sample_name f : bool_decide (f ≠ "" ∧ f ≠ "." ∧ f ≠ ".." ∧ ¬ str_In "/" f ∧ strip_newlines f = f) = true →
  plain_name f ∧ strip_newlines f = f.
Proof. intros Hf. apply bool_decide_eq_true in Hf. destruct Hf as (? & ? & ? & ? & ?). by repeat split. Qed.

(** Words as runs of characters other than blanks. *)
Fixpoint words (s : string) (inside : bool) : Z :=
  match s with
  | EmptyString => 0
  | String c s' =>
      if bool_decide (c = " "%char ∨ c = "010"%char) then words s' false
      else (if inside then 0 else 1) + words s' true
  end.
Definition wc (s : string) : string := fmt_int (words s false).

Example wordcount_runs :
  let r := wordcount id wc "/in" "/out" (script_fs [("a.txt", "one two  three"); (".env", "x")]) in
  (run_code r, run_printed r, open_read (run_files r) "/out/a.txt.wordcount.txt", open_read (run_files r) "/out/.env.wordcount.txt")
  = (0, "wordcount: a.txt -> 3 words" +:+ newline, Some ("3" +:+ newline), None).
Proof. vm_compute. reflexivity. Qed.
End ScriptSample.

Lemma scripts_process_inputs_witness :
  let r := wordcount id ScriptSample.wc "/in" "/out" (ScriptSample.script_fs [("a.txt", "one two")]) in
  ("a.txt.wordcount.txt", RegularFile ("2" +:+ newline)) ∈ children (run_files r) ["out"].
Proof.
  cbv zeta.
  destruct (scripts_process_inputs id ScriptSample.wc (λ _ _, "") "/in" "/out" (ScriptSample.script_fs [("a.txt", "one two")])
    (λ l, reflexivity l) ltac:(apply ScriptSample.sample_prepared; repeat constructor;
      apply (ScriptSample.sample_name "a.txt"); vm_compute; reflexivity)) as [Hw _].
  apply (processed_outputs _ _ _ _ _ _ Hw "a.txt.wordcount.txt" (RegularFile ("2" +:+ newline))).
  exists "a.txt", "one two". split; [split; vm_compute; reflexivity|]. split; vm_compute; reflexivity.
Defined.

Lemma hidden_inputs_ignored_witness :
  run_code (wordcount id ScriptSample.wc "/in" "/out" (ScriptSample.script_fs [(".env", "one two")])) = 1.
Proof.
  refine (proj1 (hidden_inputs_ignored id ScriptSample.wc (λ _ _, "") "/in" "/out"
    (ScriptSample.script_fs [(".env", "one two")]) (λ l, reflexivity l) _ _ _ (or_introl eq_refl))).
  - apply ScriptSample.sample_prepared. repeat constructor; apply (ScriptSample.sample_name ".env"); vm_compute; reflexivity.
  - intros name n Hin. vm_compute in Hin. apply list_elem_of_singleton in Hin. injection Hin as -> _.
    eexists. reflexivity.
Defined.
