(* ===== verification/WorkerStatus.v ===== *)
(** * Status documents and helpers of the worker (Main/TaskForgeWorker.cpp)

    The free functions of the anonymous namespace (backoff, contract fields,
    timestamp, file name of a key, the temporary directory of a job) and the
    two operations on the status document kept in Redis: [set_job_status],
    which merges, and [is_terminal_status]. *)

From S2P Require Import Prelude Utf8 Json Filesystem Effects Configurations.

Definition redis_connect_attempts : nat := 5.
Definition s3_download_attempts : nat := 3.
Definition retry_base_delay_ms : Z := 1000.
Definition retry_max_delay_ms : Z := 8000.
Definition download_base_delay_ms : Z := 500.
Definition download_max_delay_ms : Z := 4000.
Definition redis_base_delay_ms : Z := 500.
Definition redis_max_delay_ms : Z := 4000.

(** ** Pure helpers *)

(** The deterministic part of [backoff_with_jitter], in 64-bit arithmetic. *)
Definition backoff_shift (attempt : Z) : Z :=
  let shift := if 1 <? attempt then attempt - 1 else 0 in
  if 16 <? shift then 16 else shift.

Definition backoff_capped (attempt base_delay_ms max_delay_ms : Z) : Z :=
  let exponential := Z.shiftl base_delay_ms (backoff_shift attempt) in
  if max_delay_ms <? exponential then max_delay_ms else exponential.

Definition contract_fields (message : object) : object :=
  let fields : object :=
    match get_object message "task" with
    | Some task =>
        match get_string task "name" with
        | Some name => <["task_name" := JString name]> ∅
        | None => ∅
        end
    | None => ∅
    end in
  match get_string message "enqueued_at" with
  | Some t => <["enqueued_at" := JString t]> fields
  | None => fields
  end.

(** [gmtime_r]: year, month and day of a day number (proleptic Gregorian). *)
Definition civil_of_days (days : Z) : Z * Z * Z :=
  let z := days + 719468 in
  let era := z / 146097 in
  let doe := z - era * 146097 in
  let yoe := (doe - doe / 1460 + doe / 36524 - doe / 146096) / 365 in
  let doy := doe - (365 * yoe + yoe / 4 - yoe / 100) in
  let mp := (5 * doy + 2) / 153 in
  let d := doy - (153 * mp + 2) / 5 + 1 in
  let m := if mp <? 10 then mp + 3 else mp - 9 in
  (yoe + era * 400 + (if m <=? 2 then 1 else 0), m, d).

Definition two_digits (n : Z) : string := fmt_int (n / 10) +:+ fmt_int (n mod 10).

(** [strftime("%Y-%m-%dT%H:%M:%SZ")] of a UTC time. *)
Definition format_utc (time : Z) : string :=
  let '(y, m, d) := civil_of_days (time / 86400) in
  let sec := time mod 86400 in
  fmt_int y +:+ "-" +:+ two_digits m +:+ "-" +:+ two_digits d +:+ "T" +:+
  two_digits (sec / 3600) +:+ ":" +:+ two_digits (sec / 60 mod 60) +:+ ":" +:+
  two_digits (sec mod 60) +:+ "Z".

(** [object_key.find_last_of('/')] *)
Fixpoint find_last_of (c : ascii) (s : string) : option nat :=
  match s with
  | EmptyString => None
  | String d s' =>
      match find_last_of c s' with
      | Some i => Some (S i)
      | None => if bool_decide (d = c) then Some 0%nat else None
      end
  end.

Definition key_filename (object_key : string) : string :=
  match find_last_of "/" object_key with
  | None => object_key
  | Some separator => str_drop (S separator) object_key
  end.

(** The loop over the updates: [null] removes a field, anything else sets it. *)
Definition apply_update (document : object) (update : string * json) : object :=
  if is_null update.2 then delete update.1 document else <[update.1 := update.2]> document.

Definition apply_updates (document updates : object) : object :=
  foldl apply_update document (map_to_list updates).

(** The document [set_job_status] writes over an [existing] one. *)
Definition merge_status (existing : object) (job_id status : string) (updates : object)
    (updated_at : string) : object :=
  <["updated_at" := JString updated_at]>
    (apply_updates (<["status" := JString status]> (<["job_id" := JString job_id]> existing)) updates).

Section Effects.
Context {X : Type} `{Services X} `{JsonCodec}.

Definition backoff_with_jitter (attempt base_delay_ms max_delay_ms : Z) : M X Z :=
  let capped := backoff_capped attempt base_delay_ms max_delay_ms in
  draw ← Uniform 0 (capped ÷ 2);
  mret (capped + draw).

Definition current_utc_timestamp : M X string :=
  time ← Now;
  mret (format_utc time).

(** ** The temporary directory of a job *)

Definition inputs_dir (root : string) : string := path_div root "inputs".
Definition outputs_dir (root : string) : string := path_div root "outputs".
Definition stdout_log (root : string) : string := path_div root "stdout.log".

(** The constructor of [TempDirGuard]; [temp_directory_path()] may throw. *)
Definition make_temp_dir (job_id : string) : M X string :=
  fs ← get_files;
  temp ← unwrap "temp_directory_path" (temp_directory fs);
  let root := path_div (path_div temp "taskforge") job_id in
  set_files (create_directories fs (path_div root "inputs")).1;;
  fs' ← get_files;
  set_files (create_directories fs' (path_div root "outputs")).1;;
  mret root.

(** Its destructor. *)
Definition remove_temp_dir (root : string) : M X unit :=
  fs ← get_files;
  set_files (fs_remove_all fs root).

(** The scope of a [TempDirGuard]. *)
Definition with_temp_dir {A} (job_id : string) (body : string → M X A) : M X A :=
  root ← make_temp_dir job_id;
  with_cleanup (body root) (remove_temp_dir root).

(** ** The status document *)

(** What a stored text contributes to the merge: its fields when it is a JSON
    object, nothing otherwise. *)
Definition stored_document (existing : expected string) : object :=
  match existing with
  | Expected text => match parse text with inl (JObject o) => o | _ => ∅ end
  | Unexpected _ => ∅
  end.

Definition set_job_status (ttl_sec : Z) (job_id status : string) (updates : object) : M X unit :=
  existing ← RedisGet job_id;
  updated_at ← current_utc_timestamp;
  let document := merge_status (stored_document existing) job_id status updates updated_at in
  saved ← RedisSet job_id (serialize (JObject document)) (Some ttl_sec);
  match saved with
  | Expected _ => mret ()
  | Unexpected e =>
      log LogError ("cannot save job status [" +:+ job_id +:+ "=" +:+ status +:+ "]: " +:+ e)
  end.

(** Whether a stored text records a finished job. *)
Definition terminal_text (existing : expected string) : bool :=
  match existing with
  | Unexpected _ => false
  | Expected text =>
      match parse text with
      | inl (JObject document) =>
          match get_string document "status" with
          | Some status => bool_decide (status = "done" ∨ status = "failed")
          | None => false
          end
      | _ => false
      end
  end.

Definition is_terminal_status (job_id : string) : M X bool :=
  existing ← RedisGet job_id;
  mret (terminal_text existing).

End Effects.

(** ** Lemmas *)

Example format_utc_epoch : format_utc 0 = "1970-01-01T00:00:00Z".
Proof. reflexivity. Qed.
Example format_utc_leap : format_utc 1709210096 = "2024-02-29T12:34:56Z".
Proof. reflexivity. Qed.

Lemma apply_updates_lookup (document updates : object) k :
  apply_updates document updates !! k =
    match updates !! k with
    | Some JNull => None
    | Some v => Some v
    | None => document !! k
    end.
Proof.
  unfold apply_updates.
  assert (Hgen : ∀ (l : list (string * json)) (d : object), NoDup l.*1 →
    foldl apply_update d l !! k =
      match (list_to_map l : object) !! k with
      | Some JNull => None | Some v => Some v | None => d !! k end).
  { induction l as [|[k' v] l IH]; intros d Hnd; [done|].
    cbn [foldl list_to_map foldr fmap list_fmap fst] in *. apply NoDup_cons in Hnd as [Hk Hnd].
    rewrite IH by done. cbn [uncurry insert].
    destruct (decide (k' = k)) as [->|Hne].
    - change (list_to_map ((k, v) :: l) : object) with (<[k:=v]> (list_to_map l : object)).
      rewrite lookup_insert_eq, (not_elem_of_list_to_map_1 l k) by done.
      unfold apply_update; simpl. destruct v; simpl; by rewrite ?lookup_insert_eq, ?lookup_delete_eq.
    - change (list_to_map ((k', v) :: l) : object) with (<[k':=v]> (list_to_map l : object)).
      rewrite lookup_insert_ne by done. destruct ((list_to_map l : object) !! k); [done|].
      unfold apply_update; simpl. destruct (is_null v); by rewrite ?lookup_insert_ne, ?lookup_delete_ne. }
  rewrite Hgen by apply NoDup_fst_map_to_list. by rewrite list_to_map_to_list.
Qed.

Lemma contract_fields_lookup message k v :
  contract_fields message !! k = Some v →
  (k = "task_name" ∨ k = "enqueued_at") ∧ ∃ s, v = JString s.
Proof.
  unfold contract_fields. intros Hk. repeat case_match;
    repeat (rewrite lookup_insert_Some in Hk || rewrite lookup_empty in Hk); naive_solver.
Qed.

Lemma contract_fields_None message k :
  k ≠ "task_name" → k ≠ "enqueued_at" → contract_fields message !! k = None.
Proof.
  intros. destruct (contract_fields message !! k) eqn:Hk; [|done].
  apply contract_fields_lookup in Hk. naive_solver.
Qed.

Lemma find_last_of_spec c s :
  match find_last_of c s with
  | None => ¬ str_In c s
  | Some i => ¬ str_In c (str_drop (S i) s) ∧ ∃ p, s = p +:+ String c (str_drop (S i) s)
  end.
Proof.
  induction s as [|d s IH]; [simpl; tauto|]. cbn [find_last_of].
  destruct (find_last_of c s) as [i|].
  - destruct IH as [Hn [p Hp]]. split; [done|]. exists (String d p).
    by apply (f_equal (String d)).
  - case_bool_decide; [subst|simpl; naive_solver]. split; [done|]. by exists "".
Qed.

Lemma key_filename_no_slash key : ¬ str_In "/" (key_filename key).
Proof.
  unfold key_filename. pose proof (find_last_of_spec "/" key) as Hs.
  destruct (find_last_of "/" key); [by destruct Hs|done].
Qed.

Section Lemmas.
Context {X : Type} `{Services X} `{JsonCodec}.

Lemma backoff_run attempt base max (s : Machine X) :
  let capped := backoff_capped attempt base max in
  let '(r, x) := uniform_int 0 (capped ÷ 2) (ext s) in
  backoff_with_jitter attempt base max s = (Returned (capped + r), mkMachine (files s) x, []).
Proof.
  cbv zeta. unfold backoff_with_jitter, Uniform, call, mbind, M_bind.
  by destruct (uniform_int _ _ _).
Qed.

Lemma backoff_emits P attempt base max : emits P (backoff_with_jitter attempt base max : M X Z).
Proof. unfold backoff_with_jitter. emits_tac. Qed.

Lemma backoff_returns attempt base max : returns (backoff_with_jitter attempt base max : M X Z).
Proof. unfold backoff_with_jitter. returns_tac. Qed.

Lemma timestamp_emits P : emits P (current_utc_timestamp : M X string).
Proof. unfold current_utc_timestamp. emits_tac. Qed.

Lemma set_job_status_returns ttl job_id status updates :
  returns (set_job_status ttl job_id status updates : M X unit).
Proof. unfold set_job_status, current_utc_timestamp. returns_tac. Qed.

Lemma is_terminal_returns job_id : returns (is_terminal_status job_id : M X bool).
Proof. unfold is_terminal_status. returns_tac. Qed.

(** One status write: the read, the write, and a log line when it failed. *)
Lemma set_job_status_run ttl job_id status updates (s : Machine X) :
  ∃ existing updated_at saved x,
    let document := merge_status (stored_document existing) job_id status updates updated_at in
    existing = (redis_get job_id (ext s)).1 ∧
    set_job_status ttl job_id status updates s =
      (Returned (), mkMachine (files s) x,
       [EvRedisGet job_id existing;
        EvRedisSet job_id (serialize (JObject document)) (Some ttl) saved] ++
       match saved with
       | Expected _ => []
       | Unexpected e =>
           [EvLog LogError ("cannot save job status [" +:+ job_id +:+ "=" +:+ status +:+ "]: " +:+ e)]
       end).
Proof.
  unfold set_job_status, current_utc_timestamp, RedisGet, RedisSet, Now, call, mbind, M_bind.
  destruct (redis_get job_id (ext s)) as [existing x1] eqn:Hget; simpl.
  destruct (system_clock_now x1) as [time x2]; simpl.
  destruct (redis_set _ _ _ x2) as [saved x3] eqn:Hset; simpl.
  exists existing, (format_utc time), saved, x3. split; [done|].
  destruct saved; done.
Qed.

Lemma is_terminal_run job_id (s : Machine X) :
  is_terminal_status job_id s =
    (Returned (terminal_text (redis_get job_id (ext s)).1),
     mkMachine (files s) (redis_get job_id (ext s)).2,
     [EvRedisGet job_id (redis_get job_id (ext s)).1]).
Proof.
  unfold is_terminal_status, RedisGet, call, mbind, M_bind.
  by destruct (redis_get job_id (ext s)).
Qed.

Lemma set_job_status_emits (P : Event → Prop) ttl job_id status updates :
  (∀ l m, P (EvLog l m)) → (∀ r, P (EvRedisGet job_id r)) →
  (∀ d updated_at r,
     P (EvRedisSet job_id (serialize (JObject (merge_status d job_id status updates updated_at))) (Some ttl) r)) →
  emits P (set_job_status ttl job_id status updates : M X unit).
Proof.
  intros Hlog Hget Hset s. destruct (set_job_status_run ttl job_id status updates s)
    as (existing & updated_at & saved & x & _ & ->). simpl.
  repeat constructor; auto. destruct saved; auto.
Qed.

(** The fields of a written document. *)
Lemma merge_status_lookup (existing updates : object) job_id status updated_at k :
  merge_status existing job_id status updates updated_at !! k =
    if bool_decide (k = "updated_at") then Some (JString updated_at) else
    match updates !! k with
    | Some JNull => None
    | Some v => Some v
    | None =>
        if bool_decide (k = "status") then Some (JString status)
        else if bool_decide (k = "job_id") then Some (JString job_id)
        else existing !! k
    end.
Proof.
  unfold merge_status. case_bool_decide as H1; [subst; by rewrite lookup_insert_eq|].
  rewrite lookup_insert_ne, apply_updates_lookup by done.
  destruct (updates !! k) as [[]|]; try done.
  case_bool_decide as H2; [subst; by rewrite lookup_insert_eq|]. rewrite lookup_insert_ne by done.
  case_bool_decide as H3; [subst; by rewrite lookup_insert_eq|]. by rewrite lookup_insert_ne.
Qed.

Lemma apply_updates_wf (d updates : object) :
  json_wf (JObject d) = true → json_wf (JObject updates) = true →
  json_wf (JObject (apply_updates d updates)) = true.
Proof.
  unfold json_wf. rewrite !json_wf_object. intros Hd Hu k v. rewrite apply_updates_lookup.
  destruct (updates !! k) as [w|] eqn:Hk; [|apply Hd].
  intros Heq. assert (w = v) as -> by (by destruct w; simplify_eq). by apply Hu.
Qed.

Lemma merge_status_wf (existing updates : object) job_id status updated_at :
  json_wf (JObject existing) = true → json_wf (JObject updates) = true →
  valid_utf8 job_id = true → valid_utf8 status = true → valid_utf8 updated_at = true →
  json_wf (JObject (merge_status existing job_id status updates updated_at)) = true.
Proof.
  intros. unfold merge_status, json_wf in *.
  apply json_wf_insert; [|done..]. apply (apply_updates_wf (<["status" := _]> _)); [|done]. unfold json_wf.
  repeat apply json_wf_insert; done.
Qed.

End Lemmas.

#[export] Hint Resolve backoff_emits backoff_returns timestamp_emits set_job_status_returns
  is_terminal_returns : taskforge.
