(* ===== verification/Worker.v ===== *)
(** * Message handling (Main/TaskForgeWorker.cpp)

    The consume handler [handle_message] with everything it calls: job
    processing, input download with bounded retries, output upload, the two
    failure paths.  Operations read the worker's components through [t]; they
    run with every component present (see Lifecycle.v for when that holds). *)

From S2P Require Import Prelude Utf8 Json Filesystem Effects MessageValidation Configurations.
From S2P Require Import TaskDLQ TaskExecutor WorkerStatus.
Import MessageValidation.

Module Worker.

Record t := mkWorker {
  configurations : Configurations;
  task_executor : TaskExecutor.t;
  task_dlq : TaskDLQ.t;
}.

Section Handlers.
Context {X : Type} `{Services X} `{JsonCodec}.
Context (w : t).

Abbreviation cfg := (configurations w).

(** ** Reads that throw *)

Definition at_value (o : object) (key : string) : M X json := unwrap "out_of_range" (at_ o key).

(** [std::string x = o.at(key).as_string().c_str()] *)
Definition at_string (o : object) (key : string) : M X string :=
  v ← at_value o key;
  s ← unwrap "not_string" (as_string v);
  mret (c_str s).

Definition at_object (o : object) (key : string) : M X object :=
  v ← at_value o key;
  unwrap "not_object" (as_object v).

Definition at_array (o : object) (key : string) : M X (list json) :=
  v ← at_value o key;
  unwrap "not_array" (as_array v).

Definition status (job_id st : string) (updates : object) : M X unit :=
  set_job_status (redis_ttl_sec_ cfg) job_id st updates.

(** ** Inputs *)

(** The attempts loop for one object: [remaining] attempts are left. *)
Fixpoint download_loop (remaining : nat) (attempt : Z) (bucket object_key local_path last_error : string)
    : M X (expected unit) :=
  match remaining with
  | O => mret (Unexpected last_error)
  | S remaining =>
      downloaded ← S3Download (c_str bucket) (c_str object_key) (c_str local_path);
      match downloaded with
      | Expected _ => mret (Expected ())
      | Unexpected e =>
          log LogWarning ("s3 download attempt " +:+ fmt_int attempt +:+ "/"
            +:+ fmt_int (Z.of_nat s3_download_attempts) +:+ " failed [" +:+ object_key +:+ "]: " +:+ e);;
          delay ← backoff_with_jitter attempt download_base_delay_ms download_max_delay_ms;
          sleep_for delay;;
          download_loop remaining (attempt + 1) bucket object_key local_path e
      end
  end.

Definition download_entry (entry : json) (inputs : string) : M X (expected unit) :=
  entry_object ← unwrap "not_object" (as_object entry);
  bucket ← at_string entry_object "bucket";
  object_key ← at_string entry_object "key";
  let local_path := path_div inputs (key_filename object_key) in
  result ← download_loop s3_download_attempts 1 bucket object_key local_path "";
  match result with
  | Expected _ => mret (Expected ())
  | Unexpected last_error =>
      mret (Unexpected ("cannot download s3 object [" +:+ object_key +:+ "]: " +:+ last_error))
  end.

Fixpoint download_entries (entries : list json) (inputs : string) : M X (expected unit) :=
  match entries with
  | [] => mret (Expected ())
  | entry :: rest =>
      downloaded ← download_entry entry inputs;
      match downloaded with
      | Unexpected e => mret (Unexpected e)
      | Expected _ => download_entries rest inputs
      end
  end.

Definition download_inputs (message : object) (inputs : string) : M X (expected unit) :=
  entries ← at_array message "download_s3";
  download_entries entries inputs.

(** ** Outputs *)

Definition result_object (filename url : string) : json :=
  JObject (<["method" := JString "GET"]> (<["download_url" := JString url]>
          (<["filename" := JString filename]> ∅))).

Fixpoint upload_entries (fs : FileSystem) (output_prefix outputs : string)
    (entries : list (string * node)) (results : list json) : M X (expected (list json)) :=
  match entries with
  | [] => mret (Expected results)
  | (filename, n) :: rest =>
      if denied fs OpStat (resolve fs outputs ++ [filename])
      then throw (error_message fs OpStat (resolve fs outputs ++ [filename]))
      else match n with
      | RegularFile _ =>
          let object_key := output_prefix +:+ filename in
          uploaded ← S3Upload (c_str (s3_bucket_ cfg)) (c_str object_key) (c_str (path_div outputs filename));
          match uploaded with
          | Unexpected e => mret (Unexpected ("cannot upload output [" +:+ filename +:+ "]: " +:+ e))
          | Expected _ =>
              presigned ← S3Presign (c_str (s3_bucket_ cfg)) (c_str object_key) (presign_ttl_sec_ cfg);
              match presigned with
              | Unexpected e => mret (Unexpected ("cannot presign output [" +:+ filename +:+ "]: " +:+ e))
              | Expected url =>
                  upload_entries fs output_prefix outputs rest (results ++ [result_object filename url])
              end
          end
      | _ => upload_entries fs output_prefix outputs rest results
      end
  end.

Definition upload_outputs (output_prefix outputs : string) : M X (expected (list json)) :=
  fs ← get_files;
  match directory_entries fs outputs with
  | None => mret (Unexpected ("cannot iterate outputs directory: "
                              +:+ error_message fs OpIterate (resolve fs outputs)))
  | Some entries => upload_entries fs output_prefix outputs entries []
  end.

(** ** Failure paths *)

Definition fail_without_retry (job_id : string) (message : object) (reason : string) : M X unit :=
  log LogError ("job [" +:+ job_id +:+ "] failed without retry: " +:+ reason);;
  status job_id "failed" (<["failure_reason" := JString reason]> (contract_fields message));;
  TaskDLQ.remove (task_dlq w) job_id.

(** The message parsed again for republishing, or a fresh object. *)
Definition parsed_body (job_id message_body : string) : object :=
  match parse message_body with
  | inl (JObject o) => o
  | _ => <["job_id" := JString job_id]> ∅
  end.

Definition inbound_count (republish : object) : Z :=
  match get_int64 republish "dlq_try_count" with Some z => to_int z | None => 0 end.

(** [contract_fields(republish)] with the reason and, once known, the count. *)
Definition failure_updates (republish : object) (reason : string) : object :=
  <["failure_reason" := JString reason]> (contract_fields republish).
Definition counted_updates (republish : object) (reason : string) (try_count : Z) : object :=
  <["retry_count" := JInt64 try_count]> (failure_updates republish reason).

Definition dedup_id (job_id : string) (try_count : Z) : string :=
  job_id +:+ "-retry-" +:+ fmt_int try_count.

(** The tail of [handle_processing_failure], once a retry is due. *)
Definition republish_job (job_id reason : string) (republish : object) (try_count : Z) : M X unit :=
  let republish := <["dlq_try_count" := JInt64 try_count]> republish in
  backoff ← backoff_with_jitter try_count retry_base_delay_ms retry_max_delay_ms;
  log LogInformation ("job [" +:+ job_id +:+ "] retry backoff " +:+ fmt_int backoff
    +:+ "ms before requeue " +:+ fmt_int try_count +:+ "/" +:+ fmt_int (dlq_max_retry_count_ cfg));;
  sleep_for backoff;;
  republished ← SqsSend (c_str (serialize (JObject republish))) (c_str (sqs_message_group_id_ cfg))
                  (c_str (dedup_id job_id try_count));
  match republished with
  | Unexpected e =>
      log LogError ("cannot republish job [" +:+ job_id +:+ "] for retry: " +:+ e);;
      TaskDLQ.remove (task_dlq w) job_id;;
      status job_id "failed"
        (counted_updates republish (reason +:+ " (republish failed: " +:+ e +:+ ")") try_count)
  | Expected _ =>
      log LogInformation ("job [" +:+ job_id +:+ "] requeued for retry " +:+ fmt_int try_count +:+ "/"
                          +:+ fmt_int (dlq_max_retry_count_ cfg));;
      status job_id "queued" (counted_updates republish reason try_count)
  end.

Definition handle_processing_failure (job_id message_body reason : string) : M X unit :=
  let republish := parsed_body job_id message_body in
  recorded ← TaskDLQ.record_failure (task_dlq w) job_id message_body reason (inbound_count republish);
  match recorded with
  | Unexpected e =>
      log LogError ("cannot record dlq entry [" +:+ job_id +:+ "]: " +:+ e);;
      status job_id "failed" (failure_updates republish reason)
  | Expected try_count =>
      if negb (TaskDLQ.can_retry (task_dlq w) try_count) then
        log LogWarning ("job [" +:+ job_id +:+ "] gave up after " +:+ fmt_int try_count +:+ " attempts");;
        TaskDLQ.remove (task_dlq w) job_id;;
        status job_id "failed" (counted_updates republish reason try_count)
      else republish_job job_id reason republish try_count
  end.

(** ** Processing *)

Fixpoint read_arguments (l : list json) : M X (list string) :=
  match l with
  | [] => mret []
  | v :: rest =>
      s ← unwrap "not_string" (as_string v);
      args ← read_arguments rest;
      mret (c_str s :: args)
  end.

Definition task_arguments (task : object) : M X (list string) :=
  if contains task "arguments"
  then l ← at_array task "arguments"; read_arguments l
  else mret [].

Definition task_timeout (task : object) : M X Z :=
  if contains task "timeout_sec"
  then v ← at_value task "timeout_sec"; z ← unwrap "not_int64" (as_int64 v); mret (to_int z)
  else mret 0.

Definition done_updates (message : object) (code : Z) (tail : string) (urls : list json) : object :=
  <["failure_reason" := JNull]>
  (<["result_download_url" := JArray urls]>
  (<["stdout_tail" := JString tail]>
  (<["exit_code" := JInt64 code]> (contract_fields message)))).

(** The part of [process_job] in the scope of the temporary directory. *)
Definition run_job (message task : object) (job_id task_name : string) (definition : TaskDefinition)
    (root : string) : M X (expected unit) :=
  downloaded ← download_inputs message (inputs_dir root);
  match downloaded with
  | Unexpected e => mret (Unexpected e)
  | Expected _ =>
  arguments ← task_arguments task;
  timeout_sec ← task_timeout task;
  executed ← TaskExecutor.execute (task_executor w) definition arguments (inputs_dir root)
               (outputs_dir root) (stdout_log root) timeout_sec;
  match executed with
  | Unexpected e => mret (Unexpected e)
  | Expected result =>
  if negb (TaskExecutor.exit_code result =? 0) then
    mret (Unexpected ("task [" +:+ task_name +:+ "] exited with code "
      +:+ fmt_int (TaskExecutor.exit_code result) +:+ ": " +:+ TaskExecutor.stdout_tail result))
  else
  output_prefix ← at_string message "output_prefix";
  uploaded ← upload_outputs output_prefix (outputs_dir root);
  match uploaded with
  | Unexpected e => mret (Unexpected e)
  | Expected urls =>
  status job_id "done" (done_updates message (TaskExecutor.exit_code result)
                          (TaskExecutor.stdout_tail result) urls);;
  TaskDLQ.remove (task_dlq w) job_id;;
  log LogInformation ("job [" +:+ job_id +:+ "] done: task=" +:+ task_name +:+ ", outputs="
                      +:+ fmt_int (Z.of_nat (length urls)));;
  mret (Expected ())
  end end end.

Definition process_job (message : object) (message_body : string) : M X (expected unit) :=
  job_id ← at_string message "job_id";
  task ← at_object message "task";
  task_name ← at_string task "name";
  terminal ← is_terminal_status job_id;
  if (terminal : bool) then
    log LogInformation ("job [" +:+ job_id +:+ "] already terminal: skipping redelivery");;
    mret (Expected ())
  else
  match TaskExecutor.find_task (task_executor w) task_name with
  | None =>
      fail_without_retry job_id message ("task [" +:+ task_name +:+ "] is not registered in the whitelist");;
      mret (Expected ())
  | Some definition =>
      status job_id "running" (contract_fields message);;
      with_temp_dir job_id (run_job message task job_id task_name definition)
  end.

(** ** The consume handler *)

(** The branch for a message that fails validation. *)
Definition reject_message (message : object) (error : string) : M X (expected unit) :=
  log LogError ("invalid message (dropped): " +:+ error);;
  (match get_string message "job_id" with
   | Some job_id =>
       if is_valid_job_id job_id
       then status (c_str job_id) "failed" (<["failure_reason" := JString error]> (contract_fields message))
       else mret ()
   | None => mret ()
   end);;
  mret (Expected ()).

Definition handle_message (message_body : string) : M X (expected unit) :=
  log LogDebug ("received message: " +:+ message_body);;
  match parse message_body with
  | inr what =>
      log LogError ("cannot parse message (dropped): " +:+ what);;
      mret (Expected ())
  | inl parsed_value =>
  match as_object parsed_value with
  | None =>
      log LogError "message root is not a JSON object (dropped)";;
      mret (Expected ())
  | Some message =>
  match validate_request message with
  | Unexpected error => reject_message message error
  | Expected _ =>
  processed ← process_job message message_body;
  match processed with
  | Expected _ => mret (Expected ())
  | Unexpected error =>
      job_id ← at_string message "job_id";
      log LogError ("job [" +:+ job_id +:+ "] failed: " +:+ error);;
      handle_processing_failure job_id message_body error;;
      mret (Expected ())
  end end end end.

End Handlers.

End Worker.
