(* ===== verification/StatusSchema.v ===== *)
(** * The type of a status document

    The fields a client may find in the status document of a job, with their
    types ([schema]).  The updates the worker applies are typed, and merging
    typed updates into a typed document gives a typed document; a typed
    document is written in a form that reads back as itself or not at all. *)

From S2P Require Import Prelude Utf8 Json Filesystem Effects MessageValidation Configurations.
From S2P Require Import TaskDLQ TaskExecutor WorkerStatus Worker.
Import MessageValidation.

(** ** The type *)

Definition job_statuses : list string := ["queued"; "running"; "done"; "failed"].

(** An entry of [result_download_url]. *)
Definition result_entry (v : json) : bool :=
  match v with
  | JObject o =>
      bool_decide (dom o = {["filename"; "download_url"; "method"]}) &&
      forallb (λ k, is_string (default JNull (o !! k))) ["filename"; "download_url"; "method"]
  | _ => false
  end.

(** The type of each optional field; a document has no other fields. *)
Definition field_ok (k : string) (v : json) : bool :=
  if bool_decide (k ∈ ["job_id"; "status"; "updated_at"; "task_name"; "enqueued_at"; "failure_reason"; "stdout_tail"])
  then is_string v
  else if bool_decide (k ∈ ["exit_code"; "retry_count"])
  then match v with JInt64 z => bool_decide (in_int z) | _ => false end
  else if bool_decide (k = "result_download_url")
  then match v with JArray l => forallb result_entry l | _ => false end
  else false.

(** The fields of [d] are of their types. *)
Definition fields_ok (d : object) : Prop := map_Forall (λ k v, field_ok k v = true) d.

Record schema (job_id : string) (d : object) : Prop := {
  schema_fields : fields_ok d;
  schema_job_id : d !! "job_id" = Some (JString job_id);
  schema_status : ∃ st, d !! "status" = Some (JString st) ∧ st ∈ job_statuses;
  schema_updated_at : ∃ t, d !! "updated_at" = Some (JString t);
}.

(** Updates: a removal, or a typed value, of a field other than the three
    [set_job_status] sets itself. *)
Definition updates_ok (u : object) : Prop :=
  map_Forall (λ k v, (k ∉ ["job_id"; "status"; "updated_at"]) ∧ (v = JNull ∨ field_ok k v = true)) u.

(** ** Merging *)

Lemma merge_schema existing job_id st u t :
  fields_ok existing → updates_ok u → st ∈ job_statuses →
  schema job_id (merge_status existing job_id st u t).
Proof.
  intros He Hu Hst.
  assert (Hno : ∀ k, k ∈ ["job_id"; "status"; "updated_at"] → u !! k = None).
  { intros k Hk. destruct (u !! k) as [v|] eqn:Hv; [|done]. by destruct (Hu k v Hv) as [[] _]. }
  split.
  - intros k v. rewrite merge_status_lookup. case_bool_decide as H1; [subst; by intros [= <-]|].
    destruct (u !! k) as [x|] eqn:Hk.
    + intros Hv. assert (x = v ∧ v ≠ JNull) as [-> Hn] by (by destruct x; simplify_eq).
      by destruct (Hu k v Hk) as [_ [|]].
    + repeat case_bool_decide; subst; [by intros [= <-]|by intros [= <-]|apply He].
  - rewrite merge_status_lookup, Hno by set_solver. done.
  - exists st. rewrite merge_status_lookup, Hno by set_solver. done.
  - exists t. by rewrite merge_status_lookup.
Qed.

(** ** The updates of the worker are typed *)

Lemma updates_ok_insert u k v :
  updates_ok u → k ∉ ["job_id"; "status"; "updated_at"] → v = JNull ∨ field_ok k v = true → updates_ok (<[k := v]> u).
Proof. intros. by apply map_Forall_insert_2. Qed.

Lemma contract_fields_ok message : updates_ok (contract_fields message).
Proof.
  intros k v Hk. apply contract_fields_lookup in Hk as [Hk [s ->]].
  split; [|right]; destruct Hk as [-> | ->]; [set_solver..|done|done].
Qed.

Lemma failure_updates_ok message reason : updates_ok (Worker.failure_updates message reason).
Proof. apply updates_ok_insert; [apply contract_fields_ok|set_solver|by right]. Qed.

Lemma counted_updates_ok message reason n : in_int n → updates_ok (Worker.counted_updates message reason n).
Proof.
  intros Hn. apply updates_ok_insert; [apply failure_updates_ok|set_solver|right].
  unfold field_ok. rewrite bool_decide_eq_false_2 by set_solver. simpl. by rewrite bool_decide_eq_true.
Qed.

Lemma result_object_entry filename url : result_entry (Worker.result_object filename url) = true.
Proof.
  unfold result_entry, Worker.result_object. apply andb_true_iff. split; [|reflexivity].
  apply bool_decide_eq_true. set_solver.
Qed.

Lemma done_updates_ok message code tail urls :
  in_int code → forallb result_entry urls = true → updates_ok (Worker.done_updates message code tail urls).
Proof.
  intros Hc Hu. unfold Worker.done_updates.
  apply updates_ok_insert; [|set_solver|by left]. apply updates_ok_insert; [|set_solver|by right].
  apply updates_ok_insert; [|set_solver|by right]. apply updates_ok_insert; [apply contract_fields_ok|set_solver|right].
  unfold field_ok. simpl. by rewrite bool_decide_eq_true.
Qed.

Lemma inbound_count_in_int republish : in_int (Worker.inbound_count republish).
Proof. unfold Worker.inbound_count. destruct (get_int64 _ _); [apply to_int_range|done]. Qed.

(** ** Reading back *)

Lemma result_entry_wf d v : result_entry v = true → json_utf8 v = true → json_wf_at (S d) v = true.
Proof.
  destruct v as [| | | | | | |o]; try done. unfold result_entry. rewrite andb_true_iff, bool_decide_eq_true.
  intros [Hdom Hs] Hu. apply json_wf_object. intros k v Hk.
  pose proof (json_utf8_key o k v Hu Hk) as Hkey. pose proof (json_utf8_lookup o k v Hu Hk) as Hv. split; [done|].
  assert (Hin : k ∈ ["filename"; "download_url"; "method"]).
  { assert (Hk' : k ∈ dom o) by (by apply elem_of_dom_2 in Hk). rewrite Hdom in Hk'. set_solver. }
  rewrite forallb_forall in Hs. apply list_elem_of_In, Hs in Hin. rewrite Hk in Hin. by destruct v.
Qed.

Lemma field_ok_wf d k v : field_ok k v = true → json_utf8 v = true → json_wf_at (S (S d)) v = true.
Proof.
  unfold field_ok. intros Hf Hu. repeat case_bool_decide; try done; destruct v as [| | | | | |l|]; try done.
  - apply bool_decide_eq_true. simpl in *. bool_to_prop. unfold in_int, in_int64, INT_MIN, INT_MAX, INT64_MIN, INT64_MAX in *. lia.
  - rewrite json_wf_array. simpl in *. rewrite forallb_forall in *. intros x Hx. apply result_entry_wf; auto.
Qed.

(** A document of the right types reads back as itself, unless a string in it
    is not UTF-8: then it does not read back at all. *)
Lemma fields_ok_readback `{JsonCodec} `{JL : !JsonCodecLaws} d d' :
  fields_ok d → parse (serialize (JObject d)) = inl (JObject d') → d' = d.
Proof.
  intros Hd Hp. destruct (json_utf8 (JObject d)) eqn:Hu.
  - rewrite parse_serialize in Hp; [by simplify_eq|]. apply json_wf_object. intros k v Hk.
    split; [by eapply json_utf8_key|]. eapply field_ok_wf; [by apply Hd|by eapply json_utf8_lookup].
  - destruct (parse_serialize_invalid (JObject d) Hu) as [what He]. by rewrite He in Hp.
Qed.
