(* ===== verification/WorkerTrace.v ===== *)
(** * Which interactions a handled message can cause

    For every operation of Worker.v, the interactions it can have with the
    outside, as closure lemmas over [emits]; and that, once a message has
    passed validation, the unchecked reads of the code do not throw. *)

From S2P Require Import Prelude Utf8 Json Filesystem Effects MessageValidation Configurations.
From S2P Require Import TaskDLQ TaskExecutor WorkerStatus Worker.
Import MessageValidation TaskDLQ(remove_emits, remove_returns).

(** ** Reads of a validated message *)

Section Reads.
Context {X : Type}.

Lemma at_string_run o k v (s : Machine X) :
  o !! k = Some (JString v) → Worker.at_string o k s = (Returned (c_str v), s, []).
Proof.
  intros Hk. unfold Worker.at_string, Worker.at_value, at_, mbind, M_bind, unwrap. by rewrite Hk.
Qed.

Lemma at_string_Returned o k (s s' : Machine X) v es :
  Worker.at_string o k s = (Returned v, s', es) →
  ∃ raw, o !! k = Some (JString raw) ∧ v = c_str raw ∧ s' = s ∧ es = [].
Proof.
  unfold Worker.at_string, Worker.at_value, at_. intros Hr.
  bind_inv Hr as (j & s1 & es1 & es2 & Hj & Hr & ->). apply unwrap_Returned in Hj as (Hj & -> & ->).
  bind_inv Hr as (raw & s2 & es3 & es4 & Hraw & Hr & ->). apply unwrap_Returned in Hraw as (Hraw & -> & ->).
  ret_inv Hr. exists raw. destruct j; simplify_eq/=. done.
Qed.

Lemma at_object_run o k v (s : Machine X) :
  o !! k = Some (JObject v) → Worker.at_object o k s = (Returned v, s, []).
Proof.
  intros Hk. unfold Worker.at_object, Worker.at_value, at_, mbind, M_bind, unwrap. by rewrite Hk.
Qed.

Lemma at_array_run o k v (s : Machine X) :
  o !! k = Some (JArray v) → Worker.at_array o k s = (Returned v, s, []).
Proof.
  intros Hk. unfold Worker.at_array, Worker.at_value, at_, mbind, M_bind, unwrap. by rewrite Hk.
Qed.

Lemma returns_of_run {A} (m : M X A) (a : A) : (∀ s, m s = (Returned a, s, [])) → returns m.
Proof. intros Hm s. rewrite Hm. by exists a. Qed.

Lemma read_arguments_run l (s : Machine X) :
  Forall string_value l →
  ∃ raw, l = JString <$> raw ∧ Worker.read_arguments l s = (Returned (c_str <$> raw), s, []).
Proof.
  induction 1 as [|v l [str ->] _ (raw & -> & Hr)]; [by exists []|].
  exists (str :: raw). split; [done|]. simpl. unfold mbind, M_bind. simpl. by rewrite Hr.
Qed.

End Reads.

Section Trace.
Context {X : Type} `{Services X} `{JsonCodec}.
Context (w : Worker.t).
Context (P : Event → Prop).
Context (Plog : ∀ l m, P (EvLog l m)) (Psleep : ∀ ms, P (EvSleep ms)).

Abbreviation cfg := (Worker.configurations w).

(** A status write of the worker: the document, merged over some earlier
    one. *)
Definition status_write (job_id st : string) (updates : object) (e : Event) : Prop :=
  ∃ existing updated_at r, e = EvRedisSet job_id
    (serialize (JObject (merge_status existing job_id st updates updated_at)))
    (Some (redis_ttl_sec_ cfg)) r.

Lemma status_emits job_id st updates :
  (∀ r, P (EvRedisGet job_id r)) → (∀ e, status_write job_id st updates e → P e) →
  emits P (Worker.status w job_id st updates : M X unit).
Proof using Plog.
  intros Hg Hs. apply set_job_status_emits; [done|done|].
  intros d u r. apply Hs. by exists d, u, r.
Qed.

Lemma at_value_emits o k : emits P (Worker.at_value o k : M X json).
Proof. apply emits_unwrap. Qed.
Lemma at_string_emits o k : emits P (Worker.at_string o k : M X string).
Proof. unfold Worker.at_string, Worker.at_value. emits_tac. Qed.
Lemma at_object_emits o k : emits P (Worker.at_object o k : M X object).
Proof. unfold Worker.at_object, Worker.at_value. emits_tac. Qed.
Lemma at_array_emits o k : emits P (Worker.at_array o k : M X (list json)).
Proof. unfold Worker.at_array, Worker.at_value. emits_tac. Qed.
Hint Resolve at_value_emits at_string_emits at_object_emits at_array_emits : taskforge.

Lemma download_loop_emits n attempt bucket key path err :
  (∀ r, P (EvDownload (c_str bucket) (c_str key) (c_str path) r)) →
  emits P (Worker.download_loop n attempt bucket key path err : M X (expected unit)).
Proof using Plog Psleep.
  intros Hd. revert attempt err. induction n as [|n IH]; intros attempt err; simpl; emits_tac.
Qed.

Lemma download_inputs_emits message inputs :
  (∀ b k p r, P (EvDownload b k p r)) →
  emits P (Worker.download_inputs message inputs : M X (expected unit)).
Proof using Plog Psleep.
  intros Hd. unfold Worker.download_inputs. apply emits_bind; [auto with taskforge|].
  intros entries. induction entries as [|e l IH]; simpl; [auto with taskforge|].
  apply emits_bind; [|intros []; auto with taskforge].
  unfold Worker.download_entry. emits_tac. by apply download_loop_emits.
Qed.

Lemma upload_entries_emits fs prefix outputs entries results :
  (∀ k p r, P (EvUpload (c_str (s3_bucket_ cfg)) k p r)) → (∀ k t r, P (EvPresign (c_str (s3_bucket_ cfg)) k t r)) →
  emits P (Worker.upload_entries w fs prefix outputs entries results : M X (expected (list json))).
Proof.
  intros Hu Hp. revert results.
  induction entries as [|[name n] l IH]; intros results; simpl; [auto with taskforge|].
  destruct (denied _ _ _); [auto with taskforge|]. destruct n; [|auto..].
  apply emits_bind; [unfold S3Upload; intros s; apply emits_call; intros; by apply Forall_singleton|].
  intros [[]|]; emits_tac.
Qed.

Lemma upload_outputs_emits prefix outputs :
  (∀ k p r, P (EvUpload (c_str (s3_bucket_ cfg)) k p r)) → (∀ k t r, P (EvPresign (c_str (s3_bucket_ cfg)) k t r)) →
  emits P (Worker.upload_outputs w prefix outputs : M X (expected (list json))).
Proof. intros. unfold Worker.upload_outputs. emits_tac. by apply upload_entries_emits. Qed.

(** Updates that set the contract fields of a message. *)
Definition carries (message updates : object) : Prop := contract_fields message ⊆ updates.

Lemma carries_fields message : carries message (contract_fields message).
Proof. unfold carries. reflexivity. Qed.

Lemma carries_insert message updates k v :
  k ≠ "task_name" → k ≠ "enqueued_at" → carries message updates → carries message (<[k := v]> updates).
Proof. intros. by apply insert_subseteq_r; [apply contract_fields_None|]. Qed.

Lemma carries_counted message updates n :
  carries (<["dlq_try_count" := JInt64 n]> message) updates ↔ carries message updates.
Proof. unfold carries, contract_fields, get_object, get_string, at_. by simplify_map_eq. Qed.
Hint Resolve carries_fields carries_insert : taskforge.

Lemma failure_carries message reason : carries message (Worker.failure_updates message reason).
Proof. apply carries_insert; [done..|apply carries_fields]. Qed.
Lemma counted_carries message reason n : carries message (Worker.counted_updates message reason n).
Proof. apply carries_insert; [done..|apply failure_carries]. Qed.
Lemma done_carries message code tail urls : carries message (Worker.done_updates message code tail urls).
Proof. unfold Worker.done_updates. repeat (apply carries_insert; [done..|]). apply carries_fields. Qed.

Lemma fail_without_retry_emits job_id message reason :
  (∀ r, P (EvRedisGet job_id r)) →
  (∀ e, status_write job_id "failed" (<["failure_reason" := JString reason]> (contract_fields message)) e → P e) →
  emits P (Worker.fail_without_retry w job_id message reason : M X unit).
Proof using Plog.
  intros Hg Hs. unfold Worker.fail_without_retry. emits_tac. by apply status_emits.
Qed.

Lemma read_arguments_emits l : emits P (Worker.read_arguments l : M X (list string)).
Proof. induction l as [|v l IH]; simpl; emits_tac. Qed.

Lemma task_arguments_emits task : emits P (Worker.task_arguments task : M X (list string)).
Proof. unfold Worker.task_arguments. emits_tac. apply read_arguments_emits. Qed.

Lemma task_timeout_emits task : emits P (Worker.task_timeout task : M X Z).
Proof. unfold Worker.task_timeout. emits_tac. Qed.

Lemma with_temp_dir_emits {A} job_id (body : string → M X A) :
  (∀ root, emits P (body root)) → emits P (with_temp_dir job_id body).
Proof.
  intros Hb. unfold with_temp_dir, make_temp_dir, remove_temp_dir. emits_tac.
Qed.

(** What one retry step may publish: the message with its count set. *)
Definition republication (job_id : string) (republish : object) (try_count : Z) (e : Event) : Prop :=
  ∃ r, e = EvSend (c_str (serialize (JObject (<["dlq_try_count" := JInt64 try_count]> republish))))
             (c_str (sqs_message_group_id_ cfg)) (c_str (Worker.dedup_id job_id try_count)) r.

Lemma republish_job_emits job_id reason republish n :
  (∀ r, P (EvRedisGet job_id r)) →
  (∀ st updates e, carries republish updates → status_write job_id st updates e → P e) →
  (∀ e, republication job_id republish n e → P e) →
  emits P (Worker.republish_job w job_id reason republish n : M X unit).
Proof using Plog Psleep.
  intros Hg Hs Hr. unfold Worker.republish_job. emits_tac.
  - apply Hr. eexists. done.
  - apply status_emits; [done|]. intros e. apply Hs, (carries_counted _ _ n), counted_carries.
  - apply status_emits; [done|]. intros e'. apply Hs, (carries_counted _ _ n), counted_carries.
Qed.

(** The counts [handle_processing_failure] works with. *)
Definition retry_count_ok (inbound n : Z) : Prop :=
  1 ≤ n ∧ inbound < n ∧ n ≤ TaskDLQ.max_retry_count (Worker.task_dlq w).

Lemma handle_processing_failure_emits job_id body reason :
  let republish := Worker.parsed_body job_id body in
  (∀ r, P (EvRedisGet job_id r)) →
  (∀ st updates e, carries republish updates → status_write job_id st updates e → P e) →
  (∀ n e, retry_count_ok (Worker.inbound_count republish) n → republication job_id republish n e → P e) →
  emits P (Worker.handle_processing_failure w job_id body reason : M X unit).
Proof using Plog Psleep.
  cbv zeta. intros Hg Hs Hr. unfold Worker.handle_processing_failure.
  apply emits_bind_run; [apply TaskDLQ.record_failure_emits|].
  intros s [n|e] s' es Hrun; [|emits_tac; apply status_emits; [done|intros e'; apply Hs, failure_carries]].
  apply TaskDLQ.record_failure_count in Hrun as [??].
  destruct (TaskDLQ.can_retry _ _) eqn:Hcan; cbn [negb].
  - unfold TaskDLQ.can_retry in Hcan. bool_to_prop.
    apply republish_job_emits; [done|done|]. intros e. by apply Hr.
  - emits_tac. apply status_emits; [done|]. intros e. apply Hs, counted_carries.
Qed.

Lemma run_job_emits message task job_id name definition root :
  (∀ r, P (EvRedisGet job_id r)) →
  (∀ updates e, carries message updates → status_write job_id "done" updates e → P e) →
  (∀ b k p r, P (EvDownload b k p r)) →
  (∀ args timeout, P (EvExec (TaskExecutor.resolve_executable (Worker.task_executor w) (task_executable definition))
     args (TaskExecutor.effective_timeout (Worker.task_executor w) timeout))) →
  (∀ k p r, P (EvUpload (c_str (s3_bucket_ cfg)) k p r)) → (∀ k t r, P (EvPresign (c_str (s3_bucket_ cfg)) k t r)) →
  emits P (Worker.run_job w message task job_id name definition root : M X (expected unit)).
Proof using Plog Psleep.
  intros Hg Hs Hd He Hu Hp. unfold Worker.run_job.
  apply emits_bind; [by apply download_inputs_emits|intros [[]|]; [|auto with taskforge]].
  apply emits_bind; [apply task_arguments_emits|intros args].
  apply emits_bind; [apply task_timeout_emits|intros timeout].
  apply emits_bind; [by apply TaskExecutor.execute_emits|intros [result|]; [|auto with taskforge]].
  destruct (negb _); [auto with taskforge|].
  apply emits_bind; [auto with taskforge|intros prefix].
  apply emits_bind; [by apply upload_outputs_emits|intros [urls|]; [|auto with taskforge]].
  emits_tac. apply status_emits; [done|]. intros e. apply Hs, done_carries.
Qed.

Lemma process_job_emits message body id :
  message !! "job_id" = Some (JString id) → is_valid_job_id id = true →
  (∀ id r, P (EvRedisGet id r)) →
  (∀ st updates e, carries message updates → status_write id st updates e → P e) →
  (∀ b k p r, P (EvDownload b k p r)) →
  (∀ d args timeout, d ∈ TaskExecutor.whitelist (Worker.task_executor w) →
     P (EvExec (TaskExecutor.resolve_executable (Worker.task_executor w) (task_executable d))
     args (TaskExecutor.effective_timeout (Worker.task_executor w) timeout))) →
  (∀ k p r, P (EvUpload (c_str (s3_bucket_ cfg)) k p r)) → (∀ k t r, P (EvPresign (c_str (s3_bucket_ cfg)) k t r)) →
  emits P (Worker.process_job w message body : M X (expected unit)).
Proof using Plog Psleep.
  intros Hid Hvalid Hg Hs Hd He Hu Hp. unfold Worker.process_job.
  apply emits_bind_run; [auto with taskforge|intros s0 id' s0' es0 Hrun].
  rewrite (at_string_run _ _ id), valid_job_id_c_str in Hrun by done. injection Hrun as <- _ _.
  apply emits_bind; [auto with taskforge|intros task].
  apply emits_bind; [auto with taskforge|intros name].
  apply emits_bind; [unfold is_terminal_status; emits_tac|intros [|]; [emits_tac|]].
  destruct (TaskExecutor.find_task _ name) as [d|] eqn:Hf.
  - apply TaskExecutor.find_in_Some in Hf as [Hin _].
    apply emits_bind; [apply status_emits; [done|intros e; apply Hs, carries_fields]|intros _].
    apply with_temp_dir_emits. intros root. apply run_job_emits; try done; [apply Hs|].
    intros. by apply He.
  - apply emits_bind; [|auto with taskforge].
    apply fail_without_retry_emits; [done|]. intros e. apply Hs, failure_carries.
Qed.

Lemma reject_message_emits message error :
  (∀ id r, P (EvRedisGet id r)) →
  (∀ id updates e, get_string message "job_id" = Some id → is_valid_job_id id = true →
     carries message updates → status_write id "failed" updates e → P e) →
  emits P (Worker.reject_message w message error : M X (expected unit)).
Proof using Plog.
  intros Hg Hs. unfold Worker.reject_message. emits_tac. rewrite valid_job_id_c_str by done.
  apply status_emits; [done|]. intros e. apply Hs; [done..|]. apply failure_carries.
Qed.

(** Everything a parsed message can cause. *)
Lemma handle_message_emits body message :
  parse body = inl (JObject message) →
  (∀ id r, P (EvRedisGet id r)) →
  (∀ id st updates e, get_string message "job_id" = Some id → is_valid_job_id id = true →
     carries message updates → status_write id st updates e → P e) →
  (∀ b k p r, P (EvDownload b k p r)) →
  (∀ d args timeout, d ∈ TaskExecutor.whitelist (Worker.task_executor w) →
     P (EvExec (TaskExecutor.resolve_executable (Worker.task_executor w) (task_executable d))
     args (TaskExecutor.effective_timeout (Worker.task_executor w) timeout))) →
  (∀ k p r, P (EvUpload (c_str (s3_bucket_ cfg)) k p r)) → (∀ k t r, P (EvPresign (c_str (s3_bucket_ cfg)) k t r)) →
  (∀ id n e, validate_request message = Expected () → get_string message "job_id" = Some id →
     retry_count_ok (Worker.inbound_count message) n → republication id message n e → P e) →
  emits P (Worker.handle_message w body : M X (expected unit)).
Proof using Plog Psleep.
  intros Hparse Hg Hs Hd He Hu Hp Hr. unfold Worker.handle_message. rewrite Hparse. simpl.
  apply emits_bind; [by apply emits_emit|intros _].
  destruct (validate_request message) as [[]|error] eqn:Hv;
    [|apply reject_message_emits; [done|intros id; apply Hs]].
  apply valid_request_iff in Hv as Hval. destruct (request_job_id _ Hval) as (id & Hid & Hlang).
  assert (Hvalid : is_valid_job_id id = true) by (by apply is_valid_job_id_iff).
  assert (Hget : get_string message "job_id" = Some id) by (by apply get_string_Some).
  apply emits_bind; [eapply process_job_emits; eauto|intros [[]|error]; [auto with taskforge|]].
  apply emits_bind_run; [auto with taskforge|]. intros s id' s' es Hrun.
  rewrite (at_string_run _ _ id), valid_job_id_c_str in Hrun by done. injection Hrun as <- _ _.
  apply emits_bind; [by apply emits_emit|intros _].
  apply emits_bind; [|auto with taskforge].
  assert (Hpb : Worker.parsed_body id body = message) by (unfold Worker.parsed_body; by rewrite Hparse).
  apply handle_processing_failure_emits; [done|rewrite Hpb; eauto|]. rewrite Hpb. eauto.
Qed.

(** Text that is not a JSON object causes no interaction but log lines. *)
Lemma handle_message_garbage body :
  (∀ message, parse body ≠ inl (JObject message)) →
  emits P (Worker.handle_message w body : M X (expected unit)).
Proof using Plog.
  intros Hp. unfold Worker.handle_message.
  destruct (parse body) as [v|]; [destruct v; try by destruct (Hp o)|]; simpl; emits_tac.
Qed.

End Trace.
