(* ===== verification/WorkerRuns.v ===== *)
(** * Relations between the trace and the services

    A relation between the state of the services before a run, the
    interactions of the run and the state after it, that every single
    interaction satisfies and that composes ([RunRelation]), holds of
    everything the worker does. The histories use it for the content of Redis,
    and for its content over time. *)

From S2P Require Import Prelude Utf8 Json Filesystem Effects MessageValidation Configurations.
From S2P Require Import TaskDLQ TaskExecutor WorkerStatus Worker.

Class RunRelation {X : Type} `{Services X} (R : X → list Event → X → Prop) : Prop := {
  run_nil x : R x [] x;
  run_app x es x' es' x'' : R x es x' → R x' es' x'' → R x (es ++ es') x'';
  run_log level message x : R x [EvLog level message] x;
  run_sleep ms x : R x [EvSleep ms] x;
  run_get key x : R x [EvRedisGet key (redis_get key x).1] (redis_get key x).2;
  run_set key value ttl x :
    R x [EvRedisSet key value ttl (redis_set key value ttl x).1] (redis_set key value ttl x).2;
  run_download b k p fs x :
    R x [EvDownload b k p (s3_download_file b k p fs x).1.1] (s3_download_file b k p fs x).2;
  run_upload b k p fs x : R x [EvUpload b k p (s3_upload_file b k p fs x).1] (s3_upload_file b k p fs x).2;
  run_presign b k ttl x : R x [EvPresign b k ttl (s3_presign b k ttl x).1] (s3_presign b k ttl x).2;
  run_send body group dedup x :
    R x [EvSend body group dedup (sqs_send_message body group dedup x).1] (sqs_send_message body group dedup x).2;
  run_exec exe args out timeout fs x : R x [EvExec exe args timeout] (run_child exe args out timeout fs x).2;
  run_now x : R x [] (system_clock_now x).2;
  run_uniform lo hi x : R x [] (uniform_int lo hi x).2;
}.

Section Following.
Context {X : Type} `{Services X} (R : X → list Event → X → Prop) `{RR : !RunRelation R}.
#[local] Set Default Proof Using "Type RR".

Definition follows {A} (m : M X A) : Prop := ∀ s, R (ext s) (m s).2 (ext (m s).1.2).

Lemma follows_ret {A} (a : A) : follows (mret a).
Proof. intros s. apply run_nil. Qed.
Lemma follows_throw {A} e : follows (throw e : M X A).
Proof. intros s. apply run_nil. Qed.
Lemma follows_undefined {A} : follows (undefined : M X A).
Proof. intros s. apply run_nil. Qed.
Lemma follows_unwrap {A} what (v : option A) : follows (unwrap what v).
Proof. destruct v; [apply follows_ret|apply follows_throw]. Qed.
Lemma follows_get_files : follows get_files.
Proof. intros s. apply run_nil. Qed.
Lemma follows_set_files fs : follows (set_files fs).
Proof. intros s. apply run_nil. Qed.
Lemma follows_log l m : follows (log l m).
Proof. intros s. apply run_log. Qed.
Lemma follows_sleep ms : follows (sleep_for ms).
Proof. intros s. apply run_sleep. Qed.

Lemma follows_bind {A B} (m : M X A) (f : A → M X B) :
  follows m → (∀ a, follows (f a)) → follows (m ≫= f).
Proof.
  intros Hm Hf s. unfold mbind, M_bind. specialize (Hm s).
  destruct (m s) as [[[a|e|] s'] es]; simpl in *; [|done..].
  specialize (Hf a s'). destruct (f a s') as [[o s''] es']. simpl in *. by eapply run_app.
Qed.

Lemma follows_with_cleanup {A} (m : M X A) c : follows m → follows c → follows (with_cleanup m c).
Proof.
  intros Hm Hc s. unfold with_cleanup. specialize (Hm s). destruct (m s) as [[o s'] es].
  specialize (Hc s'). destruct (c s') as [[o' s''] es']. simpl in *. by eapply run_app.
Qed.

Lemma follows_call {A} (op : X → A * X) ev : (∀ x, R x (ev (op x).1) (op x).2) → follows (call op ev).
Proof. intros Hop s. unfold call. specialize (Hop (ext s)). by destruct (op (ext s)). Qed.
Lemma follows_call_fs {A} (op : FileSystem → X → A * FileSystem * X) ev :
  (∀ fs x, R x (ev (op fs x).1.1) (op fs x).2) → follows (call_fs op ev).
Proof. intros Hop s. unfold call_fs. specialize (Hop (files s) (ext s)). by destruct (op (files s) (ext s)) as [[? ?] ?]. Qed.

Lemma follows_redis_get k : follows (RedisGet k).
Proof. apply follows_call, run_get. Qed.
Lemma follows_redis_set k v t : follows (RedisSet k v t).
Proof. apply follows_call, run_set. Qed.
Lemma follows_download b k p : follows (S3Download b k p).
Proof. apply follows_call_fs, run_download. Qed.
Lemma follows_upload b k p : follows (S3Upload b k p).
Proof. intros s. apply (follows_call (s3_upload_file b k p (files s))). apply run_upload. Qed.
Lemma follows_presign b k t : follows (S3Presign b k t).
Proof. apply follows_call, run_presign. Qed.
Lemma follows_send b g d : follows (SqsSend b g d).
Proof. apply follows_call, run_send. Qed.
Lemma follows_child e a o t : follows (RunChild e a o t).
Proof. apply follows_call_fs, run_exec. Qed.
Lemma follows_now : follows Now.
Proof. apply follows_call, run_now. Qed.
Lemma follows_uniform lo hi : follows (Uniform lo hi).
Proof. apply follows_call, run_uniform. Qed.

End Following.

Create HintDb follows.
#[export] Hint Resolve follows_ret follows_throw follows_undefined follows_unwrap follows_get_files follows_set_files
  follows_log follows_sleep follows_redis_get follows_redis_set follows_download follows_upload follows_presign
  follows_send follows_child follows_now follows_uniform : follows.
#[export] Hint Extern 0 (RunRelation _) => eassumption : follows.

Ltac follows_step :=
  lazymatch goal with
  | |- follows ?R (_ ≫= _) => apply (follows_bind R); [|intros ?]
  | |- follows ?R (with_cleanup _ _) => apply (follows_with_cleanup R)
  | |- follows _ (if ?b then _ else _) => destruct b eqn:?
  | |- follows _ (match ?x with _ => _ end) => destruct x eqn:?
  | |- follows _ (let _ := _ in _) => cbv zeta
  | |- follows _ _ => solve [eauto with follows]
  end.
Ltac follows_tac := repeat follows_step.

Section WorkerFollows.
Context {X : Type} `{Services X} (R : X → list Event → X → Prop) `{RR : !RunRelation R} `{JsonCodec}.
Context (w : Worker.t).
#[local] Set Default Proof Using "Type RR".

Lemma status_follows job_id st updates : follows R (Worker.status w job_id st updates : M X unit).
Proof. unfold Worker.status, set_job_status, current_utc_timestamp. follows_tac. Qed.

Lemma backoff_follows a b m : follows R (backoff_with_jitter a b m : M X Z).
Proof. unfold backoff_with_jitter. follows_tac. Qed.

Lemma remove_follows q id : follows R (TaskDLQ.remove q id : M X unit).
Proof. unfold TaskDLQ.remove. follows_tac. Qed.

Lemma record_failure_follows q id req reason inbound :
  follows R (TaskDLQ.record_failure q id req reason inbound : M X (expected Z)).
Proof. unfold TaskDLQ.record_failure, TaskDLQ.increment. follows_tac. Qed.

Lemma at_string_follows o k : follows R (Worker.at_string o k : M X string).
Proof. unfold Worker.at_string, Worker.at_value. follows_tac. Qed.

Lemma download_loop_follows n a b k p e : follows R (Worker.download_loop n a b k p e : M X (expected unit)).
Proof.
  revert a e. induction n as [|n IH]; intros a e; simpl; follows_tac; first apply backoff_follows; apply IH.
Qed.

Lemma download_inputs_follows message inputs : follows R (Worker.download_inputs message inputs : M X (expected unit)).
Proof.
  unfold Worker.download_inputs, Worker.at_array, Worker.at_value. apply (follows_bind R); [follows_tac|].
  intros entries. induction entries as [|e l IH]; simpl; [eauto with follows|].
  apply (follows_bind R); [|intros []; eauto with follows]. unfold Worker.download_entry.
  follows_tac; auto using at_string_follows, download_loop_follows.
Qed.

Lemma upload_outputs_follows prefix outputs : follows R (Worker.upload_outputs w prefix outputs : M X (expected (list json))).
Proof.
  unfold Worker.upload_outputs. apply (follows_bind R); [eauto with follows|]. intros fs.
  destruct (directory_entries fs outputs) as [l|]; [|eauto with follows]. generalize (@nil json).
  induction l as [|[name n] l IH]; intros results; simpl; [eauto with follows|].
  destruct (denied _ _ _); [eauto with follows|]. destruct n; auto. follows_tac; auto.
Qed.

Lemma execute_follows ex task args i o out timeout :
  follows R (TaskExecutor.execute ex task args i o out timeout : M X (expected TaskExecutor.TaskExecutionResult)).
Proof.
  assert (Hh : ∀ name l b, follows R (TaskExecutor.run_handlers name l b : M X bool)).
  { intros name l. induction l as [|[[e|]|[e|]] l IH]; intros b; simpl; eauto with follows. follows_tac; auto. }
  unfold TaskExecutor.execute. follows_tac; auto.
Qed.

Lemma task_arguments_follows task : follows R (Worker.task_arguments task : M X (list string)).
Proof.
  assert (Hargs : ∀ l, follows R (Worker.read_arguments l : M X (list string))).
  { induction l as [|v l IH]; simpl; follows_tac. }
  unfold Worker.task_arguments, Worker.at_array, Worker.at_value. follows_tac; auto.
Qed.

Lemma task_timeout_follows task : follows R (Worker.task_timeout task : M X Z).
Proof. unfold Worker.task_timeout, Worker.at_value. follows_tac. Qed.

Lemma run_job_follows message task job_id name definition root :
  follows R (Worker.run_job w message task job_id name definition root : M X (expected unit)).
Proof.
  unfold Worker.run_job.
  follows_tac; auto using download_inputs_follows, execute_follows, upload_outputs_follows, at_string_follows,
    status_follows, remove_follows, task_arguments_follows, task_timeout_follows.
Qed.

Lemma process_job_follows message body : follows R (Worker.process_job w message body : M X (expected unit)).
Proof.
  unfold Worker.process_job, Worker.at_object, Worker.at_value, is_terminal_status, Worker.fail_without_retry,
    with_temp_dir, make_temp_dir, remove_temp_dir.
  follows_tac; auto using at_string_follows, status_follows, remove_follows, run_job_follows.
Qed.

Lemma handle_message_follows body : follows R (Worker.handle_message w body : M X (expected unit)).
Proof.
  unfold Worker.handle_message, Worker.reject_message, Worker.handle_processing_failure, Worker.republish_job.
  follows_tac; auto using at_string_follows, status_follows, remove_follows, process_job_follows,
    record_failure_follows, backoff_follows.
Qed.

End WorkerFollows.
