(* ===== verification/WorkerSafety.v ===== *)
(** * The consume handler throws nothing

    Every unchecked read ([at], [as_string], ...) behind
    [MessageValidation::validate_request] succeeds, so on a healthy file
    system [handle_message] throws nothing and always reports success (which
    is what makes the consumer delete the message). *)

From S2P Require Import Prelude Utf8 Json Filesystem Effects MessageValidation Configurations.
From S2P Require Import TaskDLQ TaskExecutor WorkerStatus Worker WorkerTrace.
Import MessageValidation.

Section Safety.
Context {X : Type} `{Services X} `{FL : !FileLaws X} `{JsonCodec}.
Context (w : Worker.t).

(** An invariant of the file system the worker runs on: it implies health and
    does not depend on the tree of files. *)
Context (I : FileSystem → Prop).
Context (I_healthy : ∀ fs, I fs → healthy fs).
Context (I_same : ∀ fs fs', same_system fs fs' → I fs → I fs').
#[local] Set Default Proof Using "Type FL I_healthy I_same".
#[local] Hint Resolve I_same : files.

Abbreviation Safe := (safe (X := X) I).
Abbreviation any := (λ _, True).

Lemma status_safe job_id st updates : Safe any (Worker.status w job_id st updates).
Proof.
  intros s Hs. unfold Worker.status.
  destruct (set_job_status_run (redis_ttl_sec_ (Worker.configurations w)) job_id st updates s)
    as (? & ? & ? & ? & _ & ->). done.
Qed.

Lemma backoff_safe a b m : Safe any (backoff_with_jitter a b m).
Proof.
  unfold backoff_with_jitter. eapply safe_bind; [apply safe_call|]. intros r _. by apply safe_ret.
Qed.

Lemma update_files_safe (f : FileSystem → FileSystem) :
  (∀ fs, same_system fs (f fs)) → Safe any (fs ← get_files; set_files (f fs)).
Proof.
  intros Hf. eapply safe_bind; [apply safe_get_files|]. intros fs Hfs. apply safe_set_files.
  eauto with files.
Qed.

Lemma remove_safe q id : Safe any (TaskDLQ.remove q id).
Proof. apply update_files_safe. auto with files. Qed.

Lemma download_safe b k p : Safe any (S3Download b k p).
Proof.
  apply safe_call_fs. intros fs x Hfs. eapply I_same; [|done]. apply download_nodes.
Qed.

Lemma run_child_safe e a o t : Safe any (RunChild e a o t).
Proof.
  apply safe_call_fs. intros fs x Hfs. eapply I_same; [|done]. apply child_nodes.
Qed.

Lemma upload_safe b k p : Safe any (S3Upload b k p).
Proof. intros s Hs. by apply safe_call. Qed.

Create HintDb safe.
Hint Resolve safe_emit safe_call status_safe backoff_safe remove_safe download_safe run_child_safe
  upload_safe safe_undefined : safe.

Ltac safe_bind_tac := eapply safe_bind; [solve [eauto with safe]|intros ? _].

Lemma download_loop_safe n a b k p e : Safe any (Worker.download_loop n a b k p e).
Proof.
  revert a e. induction n as [|n IH]; intros a e; simpl; [by apply safe_ret|].
  eapply safe_bind; [eauto with safe|]. intros [[]|e'] _; [by apply safe_ret|].
  do 3 safe_bind_tac. apply IH.
Qed.

Lemma download_entry_safe entry inputs :
  valid_download entry → Safe any (Worker.download_entry entry inputs).
Proof.
  intros (e & bucket & key & method & -> & Hb & _ & Hk & _ & _). unfold Worker.download_entry.
  eapply safe_bind; [by apply (safe_run _ (λ o, o = e) _ e)|intros ? ->].
  eapply (safe_bind _ any); [eapply safe_run; [intros; by apply at_string_run|done]|intros bucket' _].
  eapply (safe_bind _ any); [eapply safe_run; [intros; by apply at_string_run|done]|intros key' _].
  eapply safe_bind; [apply download_loop_safe|]. intros [[]|e'] _; by apply safe_ret.
Qed.

Lemma download_inputs_safe message inputs :
  valid_request message → Safe any (Worker.download_inputs message inputs).
Proof.
  intros Hv. destruct (request_downloads _ Hv) as (l & Hl & Hok). unfold Worker.download_inputs.
  eapply (safe_bind _ (λ a, a = l)); [by eapply safe_run; [intros; by apply at_array_run|]|intros ? ->].
  clear Hl. induction Hok as [|v l Hv' _ IH]; simpl; [by apply safe_ret|].
  eapply safe_bind; [by apply download_entry_safe|]. intros [[]|e] _; [done|by apply safe_ret].
Qed.

Lemma upload_outputs_safe prefix outputs : Safe any (Worker.upload_outputs w prefix outputs).
Proof.
  unfold Worker.upload_outputs. eapply safe_bind; [apply safe_get_files|]. intros fs Hfs.
  destruct (directory_entries fs outputs) as [l|]; [|by apply safe_ret].
  generalize (@nil json) as results.
  induction l as [|[name n] l IH]; intros results; simpl; [by apply safe_ret|].
  rewrite healthy_stat by auto. destruct n; [|done..].
  eapply safe_bind; [eauto with safe|]. intros [[]|e] _; [|by apply safe_ret].
  eapply safe_bind; [apply safe_call|]. intros [url|e] _; [done|by apply safe_ret].
Qed.

Lemma task_arguments_safe task : valid_task task → Safe any (Worker.task_arguments task).
Proof.
  intros Hv. unfold Worker.task_arguments, contains. case_bool_decide as Hc; [|by apply safe_ret].
  destruct Hc as [v Hk]. destruct (task_has_arguments _ Hv v Hk) as (l & -> & Hl).
  eapply (safe_bind _ (λ a, a = l)); [by eapply safe_run; [intros; by apply at_array_run|]|intros ? ->].
  intros s Hs. by destruct (read_arguments_run l s Hl) as (raw & _ & ->).
Qed.

Lemma task_timeout_safe task : valid_task task → Safe any (Worker.task_timeout task).
Proof.
  intros Hv. unfold Worker.task_timeout, contains. case_bool_decide as Hc; [|by apply safe_ret].
  destruct Hc as [v Hk]. destruct (task_has_timeout _ Hv v Hk) as (z & ->).
  apply (safe_run _ _ _ (to_int z)); [|done]. intros s.
  unfold Worker.at_value, at_, mbind, M_bind, unwrap. by rewrite Hk.
Qed.

Lemma execute_safe ex task args i o out timeout :
  Safe any (TaskExecutor.execute ex task args i o out timeout).
Proof.
  unfold TaskExecutor.execute. eapply safe_bind; [apply safe_get_files|]. intros fs Hfs.
  destruct (_ || _); [by apply safe_ret|]. destruct (write_file fs out "") as [fs'|] eqn:Hw; [|by apply safe_ret].
  eapply safe_bind; [apply safe_set_files; eauto with files|intros _ _].
  eapply safe_bind; [eauto with safe|]. intros [what|completions code] _; [by apply safe_ret|].
  eapply (safe_bind _ any).
  { intros s Hs. by destruct (TaskExecutor.run_handlers_out (task_name task) completions false s) as [es ->]. }
  intros b _. eapply safe_bind; [apply safe_get_files|]. intros fs'' _.
  destruct b; by apply safe_ret.
Qed.

Lemma run_job_safe message task job_id name definition root :
  valid_request message → valid_task task →
  Safe any (Worker.run_job w message task job_id name definition root).
Proof.
  intros Hv Ht. unfold Worker.run_job.
  eapply safe_bind; [by apply download_inputs_safe|]. intros [[]|e] _; [|by apply safe_ret].
  eapply safe_bind; [by apply task_arguments_safe|]. intros args _.
  eapply safe_bind; [by apply task_timeout_safe|]. intros timeout _.
  eapply safe_bind; [apply execute_safe|]. intros [result|e] _; [|by apply safe_ret].
  destruct (negb _); [by apply safe_ret|].
  destruct (request_prefix _ Hv) as (p & Hp & _).
  eapply (safe_bind _ any); [eapply safe_run; [intros; by apply at_string_run|done]|intros prefix _].
  eapply safe_bind; [apply upload_outputs_safe|]. intros [urls|e] _; [|by apply safe_ret].
  do 3 safe_bind_tac. by apply safe_ret.
Qed.

Lemma with_temp_dir_safe {A} (Q : A → Prop) job_id body :
  (∀ root, Safe Q (body root)) → Safe Q (with_temp_dir job_id body).
Proof.
  intros Hb. unfold with_temp_dir. eapply (safe_bind _ any).
  - unfold make_temp_dir. eapply safe_bind; [apply safe_get_files|]. intros fs Hfs.
    destruct (healthy_temp _ (I_healthy _ Hfs)) as [temp Ht].
    eapply (safe_bind _ any); [by apply (safe_run _ _ _ temp); [intros; by rewrite Ht|]|intros temp' _].
    eapply safe_bind; [apply safe_set_files; eauto with files|intros _ _].
    eapply safe_bind; [apply safe_get_files|]. intros fs' Hfs'.
    eapply safe_bind; [apply safe_set_files; eauto with files|intros _ _]. by apply safe_ret.
  - intros root _. apply safe_with_cleanup; [done|]. apply update_files_safe. auto with files.
Qed.

Lemma process_job_safe message body :
  valid_request message → Safe any (Worker.process_job w message body).
Proof.
  intros Hv. unfold Worker.process_job.
  destruct (request_job_id _ Hv) as (id & Hid & _).
  destruct (request_task _ Hv) as (task & Htask & Ht).
  destruct (task_has_name _ Ht) as (name & Hname & _).
  eapply (safe_bind _ any); [eapply safe_run; [intros; by apply at_string_run|done]|intros id' _].
  eapply (safe_bind _ (λ a, a = task)); [by eapply safe_run; [intros; by apply at_object_run|]|intros ? ->].
  eapply (safe_bind _ any); [eapply safe_run; [intros; by apply at_string_run|done]|intros name' _].
  eapply (safe_bind _ any).
  { intros s Hs. by rewrite is_terminal_run. }
  intros [|] _; [safe_bind_tac; by apply safe_ret|].
  destruct (TaskExecutor.find_task _ name') as [d|].
  - safe_bind_tac. apply with_temp_dir_safe. intros root. by apply run_job_safe.
  - eapply (safe_bind _ any); [|intros; by apply safe_ret].
    unfold Worker.fail_without_retry. do 2 safe_bind_tac. eauto with safe.
Qed.

Lemma record_failure_safe q id req reason inbound :
  Safe any (TaskDLQ.record_failure q id req reason inbound).
Proof.
  intros s Hs. rewrite TaskDLQ.record_failure_cases. cbv zeta. rewrite healthy_stat by auto.
  case_bool_decide; [done|]. destruct (write_file _ _ _) eqn:Hw; [|done]. simpl.
  split; [|done]. eauto with files.
Qed.

Lemma handle_processing_failure_safe id body reason :
  Safe any (Worker.handle_processing_failure w id body reason).
Proof.
  unfold Worker.handle_processing_failure. eapply safe_bind; [apply record_failure_safe|].
  intros [n|e] _.
  - destruct (negb _); [do 2 safe_bind_tac; eauto with safe|].
    unfold Worker.republish_job. do 3 safe_bind_tac.
    eapply safe_bind; [apply safe_call|]. intros [[]|e] _.
    + safe_bind_tac. eauto with safe.
    + do 2 safe_bind_tac. eauto with safe.
  - safe_bind_tac. eauto with safe.
Qed.

Lemma handle_message_safe body : Safe (λ r, r = Expected ()) (Worker.handle_message w body).
Proof.
  unfold Worker.handle_message. safe_bind_tac.
  destruct (parse body) as [v|what]; [|safe_bind_tac; by apply safe_ret].
  destruct (as_object v) as [message|]; [|safe_bind_tac; by apply safe_ret].
  destruct (validate_request message) as [[]|error] eqn:Hv.
  - apply valid_request_iff in Hv. eapply safe_bind; [by apply process_job_safe|].
    intros [[]|error] _; [by apply safe_ret|].
    destruct (request_job_id _ Hv) as (id & Hid & _).
    eapply (safe_bind _ any); [eapply safe_run; [intros; by apply at_string_run|done]|intros id' _].
    safe_bind_tac. eapply safe_bind; [apply handle_processing_failure_safe|intros _ _]. by apply safe_ret.
  - unfold Worker.reject_message. safe_bind_tac. eapply (safe_bind _ any); [|intros; by apply safe_ret].
    destruct (get_string message "job_id"); [|by apply safe_ret].
    destruct (is_valid_job_id s); [eauto with safe|by apply safe_ret].
Qed.

End Safety.

(** The instance used most: health itself, together with what the file system
    was when the handler started. *)
Definition healthy_from (fs0 fs : FileSystem) : Prop := healthy fs ∧ same_system fs0 fs.

Lemma healthy_from_healthy fs0 fs : healthy_from fs0 fs → healthy fs.
Proof. by intros []. Qed.

Lemma healthy_from_same fs0 fs fs' : same_system fs fs' → healthy_from fs0 fs → healthy_from fs0 fs'.
Proof.
  intros Hs [Hh H0]. split; [by eapply healthy_same|by eapply same_system_trans].
Qed.

Lemma healthy_from_refl fs : healthy fs → healthy_from fs fs.
Proof. split; [done|apply same_system_refl]. Qed.

#[export] Hint Resolve healthy_from_healthy healthy_from_same healthy_from_refl : files.
