(* ===== verification/WorkerProtocol.v ===== *)
(** * The protocol of one message

    An abstract description of what handling one request may do to the
    outside (the status writes, transfers, executions and republications, in
    order) and the proof that [Worker.handle_message] follows it. *)

From S2P Require Import Prelude Utf8 Json Filesystem Effects MessageValidation Configurations.
From S2P Require Import TaskDLQ TaskExecutor WorkerStatus Worker StatusSchema WorkerTrace WorkerSafety.
Import MessageValidation.

(** ** Visible interactions *)

Definition is_download (e : Event) : Prop := ∃ b k p r, e = EvDownload b k p r.
Definition is_upload (e : Event) : Prop := ∃ b k p r, e = EvUpload b k p r.
Definition upload_ok (e : Event) : Prop := ∃ b k p, e = EvUpload b k p (Expected ()).

(** Everything but log lines, pauses, reads and URL signing. *)
Definition visible (e : Event) : bool :=
  match e with
  | EvRedisSet _ _ _ _ | EvDownload _ _ _ _ | EvUpload _ _ _ _ | EvSend _ _ _ _ | EvExec _ _ _ => true
  | _ => false
  end.

Definition vis (es : list Event) : list Event := List.filter visible es.

Lemma vis_app es es' : vis (es ++ es') = vis es ++ vis es'.
Proof. apply List.filter_app. Qed.

Lemma vis_Forall (P : Event → Prop) es : Forall (λ e, visible e = true → P e) es → Forall P (vis es).
Proof.
  induction 1 as [|e es He _ IH]; [constructor|]. simpl. destruct (visible e) eqn:E; [|done].
  constructor; auto.
Qed.

Lemma vis_nil es : Forall (λ e, visible e = false) es → vis es = [].
Proof. induction 1 as [|e es He _ IH]; [done|]. simpl. by rewrite He. Qed.

(** ** The protocol *)

Section Protocol.
Context {X : Type} `{Services X} `{JsonCodec}.
Context (w : Worker.t).

Abbreviation executor := (Worker.task_executor w).

(** A run of the task registered under [name]. *)
Definition is_exec (name : string) (e : Event) : Prop :=
  ∃ d args timeout, TaskExecutor.find_task executor name = Some d ∧
    e = EvExec (TaskExecutor.resolve_executable executor (task_executable d)) args
          (TaskExecutor.effective_timeout executor timeout).

(** A processing attempt up to where it stopped: downloads, then at most one
    run, then uploads. *)
Inductive attempt (name : string) : list Event → Prop :=
| attempt_downloading ds : Forall is_download ds → attempt name ds
| attempt_executed ds x us :
    Forall is_download ds → is_exec name x → Forall is_upload us → attempt name (ds ++ x :: us).

(** A complete one: every output uploaded. *)
Inductive complete_attempt (name : string) : list Event → Prop :=
| attempt_complete ds x us :
    Forall is_download ds → is_exec name x → Forall upload_ok us →
    complete_attempt name (ds ++ x :: us).

(** A status write with typed updates. *)
Definition writes (job_id st : string) (e : Event) : Prop :=
  ∃ updates, updates_ok updates ∧ status_write w job_id st updates e.

Definition sends (job_id : string) (message : object) (n : Z) (r : expected unit) (e : Event) : Prop :=
  e = EvSend (c_str (serialize (JObject (<["dlq_try_count" := JInt64 n]> message))))
        (c_str (sqs_message_group_id_ (Worker.configurations w)))
        (c_str (Worker.dedup_id job_id n)) r.

(** A job to be processed: not finished according to the status read [got],
    and with a registered task. *)
Definition open_job (got : expected string) (name : string) : Prop :=
  terminal_text got = false ∧ is_Some (TaskExecutor.find_task executor name).

(** The visible interactions of handling a valid request for task [name] of a
    job whose status was read as [got]. *)
Inductive session (got : expected string) (job_id name : string) (message : object) : list Event → Prop :=
| session_duplicate : terminal_text got = true → session got job_id name message []
| session_unregistered f :
    terminal_text got = false → TaskExecutor.find_task executor name = None →
    writes job_id "failed" f → session got job_id name message [f]
| session_done r es d :
    open_job got name → writes job_id "running" r → complete_attempt name es → writes job_id "done" d →
    session got job_id name message (r :: es ++ [d])
| session_failed r es f :
    open_job got name → writes job_id "running" r → attempt name es → writes job_id "failed" f →
    session got job_id name message (r :: es ++ [f])
| session_requeued r es n e q :
    open_job got name → writes job_id "running" r → attempt name es →
    retry_count_ok w (Worker.inbound_count message) n →
    sends job_id message n (Expected ()) e → writes job_id "queued" q →
    session got job_id name message (r :: es ++ [e; q])
| session_requeue_failed r es n e err f :
    open_job got name → writes job_id "running" r → attempt name es →
    retry_count_ok w (Worker.inbound_count message) n →
    sends job_id message n (Unexpected err) e → writes job_id "failed" f →
    session got job_id name message (r :: es ++ [e; f]).

(** ** Runs of the parts *)

Lemma status_vis job_id st updates (s s' : Machine X) o es :
  Worker.status w job_id st updates s = (o, s', es) →
  ∃ e, vis es = [e] ∧ status_write w job_id st updates e.
Proof.
  unfold Worker.status. intros Hr.
  destruct (set_job_status_run (redis_ttl_sec_ (Worker.configurations w)) job_id st updates s)
    as (existing & updated_at & saved & x & _ & Heq). rewrite Heq in Hr. simplify_eq.
  eexists. split; [|by eexists _, _, saved].
  simpl. by destruct saved.
Qed.

Lemma status_ending job_id st updates (s s' : Machine X) o es :
  Worker.status w job_id st updates s = (o, s', es) → updates_ok updates → ∃ e, vis es = [e] ∧ writes job_id st e.
Proof. intros Hr Hu. apply status_vis in Hr as (e & ? & ?). exists e. split; [done|by eexists]. Qed.

Lemma emits_invisible {A} (m : M X A) s o s' es :
  emits (λ e, visible e = false) m → m s = (o, s', es) → vis es = [].
Proof. intros Hm Hr. specialize (Hm s). rewrite Hr in Hm. by apply vis_nil. Qed.

Lemma emits_vis {A} (P : Event → Prop) (m : M X A) s o s' es :
  emits (λ e, visible e = true → P e) m → m s = (o, s', es) → Forall P (vis es).
Proof. intros Hm Hr. specialize (Hm s). rewrite Hr in Hm. by apply vis_Forall. Qed.

Lemma download_inputs_vis message inputs (s s' : Machine X) o es :
  Worker.download_inputs message inputs s = (o, s', es) → Forall is_download (vis es).
Proof.
  apply emits_vis. apply download_inputs_emits; try done. intros b k p r _. by exists b, k, p, r.
Qed.

Lemma upload_outputs_vis prefix outputs (s s' : Machine X) o es :
  Worker.upload_outputs w prefix outputs s = (o, s', es) → Forall is_upload (vis es).
Proof.
  apply emits_vis. apply upload_outputs_emits; try done. intros k p r _. by eexists _, k, p, r.
Qed.

Lemma upload_entries_ok fs prefix outputs entries results (s s' : Machine X) urls es :
  Worker.upload_entries w fs prefix outputs entries results s = (Returned (Expected urls), s', es) →
  Forall upload_ok (vis es).
Proof.
  revert results s es. induction entries as [|[name n] l IH]; intros results s es Hr; simpl in Hr.
  { ret_inv Hr. constructor. }
  destruct (denied _ _ _); [done|]. destruct n; [|by eapply IH..].
  bind_inv Hr as ([[]|e] & s1 & es1 & es2 & Hup & Hr & ->); [|by ret_inv Hr].
  bind_inv Hr as ([url|e] & s2 & es3 & es4 & Hpre & Hr & ->); [|by ret_inv Hr].
  apply IH in Hr. unfold S3Upload, call in Hup. destruct (s3_upload_file _ _ _ _ _); simplify_eq.
  unfold S3Presign, call in Hpre. destruct (s3_presign _ _ _ _); simplify_eq. simpl.
  constructor; [by eexists _, _, _|done].
Qed.

Lemma upload_outputs_ok prefix outputs (s s' : Machine X) urls es :
  Worker.upload_outputs w prefix outputs s = (Returned (Expected urls), s', es) →
  Forall upload_ok (vis es).
Proof.
  unfold Worker.upload_outputs. intros Hr. bind_inv Hr as (fs & s1 & es1 & es2 & Hg & Hr & ->).
  unfold get_files in Hg. simplify_eq. destruct (directory_entries _ _); [|done].
  by eapply upload_entries_ok.
Qed.

(** The list of uploaded results is typed. *)
Lemma upload_entries_typed fs prefix outputs entries results (s s' : Machine X) urls es :
  Worker.upload_entries w fs prefix outputs entries results s = (Returned (Expected urls), s', es) →
  forallb result_entry results = true → forallb result_entry urls = true.
Proof.
  revert results s es. induction entries as [|[name n] l IH]; intros results s es Hr Hres; simpl in Hr.
  { by ret_inv Hr. }
  destruct (denied _ _ _); [done|]. destruct n; [|by eapply IH..].
  bind_inv Hr as ([[]|e] & s1 & es1 & es2 & Hup & Hr & ->); [|by ret_inv Hr].
  bind_inv Hr as ([url|e] & s2 & es3 & es4 & Hpre & Hr & ->); [|by ret_inv Hr].
  eapply IH; [done|]. rewrite forallb_app, Hres. cbn [forallb]. by rewrite result_object_entry.
Qed.

Lemma upload_outputs_results_typed prefix outputs (s s' : Machine X) urls es :
  Worker.upload_outputs w prefix outputs s = (Returned (Expected urls), s', es) → forallb result_entry urls = true.
Proof.
  unfold Worker.upload_outputs. intros Hr. bind_inv Hr as (fs & s1 & es1 & es2 & Hg & Hr & ->).
  unfold get_files in Hg. simplify_eq. destruct (directory_entries _ _); [|done].
  by eapply upload_entries_typed.
Qed.

Lemma run_handlers_vis name completions b (s s' : Machine X) o es :
  TaskExecutor.run_handlers name completions b s = (o, s', es) → vis es = [].
Proof. apply emits_invisible. by apply TaskExecutor.run_handlers_emits. Qed.

(** A run visits the child process at most once, and exactly once when it
    gives a result. *)
Lemma execute_vis d args i out outlog timeout (s s' : Machine X) r es name :
  TaskExecutor.find_task executor name = Some d →
  TaskExecutor.execute executor d args i out outlog timeout s = (Returned r, s', es) →
  (∃ x, vis es = [x] ∧ is_exec name x) ∨ (vis es = [] ∧ ∃ e, r = Unexpected e).
Proof.
  intros Hd. unfold TaskExecutor.execute. intros Hr.
  bind_inv Hr as (fs & s1 & es1 & es2 & Hg & Hr & ->). unfold get_files in Hg. simplify_eq.
  destruct (_ || _); [ret_inv Hr; right; eauto|].
  destruct (write_file _ _ _); [|ret_inv Hr; right; eauto].
  bind_inv Hr as ([] & s2 & es3 & es4 & Hg & Hr & ->). unfold set_files in Hg. simplify_eq.
  bind_inv Hr as (run & s3 & es5 & es6 & Hrun & Hr & ->).
  unfold RunChild, call_fs in Hrun. destruct (run_child _ _ _ _ _ _) as [[??]?]. simplify_eq.
  left. eexists. split; [|by eexists d, _, _].
  rewrite !app_nil_l, vis_app. simpl. f_equal.
  destruct run as [what|completions code]; [by ret_inv Hr|].
  bind_inv Hr as (b & s4 & es7 & es8 & Hh & Hr & ->). apply run_handlers_vis in Hh.
  bind_inv Hr as (fs' & s5 & es9 & es10 & Hg & Hr & ->). unfold get_files in Hg. simplify_eq.
  rewrite vis_app, Hh. destruct b; by ret_inv Hr.
Qed.

Lemma invisible_args task (s s' : Machine X) o es :
  Worker.task_arguments task s = (o, s', es) → vis es = [].
Proof. apply emits_invisible, task_arguments_emits. Qed.
Lemma invisible_timeout task (s s' : Machine X) o es :
  Worker.task_timeout task s = (o, s', es) → vis es = [].
Proof. apply emits_invisible, task_timeout_emits. Qed.
Lemma invisible_string o k (s s' : Machine X) r es :
  Worker.at_string o k s = (r, s', es) → vis es = [].
Proof. apply emits_invisible, at_string_emits. Qed.
Lemma invisible_remove q id (s s' : Machine X) r es :
  TaskDLQ.remove q id s = (r, s', es) → vis es = [].
Proof. apply emits_invisible, TaskDLQ.remove_emits. Qed.

(** The body of a job: a complete attempt and [done], or an attempt and an
    error. *)
Lemma run_job_vis message task job_id name d root (s s' : Machine X) r es :
  TaskExecutor.find_task executor name = Some d →
  Worker.run_job w message task job_id name d root s = (Returned r, s', es) →
  match r with
  | Expected _ => ∃ es' e, vis es = es' ++ [e] ∧ complete_attempt name es' ∧ writes job_id "done" e
  | Unexpected _ => attempt name (vis es)
  end.
Proof.
  intros Hd Hr. unfold Worker.run_job in Hr.
  bind_inv Hr as (dl & s1 & es1 & es2 & Hdl & Hr & ->). apply download_inputs_vis in Hdl.
  destruct dl as [[]|e]; [|ret_inv Hr; rewrite app_nil_r; by constructor].
  bind_inv Hr as (args & s2 & es3 & es4 & Ha & Hr & ->). apply invisible_args in Ha.
  bind_inv Hr as (timeout & s3 & es5 & es6 & Ht & Hr & ->). apply invisible_timeout in Ht.
  bind_inv Hr as (ex & s4 & es7 & es8 & He & Hr & ->). apply (execute_vis _ _ _ _ _ _ _ _ _ _ _ Hd) in He.
  rewrite !vis_app, Ha, Ht, !app_nil_l.
  destruct ex as [result|e].
  2:{ ret_inv Hr. rewrite app_nil_r. destruct He as [(x & -> & Hx)|[-> _]].
      - by constructor.
      - rewrite app_nil_r. by constructor. }
  destruct He as [(x & -> & Hx)|[_ [? [=]]]].
  destruct (TaskExecutor.exit_code result =? 0) eqn:Hcode; cbn [negb] in Hr;
    [apply Z.eqb_eq in Hcode|ret_inv Hr; by apply (attempt_executed _ (vis es1) x [])].
  bind_inv Hr as (prefix & s5 & es9 & es10 & Hp & Hr & ->). apply invisible_string in Hp.
  bind_inv Hr as (up & s6 & es11 & es12 & Hu & Hr & ->).
  rewrite !vis_app, Hp, app_nil_l. destruct up as [urls|e].
  2:{ ret_inv Hr. rewrite app_nil_r. apply upload_outputs_vis in Hu. by constructor. }
  pose proof (upload_outputs_results_typed _ _ _ _ _ _ Hu) as Hurls. apply upload_outputs_ok in Hu.
  bind_inv Hr as ([] & s7 & es13 & es14 & Hs & Hr & ->).
  apply status_ending in Hs as (e & Hse & Hs); [|by apply done_updates_ok; [rewrite Hcode|]].
  bind_inv Hr as ([] & s8 & es15 & es16 & Hrm & Hr & ->). apply invisible_remove in Hrm.
  bind_inv Hr as ([] & s9 & es17 & es18 & Hl & Hr & ->). ret_inv Hr.
  unfold log, emit in Hl. simplify_eq.
  exists (vis es1 ++ x :: vis es11), e. rewrite !vis_app, Hse, Hrm. simpl.
  rewrite <-app_assoc. split; [done|]. split; [by constructor|done].
Qed.

(** How a failure ends: given up, requeued, or given up because the queue
    refused. *)
Inductive failure_ending (job_id : string) (message : object) : list Event → Prop :=
| ending_failed f : writes job_id "failed" f → failure_ending job_id message [f]
| ending_requeued n e q :
    retry_count_ok w (Worker.inbound_count message) n →
    sends job_id message n (Expected ()) e → writes job_id "queued" q →
    failure_ending job_id message [e; q]
| ending_refused n e err f :
    retry_count_ok w (Worker.inbound_count message) n →
    sends job_id message n (Unexpected err) e → writes job_id "failed" f →
    failure_ending job_id message [e; f].

Lemma log_vis l m (s s' : Machine X) o es : log l m s = (o, s', es) → vis es = [].
Proof. apply emits_invisible. by apply emits_emit. Qed.
Lemma sleep_vis ms (s s' : Machine X) o es : sleep_for ms s = (o, s', es) → vis es = [].
Proof. apply emits_invisible. by apply emits_emit. Qed.
Lemma backoff_vis a b m (s s' : Machine X) o es : backoff_with_jitter a b m s = (o, s', es) → vis es = [].
Proof. apply emits_invisible, backoff_emits. Qed.


Lemma republish_job_vis job_id reason message n (s s' : Machine X) es :
  retry_count_ok w (Worker.inbound_count message) n → in_int n →
  Worker.republish_job w job_id reason message n s = (Returned (), s', es) →
  failure_ending job_id message (vis es).
Proof.
  intros Hn Hint Hr. unfold Worker.republish_job in Hr.
  bind_inv Hr as (ms & s1 & es1 & es2 & Hb & Hr & ->). apply backoff_vis in Hb.
  bind_inv Hr as (? & s2 & es3 & es4 & Hl & Hr & ->). apply log_vis in Hl.
  bind_inv Hr as (? & s3 & es5 & es6 & Hz & Hr & ->). apply sleep_vis in Hz.
  bind_inv Hr as (r & s4 & es7 & es8 & Hsend & Hr & ->).
  unfold SqsSend, call in Hsend. destruct (sqs_send_message _ _ _ _); simplify_eq.
  rewrite !vis_app, Hb, Hl, Hz, !app_nil_l. simpl.
  destruct r as [[]|err].
  - bind_inv Hr as (? & s5 & es9 & es10 & Hl' & Hr & ->). apply log_vis in Hl'.
    apply status_ending in Hr as (q & Hq & Hw); [|by apply counted_updates_ok].
    rewrite vis_app, Hl', Hq. by econstructor.
  - bind_inv Hr as (? & s5 & es9 & es10 & Hl' & Hr & ->). apply log_vis in Hl'.
    bind_inv Hr as (? & s6 & es11 & es12 & Hrm & Hr & ->). apply invisible_remove in Hrm.
    apply status_ending in Hr as (q & Hq & Hw); [|by apply counted_updates_ok].
    rewrite !vis_app, Hl', Hrm, Hq. by econstructor.
Qed.

Lemma handle_failure_vis job_id body message reason (s s' : Machine X) es :
  parse body = inl (JObject message) →
  Worker.handle_processing_failure w job_id body reason s = (Returned (), s', es) →
  failure_ending job_id message (vis es).
Proof.
  intros Hp Hr. unfold Worker.handle_processing_failure, Worker.parsed_body in Hr. rewrite Hp in Hr.
  bind_inv Hr as (rec & s1 & es1 & es2 & Hrec & Hr & ->).
  assert (Hv : vis es1 = []) by (eapply emits_invisible; [apply TaskDLQ.record_failure_emits|done]).
  rewrite vis_app, Hv, app_nil_l. destruct rec as [n|e].
  - assert (Hint : in_int n) by (by eapply TaskDLQ.record_failure_in_int; [apply inbound_count_in_int|]).
    apply TaskDLQ.record_failure_count in Hrec as [??].
    destruct (TaskDLQ.can_retry _ _) eqn:Hcan; cbn [negb] in Hr.
    + unfold TaskDLQ.can_retry in Hcan. bool_to_prop. by eapply republish_job_vis.
    + bind_inv Hr as (? & s2 & es3 & es4 & Hl & Hr & ->). apply log_vis in Hl.
      bind_inv Hr as (? & s3 & es5 & es6 & Hrm & Hr & ->). apply invisible_remove in Hrm.
      apply status_ending in Hr as (q & Hq & Hw); [|by apply counted_updates_ok].
      rewrite !vis_app, Hl, Hrm, Hq. by constructor.
  - bind_inv Hr as (? & s2 & es3 & es4 & Hl & Hr & ->). apply log_vis in Hl.
    apply status_ending in Hr as (q & Hq & Hw); [|apply failure_updates_ok].
    rewrite !vis_app, Hl, Hq. by constructor.
Qed.

(** What [process_job] alone does. *)
Lemma process_job_vis message task body job_id name (s s' : Machine X) r es :
  message !! "job_id" = Some (JString job_id) → is_valid_job_id job_id = true →
  message !! "task" = Some (JObject task) → task !! "name" = Some (JString name) →
  Worker.process_job w message body s = (Returned r, s', es) →
  match r with
  | Expected _ => session (redis_get job_id (ext s)).1 job_id (c_str name) message (vis es)
  | Unexpected _ => open_job (redis_get job_id (ext s)).1 (c_str name) ∧ ∃ e es', vis es = e :: es' ∧ writes job_id "running" e ∧ attempt (c_str name) es'
  end.
Proof.
  intros Hid Hv Htask Hname Hr. unfold Worker.process_job in Hr.
  bind_inv Hr as (id & s1 & es1 & es2 & H1 & Hr & ->).
  rewrite (at_string_run _ _ job_id), valid_job_id_c_str in H1 by done. injection H1 as <- <- <-.
  bind_inv Hr as (t & s1 & es1 & es3 & H1 & Hr & ->).
  rewrite (at_object_run _ _ task) in H1 by done. injection H1 as <- <- <-.
  bind_inv Hr as (nm & s1 & es1 & es2 & H1 & Hr & ->).
  rewrite (at_string_run _ _ name) in H1 by done. injection H1 as <- <- <-.
  bind_inv Hr as (b & s1 & es1 & es3 & H1 & Hr & ->).
  rewrite is_terminal_run in H1. injection H1 as <- <- <-.
  rewrite !app_nil_l. simpl. destruct (terminal_text _) eqn:Hterm.
  { bind_inv Hr as (? & s2 & es4 & es5 & Hl & Hr & ->). apply log_vis in Hl. ret_inv Hr.
    rewrite app_nil_r, Hl. by constructor. }
  destruct (TaskExecutor.find_task _ _) as [d|] eqn:Hd.
  - bind_inv Hr as (? & s2 & es4 & es5 & Hs & Hr & ->). apply status_ending in Hs as (e & He & Hs); [|apply contract_fields_ok].
    unfold with_temp_dir in Hr. bind_inv Hr as (root & s3 & es6 & es7 & Hmk & Hr & ->).
    assert (vis es6 = []) as Hvis by (eapply emits_invisible; [|done]; unfold make_temp_dir; emits_tac).
    apply with_cleanup_Returned in Hr as (s4 & es8 & o & es9 & Hr & Hrm & ->).
    assert (vis es9 = []) as Hvis' by (eapply emits_invisible; [|done]; unfold remove_temp_dir; emits_tac).
    apply (run_job_vis _ _ _ _ _ _ _ _ _ _ Hd) in Hr.
    rewrite !vis_app, He, Hvis, Hvis', app_nil_r. simpl.
    destruct r as [[]|].
    + destruct Hr as (es' & e' & -> & Hc & Hw). by apply session_done.
    + split; [by split|]. by exists e, (vis es8).
  - bind_inv Hr as (? & s2 & es4 & es5 & Hf & Hr & ->). ret_inv Hr. rewrite app_nil_r.
    unfold Worker.fail_without_retry in Hf.
    bind_inv Hf as (? & s3 & es6 & es7 & Hl & Hf & ->). apply log_vis in Hl.
    bind_inv Hf as (? & s4 & es8 & es9 & Hs & Hf & ->). apply status_ending in Hs as (e & He & Hs); [|apply failure_updates_ok].
    apply invisible_remove in Hf. rewrite !vis_app, Hl, He, Hf.
    by apply session_unregistered.
Qed.

(** Handling a valid request follows the protocol. *)
Lemma handle_message_session body message task job_id name (s s' : Machine X) r es :
  parse body = inl (JObject message) → validate_request message = Expected () →
  message !! "job_id" = Some (JString job_id) → message !! "task" = Some (JObject task) →
  task !! "name" = Some (JString name) →
  Worker.handle_message w body s = (Returned r, s', es) →
  session (redis_get job_id (ext s)).1 job_id (c_str name) message (vis es).
Proof.
  intros Hp Hval Hid Htask Hname Hr.
  assert (Hv : is_valid_job_id job_id = true).
  { apply is_valid_job_id_iff. apply valid_request_iff, request_job_id in Hval as (? & ? & ?). naive_solver. }
  unfold Worker.handle_message in Hr. rewrite Hp in Hr. simpl in Hr. rewrite Hval in Hr.
  bind_inv Hr as (? & s1 & es1 & es2 & Hl & Hr & ->). unfold log, emit in Hl. injection Hl as _ <- <-.
  bind_inv Hr as (p & s2 & es3 & es4 & Hpr & Hr & ->).
  apply (process_job_vis _ _ _ _ _ _ _ _ _ Hid Hv Htask Hname) in Hpr.
  rewrite !vis_app. simpl. destruct p as [[]|error].
  { ret_inv Hr. by rewrite app_nil_r. }
  destruct Hpr as (Hopen & e & es' & -> & Hrun & Hatt).
  bind_inv Hr as (id & s3 & es5 & es6 & H1 & Hr & ->).
  rewrite (at_string_run _ _ job_id), valid_job_id_c_str in H1 by done. simplify_eq.
  bind_inv Hr as (? & s4 & es7 & es8 & Hl' & Hr & ->). apply log_vis in Hl'.
  bind_inv Hr as ([] & s5 & es9 & es10 & Hf & Hr & ->). ret_inv Hr.
  apply (handle_failure_vis _ _ message) in Hf; [|done].
  rewrite app_nil_l, !vis_app, Hl', app_nil_l, app_nil_r. simpl.
  inversion Hf; subst.
  - by apply session_failed.
  - by eapply session_requeued.
  - by eapply session_requeue_failed.
Qed.

(** A redelivered message of a finished job. *)
Lemma handle_message_terminal body message task job_id name text (s : Machine X) :
  parse body = inl (JObject message) → validate_request message = Expected () →
  message !! "job_id" = Some (JString job_id) → message !! "task" = Some (JObject task) →
  task !! "name" = Some (JString name) →
  (redis_get job_id (ext s)).1 = Expected text → terminal_text (Expected text) = true →
  Worker.handle_message w body s =
    (Returned (Expected ()), mkMachine (files s) (redis_get job_id (ext s)).2,
     [EvLog LogDebug ("received message: " +:+ body);
      EvRedisGet job_id (Expected text);
      EvLog LogInformation ("job [" +:+ job_id +:+ "] already terminal: skipping redelivery")]).
Proof.
  intros Hp Hv Hid Htask Hname Hget Hterm.
  assert (Hvalid : is_valid_job_id job_id = true).
  { apply is_valid_job_id_iff. apply valid_request_iff, request_job_id in Hv as (? & ? & ?). naive_solver. }
  unfold Worker.handle_message, Worker.process_job. rewrite Hp. cbn [as_object]. rewrite Hv.
  unfold mbind, M_bind, log, emit, mret, M_ret.
  rewrite (at_string_run _ _ job_id), valid_job_id_c_str by done.
  rewrite (at_object_run _ _ task), (at_string_run _ _ name) by done.
  rewrite is_terminal_run, Hget, Hterm. done.
Qed.

(** The first thing done for a valid request is the check whether its job is
    finished. *)
Lemma handle_message_checks body message job_id (s : Machine X) :
  parse body = inl (JObject message) → validate_request message = Expected () →
  message !! "job_id" = Some (JString job_id) →
  ∃ rest, (Worker.handle_message w body s).2 =
    EvLog LogDebug ("received message: " +:+ body) :: EvRedisGet job_id (redis_get job_id (ext s)).1 :: rest.
Proof.
  intros Hp Hv Hid. apply valid_request_iff in Hv as Hval.
  destruct (request_task _ Hval) as (task & Htask & Ht). destruct (task_has_name _ Ht) as (name & Hname & _).
  assert (Hvalid : is_valid_job_id job_id = true).
  { apply is_valid_job_id_iff. apply request_job_id in Hval as (? & ? & ?). naive_solver. }
  assert (Hprocess : ∃ rest, (Worker.process_job w message body s).2 = EvRedisGet job_id (redis_get job_id (ext s)).1 :: rest).
  { unfold Worker.process_job.
    pose proof (at_string_run message "job_id" job_id s Hid) as H1. rewrite valid_job_id_c_str in H1 by done.
    rewrite (bind_trace _ _ _ _ _ _ H1), (bind_trace _ _ _ _ _ _ (at_object_run message "task" task s Htask)).
    rewrite (bind_trace _ _ _ _ _ _ (at_string_run task "name" name s Hname)).
    rewrite (bind_trace _ _ _ _ _ _ (is_terminal_run job_id s)). by eexists. }
  destruct Hprocess as [rest Hrest]. unfold Worker.handle_message.
  rewrite (bind_trace _ _ _ () s [EvLog LogDebug ("received message: " +:+ body)]) by done.
  rewrite Hp. cbn [as_object]. rewrite Hv.
  match goal with |- context [(?m ≫= ?f) s] => destruct (bind_prefix m f s) as [rest' Hr]; rewrite Hr, Hrest end.
  by eexists.
Qed.

End Protocol.
