(* ===== verification/WorkerSample.v ===== *)
(** * A worker and a message for concrete runs

    The shipped configuration, a request with one input object, and simulated
    services with a task that exits with a chosen code; the witnesses of the
    theorems about message handling are evaluated on them. *)

From S2P Require Import Prelude Json Filesystem Effects Testbed MessageValidation Configurations.
From S2P Require Import TaskDLQ TaskExecutor Worker.
Import MessageValidation.

Module Sample.
Definition config : Configurations := validate_configuration (with_paths shipped_configuration "/srv" "").
Definition worker : Worker.t := {|
  Worker.configurations := config;
  Worker.task_executor := TaskExecutor.mkExecutor (task_whitelist_ config) (root_path_ config)
                            (default_timeout_sec_ config);
  Worker.task_dlq := TaskDLQ.mkDLQ (dlq_path_ config) (dlq_max_retry_count_ config);
|}.
Definition task (name : string) : object := list_to_map [
  ("name", JString name); ("arguments", JArray [JString "-v"]); ("timeout_sec", JInt64 5)].
Definition message_for (name : string) : object := list_to_map [
  ("job_id", JString "job-1"); ("mode", JString "execute"); ("task", JObject (task name));
  ("download_s3", JArray [JObject (list_to_map [("bucket", JString "taskforge-jobs");
     ("key", JString "jobs/job-1/inputs/a.txt"); ("method", JString "GET")])]);
  ("output_prefix", JString "jobs/job-1/outputs/"); ("enqueued_at", JString "2024-02-29T12:00:00Z")].
Definition message : object := message_for "wordcount".
Definition body : string := RefCodec.ref_serialize (JObject message).

(** Services with the input object present and a task that exits with
    [code]. *)
Definition services (redis : gmap string string) (code : Z) : Sim := {|
  sim_redis := redis;
  sim_objects := {[("taskforge-jobs", "jobs/job-1/inputs/a.txt") := "hello world"]};
  sim_queue := []; sim_clock := 1709210096; sim_exit_code := code; sim_hangs := false;
  sim_stdout := "wordcount: a.txt -> 2 words"; sim_outputs := [("a.txt.wordcount.txt", "2")];
  sim_refuse_send := false |}.
Definition machine (redis : gmap string string) (code : Z) : Machine Sim :=
  mkMachine sim_fs (services redis code).

Lemma body_parses : @parse RefCodec.ref_codec body = inl (JObject message).
Proof. vm_compute. reflexivity. Qed.
Lemma message_valid : validate_request message = Expected ().
Proof. vm_compute. reflexivity. Qed.
End Sample.
