(* ===== verification/WorkerProperties.v ===== *)
(** * Properties of message handling

    The theorems about [Worker.handle_message] and its parts: they hold for
    every behaviour of the services, except where a law class is named. *)

From S2P Require Import Prelude Utf8 Json Filesystem Effects Testbed MessageValidation Configurations.
From S2P Require Import TaskDLQ TaskExecutor WorkerStatus Worker WorkerTrace WorkerSafety WorkerProtocol WorkerSample.
Import MessageValidation.

(** ** The handler as a whole *)

Section Handler.
Context {X : Type} `{Services X} `{JsonCodec}.
Context (w : Worker.t).

(** C1: handling a valid request follows the protocol of its job: nothing for
    a job that is already finished; otherwise [failed] for an unregistered
    task, or [running], an attempt, and then one of: [done] after a complete
    attempt, [failed], a republication with [queued], a refused republication
    with [failed]. *)
Theorem handle_message_follows_protocol body message task job_id name (s s' : Machine X) r es :
  parse body = inl (JObject message) → validate_request message = Expected () →
  message !! "job_id" = Some (JString job_id) → message !! "task" = Some (JObject task) →
  task !! "name" = Some (JString name) →
  Worker.handle_message w body s = (Returned r, s', es) →
  session w (redis_get job_id (ext s)).1 job_id (c_str name) message (vis es).
Proof. apply handle_message_session. Qed.

(** C5: on a healthy file system the handler throws nothing and reports
    success for every message text whatever (so the consumer deletes it),
    unless a count overflows; and the file system stays healthy. *)
Theorem handle_message_never_throws `{!FileLaws X} body (s : Machine X) :
  healthy (files s) →
  ((Worker.handle_message w body s).1.1 = Returned (Expected ()) ∨
   (Worker.handle_message w body s).1.1 = Undefined) ∧
  healthy (files (Worker.handle_message w body s).1.2).
Proof.
  intros Hs. destruct (handle_message_safe w healthy (λ _, id) healthy_same body s Hs) as [Hh Ho].
  split; [|done]. destruct (Worker.handle_message w body s) as [[[a|e|] s'] es]; simpl in *; naive_solver.
Qed.

(** A redelivered message of a finished job is dropped: one read of the
    status document, two log lines, no other interaction, and no change to
    the files. *)
Theorem redelivery_is_ignored body message task job_id name text (s : Machine X) :
  parse body = inl (JObject message) → validate_request message = Expected () →
  message !! "job_id" = Some (JString job_id) → message !! "task" = Some (JObject task) →
  task !! "name" = Some (JString name) →
  (redis_get job_id (ext s)).1 = Expected text → terminal_text (Expected text) = true →
  Worker.handle_message w body s =
    (Returned (Expected ()), mkMachine (files s) (redis_get job_id (ext s)).2,
     [EvLog LogDebug ("received message: " +:+ body);
      EvRedisGet job_id (Expected text);
      EvLog LogInformation ("job [" +:+ job_id +:+ "] already terminal: skipping redelivery")]).
Proof. apply handle_message_terminal. Qed.

(** C4: only whitelisted executables run: whatever the message, every child
    process the handler starts is the executable of a whitelist entry, with
    a timeout between one second and the configured limit. *)
Theorem only_whitelisted_tasks_run body (s : Machine X) exe args timeout :
  1 ≤ TaskExecutor.default_timeout_sec (Worker.task_executor w) →
  EvExec exe args timeout ∈ (Worker.handle_message w body s).2 →
  (∃ d, d ∈ TaskExecutor.whitelist (Worker.task_executor w) ∧
        exe = TaskExecutor.resolve_executable (Worker.task_executor w) (task_executable d)) ∧
  1 ≤ timeout ≤ TaskExecutor.default_timeout_sec (Worker.task_executor w).
Proof.
  intros Hd Hin.
  set (P := λ e, ∀ exe args timeout, e = EvExec exe args timeout →
    (∃ d, d ∈ TaskExecutor.whitelist (Worker.task_executor w) ∧
          exe = TaskExecutor.resolve_executable (Worker.task_executor w) (task_executable d)) ∧
    1 ≤ timeout ≤ TaskExecutor.default_timeout_sec (Worker.task_executor w)).
  assert (Hem : emits P (Worker.handle_message w body : M X (expected unit))).
  { destruct (parse body) as [[| | | | | | |message]|] eqn:Hp;
      try (apply handle_message_garbage; [done|intros m; rewrite Hp; done]).
    eapply (handle_message_emits w P); try done.
    - intros id st updates e _ _ _ (? & ? & ? & ->). done.
    - intros d args' timeout' Hin' ??? [= <- <- <-]. split; [by exists d|].
      by apply TaskExecutor.effective_timeout_bounds.
    - intros id n e _ _ _ [? ->]. done. }
  specialize (Hem s). rewrite Forall_forall in Hem. exact (Hem _ Hin _ _ _ eq_refl).
Qed.

End Handler.

Section HandlerWitnesses.
Import RefCodec.

Lemma handle_message_follows_protocol_witness :
  session Sample.worker (redis_get "job-1" (ext (Sample.machine ∅ 0))).1 "job-1" "wordcount" Sample.message
    (vis (Worker.handle_message Sample.worker Sample.body (Sample.machine ∅ 0)).2).
Proof.
  destruct (Worker.handle_message Sample.worker Sample.body (Sample.machine ∅ 0)) as [[o s'] es] eqn:Hr.
  assert (Ho : o = Returned (Expected ())).
  { change o with (o, s', es).1.1. rewrite <-Hr. vm_compute. reflexivity. }
  subst o.
  eapply (handle_message_follows_protocol Sample.worker Sample.body Sample.message
    (Sample.task "wordcount") "job-1" "wordcount" (Sample.machine ∅ 0));
    [exact Sample.body_parses|exact Sample.message_valid|reflexivity..|exact Hr].
Defined.

Lemma handle_message_never_throws_witness :
  (Worker.handle_message Sample.worker Sample.body (Sample.machine ∅ 1)).1.1 = Returned (Expected ()).
Proof.
  destruct (handle_message_never_throws Sample.worker Sample.body (Sample.machine ∅ 1) sim_fs_healthy)
    as [[?|Hu] _]; [done|]. vm_compute in Hu. done.
Defined.

Definition finished : string :=
  ref_serialize (JObject (<["status" := JString "done"]> ∅)).

Lemma redelivery_is_ignored_witness :
  files (Worker.handle_message Sample.worker Sample.body
    (Sample.machine {["job-1" := finished]} 0)).1.2 = sim_fs.
Proof.
  rewrite (redelivery_is_ignored Sample.worker Sample.body Sample.message (Sample.task "wordcount")
    "job-1" "wordcount" finished (Sample.machine {["job-1" := finished]} 0));
    [reflexivity|exact Sample.body_parses|exact Sample.message_valid|vm_compute; reflexivity..].
Defined.

Lemma only_whitelisted_tasks_run_witness :
  ∃ exe args timeout, exe = "/srv/tasks/wordcount.sh" ∧ 1 ≤ timeout ≤ 30 ∧
    EvExec exe args timeout ∈ (Worker.handle_message Sample.worker Sample.body (Sample.machine ∅ 0)).2.
Proof.
  set (es := (Worker.handle_message Sample.worker Sample.body (Sample.machine ∅ 0)).2).
  assert (Hin : EvExec "/srv/tasks/wordcount.sh"
    ["/tmp/taskforge/job-1/inputs"; "/tmp/taskforge/job-1/outputs"; "-v"] 5 ∈ es).
  { apply (list_elem_of_lookup_2 es 5). vm_compute. reflexivity. }
  eexists _, _, _. split; [reflexivity|]. split; [|exact Hin].
  apply (only_whitelisted_tasks_run Sample.worker Sample.body (Sample.machine ∅ 0)
    "/srv/tasks/wordcount.sh" ["/tmp/taskforge/job-1/inputs"; "/tmp/taskforge/job-1/outputs"; "-v"] 5);
    [vm_compute; done|exact Hin].
Defined.

End HandlerWitnesses.

(** ** Retries *)

(** The republished message is a valid request whenever the original is:
    nothing validated is touched. *)
Lemma valid_request_count message n :
  valid_request message → valid_request (<["dlq_try_count" := JInt64 n]> message).
Proof. intros []. by split; rewrite lookup_insert_ne. Qed.

Lemma inbound_count_insert message n :
  in_int n → Worker.inbound_count (<["dlq_try_count" := JInt64 n]> message) = n.
Proof.
  intros Hn. unfold Worker.inbound_count.
  rewrite (proj2 (get_int64_Some _ _ n)) by apply lookup_insert_eq. by apply to_int_id.
Qed.

Lemma count_insert_wf message n :
  json_wf (JObject message) = true → in_int n →
  json_wf (JObject (<["dlq_try_count" := JInt64 n]> message)) = true.
Proof.
  intros Hwf Hn. unfold json_wf. apply json_wf_insert; [done..|]. apply bool_decide_eq_true.
  unfold in_int64, INT64_MIN, INT64_MAX, in_int, INT_MIN, INT_MAX in *. lia.
Qed.

Section Retries.
Context {X : Type} `{Services X} `{JsonCodec} `{!JsonCodecLaws}.
Context (w : Worker.t).
#[local] Set Default Proof Using "All".

Abbreviation max_retry := (TaskDLQ.max_retry_count (Worker.task_dlq w)).

(** What a published message is, from the one being handled. *)
Lemma send_in_trace body message (s : Machine X) out group dedup r :
  parse body = inl (JObject message) →
  EvSend out group dedup r ∈ (Worker.handle_message w body s).2 →
  ∃ id n, validate_request message = Expected () ∧ get_string message "job_id" = Some id ∧
    retry_count_ok w (Worker.inbound_count message) n ∧
    out = serialize (JObject (<["dlq_try_count" := JInt64 n]> message)) ∧
    group = c_str (sqs_message_group_id_ (Worker.configurations w)) ∧
    dedup = c_str (Worker.dedup_id id n).
Proof.
  intros Hp Hin.
  set (P := λ e, ∀ out group dedup r, e = EvSend out group dedup r →
    ∃ id n, validate_request message = Expected () ∧ get_string message "job_id" = Some id ∧
      retry_count_ok w (Worker.inbound_count message) n ∧
      out = serialize (JObject (<["dlq_try_count" := JInt64 n]> message)) ∧
      group = c_str (sqs_message_group_id_ (Worker.configurations w)) ∧
      dedup = c_str (Worker.dedup_id id n)).
  assert (Hem : emits P (Worker.handle_message w body : M X (expected unit))).
  { eapply (handle_message_emits w P); try done.
    - intros id st updates e _ _ _ (? & ? & ? & ->). done.
    - intros id n e Hv Hid Hn [r' ->] ???? [= <- <- <- <-].
      exists id, n. split_and!; try done; apply serialize_no_nul. }
  specialize (Hem s). rewrite Forall_forall in Hem. exact (Hem _ Hin _ _ _ _ eq_refl).
Qed.

(** C7: what a retry publishes. The text parses back to the handled message
    with only [dlq_try_count] changed, to a count above the inbound one and
    within the retry limit; it is again a valid request for the same job, and
    its deduplication id carries the job and the count. *)
Theorem republished_message body message (s : Machine X) out group dedup r :
  parse body = inl (JObject message) → json_wf (JObject message) = true → max_retry ≤ INT_MAX →
  EvSend out group dedup r ∈ (Worker.handle_message w body s).2 →
  ∃ id n message', message' = <["dlq_try_count" := JInt64 n]> message ∧
    parse out = inl (JObject message') ∧ Worker.inbound_count message' = n ∧
    Worker.inbound_count message < n ≤ max_retry ∧
    validate_request message' = Expected () ∧
    message' !! "job_id" = Some (JString id) ∧ dedup = id +:+ "-retry-" +:+ fmt_int n.
Proof.
  intros Hp Hwf Hmax Hin.
  destruct (send_in_trace _ _ _ _ _ _ _ Hp Hin) as (id & n & Hv & Hid & (Hlow & Hin' & Hup) & -> & -> & ->).
  apply get_string_Some in Hid. apply valid_request_iff in Hv as Hval.
  assert (Hint : in_int n) by (unfold in_int, INT_MIN; lia).
  exists id, n, (<["dlq_try_count" := JInt64 n]> message). split_and!; try done.
  - by apply parse_serialize, count_insert_wf.
  - by apply inbound_count_insert.
  - by apply valid_request_iff, valid_request_count.
  - by rewrite lookup_insert_ne.
  - unfold Worker.dedup_id. apply c_str_id. rewrite !str_In_app. intros [Hc|[Hc|Hc]].
    + destruct (request_job_id _ Hval) as (id' & Hid' & Hl). simplify_eq.
      by destruct (valid_job_id_chars _ _ (proj2 (is_valid_job_id_iff _) Hl) Hc) as (_ & _ & ?).
    + vm_compute in Hc. naive_solver.
    + apply fmt_int_no_nul in Hc; [done|lia].
Qed.

(** Messages obtained from [body] by [n] retries, each published while
    handling the one before, on any machine. *)
Inductive retry_chain : string → nat → Prop :=
| chain_start body : retry_chain body 0
| chain_retry body (s : Machine X) out group dedup r n :
    EvSend out group dedup r ∈ (Worker.handle_message w body s).2 →
    retry_chain out n → retry_chain body (S n).

(** C8: retrying terminates. However the services behave, and even if the
    local retry files are lost, a request is retried at most as often as the
    configured limit allows beyond the count it arrived with. *)
Theorem retries_are_bounded body message n :
  parse body = inl (JObject message) → json_wf (JObject message) = true → max_retry ≤ INT_MAX →
  retry_chain body n →
  Z.of_nat n ≤ Z.max 0 (max_retry - Z.max 0 (Worker.inbound_count message)).
Proof.
  intros Hp Hwf Hmax Hc. revert message Hp Hwf.
  induction Hc as [body|body s out group dedup r n Hin Hc IH]; intros message Hp Hwf; [lia|].
  destruct (send_in_trace _ _ _ _ _ _ _ Hp Hin) as (id & k & _ & _ & (Hlow & Hin' & Hup) & -> & _).
  assert (Hint : in_int k) by (unfold in_int, INT_MIN; lia).
  pose proof (count_insert_wf message k Hwf Hint) as Hwf'.
  specialize (IH _ (parse_serialize _ Hwf') Hwf').
  rewrite inbound_count_insert in IH by done. lia.
Qed.

End Retries.

Section RetriesWitnesses.
Import RefCodec.

(** The interactions of handling the sample message when its task exits with
    code 1. *)
Definition failing_run : list Event :=
  (Worker.handle_message Sample.worker Sample.body (Sample.machine ∅ 1)).2.

Definition republished_text : string :=
  ref_serialize (JObject (<["dlq_try_count" := JInt64 1]> Sample.message)).

Lemma failing_run_sends :
  EvSend republished_text "request" "job-1-retry-1" (Expected ()) ∈ failing_run.
Proof. apply (list_elem_of_lookup_2 _ 9). vm_compute. reflexivity. Qed.

Lemma republished_message_witness :
  ∃ message', ref_parse republished_text = inl (JObject message') ∧
    validate_request message' = Expected () ∧ Worker.inbound_count message' = 1.
Proof.
  destruct (republished_message Sample.worker Sample.body Sample.message (Sample.machine ∅ 1)
    republished_text "request" "job-1-retry-1" (Expected ()))
    as (id & n & message' & Heq & Hp & Hc & _ & Hv & _ & Hd);
    [exact Sample.body_parses|vm_compute; reflexivity|vm_compute; discriminate|exact failing_run_sends|].
  exists message'. split; [exact Hp|]. split; [exact Hv|]. rewrite Hc.
  vm_compute in Hp. injection Hp as Hm. rewrite <-Hc, <-Hm. vm_compute. reflexivity.
Defined.

Lemma retries_are_bounded_witness :
  retry_chain (X := Sim) Sample.worker Sample.body 1 ∧ 1 ≤ Z.max 0 (4 - Z.max 0 0).
Proof.
  assert (Hc : retry_chain (X := Sim) Sample.worker Sample.body 1).
  { eapply chain_retry; [exact failing_run_sends|apply chain_start]. }
  split; [exact Hc|].
  apply (retries_are_bounded (X := Sim) Sample.worker Sample.body Sample.message 1);
    [exact Sample.body_parses|vm_compute; reflexivity|vm_compute; discriminate|exact Hc].
Defined.
End RetriesWitnesses.
