(* ===== verification/WorkerTransfers.v ===== *)
(** * Transfers, pauses and the temporary directory

    The delays of the retry loops, what the input and output loops transfer,
    and that a job leaves no files in the temporary directory. *)

From S2P Require Import Prelude Utf8 Json Filesystem Effects Testbed MessageValidation Configurations.
From S2P Require Import TaskDLQ TaskExecutor WorkerStatus Worker WorkerTrace WorkerSafety WorkerProtocol WorkerSample.
Import MessageValidation.

(** ** Delays *)

(** The exponential schedule: doubling from [base], capped at [max]. *)
Lemma backoff_capped_schedule attempt base max :
  1 ≤ attempt → 0 < base → max ≤ base * 2 ^ 16 →
  backoff_capped attempt base max = Z.min (base * 2 ^ (attempt - 1)) max.
Proof.
  intros Ha Hb Hm. unfold backoff_capped, backoff_shift.
  assert (Hs : (if 1 <? attempt then attempt - 1 else 0) = attempt - 1) by (destruct (1 <? attempt) eqn:?; bool_to_prop; lia).
  rewrite Hs. destruct (16 <? attempt - 1) eqn:H16; bool_to_prop; rewrite Z.shiftl_mul_pow2 by lia.
  - assert (2 ^ 16 ≤ 2 ^ (attempt - 1)) by (apply Z.pow_le_mono_r; lia).
    destruct (max <? base * 2 ^ 16) eqn:?; bool_to_prop; nia.
  - destruct (max <? _) eqn:?; bool_to_prop; lia.
Qed.

Section Delays.
Context {X : Type} `{Services X} `{UL : !UniformLaws X}.
#[local] Set Default Proof Using "All".

(** A retry delay lies between the capped exponential step
    [min (base * 2^(attempt-1)) max] and one and a half times it, so it never
    exceeds one and a half times the configured maximum; the 64-bit
    computation does not overflow. *)
Theorem backoff_with_jitter_bounds attempt base max (s : Machine X) :
  1 ≤ attempt → 0 < base ≤ INT_MAX → 0 ≤ max ≤ base * 2 ^ 16 →
  let step := Z.min (base * 2 ^ (attempt - 1)) max in
  ∃ delay x, backoff_with_jitter attempt base max s = (Returned delay, mkMachine (files s) x, []) ∧
    step ≤ delay ≤ step + step / 2 ∧ delay ≤ max + max / 2 ∧
    in_int64 (Z.shiftl base (backoff_shift attempt)) ∧ in_int64 delay.
Proof.
  intros Ha Hb Hm. cbv zeta. pose proof (backoff_run attempt base max s) as Hr. cbv zeta in Hr.
  rewrite backoff_capped_schedule in Hr by lia.
  set (step := Z.min (base * 2 ^ (attempt - 1)) max) in *.
  assert (0 < 2 ^ (attempt - 1)) by (apply Z.pow_pos_nonneg; lia).
  assert (Hstep : 0 ≤ step ≤ max) by (unfold step; nia).
  pose proof (uniform_int_range 0 (step ÷ 2) (ext s)) as Hu.
  rewrite Z.quot_div_nonneg in * by lia.
  assert (0 ≤ step / 2) by (apply Z.div_pos; lia).
  assert (step / 2 ≤ max / 2) by (apply Z.div_le_mono; lia).
  assert (max / 2 ≤ max) by (apply Z.div_le_upper_bound; lia).
  destruct (uniform_int 0 (step / 2) (ext s)) as [r x]. simpl in Hu. specialize (Hu ltac:(done)).
  exists (step + r), x. split; [exact Hr|]. split; [lia|]. split; [lia|].
  unfold in_int64, INT64_MIN, INT64_MAX, INT_MAX in *.
  assert (Hsh : 0 ≤ backoff_shift attempt ≤ 16).
  { unfold backoff_shift. destruct (1 <? attempt) eqn:?; destruct (16 <? _) eqn:?; bool_to_prop; lia. }
  rewrite Z.shiftl_mul_pow2 by lia.
  assert (2 ^ backoff_shift attempt ≤ 2 ^ 16) by (apply Z.pow_le_mono_r; lia).
  assert (0 < 2 ^ backoff_shift attempt) by (apply Z.pow_pos_nonneg; lia).
  split; nia.
Qed.

End Delays.

(** ** Downloads *)

(** Bucket, key and local path of the downloads in a trace, with whether they
    succeeded; the successful ones; the pauses. *)
Definition downloads (es : list Event) : list (string * string * string * bool) :=
  omap (λ e, match e with EvDownload b k p r => Some (b, k, p, has_value r) | _ => None end) es.
Definition pauses (es : list Event) : list Z :=
  omap (λ e, match e with EvSleep ms => Some ms | _ => None end) es.

Lemma downloads_app es es' : downloads (es ++ es') = downloads es ++ downloads es'.
Proof. apply omap_app. Qed.
Lemma pauses_app es es' : pauses (es ++ es') = pauses es ++ pauses es'.
Proof. apply omap_app. Qed.

Section Downloads.
Context {X : Type} `{Services X} `{JsonCodec}.

(** [n] attempts: some failures, each followed by a pause, and at most one
    success, which ends the loop. *)
Lemma download_loop_attempts n attempt bucket key path err (s : Machine X) :
  let '(o, s', es) := Worker.download_loop n attempt bucket key path err s in
  ∃ k, (k ≤ n)%nat ∧ length (pauses es) = k ∧
    let failure := (c_str bucket, c_str key, c_str path, false) in
    let success := (c_str bucket, c_str key, c_str path, true) in
    ((k < n)%nat ∧ o = Returned (Expected ()) ∧ downloads es = replicate k failure ++ [success] ∨
     k = n ∧ (∃ e, o = Returned (Unexpected e)) ∧ downloads es = replicate n failure).
Proof.
  revert attempt err s. induction n as [|n IH]; intros attempt err s; cbn [Worker.download_loop].
  { exists 0%nat. split_and!; [done..|]. right. split_and!; [done|by eexists|done]. }
  unfold mbind, M_bind, S3Download, call_fs.
  destruct (s3_download_file _ _ _ _ _) as [[[[]|e] fs] x]; simpl.
  { exists 0%nat. split_and!; [lia|done|]. left. split_and!; [lia|done..]. }
  unfold log, emit, sleep_for.
  match goal with |- context [backoff_with_jitter ?a ?b ?m ?st] =>
    pose proof (backoff_run a b m st) as Hb; cbv zeta in Hb end.
  simpl in *. destruct (uniform_int _ _ _) as [r x']. rewrite Hb.
  specialize (IH (attempt + 1) e (mkMachine fs x')).
  destruct (Worker.download_loop n _ _ _ _ _ _) as [[o s'] es]. destruct IH as (k & Hk & Hp & Hcase).
  exists (S k). split; [lia|]. split; [simpl; by rewrite Hp|].
  destruct Hcase as [(Hlt & -> & Hd)|(-> & He & Hd)].
  - left. split; [lia|]. split; [done|]. simpl. by rewrite <-Hd.
  - right. split_and!; [done|done|]. simpl. by rewrite <-Hd.
Qed.

(** Where the object of an entry goes: its bucket, key and local path. *)
Definition entry_target (inputs : string) (entry : json) : option (string * string * string) :=
  match entry with
  | JObject e =>
      match get_string e "bucket", get_string e "key" with
      | Some b, Some k => Some (c_str b, c_str k, c_str (path_div inputs (key_filename (c_str k))))
      | _, _ => None
      end
  | _ => None
  end.

Definition successes (es : list Event) : list (string * string * string) :=
  omap (λ '(b, k, p, ok), if (ok : bool) then Some (b, k, p) else None) (downloads es).

Lemma successes_app es es' : successes (es ++ es') = successes es ++ successes es'.
Proof. unfold successes. by rewrite downloads_app, omap_app. Qed.

Lemma omap_failures n (b k p : string) :
  omap (λ '(b, k, p, ok), if (ok : bool) then Some (b, k, p) else None) (replicate n (b, k, p, false)) = [].
Proof. by induction n. Qed.

(** One entry: at most three attempts, and what they achieved. *)
Lemma download_entry_attempts entry inputs (s : Machine X) :
  valid_download entry →
  let '(o, s', es) := Worker.download_entry entry inputs s in
  (length (downloads es) ≤ s3_download_attempts)%nat ∧
  ∃ target, entry_target inputs entry = Some target ∧
    (o = Returned (Expected ()) ∧ successes es = [target] ∨
     (∃ e, o = Returned (Unexpected e)) ∧ successes es = []).
Proof.
  intros (e & bucket & key & method & -> & Hb & _ & Hk & _ & _).
  unfold Worker.download_entry, mbind, M_bind, unwrap. cbn [as_object]. unfold mret, M_ret.
  rewrite (at_string_run _ _ bucket), (at_string_run _ _ key) by done.
  match goal with |- context [Worker.download_loop ?n ?a ?b ?k ?p ?err ?st] =>
    pose proof (download_loop_attempts n a b k p err st) as Hloop;
    destruct (Worker.download_loop n a b k p err st) as [[o s'] es] end.
  destruct Hloop as (n & Hn & _ & Hcase). rewrite !c_str_idemp in Hcase. cbv zeta in Hcase.
  assert (Ht : entry_target inputs (JObject e) =
    Some (c_str bucket, c_str key, c_str (path_div inputs (key_filename (c_str key))))).
  { simpl. by rewrite (proj2 (get_string_Some _ _ _) Hb), (proj2 (get_string_Some _ _ _) Hk). }
  unfold successes. destruct Hcase as [(Hlt & -> & Hd)|(-> & [err ->] & Hd)];
    simpl; rewrite ?app_nil_r, Hd; (split; [rewrite ?length_app, length_replicate; simpl in *; lia|]);
    eexists; (split; [exact Ht|]).
  - left. split; [done|]. by rewrite omap_app, omap_failures.
  - right. split; [by eexists|]. apply omap_failures.
Qed.

Lemma download_entries_attempts entries inputs (s : Machine X) :
  Forall valid_download entries →
  let '(o, s', es) := Worker.download_entries entries inputs s in
  (length (downloads es) ≤ s3_download_attempts * length entries)%nat ∧
  ∃ fetched rest, entries = fetched ++ rest ∧
    Some <$> successes es = entry_target inputs <$> fetched ∧
    (o = Returned (Expected ()) ∧ rest = [] ∨ (∃ e, o = Returned (Unexpected e)) ∧ rest ≠ []).
Proof.
  intros Hok. revert s. induction Hok as [|v l Hv Hl IH]; intros s; cbn [Worker.download_entries].
  { split; [simpl; lia|]. exists [], []. split_and!; [done..|]. by left. }
  unfold mbind, M_bind. pose proof (download_entry_attempts v inputs s Hv) as He.
  destruct (Worker.download_entry v inputs s) as [[o s1] es1].
  destruct He as (Hlen & target & Htarget & [[-> Hsucc]|[[e ->] Hsucc]]).
  - specialize (IH s1). destruct (Worker.download_entries l inputs s1) as [[o s2] es2].
    destruct IH as (Hlen' & fetched & rest & -> & Hs & Ho).
    split; [rewrite downloads_app, length_app; cbn [length]; unfold s3_download_attempts in *; lia|].
    exists (v :: fetched), rest. split; [done|]. split; [|done].
    rewrite successes_app, Hsucc, fmap_app, Hs. cbn [fmap list_fmap app]. by rewrite Htarget.
  - unfold mret, M_ret. rewrite app_nil_r.
    split; [cbn [length]; unfold s3_download_attempts in *; lia|].
    exists [], (v :: l). rewrite Hsucc. split_and!; [done..|]. right. split; [by eexists|done].
Qed.

(** Fetching the inputs of a valid request tries every object at most
    three times, in order; it reports success exactly when every listed object
    has been stored under its own name in the inputs directory, and stops at
    the first object that cannot be fetched. *)
Theorem download_inputs_complete message entries inputs (s : Machine X) :
  valid_request message → message !! "download_s3" = Some (JArray entries) →
  let '(o, s', es) := Worker.download_inputs message inputs s in
  (length (downloads es) ≤ s3_download_attempts * length entries)%nat ∧
  ∃ fetched rest, entries = fetched ++ rest ∧
    Some <$> successes es = entry_target inputs <$> fetched ∧
    (o = Returned (Expected ()) ∧ rest = [] ∨ (∃ e, o = Returned (Unexpected e)) ∧ rest ≠ []).
Proof.
  intros Hv Hk. destruct (request_downloads _ Hv) as (l & Hl & Hok). simplify_eq.
  unfold Worker.download_inputs, mbind, M_bind. rewrite (at_array_run _ _ entries) by done.
  pose proof (download_entries_attempts entries inputs s Hok) as He. unfold mbind, M_bind in He.
  by destruct (Worker.download_entries entries inputs s) as [[o s'] es].
Qed.

End Downloads.

(** ** Uploads *)

Section Uploads.
Context {X : Type} `{Services X} `{JsonCodec}.
Context (w : Worker.t).

Abbreviation bucket := (c_str (s3_bucket_ (Worker.configurations w))).

(** The names of the regular files among directory entries. *)
Definition regular_names (entries : list (string * node)) : list string :=
  omap (λ '(name, n), match n with RegularFile _ => Some name | _ => None end) entries.

Definition uploads (es : list Event) : list (string * string * string) :=
  omap (λ e, match e with EvUpload b k p (Expected _) => Some (b, k, p) | _ => None end) es.

(** [url] is the result entry of the file [name], with a signed URL of the
    object it was uploaded to. *)
Definition result_of (prefix : string) (es : list Event) (name : string) (url : json) : Prop :=
  ∃ signed, url = Worker.result_object name signed ∧
    EvPresign bucket (c_str (prefix +:+ name)) (presign_ttl_sec_ (Worker.configurations w))
      (Expected signed) ∈ es.

Lemma result_of_mono prefix es es' name url :
  (∀ e, e ∈ es → e ∈ es') → result_of prefix es name url → result_of prefix es' name url.
Proof. intros Hsub (signed & -> & Hin). exists signed. auto. Qed.

Lemma upload_entries_results fs prefix outputs entries results (s s' : Machine X) urls es :
  Worker.upload_entries w fs prefix outputs entries results s = (Returned (Expected urls), s', es) →
  ∃ new, urls = results ++ new ∧ Forall2 (result_of prefix es) (regular_names entries) new ∧
    uploads es = (λ name, (bucket, c_str (prefix +:+ name), c_str (path_div outputs name)))
                   <$> regular_names entries.
Proof.
  revert results s es. induction entries as [|[name n] l IH]; intros results s es Hr; simpl in Hr.
  { ret_inv Hr. exists []. by rewrite app_nil_r. }
  destruct (denied _ _ _); [done|]. destruct n as [c| |]; [|by eapply IH..].
  bind_inv Hr as ([[]|e] & s1 & es1 & es2 & Hup & Hr & ->); [|by ret_inv Hr].
  bind_inv Hr as ([signed|e] & s2 & es3 & es4 & Hpre & Hr & ->); [|by ret_inv Hr].
  apply IH in Hr as (new & -> & Hall & Hups).
  unfold S3Upload, call in Hup. destruct (s3_upload_file _ _ _ _ _); simplify_eq.
  unfold S3Presign, call in Hpre. destruct (s3_presign _ _ _ _); simplify_eq.
  exists (Worker.result_object name signed :: new). split_and!.
  - by rewrite <-app_assoc.
  - simpl. constructor.
    + exists signed. split; [done|]. rewrite !elem_of_cons. auto.
    + eapply Forall2_impl; [exact Hall|]. intros name' url. apply result_of_mono.
      intros e. rewrite !elem_of_cons. auto.
  - simpl. by rewrite Hups.
Qed.

Lemma upload_outputs_run prefix outputs (s s' : Machine X) urls es :
  Worker.upload_outputs w prefix outputs s = (Returned (Expected urls), s', es) →
  ∃ entries, directory_entries (files s) outputs = Some entries ∧
    uploads es = (λ name, (bucket, c_str (prefix +:+ name), c_str (path_div outputs name)))
                   <$> regular_names entries ∧
    Forall2 (result_of prefix es) (regular_names entries) urls.
Proof.
  unfold Worker.upload_outputs. intros Hr. bind_inv Hr as (fs & s1 & es1 & es2 & Hg & Hr & ->).
  unfold get_files in Hg. simplify_eq. destruct (directory_entries _ _) as [entries|] eqn:Hd; [|done].
  apply upload_entries_results in Hr as (new & -> & Hall & Hups). by exists entries.
Qed.

(** When the outputs are reported as uploaded, every regular file of the
    outputs directory (and nothing else) has been uploaded under the output
    prefix, and the result list has one entry per file, in the same order,
    with its name and a URL signed for the object it was uploaded to. *)
Theorem upload_outputs_results prefix outputs (s s' : Machine X) urls es :
  Worker.upload_outputs w prefix outputs s = (Returned (Expected urls), s', es) →
  ∃ entries, directory_entries (files s) outputs = Some entries ∧
    uploads es = (λ name, (bucket, c_str (prefix +:+ name), c_str (path_div outputs name)))
                   <$> regular_names entries ∧
    Forall2 (result_of prefix es) (regular_names entries) urls.
Proof. apply upload_outputs_run. Qed.

End Uploads.

(** ** The temporary directory *)

Definition job_root (temp job_id : string) : string := path_div (path_div temp "taskforge") job_id.

Lemma fs_remove_all_gone fs p q :
  (∀ q, denied fs OpRemove q = false) → resolve fs p `prefix_of` q → nodes (fs_remove_all fs p) !! q = None.
Proof.
  intros Hd Hq. simpl. apply map_lookup_filter_None_2. right. intros n _ Hn. apply Hn. split; [done|].
  intros q' n' _ _. apply Hd.
Qed.

Section TempDir.
Context {X : Type} `{Services X} `{FL : !FileLaws X} `{JsonCodec}.
Context (w : Worker.t).
#[local] Set Default Proof Using "Type FL".

Lemma make_temp_dir_run job_id temp (s : Machine X) :
  temp_directory (files s) = Some temp →
  ∃ fs, same_system (files s) fs ∧
    make_temp_dir job_id s = (Returned (job_root temp job_id), mkMachine fs (ext s), []).
Proof.
  intros Ht. unfold make_temp_dir, mbind, M_bind, get_files, set_files, unwrap, mret, M_ret.
  rewrite Ht. eexists. split; [|done].
  eapply same_system_trans; apply create_directories_same.
Qed.

(** Whatever the body does, nothing of the job's directory is left. *)
Lemma with_temp_dir_removes {A} job_id temp (body : string → M X A) (s : Machine X) q :
  healthy (files s) → temp_directory (files s) = Some temp →
  (∀ p, denied (files s) OpRemove p = false) →
  (∀ root, safe (healthy_from (files s)) (λ _, True) (body root)) →
  resolve (files s) (job_root temp job_id) `prefix_of` q →
  nodes (files (with_temp_dir job_id body s).1.2) !! q = None.
Proof.
  intros Hh Ht Hd Hb Hq. unfold with_temp_dir, mbind, M_bind.
  destruct (make_temp_dir_run job_id temp s Ht) as (fs & Hfs & ->).
  set (root := job_root temp job_id) in *. set (s1 := mkMachine fs (ext s)).
  assert (Hs1 : healthy_from (files s) (files s1)) by (eauto with files).
  specialize (Hb root s1 Hs1). unfold with_cleanup.
  destruct (body root s1) as [[o s2] es]. simpl in Hb. destruct Hb as [[_ [ns Hs2]] _].
  unfold remove_temp_dir, mbind, M_bind, get_files, set_files. cbn [fst snd files].
  assert (Hgone : nodes (fs_remove_all (files s2) root) !! q = None).
  { apply fs_remove_all_gone; rewrite Hs2; done. }
  by destruct o.
Qed.

(** C37: on a healthy file system on which no removal is denied, processing a
    valid request for a registered task leaves nothing in its temporary
    directory, whether it succeeds or fails in any way. *)
Theorem temp_dir_removed message body task job_id name definition temp (s : Machine X) q :
  healthy (files s) → temp_directory (files s) = Some temp →
  (∀ p, denied (files s) OpRemove p = false) →
  validate_request message = Expected () →
  message !! "job_id" = Some (JString job_id) → message !! "task" = Some (JObject task) →
  task !! "name" = Some (JString name) →
  terminal_text (redis_get job_id (ext s)).1 = false →
  TaskExecutor.find_task (Worker.task_executor w) (c_str name) = Some definition →
  resolve (files s) (job_root temp job_id) `prefix_of` q →
  nodes (files (Worker.process_job w message body s).1.2) !! q = None.
Proof.
  intros Hh Ht Hd Hv Hid Htask Hname Hterm Hfind Hq. apply valid_request_iff in Hv as Hval.
  assert (Hvalid : is_valid_job_id job_id = true).
  { apply is_valid_job_id_iff. apply request_job_id in Hval as (? & ? & ?). naive_solver. }
  assert (Hvt : valid_task task) by (apply request_task in Hval as (? & ? & ?); naive_solver).
  unfold Worker.process_job, mbind, M_bind.
  rewrite (at_string_run _ _ job_id), valid_job_id_c_str by done.
  rewrite (at_object_run _ _ task), (at_string_run _ _ name) by done.
  rewrite is_terminal_run, Hterm, Hfind. unfold Worker.status.
  match goal with |- context [set_job_status ?t ?i ?st ?u ?m] =>
    destruct (set_job_status_run t i st u m) as (? & ? & ? & x & _ & ->) end.
  pose proof (with_temp_dir_removes job_id temp
    (Worker.run_job w message task job_id (c_str name) definition) (mkMachine (files s) x) q
    Hh Ht Hd) as Hgone.
  destruct (with_temp_dir _ _ _) as [[o s'] es]. apply Hgone; [|done].
  intros root. apply run_job_safe; [by apply healthy_from_healthy|by apply healthy_from_same|done..].
Qed.

End TempDir.

(** ** Concrete runs *)

Section TransferWitnesses.
Import RefCodec.

Lemma backoff_with_jitter_bounds_witness :
  ∃ delay, (backoff_with_jitter 3 retry_base_delay_ms retry_max_delay_ms (Sample.machine ∅ 0)).1.1
             = Returned delay ∧ 4000 ≤ delay ≤ 6000.
Proof.
  destruct (backoff_with_jitter_bounds 3 retry_base_delay_ms retry_max_delay_ms (Sample.machine ∅ 0))
    as (delay & x & Hr & Hb & _); [done|vm_compute; split; done|vm_compute; split; done|].
  exists delay. rewrite Hr. split; [reflexivity|]. change (4000 ≤ delay ≤ 6000) in Hb. exact Hb.
Defined.

Definition sample_entries : list json :=
  match Sample.message !! "download_s3" with Some (JArray l) => l | _ => [] end.

Definition prepared (code : Z) : Machine Sim := (make_temp_dir "job-1" (Sample.machine ∅ code)).1.2.

Lemma download_inputs_complete_witness :
  let es := (Worker.download_inputs Sample.message "/tmp/taskforge/job-1/inputs" (prepared 0)).2 in
  (length (downloads es) ≤ 3)%nat.
Proof.
  cbv zeta. pose proof (download_inputs_complete Sample.message sample_entries
    "/tmp/taskforge/job-1/inputs" (prepared 0)) as Hw.
  destruct (Worker.download_inputs _ _ _) as [[o s'] es]. apply Hw.
  - apply valid_request_iff. exact Sample.message_valid.
  - reflexivity.
Defined.

(** The machine after the sample task has run. *)
Definition executed : Machine Sim :=
  (RunChild "/srv/tasks/wordcount.sh" ["/tmp/taskforge/job-1/inputs"; "/tmp/taskforge/job-1/outputs"]
    "/tmp/taskforge/job-1/stdout.log" 30 (prepared 0)).1.2.

Lemma upload_outputs_results_witness :
  ∃ es, uploads es = [("taskforge-jobs", "jobs/job-1/outputs/a.txt.wordcount.txt",
                       "/tmp/taskforge/job-1/outputs/a.txt.wordcount.txt")].
Proof.
  destruct (Worker.upload_outputs Sample.worker "jobs/job-1/outputs/" "/tmp/taskforge/job-1/outputs" executed)
    as [[o s'] es] eqn:Hr.
  assert (Ho : ∃ urls, o = Returned (Expected urls)).
  { change o with (o, s', es).1.1. rewrite <-Hr. eexists. vm_compute. reflexivity. }
  destruct Ho as [urls Ho]. rewrite Ho in Hr.
  destruct (upload_outputs_results Sample.worker "jobs/job-1/outputs/" "/tmp/taskforge/job-1/outputs"
    executed s' urls es Hr) as (entries & Hd & Hu & _).
  exists es. rewrite Hu. vm_compute in Hd. injection Hd as <-. vm_compute. reflexivity.
Defined.

Lemma temp_dir_removed_witness :
  nodes (files (Worker.process_job Sample.worker Sample.message Sample.body (Sample.machine ∅ 1)).1.2)
    !! ["tmp"; "taskforge"; "job-1"; "stdout.log"] = None.
Proof.
  eapply (temp_dir_removed Sample.worker Sample.message Sample.body (Sample.task "wordcount") "job-1"
    "wordcount" _ "/tmp" (Sample.machine ∅ 1));
    [exact sim_fs_healthy|reflexivity|reflexivity|exact Sample.message_valid|reflexivity..| |].
  - vm_compute. reflexivity.
  - exists ["stdout.log"]. vm_compute. reflexivity.
Defined.
End TransferWitnesses.
