(* ===== verification/WaitingTime.v ===== *)
(** * How long a message is worked on

    The time the handler of a message spends waiting by its own decision: the
    pauses between the attempts of a transfer, the pause before a retry is
    published, and the time a task is allowed to run. Transfers and the file
    system add to it. The queue hides a message that is being handled for its
    visibility timeout; a message that is worked on for longer is delivered a
    second time. *)

From S2P Require Import Prelude Utf8 Json Filesystem Effects Testbed MessageValidation Configurations.
From S2P Require Import TaskDLQ TaskExecutor WorkerStatus Worker WorkerTrace WorkerSafety WorkerProtocol WorkerSample.
From S2P Require Import WorkerTransfers.
Import MessageValidation.

(** ** Waiting *)

(** Milliseconds an interaction is waited for at most. *)
Definition wait (e : Event) : Z :=
  match e with EvSleep ms => Z.max 0 ms | EvExec _ _ timeout => 1000 * Z.max 0 timeout | _ => 0 end.

Definition waiting (es : list Event) : Z := foldr (λ e n, wait e + n) 0 es.

Lemma waiting_nonneg es : 0 ≤ waiting es.
Proof. induction es as [|e es IH]; simpl; [lia|]. destruct e; simpl; lia. Qed.

Lemma waiting_app es es' : waiting (es ++ es') = waiting es + waiting es'.
Proof. induction es as [|e es IH]; simpl; [done|]. rewrite IH. lia. Qed.

Section Waits.
Context {X : Type} `{Services X}.

(** Every run waits at most [n] milliseconds. *)
Definition waits {A} (n : Z) (m : M X A) : Prop := ∀ s, waiting (m s).2 ≤ n.

Lemma waits_bind {A B} n k (m : M X A) (f : A → M X B) :
  0 ≤ k → waits n m → (∀ s a s' es, m s = (Returned a, s', es) → waits k (f a)) → waits (n + k) (m ≫= f).
Proof.
  intros Hk Hm Hf s. unfold mbind, M_bind. specialize (Hm s).
  destruct (m s) as [[[a|e|] s'] es] eqn:Hr; simpl in *; [|lia..].
  specialize (Hf s a s' es Hr s'). destruct (f a s') as [[o s''] es']. simpl in *. rewrite waiting_app. lia.
Qed.

Lemma waits_emits {A} (m : M X A) : emits (λ e, wait e = 0) m → waits 0 m.
Proof.
  intros Hm s. specialize (Hm s). induction Hm as [|e es He _ IH]; simpl; [done|]. rewrite He. lia.
Qed.

(** A first part that does not wait. *)
Lemma waits_quiet {A B} n (m : M X A) (f : A → M X B) :
  0 ≤ n → emits (λ e, wait e = 0) m → (∀ a, waits n (f a)) → waits n (m ≫= f).
Proof. intros Hn Hm Hf. change n with (0 + n). apply waits_bind; [done|by apply waits_emits|intros; apply Hf]. Qed.

Lemma waits_le {A} n n' (m : M X A) : waits n m → n ≤ n' → waits n' m.
Proof. intros Hm Hn s. specialize (Hm s). lia. Qed.

Lemma waits_ret {A} n (a : A) : 0 ≤ n → waits n (mret a).
Proof. by intros Hn s. Qed.

Lemma waits_cleanup {A} n (m : M X A) c : waits n m → emits (λ e, wait e = 0) c → waits n (with_cleanup m c).
Proof.
  intros Hm Hc s. unfold with_cleanup. specialize (Hm s). destruct (m s) as [[o s'] es].
  pose proof (waits_emits c Hc s') as Hs. destruct (c s') as [[o' s''] es']. simpl in *. rewrite waiting_app. lia.
Qed.

Lemma waits_sleep ms : 0 ≤ ms → waits ms (sleep_for ms).
Proof. intros Hms s. simpl. lia. Qed.

(** What a message may be waited for: the longest pause of an attempt, of all
    attempts to fetch one input, and of a retry. *)
Definition pause_limit (attempt base max : Z) : Z :=
  let step := Z.min (base * 2 ^ (attempt - 1)) max in step + step / 2.

Fixpoint download_limit (remaining : nat) (attempt : Z) : Z :=
  match remaining with
  | O => 0
  | S remaining => pause_limit attempt download_base_delay_ms download_max_delay_ms
                   + download_limit remaining (attempt + 1)
  end.

Lemma pause_limit_nonneg attempt base max : 1 ≤ attempt → 0 < base → 0 ≤ max → 0 ≤ pause_limit attempt base max.
Proof.
  intros. unfold pause_limit. assert (0 < 2 ^ (attempt - 1)) by (apply Z.pow_pos_nonneg; lia).
  assert (0 ≤ Z.min (base * 2 ^ (attempt - 1)) max) by nia.
  assert (0 ≤ Z.min (base * 2 ^ (attempt - 1)) max / 2) by (apply Z.div_pos; lia). lia.
Qed.

Lemma download_limit_nonneg n attempt : 1 ≤ attempt → 0 ≤ download_limit n attempt.
Proof.
  revert attempt. induction n as [|n IH]; intros attempt Ha; simpl; [done|]. specialize (IH (attempt + 1)).
  pose proof (pause_limit_nonneg attempt download_base_delay_ms download_max_delay_ms Ha) as Hp.
  unfold download_base_delay_ms, download_max_delay_ms in *. lia.
Qed.

Context `{UL : !UniformLaws X}.

(** A pause between attempts. *)
Lemma waits_pause {A} attempt base max n (body : Z → M X A) :
  1 ≤ attempt → 0 < base ≤ INT_MAX → 0 ≤ max ≤ base * 2 ^ 16 → 0 ≤ n →
  (∀ delay, 0 ≤ delay → waits (delay + n) (body delay)) →
  waits (pause_limit attempt base max + n) (backoff_with_jitter attempt base max ≫= body).
Proof using UL.
  intros Ha Hb Hm Hn Hbody.
  pose proof (pause_limit_nonneg attempt base max Ha ltac:(lia) ltac:(lia)) as Hp.
  rewrite <-(Z.add_0_l (_ + n)). apply waits_bind; [lia|apply waits_emits, backoff_emits|].
  intros s delay s' es Hrun.
  destruct (backoff_with_jitter_bounds attempt base max s Ha Hb Hm) as (d & x & Hd & Hrange & _).
  rewrite Hd in Hrun. injection Hrun as <- _ _.
  assert (0 ≤ Z.min (base * 2 ^ (attempt - 1)) max).
  { assert (0 < 2 ^ (attempt - 1)) by (apply Z.pow_pos_nonneg; lia). nia. }
  apply (waits_le (d + n)); [apply Hbody; lia|unfold pause_limit; lia].
Qed.

Lemma waits_sleep_then {A} delay n (next : M X A) :
  0 ≤ delay → 0 ≤ n → waits n next → waits (delay + n) (sleep_for delay;; next).
Proof. intros. apply waits_bind; [done|by apply waits_sleep|by intros]. Qed.

End Waits.

(** ** The operations of the worker *)

Section WorkerWaits.
Context {X : Type} `{Services X} `{UL : !UniformLaws X} `{JsonCodec}.
Context (w : Worker.t) (timeout_pos : 1 ≤ TaskExecutor.default_timeout_sec (Worker.task_executor w)).
#[local] Set Default Proof Using "Type UL".

Abbreviation quiet := (emits (λ e, wait e = 0)).

Lemma status_quiet id st updates : quiet (Worker.status w id st updates : M X unit).
Proof. apply status_emits; try done. by intros e (? & ? & ? & ->). Qed.

Lemma download_loop_waits n attempt bucket key path err :
  1 ≤ attempt → waits (download_limit n attempt) (Worker.download_loop n attempt bucket key path err : M X (expected unit)).
Proof.
  revert attempt err. induction n as [|n IH]; intros attempt err Ha; simpl; [by apply waits_ret|].
  pose proof (download_limit_nonneg (S n) attempt Ha) as H0n. cbn [download_limit] in H0n.
  apply waits_quiet; [done|apply emits_call_fs; intros; by repeat constructor|].
  intros [[]|e]; [by apply waits_ret|].
  apply waits_quiet; [done|by apply emits_emit|intros _].
  apply waits_pause; [done|by vm_compute; split..|by apply download_limit_nonneg; lia|].
  intros delay Hd. apply waits_sleep_then; [done|by apply download_limit_nonneg; lia|]. apply IH. lia.
Qed.

Definition input_limit : Z := download_limit s3_download_attempts 1.

Lemma input_limit_value : input_limit = 5250.
Proof. vm_compute. reflexivity. Qed.

Lemma download_entries_waits entries inputs :
  waits (Z.of_nat (length entries) * input_limit) (Worker.download_entries entries inputs : M X (expected unit)).
Proof.
  rewrite input_limit_value.
  induction entries as [|entry entries IH]; cbn [Worker.download_entries]; [by apply waits_ret|].
  apply (waits_le (5250 + Z.of_nat (length entries) * 5250)); [|simpl; lia].
  apply waits_bind; [lia| |intros _ [[]|e] _ _ _; [exact IH|apply waits_ret; lia]].
  unfold Worker.download_entry.
  apply waits_quiet; [done|apply emits_unwrap|intros o].
  apply waits_quiet; [done|apply at_string_emits|intros bucket].
  apply waits_quiet; [done|apply at_string_emits|intros key]. rewrite <-(Z.add_0_r 5250), <-input_limit_value.
  apply waits_bind; [done|by apply download_loop_waits|]. intros _ [[]|e] _ _ _; by apply waits_ret.
Qed.

Lemma execute_waits task args i o out timeout :
  waits (1000 * TaskExecutor.default_timeout_sec (Worker.task_executor w))
    (TaskExecutor.execute (Worker.task_executor w) task args i o out timeout : M X (expected TaskExecutor.TaskExecutionResult)).
Proof using timeout_pos.
  pose proof (TaskExecutor.effective_timeout_bounds (Worker.task_executor w) timeout timeout_pos) as Ht.
  unfold TaskExecutor.execute.
  apply waits_quiet; [lia|auto with taskforge|intros fs]. destruct (_ || _); [apply waits_ret; lia|].
  destruct (write_file fs out "") as [fs'|]; [|apply waits_ret; lia].
  apply waits_quiet; [lia|auto with taskforge|intros _].
  rewrite <-(Z.add_0_r (1000 * _)). apply waits_bind; [done| |].
  - intros s. unfold RunChild, call_fs. destruct (run_child _ _ _ _ _ _) as [[run fs''] x]. simpl. lia.
  - intros _ [what|completions code] _ _ _; [by apply waits_ret|]. apply waits_emits.
    emits_tac. by apply TaskExecutor.run_handlers_emits.
Qed.

(** The inputs of a message. *)
Definition inputs_count (message : object) : Z :=
  match message !! "download_s3" with Some (JArray l) => Z.of_nat (length l) | _ => 0 end.

Lemma inputs_count_nonneg message : 0 ≤ inputs_count message * input_limit.
Proof. rewrite input_limit_value. unfold inputs_count. repeat case_match; lia. Qed.

Lemma download_inputs_waits message inputs :
  waits (inputs_count message * input_limit) (Worker.download_inputs message inputs : M X (expected unit)).
Proof.
  pose proof (inputs_count_nonneg message) as Hn. unfold Worker.download_inputs.
  rewrite <-(Z.add_0_l (_ * _)). apply waits_bind; [done|apply waits_emits, at_array_emits|].
  intros s entries s' es Hr. unfold Worker.at_array, Worker.at_value, at_ in Hr.
  bind_inv Hr as (v & s1 & es1 & es2 & Hv & Hr & _). apply unwrap_Returned in Hv as (Hv & _ & _).
  apply unwrap_Returned in Hr as (Hr & _ & _). destruct v; simplify_eq/=.
  unfold inputs_count. rewrite Hv. apply download_entries_waits.
Qed.

Abbreviation run_limit message :=
  (inputs_count message * input_limit + 1000 * TaskExecutor.default_timeout_sec (Worker.task_executor w)).

Lemma run_job_waits message task id name d root :
  waits (run_limit message) (Worker.run_job w message task id name d root : M X (expected unit)).
Proof using timeout_pos UL.
  unfold Worker.run_job. apply waits_bind; [lia|apply download_inputs_waits|].
  intros _ [[]|e] _ _ _; [|apply waits_ret; lia].
  apply waits_quiet; [lia|apply task_arguments_emits|intros args].
  apply waits_quiet; [lia|apply task_timeout_emits|intros timeout].
  rewrite <-(Z.add_0_r (1000 * _)). apply waits_bind; [done|apply execute_waits|].
  intros _ [result|e] _ _ _; [|by apply waits_ret]. destruct (negb _); [by apply waits_ret|].
  apply waits_emits. apply emits_bind; [apply at_string_emits|intros prefix].
  apply emits_bind; [by apply upload_outputs_emits|intros [urls|]; [|auto with taskforge]].
  apply emits_bind; [apply status_quiet|intros _].
  apply emits_bind; [apply TaskDLQ.remove_emits|intros _]. emits_tac.
Qed.

Lemma process_job_waits message body :
  waits (run_limit message) (Worker.process_job w message body : M X (expected unit)).
Proof using timeout_pos UL.
  pose proof (inputs_count_nonneg message) as Hn. unfold Worker.process_job.
  apply waits_quiet; [lia|apply at_string_emits|intros id].
  apply waits_quiet; [lia|apply at_object_emits|intros task].
  apply waits_quiet; [lia|apply at_string_emits|intros name].
  apply waits_quiet; [lia|unfold is_terminal_status; emits_tac|intros [|]].
  { apply waits_quiet; [lia|by apply emits_emit|intros _; apply waits_ret; lia]. }
  destruct (TaskExecutor.find_task _ name) as [d|].
  - apply waits_quiet; [lia|apply status_quiet|intros _].
    unfold with_temp_dir, make_temp_dir, remove_temp_dir. apply waits_quiet; [lia|emits_tac|intros root].
    apply waits_cleanup; [apply run_job_waits|emits_tac].
  - apply waits_quiet; [lia| |intros _; apply waits_ret; lia].
    apply fail_without_retry_emits; try done. by intros e (? & ? & ? & ->).
Qed.

(** The longest pause before a retry is published. *)
Definition retry_limit : Z := retry_max_delay_ms + retry_max_delay_ms / 2.

Lemma republish_waits id reason republish n :
  1 ≤ n → waits retry_limit (Worker.republish_job w id reason republish n : M X unit).
Proof.
  intros Hn. apply (waits_le (pause_limit n retry_base_delay_ms retry_max_delay_ms + 0)).
  2: { unfold pause_limit, retry_limit. rewrite Z.add_0_r.
       assert (Z.min (retry_base_delay_ms * 2 ^ (n - 1)) retry_max_delay_ms / 2 ≤ retry_max_delay_ms / 2)
         by (apply Z.div_le_mono; lia). lia. }
  unfold Worker.republish_job. cbv zeta. apply waits_pause; [done|by vm_compute; split..|done|]. intros delay Hd.
  apply waits_quiet; [lia|by apply emits_emit|intros _]. apply waits_sleep_then; [done|done|]. apply waits_emits.
  apply emits_bind; [apply emits_call; intros; by repeat constructor|intros [[]|e]].
  - apply emits_bind; [by apply emits_emit|intros _; apply status_quiet].
  - apply emits_bind; [by apply emits_emit|intros _].
    apply emits_bind; [apply TaskDLQ.remove_emits|intros _; apply status_quiet].
Qed.

Lemma failure_waits id body reason :
  waits retry_limit (Worker.handle_processing_failure w id body reason : M X unit).
Proof.
  unfold Worker.handle_processing_failure. cbv zeta. rewrite <-(Z.add_0_l retry_limit).
  apply waits_bind; [by vm_compute|apply waits_emits, TaskDLQ.record_failure_emits|].
  intros s [n|e] s' es Hr.
  - apply TaskDLQ.record_failure_count in Hr as [Hn _].
    destruct (negb _); [|by apply republish_waits]. apply (waits_le 0); [apply waits_emits|by vm_compute].
    apply emits_bind; [by apply emits_emit|intros _].
    apply emits_bind; [apply TaskDLQ.remove_emits|intros _; apply status_quiet].
  - apply (waits_le 0); [apply waits_emits|by vm_compute].
    apply emits_bind; [by apply emits_emit|intros _; apply status_quiet].
Qed.

Lemma handle_message_waits body message :
  parse body = inl (JObject message) →
  waits (run_limit message + retry_limit) (Worker.handle_message w body : M X (expected unit)).
Proof using timeout_pos UL.
  intros Hp. pose proof (inputs_count_nonneg message) as Hn.
  unfold Worker.handle_message. rewrite Hp. cbn [as_object].
  assert (Hr : 0 ≤ retry_limit) by (by vm_compute).
  assert (Hpos : 0 ≤ run_limit message + retry_limit) by lia.
  apply waits_quiet; [done|by apply emits_emit|intros _].
  destruct (validate_request message) as [[]|error].
  - apply waits_bind; [by vm_compute|apply process_job_waits|]. intros _ [[]|error] _ _ _; [by apply waits_ret|].
    apply waits_quiet; [by vm_compute|apply at_string_emits|intros id].
    apply waits_quiet; [by vm_compute|by apply emits_emit|intros _].
    rewrite <-(Z.add_0_r retry_limit). apply waits_bind; [done|apply failure_waits|intros; by apply waits_ret].
  - apply (waits_le 0); [|done]. apply waits_emits, reject_message_emits; try done.
    by intros id updates e _ _ _ (? & ? & ? & ->).
Qed.

(** C15: how long a message is worked on. Whatever the services do, the pauses
    and the task of one message take at most 5250 milliseconds for every input
    it names, the configured limit of a task, and twelve seconds before a
    retry. *)
Theorem handling_time_bounded body message (s : Machine X) :
  parse body = inl (JObject message) →
  waiting (Worker.handle_message w body s).2 ≤
    inputs_count message * 5250 + 1000 * TaskExecutor.default_timeout_sec (Worker.task_executor w) + 12000.
Proof using timeout_pos UL.
  intros Hp. rewrite <-input_limit_value. exact (handle_message_waits body message Hp s).
Qed.

End WorkerWaits.

(** With the shipped configuration a message of up to three inputs is waited
    for less than its visibility timeout; four inputs can exceed it. *)
Lemma shipped_within_visibility {X} `{Services X} `{!UniformLaws X} `{JsonCodec} body message (s : Machine X) :
  parse body = inl (JObject message) → inputs_count message ≤ 3 →
  waiting (Worker.handle_message Sample.worker body s).2 < 1000 * sqs_visibility_timeout_ Sample.config.
Proof.
  intros Hp Hn. pose proof (handle_message_waits Sample.worker ltac:(by vm_compute) body message Hp s) as Hw.
  change (TaskExecutor.default_timeout_sec _) with 30 in Hw. change retry_limit with 12000 in Hw.
  rewrite input_limit_value in Hw. change (sqs_visibility_timeout_ _) with 60. lia.
Qed.

Section WaitingWitnesses.
Import RefCodec.

Lemma handling_time_bounded_witness :
  waiting (Worker.handle_message Sample.worker Sample.body (Sample.machine ∅ 1)).2 ≤ 47250.
Proof.
  apply (handling_time_bounded Sample.worker ltac:(vm_compute; discriminate) Sample.body Sample.message
    (Sample.machine ∅ 1)). exact Sample.body_parses.
Defined.
End WaitingWitnesses.
