(* ===== verification/TaskResults.v ===== *)
(** * From the inputs of a job to its results

    The whole of a job in its temporary directory with one of the shipped
    tasks: the inputs are fetched ([download_inputs]), the script runs as the
    child process, and its outputs are uploaded.  A job that ends well has one
    result for every input file an asterisk matches, and no others
    ([job_results]).

    Of the services it is assumed that a download changes the file it names
    only and leaves a file there when it reports success ([TransferLaws]),
    and that the child process of the executable is the script. *)

From S2P Require Import Prelude Json Filesystem Effects Testbed MessageValidation Configurations.
From S2P Require Import TaskDLQ TaskExecutor TaskScripts WorkerStatus Worker WorkerTrace WorkerSample WorkerTransfers.
Import MessageValidation.

(** What a download does to the files. *)
Class TransferLaws (X : Type) `{Services X} : Prop :=
  download_stores bucket key path fs x :
    let '(r, fs', _) := s3_download_file bucket key path fs x in
    ∃ m, fs' = with_nodes fs m ∧ (∀ q, q ≠ resolve fs path → m !! q = nodes fs !! q) ∧
      (r = Expected () → ∃ c, m !! resolve fs path = Some (RegularFile c)).

(** The child processes of [exe] run [script]: unless the timer has ended it,
    the exit code is the script's, and the files are those it leaves, apart
    from the captured output. *)
Definition runs_script {X} `{Services X} (exe : string) (script : string → string → FileSystem → script_run) : Prop :=
  ∀ inputs outputs args out timeout fs (x : X),
    match run_child exe (inputs :: outputs :: args) out timeout fs x with
    | (ChildRan completions code, fs', _) =>
        TaskExecutor.timer_fired completions = false →
        code = run_code (script inputs outputs fs) ∧
        ∃ text, fs' = with_nodes fs (<[resolve fs out := RegularFile text]> (nodes (run_files (script inputs outputs fs))))
    | (SpawnThrew _, _, _) => True
    end.

(** ** The tasks *)

(** The shipped tasks. *)
Inductive shipped := Wordcount (wc : string → string) | Checksum (hash : string → string → string).
Definition task_suffix (t : shipped) : string :=
  match t with Wordcount _ => ".wordcount.txt" | Checksum _ => ".sha256.txt" end.
Definition task_measure (t : shipped) : string → string → string :=
  match t with Wordcount wc => λ _ content, wc content | Checksum hash => hash end.
Definition task_run (collate : list string → list string) (t : shipped) : string → string → FileSystem → script_run :=
  match t with Wordcount wc => wordcount collate wc | Checksum hash => checksum collate hash end.

Lemma shipped_processed collate t inputs outputs fs :
  (∀ l, collate l ≡ₚ l) → task_directories inputs outputs fs →
  processed (task_suffix t) (task_measure t) inputs outputs fs (task_run collate t inputs outputs fs).
Proof. intros Hperm Hready. destruct t; apply script_processed; first [done|suffix_tac]. Qed.

(** ** The directory of the job *)

(** A directory as [TempDirGuard] leaves it where there was none before. *)
Record fresh_root (fs : FileSystem) (root : string) : Prop := {
  fresh_dir : root ≠ "" ∧ node_at fs (resolve fs root) = Some Directory;
  fresh_sub sub : sub ∈ ["inputs"; "outputs"] → nodes fs !! (resolve fs root ++ [sub]) = Some Directory;
  fresh_empty sub name : sub ∈ ["inputs"; "outputs"] → nodes fs !! ((resolve fs root ++ [sub]) ++ [name]) = None;
  fresh_allowed op p : denied fs op p = false;
}.

Lemma sub_plain sub : sub ∈ ["inputs"; "outputs"; "stdout.log"] → plain_name sub.
Proof.
  rewrite !elem_of_cons. intros [->|[->|[->|[]%not_elem_of_nil]]]; (repeat split; [discriminate..|]);
    apply (bool_decide_eq_true_1 _); vm_compute; reflexivity.
Qed.

(** After the inputs have been fetched and the output file opened, the
    directories are as the scripts expect them. *)
Lemma fetched_prepared fs root names m fs1 :
  fresh_root fs root → Forall (λ name, plain_name name ∧ strip_newlines name = name) names →
  (∀ q, (∀ name, name ∈ names → q ≠ resolve fs (inputs_dir root) ++ [name]) → m !! q = nodes fs !! q) →
  (∀ name, name ∈ names → ∃ c, m !! (resolve fs (inputs_dir root) ++ [name]) = Some (RegularFile c)) →
  write_file (with_nodes fs m) (stdout_log root) "" = Some fs1 →
  task_directories (inputs_dir root) (outputs_dir root) fs1 ∧
  (∀ name, name ∈ names ↔ ∃ c, nodes fs1 !! (resolve fs1 (inputs_dir root) ++ [name]) = Some (RegularFile c)).
Proof.
  intros Hfresh Hnames Hsame Hstored Hw. unfold write_file in Hw.
  destruct (can_open_write _ _); [|done]. injection Hw as <-. rewrite !resolve_with_nodes.
  assert (HI : resolve fs (inputs_dir root) = resolve fs root ++ ["inputs"]) by (apply resolve_child, sub_plain; set_solver).
  assert (HO : resolve fs (outputs_dir root) = resolve fs root ++ ["outputs"]) by (apply resolve_child, sub_plain; set_solver).
  assert (HL : resolve fs (stdout_log root) = resolve fs root ++ ["stdout.log"]) by (apply resolve_child, sub_plain; set_solver).
  assert (Hdeep : ∀ (d : list string) a b y, (d ++ [a]) ++ [y] ≠ d ++ [b]).
  { intros d a b y Heq. apply (f_equal length) in Heq. rewrite !length_app in Heq. simpl in Heq. lia. }
  rewrite HL. rewrite HI in Hsame, Hstored |- *. simpl.
  assert (Hnode : ∀ q, (∀ name, name ∈ names → q ≠ (resolve fs root ++ ["inputs"]) ++ [name]) → q ≠ resolve fs root ++ ["stdout.log"] →
    <[resolve fs root ++ ["stdout.log"] := RegularFile (if denied fs OpFlush (resolve fs root ++ ["stdout.log"]) then "" else "")]> m !! q
      = nodes fs !! q).
  { intros q Hq Hlog. rewrite lookup_insert_ne by done. by apply Hsame. }
  assert (Hinput : ∀ name, <[resolve fs root ++ ["stdout.log"] := RegularFile (if denied fs OpFlush (resolve fs root ++ ["stdout.log"]) then "" else "")]> m
      !! ((resolve fs root ++ ["inputs"]) ++ [name]) = m !! ((resolve fs root ++ ["inputs"]) ++ [name])).
  { intros name. apply lookup_insert_ne. intros Heq. by eapply Hdeep. }
  assert (Hmember : ∀ name n, m !! ((resolve fs root ++ ["inputs"]) ++ [name]) = Some n → name ∈ names).
  { intros name n Hn. destruct (decide (name ∈ names)); [done|]. rewrite Hsame in Hn.
    - by rewrite (fresh_empty _ _ Hfresh) in Hn by set_solver.
    - intros name' Hn' [_ ->]%app_inj_tail. done. }
  split; [split|].
  - split; [by apply path_div_nonempty|]. rewrite !resolve_with_nodes, HI, node_at_child. simpl.
    rewrite Hnode; [apply (fresh_sub _ _ Hfresh); set_solver|intros ? _ Heq; by eapply Hdeep|by intros [_ ?]%app_inj_tail].
  - split; [by apply path_div_nonempty|]. rewrite !resolve_with_nodes, HO, node_at_child. simpl.
    rewrite Hnode; [apply (fresh_sub _ _ Hfresh); set_solver|intros ? _ Heq; by eapply Hdeep|by intros [_ ?]%app_inj_tail].
  - rewrite !resolve_with_nodes, HI, HO. by intros [_ ?]%app_inj_tail.
  - intros name. rewrite !resolve_with_nodes, HO. simpl. rewrite Hnode; [apply (fresh_empty _ _ Hfresh); set_solver| |].
    + intros ? _ [[_ ?]%app_inj_tail _]%app_inj_tail. done.
    + intros Heq. by eapply Hdeep.
  - intros op p. apply (fresh_allowed _ _ Hfresh).
  - intros name n. rewrite !resolve_with_nodes, HI. simpl. rewrite Hinput. intros Hn%Hmember.
    rewrite Forall_forall in Hnames. by apply Hnames.
  - intros name. rewrite Hinput. split; [apply Hstored|]. intros [c Hc]. by eapply Hmember.
Qed.

Section Results.
Context {X : Type} `{Services X} `{TL : !TransferLaws X} `{JsonCodec}.

(** ** Downloads and files *)

Lemma download_loop_files n attempt bucket key path err (s : Machine X) :
  let '(o, s', es) := Worker.download_loop n attempt bucket key path err s in
  ∃ m, files s' = with_nodes (files s) m ∧
    (∀ q, q ≠ resolve (files s) (c_str path) → m !! q = nodes (files s) !! q) ∧
    (o = Returned (Expected ()) → ∃ c, m !! resolve (files s) (c_str path) = Some (RegularFile c)).
Proof using TL.
  revert attempt err s. induction n as [|n IH]; intros attempt err s; cbn [Worker.download_loop].
  { exists (nodes (files s)). split; [by destruct (files s)|]. by split. }
  unfold mbind, M_bind, S3Download, call_fs.
  pose proof (download_stores (c_str bucket) (c_str key) (c_str path) (files s) (ext s)) as Hd.
  destruct (s3_download_file _ _ _ _ _) as [[[[]|e] fs] x]; destruct Hd as (m & -> & Hsame & Hstored); simpl.
  { exists m. split; [done|]. split; [done|]. intros _. by apply Hstored. }
  unfold log, emit, sleep_for.
  match goal with |- context [backoff_with_jitter ?a ?b ?mx ?st] =>
    pose proof (backoff_run a b mx st) as Hb; cbv zeta in Hb end.
  simpl in *. destruct (uniform_int _ _ _) as [r x']. rewrite Hb.
  specialize (IH (attempt + 1) e (mkMachine (with_nodes (files s) m) x')).
  destruct (Worker.download_loop n _ _ _ _ _ _) as [[o s'] es]. destruct IH as (m' & Hm' & Hsame' & Hs').
  exists m'. simpl in *. split; [exact Hm'|]. split; [|exact Hs'].
  intros q Hq. rewrite Hsame' by done. by apply Hsame.
Qed.

(** The file of an entry of [download_s3]. *)
Definition goes_to (inputs : string) (entry : json) (name : string) : Prop :=
  ∃ b k, entry_target inputs entry = Some (b, k, path_div inputs name).

Lemma download_entry_files inputs entry name (s s' : Machine X) es :
  goes_to inputs entry name → valid_download entry →
  Worker.download_entry entry inputs s = (Returned (Expected ()), s', es) →
  ∃ m, files s' = with_nodes (files s) m ∧
    (∀ q, q ≠ resolve (files s) (path_div inputs name) → m !! q = nodes (files s) !! q) ∧
    (∃ c, m !! resolve (files s) (path_div inputs name) = Some (RegularFile c)).
Proof using TL.
  intros (b & k & Ht) (e & bucket & key & method & -> & Hb & _ & Hk & _ & _).
  simpl in Ht. rewrite (proj2 (get_string_Some _ _ _) Hb), (proj2 (get_string_Some _ _ _) Hk) in Ht.
  injection Ht as _ _ Hpath. rewrite <-Hpath.
  unfold Worker.download_entry, mbind, M_bind, unwrap. cbn [as_object]. unfold mret, M_ret.
  rewrite (at_string_run _ _ bucket), (at_string_run _ _ key) by done.
  match goal with |- context [Worker.download_loop ?n ?a ?b ?k ?p ?err ?st] =>
    pose proof (download_loop_files n a b k p err st) as Hloop;
    destruct (Worker.download_loop n a b k p err st) as [[o s1] es1] end.
  destruct Hloop as (m & Hfiles & Hsame & Hstored). 
  destruct o as [[[]|err]|what|]; intros Hr; try discriminate Hr. injection Hr as <- _.
  exists m. split; [done|]. split; [done|]. by apply Hstored.
Qed.

(** Once all entries have been fetched, their files are there, and nothing
    else has changed. *)
Lemma download_entries_files inputs entries names (s s' : Machine X) es :
  Forall2 (goes_to inputs) entries names → Forall valid_download entries → Forall plain_name names →
  Worker.download_entries entries inputs s = (Returned (Expected ()), s', es) →
  ∃ m, files s' = with_nodes (files s) m ∧
    (∀ q, (∀ name, name ∈ names → q ≠ resolve (files s) inputs ++ [name]) → m !! q = nodes (files s) !! q) ∧
    (∀ name, name ∈ names → ∃ c, m !! (resolve (files s) inputs ++ [name]) = Some (RegularFile c)).
Proof using TL.
  intros Hgo. revert s es. induction Hgo as [|entry name entries names Hentry _ IH]; intros s es Hv Hp Hr.
  { simpl in Hr. ret_inv Hr. exists (nodes (files s)). split; [by destruct (files s)|]. split; [done|].
    by intros ? ?%not_elem_of_nil. }
  apply Forall_cons in Hv as [Hv Hvs]. apply Forall_cons in Hp as [Hp Hps]. cbn [Worker.download_entries] in Hr.
  bind_inv Hr as ([[]|e] & s1 & es1 & es2 & He & Hr & ->); [|by ret_inv Hr].
  destruct (download_entry_files _ _ _ _ _ _ Hentry Hv He) as (m1 & Hf1 & Hsame1 & c1 & Hstored1).
  destruct (IH _ _ Hvs Hps Hr) as (m2 & Hf2 & Hsame2 & Hstored2).
  rewrite Hf1 in *. rewrite resolve_child in * by done. simpl in *. exists m2. split; [done|]. split.
  - intros q Hq. rewrite Hsame2 by (intros n Hn; apply Hq; by right). apply Hsame1. apply Hq. by left.
  - intros n [->|Hn]%elem_of_cons; [|by apply Hstored2].
    destruct (decide (name ∈ names)) as [Hin|Hnot]; [by apply Hstored2|].
    exists c1. change (nodes (with_nodes (files s) m1)) with m1 in Hsame2. rewrite Hsame2; [done|].
    intros n Hn Heq. apply app_inj_tail in Heq as [_ ->]. done.
Qed.

(** ** The child process *)

Lemma execute_success ex task args inputs outputs out timeout (s s' : Machine X) result es :
  TaskExecutor.execute ex task args inputs outputs out timeout s = (Returned (Expected result), s', es) →
  ∃ fs completions x, write_file (files s) out "" = Some fs ∧
    run_child (TaskExecutor.resolve_executable ex (task_executable task)) (inputs :: outputs :: args) out
      (TaskExecutor.effective_timeout ex timeout) fs (ext s)
      = (ChildRan completions (TaskExecutor.exit_code result), files s', x) ∧
    TaskExecutor.timer_fired completions = false.
Proof using Type.
  unfold TaskExecutor.execute. intros Hr. bind_inv Hr as (fs0 & s1 & es1 & es2 & Hg & Hr & ->).
  unfold get_files in Hg. simplify_eq. destruct (_ || _); [by ret_inv Hr|].
  destruct (write_file _ _ _) as [fs|]; [|by ret_inv Hr].
  bind_inv Hr as (? & s2 & es3 & es4 & Hset & Hr & ->). unfold set_files in Hset. simplify_eq.
  bind_inv Hr as ([what|completions code] & s3 & es5 & es6 & Hrun & Hr & ->); [by ret_inv Hr|].
  unfold RunChild, call_fs in Hrun. simpl in Hrun. destruct (run_child _ _ _ _ _ _) as [[run fs'] x] eqn:Hchild.
  injection Hrun as -> <- _. bind_inv Hr as (b & s4 & es7 & es8 & Hh & Hr & ->).
  destruct (TaskExecutor.run_handlers_out (task_name task) completions false (mkMachine fs' x)) as [es9 Hh'].
  rewrite Hh' in Hh. injection Hh as <- <- _. bind_inv Hr as (fs'' & s5 & es10 & es11 & Hg & Hr & ->).
  unfold get_files in Hg. simplify_eq. simpl in Hr. destruct (TaskExecutor.timer_fired completions) eqn:Hfired; [by ret_inv Hr|].
  ret_inv Hr. by exists fs, completions, x.
Qed.


(** ** The results *)

Context (w : Worker.t).
Abbreviation bucket := (c_str (s3_bucket_ (Worker.configurations w))).

(** A part of a job that uploads nothing. *)
Definition quiet (e : Event) : Prop := match e with EvUpload _ _ _ _ => False | _ => True end.

Lemma quiet_uploads es : Forall quiet es → uploads es = [].
Proof using Type. intros Hes. induction Hes as [|[] es He _ IH]; done. Qed.

Lemma regular_names_elem entries name : name ∈ regular_names entries ↔ ∃ c, (name, RegularFile c) ∈ entries.
Proof using Type.
  unfold regular_names. rewrite list_elem_of_omap. split.
  - intros ([name' [c| |]] & Hin & Heq); simplify_eq. by exists c.
  - intros [c Hc]. by exists (name, RegularFile c).
Qed.

(** What the script has left is uploaded. *)
Lemma uploaded_outputs suffix measure inputs outputs fs1 r text out prefix (s s' : Machine X) urls es :
  processed suffix measure inputs outputs fs1 r →
  files s = with_nodes fs1 (<[resolve fs1 out := RegularFile text]> (nodes (run_files r))) →
  (∀ y, resolve fs1 out ≠ resolve fs1 outputs ++ [y]) →
  Worker.upload_outputs w prefix outputs s = (Returned (Expected urls), s', es) →
  ∀ b key path, (b, key, path) ∈ uploads es ↔
    b = bucket ∧ ∃ name c, visible_input inputs fs1 name c ∧
      key = c_str (prefix +:+ name +:+ suffix) ∧ path = c_str (path_div outputs (name +:+ suffix)).
Proof using Type.
  intros Hproc Hfiles Hout Hr b key path.
  destruct (upload_outputs_run w _ _ _ _ _ _ Hr) as (entries & Hd & -> & _).
  assert (Hentries : ∀ name n, (name, n) ∈ entries ↔ (name, n) ∈ children (run_files r) (resolve fs1 outputs)).
  { unfold directory_entries in Hd. rewrite Hfiles in Hd. simpl in Hd.
    destruct (denied _ _ _); [done|]. case_bool_decide; [|done]. injection Hd as <-. intros name n.
    rewrite !children_elem. simpl. by rewrite lookup_insert_ne. }
  rewrite list_elem_of_fmap. split.
  - intros (name & [= -> -> ->] & Hin). split; [done|]. apply regular_names_elem in Hin as [c Hc].
    apply Hentries, (processed_outputs _ _ _ _ _ _ Hproc) in Hc as (i & ci & Hv & -> & _). by exists i, ci.
  - intros (-> & name & c & Hv & -> & ->). exists (name +:+ suffix). split; [done|].
    apply regular_names_elem. eexists. apply Hentries, (processed_outputs _ _ _ _ _ _ Hproc). by exists name, c.
Qed.

(** Reading the task of a message changes nothing. *)
Definition keeps_state {A} (m : M X A) : Prop := ∀ s, (m s).1.2 = s.

Lemma keeps_bind {A B} (m : M X A) (f : A → M X B) : keeps_state m → (∀ a, keeps_state (f a)) → keeps_state (m ≫= f).
Proof using Type.
  intros Hm Hf s. specialize (Hm s). unfold mbind, M_bind. destruct (m s) as [[[a| |] s1] es]; simpl in *; [|done..].
  subst s1. specialize (Hf a s). by destruct (f a s) as [[? ?] ?].
Qed.
Lemma keeps_ret {A} (a : A) : keeps_state (mret a : M X A).
Proof using Type. done. Qed.
Lemma keeps_unwrap {A} what (o : option A) : keeps_state (unwrap what o : M X A).
Proof using Type. by destruct o. Qed.

Lemma task_arguments_keeps task : keeps_state (Worker.task_arguments task : M X (list string)).
Proof using Type.
  unfold Worker.task_arguments, Worker.at_array, Worker.at_value. destruct (contains _ _); [|apply keeps_ret].
  apply keeps_bind; [apply keeps_bind; intros; apply keeps_unwrap|].
  induction a as [|v l IH]; simpl; [apply keeps_ret|].
  apply keeps_bind; [apply keeps_unwrap|]. intros. apply keeps_bind; [done|]. intros. apply keeps_ret.
Qed.
Lemma task_timeout_keeps task : keeps_state (Worker.task_timeout task : M X Z).
Proof using Type.
  unfold Worker.task_timeout, Worker.at_value. destruct (contains _ _); [|apply keeps_ret].
  apply keeps_bind; [apply keeps_unwrap|]. intros. apply keeps_bind; [apply keeps_unwrap|]. intros. apply keeps_ret.
Qed.

Lemma keeps_state_run {A} (m : M X A) s o s' es : keeps_state m → m s = (o, s', es) → s' = s.
Proof using Type. intros Hm Hr. specialize (Hm s). by rewrite Hr in Hm. Qed.

(** The parts of a job that ended well: only the third uploads. *)
Lemma run_job_parts message task job_id name definition root prefix (s s' : Machine X) es :
  message !! "output_prefix" = Some (JString prefix) →
  Worker.run_job w message task job_id name definition root s = (Returned (Expected ()), s', es) →
  ∃ args timeout result urls s1 s4 s6 es1 es4 es6,
    Worker.download_inputs message (inputs_dir root) s = (Returned (Expected ()), s1, es1) ∧
    TaskExecutor.execute (Worker.task_executor w) definition args (inputs_dir root) (outputs_dir root) (stdout_log root)
      timeout s1 = (Returned (Expected result), s4, es4) ∧
    TaskExecutor.exit_code result = 0 ∧
    Worker.upload_outputs w (c_str prefix) (outputs_dir root) s4 = (Returned (Expected urls), s6, es6) ∧
    uploads es = uploads es6.
Proof using Type.
  intros Hprefix Hr. unfold Worker.run_job in Hr.
  assert (Hq : ∀ {A} (m : M X A) s o s' es, emits quiet m → m s = (o, s', es) → uploads es = []).
  { intros A m s0 o s1 es0 Hm Hrun. apply quiet_uploads. specialize (Hm s0). by rewrite Hrun in Hm. }
  bind_inv Hr as ([[]|] & s1 & es1 & es2 & H1 & Hr & ->); [|by ret_inv Hr].
  bind_inv Hr as (args & s2 & es3 & es4 & H2 & Hr & ->).
  pose proof (keeps_state_run _ _ _ _ _ (task_arguments_keeps task) H2) as ->.
  bind_inv Hr as (timeout & s3 & es5 & es6 & H3 & Hr & ->).
  pose proof (keeps_state_run _ _ _ _ _ (task_timeout_keeps task) H3) as ->.
  bind_inv Hr as ([result|] & s4 & es7 & es8 & H4 & Hr & ->); [|by ret_inv Hr].
  destruct (TaskExecutor.exit_code result =? 0) eqn:Hcode; cbn [negb] in Hr; [|by ret_inv Hr]. bool_to_prop.
  bind_inv Hr as (pre & s5 & es9 & es10 & H5 & Hr & ->).
  rewrite (at_string_run _ _ prefix) in H5 by done. injection H5 as <- <- <-.
  bind_inv Hr as ([urls|] & s6 & es11 & es12 & H6 & Hr & ->); [|by ret_inv Hr].
  exists args, timeout, result, urls, s1, s4, s6, es1, es7, es11. split_and!; try done.
  unfold uploads. rewrite !omap_app. fold (uploads es1) (uploads es3) (uploads es5) (uploads es7) (uploads es11) (uploads es12).
  assert (uploads es1 = []) as -> by (eapply Hq; [by apply (download_inputs_emits quiet)|exact H1]).
  assert (uploads es3 = []) as -> by (eapply Hq; [by apply (task_arguments_emits quiet)|exact H2]).
  assert (uploads es5 = []) as -> by (eapply Hq; [by apply (task_timeout_emits quiet)|exact H3]).
  assert (uploads es7 = []) as -> by (eapply Hq; [by apply (TaskExecutor.execute_emits quiet)|exact H4]).
  assert (uploads es12 = []) as ->; [|by rewrite app_nil_r].
  eapply Hq; [|exact Hr]. emits_tac. apply (status_emits w quiet); [done|done|]. by intros e (? & ? & ? & ->).
Qed.

(** The results of a job. When a job with a shipped task ends well in a
    fresh directory, at least one of its input files is one an asterisk matches,
    and exactly these have results: one object each, uploaded below the output
    prefix under the name of the file with the suffix of the task. *)
Theorem job_results collate t message task job_id name definition root entries names prefix (s s' : Machine X) es :
  (∀ l, collate l ≡ₚ l) →
  runs_script (TaskExecutor.resolve_executable (Worker.task_executor w) (task_executable definition)) (task_run collate t) →
  validate_request message = Expected () →
  message !! "download_s3" = Some (JArray entries) → message !! "output_prefix" = Some (JString prefix) →
  Forall2 (goes_to (inputs_dir root)) entries names →
  Forall (λ name, plain_name name ∧ strip_newlines name = name) names →
  fresh_root (files s) root →
  Worker.run_job w message task job_id name definition root s = (Returned (Expected ()), s', es) →
  (∃ f, f ∈ names ∧ star_matches f = true) ∧
  ∀ b key path, (b, key, path) ∈ uploads es ↔
    b = bucket ∧ ∃ f, f ∈ names ∧ star_matches f = true ∧
      key = c_str (c_str prefix +:+ f +:+ task_suffix t) ∧ path = c_str (path_div (outputs_dir root) (f +:+ task_suffix t)).
Proof using TL.
  intros Hperm Hscript Hvalid Hentries Hprefix Hgo Hnames Hfresh Hr.
  apply valid_request_iff, request_downloads in Hvalid as (l & Hl & Hdown).
  rewrite Hl in Hentries. injection Hentries as ->.
  destruct (run_job_parts _ _ _ _ _ _ _ _ _ _ Hprefix Hr)
    as (args & timeout & result & urls & s1 & s4 & s6 & es1 & es4 & es6 & H1 & H4 & Hcode & H6 & ->).
  unfold Worker.download_inputs in H1. bind_inv H1 as (listed & s0 & es0 & es0' & Ha & H1 & ->).
  rewrite (at_array_run _ _ entries) in Ha by done. injection Ha as <- <- _.
  assert (Hplain : Forall plain_name names) by (eapply Forall_impl; [exact Hnames|by intros f []]).
  destruct (download_entries_files _ _ _ _ _ _ Hgo Hdown Hplain H1) as (m & Hfiles & Hsame & Hstored).
  destruct (execute_success _ _ _ _ _ _ _ _ _ _ _ H4) as (fs1 & completions & x & Hw & Hchild & Hfired).
  rewrite Hfiles in Hw. destruct (fetched_prepared _ _ _ _ _ Hfresh Hnames Hsame Hstored Hw) as [Hready Hin].
  pose proof (shipped_processed collate t _ _ _ Hperm Hready) as Hproc.
  specialize (Hscript (inputs_dir root) (outputs_dir root) args (stdout_log root)
    (TaskExecutor.effective_timeout (Worker.task_executor w) timeout) fs1 (ext s1)).
  rewrite Hchild in Hscript. destruct (Hscript Hfired) as [Hrun [text Hfs]].
  assert (Hvis : ∀ f, f ∈ names ∧ star_matches f = true ↔ ∃ c, visible_input (inputs_dir root) fs1 f c).
  { intros f. rewrite Hin. unfold visible_input. naive_solver. }
  assert (Hlog : ∀ y, resolve fs1 (stdout_log root) ≠ resolve fs1 (outputs_dir root) ++ [y]).
  { intros y. unfold stdout_log, outputs_dir. rewrite !resolve_child by (apply sub_plain; set_solver).
    intros Heq. apply (f_equal length) in Heq. rewrite !length_app in Heq. simpl in Heq. lia. }
  pose proof (uploaded_outputs _ _ _ _ _ _ _ _ _ _ _ _ _ Hproc Hfs Hlog H6) as Hup. split.
  - destruct (processed_code _ _ _ _ _ _ Hproc) as [[_ (f & c & Hf)]|[Hone _]]; [|congruence].
    exists f. apply Hvis. by exists c.
  - intros b key path. rewrite Hup. naive_solver.
Qed.
End Results.

(** ** A concrete job *)

Module ResultsSample.
Import RefCodec.

(** The simulated world, with the script as the child process. *)
Definition script_services : Services Sim := {|
  redis_connect := redis_connect; redis_disconnect := redis_disconnect; redis_get := redis_get; redis_set := redis_set;
  s3_download_file := s3_download_file; s3_upload_file := s3_upload_file; s3_presign := s3_presign;
  sqs_send_message := sqs_send_message;
  run_child exe args out _ fs x :=
    match args with
    | inputs :: outputs :: _ =>
        let r := wordcount id ScriptSample.wc inputs outputs fs in
        (ChildRan [ProcessDone None; TimerDone (Some "aborted")] (run_code r),
         with_nodes fs (<[resolve fs out := RegularFile (run_printed r)]> (nodes (run_files r))), x)
    | _ => (SpawnThrew "usage", fs, x)
    end;
  consumer_call := consumer_call; pool_call := pool_call;
  system_clock_now := system_clock_now; uniform_int := uniform_int;
|}.

#[local] Instance script_transfers : @TransferLaws Sim script_services.
Proof.
  intros bucket key path fs x. simpl. destruct (sim_objects x !! _) as [c|].
  - eexists. split; [reflexivity|]. split; [intros q Hq; by apply lookup_insert_ne|].
    intros _. exists c. apply lookup_insert_eq.
  - exists (nodes fs). split; [by destruct fs|]. split; [done|]. discriminate.
Qed.

Lemma script_child exe : @runs_script Sim script_services exe (task_run id (Wordcount ScriptSample.wc)).
Proof. intros inputs outputs args out timeout fs x. simpl. intros _. split; [done|]. by eexists. Qed.

(** The machine when the directory of the job has been made. *)
Definition started : Machine Sim := prepared 0.
Definition root : string := "/tmp/taskforge/job-1".

Lemma no_children (m : gmap (list string) node) d :
  forallb (λ kn, negb (bool_decide (removelast kn.1 = d))) (map_to_list m) = true → ∀ name, m !! (d ++ [name]) = None.
Proof.
  intros Hall name. destruct (m !! _) as [n|] eqn:Hn; [exfalso|done]. apply elem_of_map_to_list in Hn.
  rewrite forallb_forall in Hall. apply list_elem_of_In, Hall in Hn. simpl in Hn. rewrite removelast_last in Hn.
  by rewrite bool_decide_eq_true_2 in Hn.
Qed.

Lemma started_fresh : fresh_root (files started) root.
Proof.
  split.
  - split; [discriminate|vm_compute; reflexivity].
  - intros sub. rewrite !elem_of_cons. intros [->|[->|[]%not_elem_of_nil]]; vm_compute; reflexivity.
  - intros sub name Hsub. apply no_children. rewrite !elem_of_cons in Hsub.
    destruct Hsub as [->|[->|[]%not_elem_of_nil]]; vm_compute; reflexivity.
  - intros op p. vm_compute. reflexivity.
Qed.

Definition run : outcome (expected unit) * Machine Sim * list Event :=
  @Worker.run_job Sim script_services _ Sample.worker Sample.message (Sample.task "wordcount") "job-1" "wordcount"
    (mkTask "wordcount" "tasks/wordcount.sh" "") root started.

Example run_uploads : uploads run.2 = [("taskforge-jobs", "jobs/job-1/outputs/a.txt.wordcount.txt",
  "/tmp/taskforge/job-1/outputs/a.txt.wordcount.txt")].
Proof. vm_compute. reflexivity. Qed.
End ResultsSample.

Lemma job_results_witness : ∃ f, f ∈ ["a.txt"] ∧ star_matches f = true.
Proof.
  destruct ResultsSample.run as [[o s'] es] eqn:Hrun.
  assert (Ho : o = Returned (Expected ())).
  { change o with (o, s', es).1.1. rewrite <-Hrun. vm_compute. reflexivity. }
  rewrite Ho in Hrun.
  refine (proj1 (@job_results Sim ResultsSample.script_services ResultsSample.script_transfers RefCodec.ref_codec
    Sample.worker id (Wordcount ScriptSample.wc) Sample.message (Sample.task "wordcount") "job-1" "wordcount"
    (mkTask "wordcount" "tasks/wordcount.sh" "") ResultsSample.root sample_entries ["a.txt"] "jobs/job-1/outputs/"
    ResultsSample.started s' es (λ l, reflexivity l) (ResultsSample.script_child _) Sample.message_valid
    _ _ _ _ ResultsSample.started_fresh Hrun)).
  - vm_compute. reflexivity.
  - vm_compute. reflexivity.
  - repeat constructor. eexists _, _. vm_compute. reflexivity.
  - repeat constructor; apply (ScriptSample.sample_name "a.txt"); vm_compute; reflexivity.
Defined.
