(* ===== verification/WorkerOutcomes.v ===== *)
(** * Outcomes of handling one message

    What is left behind on each path of [handle_message]: messages that are
    dropped, rejected or name an unregistered task, the status document that
    is written, the document of a finished job, and what happens to it when
    the output of the task is not UTF-8. *)

From S2P Require Import Prelude Utf8 Json Filesystem Effects Testbed MessageValidation Configurations.
From S2P Require Import TaskDLQ TaskExecutor WorkerStatus Worker WorkerTrace WorkerSafety WorkerProtocol WorkerSample WorkerTransfers.
Import MessageValidation.

Section Outcomes.
Context {X : Type} `{Services X} `{JsonCodec}.
Context (w : Worker.t).

(** ** Status documents *)

(** C36: a status write merges. It reads the stored document once and writes
    once, with the configured lifetime; in the written document every field
    of the update is set (or removed, when it is null), the job id, status and
    time are set, and every other field is the stored one. A failed write is
    logged and changes nothing else. *)
Theorem set_job_status_merges ttl job_id st updates (s : Machine X) :
  updates !! "status" = None → updates !! "job_id" = None → updates !! "updated_at" = None →
  ∃ document updated_at saved x,
    set_job_status ttl job_id st updates s =
      (Returned (), mkMachine (files s) x,
       [EvRedisGet job_id (redis_get job_id (ext s)).1;
        EvRedisSet job_id (serialize (JObject document)) (Some ttl) saved] ++
       match saved with
       | Expected _ => []
       | Unexpected e =>
           [EvLog LogError ("cannot save job status [" +:+ job_id +:+ "=" +:+ st +:+ "]: " +:+ e)]
       end) ∧
    document !! "job_id" = Some (JString job_id) ∧ document !! "status" = Some (JString st) ∧
    document !! "updated_at" = Some (JString updated_at) ∧
    (∀ k v, updates !! k = Some v → document !! k = if is_null v then None else Some v) ∧
    (∀ k, updates !! k = None → k ≠ "job_id" → k ≠ "status" → k ≠ "updated_at" →
       document !! k = stored_document (redis_get job_id (ext s)).1 !! k).
Proof.
  intros Hst Hid Hat.
  destruct (set_job_status_run ttl job_id st updates s) as (existing & updated_at & saved & x & -> & Hr).
  eexists _, updated_at, saved, x. split; [exact Hr|].
  rewrite !merge_status_lookup, Hst, Hid. split_and!; try done.
  - intros k v Hk. rewrite merge_status_lookup, Hk. rewrite bool_decide_eq_false_2 by congruence.
    by destruct v.
  - intros k Hk ???. rewrite merge_status_lookup, Hk. by rewrite !bool_decide_eq_false_2.
Qed.

(** ** Messages that are dropped or rejected *)

(** A body that is not a JSON object is dropped: the machine does not
    change and the handler only logs. *)
Theorem malformed_message_dropped body (s : Machine X) :
  (∀ message, parse body ≠ inl (JObject message)) →
  ∃ line, Worker.handle_message w body s =
    (Returned (Expected ()), s,
     [EvLog LogDebug ("received message: " +:+ body); EvLog LogError line]).
Proof.
  intros Hp. unfold Worker.handle_message, mbind, M_bind, log, emit, mret, M_ret.
  destruct (parse body) as [v|what]; [|by eexists].
  destruct v; try (by eexists). by destruct (Hp o).
Qed.

(** An invalid message is recorded as [failed], with the validation error
    as its reason, exactly when it carries a well-formed job id; otherwise
    nothing but log lines happens. It is never executed or retried, and the
    files do not change. *)
Theorem invalid_message_rejected body message error (s : Machine X) :
  parse body = inl (JObject message) → validate_request message = Unexpected error →
  let '(o, s', es) := Worker.handle_message w body s in
  o = Returned (Expected ()) ∧ files s' = files s ∧
  match get_string message "job_id" with
  | Some id =>
      if is_valid_job_id id
      then ∃ e, vis es = [e] ∧
        status_write w id "failed" (<["failure_reason" := JString error]> (contract_fields message)) e
      else s' = s ∧ vis es = []
  | None => s' = s ∧ vis es = []
  end.
Proof.
  intros Hp Hv. unfold Worker.handle_message, Worker.reject_message. rewrite Hp. cbn [as_object].
  rewrite Hv. unfold mbind, M_bind, log, emit, mret, M_ret.
  destruct (get_string message "job_id") as [id|]; [|done].
  destruct (is_valid_job_id id) eqn:Hid; [|done]. rewrite valid_job_id_c_str by done.
  destruct (Worker.status w id "failed" _ s) as [[o s'] es] eqn:Hr.
  apply status_vis in Hr as Hvis. destruct Hvis as (e & He & Hw).
  unfold Worker.status in Hr. destruct (set_job_status_run (redis_ttl_sec_ (Worker.configurations w)) id
    "failed" (<["failure_reason" := JString error]> (contract_fields message)) s)
    as (? & ? & ? & ? & _ & Heq). rewrite Heq in Hr. injection Hr as <- <- Hes.
  split; [done|]. split; [done|]. exists e. by rewrite app_nil_r.
Qed.

(** ** Unregistered tasks *)

Definition is_sleep (e : Event) : bool := match e with EvSleep _ => true | _ => false end.

Lemma status_run job_id st updates (s : Machine X) :
  ∃ x es e, Worker.status w job_id st updates s = (Returned (), mkMachine (files s) x, es) ∧
    vis es = [e] ∧ status_write w job_id st updates e ∧ Forall (λ e, is_sleep e = false) es.
Proof.
  destruct (Worker.status w job_id st updates s) as [[o s'] es] eqn:Hr.
  apply status_vis in Hr as Hvis. destruct Hvis as (e & He & Hw).
  unfold Worker.status in Hr. destruct (set_job_status_run (redis_ttl_sec_ (Worker.configurations w)) job_id
    st updates s) as (? & ? & saved & x & _ & Heq). rewrite Heq in Hr. injection Hr as <- <- <-.
  eexists x, _, e. split_and!; [done|done|done|].
  do 2 (constructor; [done|]). destruct saved; by repeat constructor.
Qed.

(** C35: a request for a task that is not in the whitelist fails at once: the
    job is recorded as [failed] with the reason, its retry entry is removed,
    and there is no pause, no retry and no execution. *)
Theorem unregistered_task_fails_at_once body message task job_id name (s : Machine X) :
  parse body = inl (JObject message) → validate_request message = Expected () →
  message !! "job_id" = Some (JString job_id) → message !! "task" = Some (JObject task) →
  task !! "name" = Some (JString name) →
  terminal_text (redis_get job_id (ext s)).1 = false →
  TaskExecutor.find_task (Worker.task_executor w) (c_str name) = None →
  let reason := "task [" +:+ c_str name +:+ "] is not registered in the whitelist" in
  let '(o, s', es) := Worker.handle_message w body s in
  o = Returned (Expected ()) ∧
  files s' = fs_remove (files s) (TaskDLQ.entry_path (Worker.task_dlq w) job_id) ∧
  Forall (λ e, is_sleep e = false) es ∧
  ∃ e, vis es = [e] ∧
    status_write w job_id "failed" (<["failure_reason" := JString reason]> (contract_fields message)) e.
Proof.
  intros Hp Hv Hid Htask Hname Hterm Hfind. cbv zeta.
  assert (Hvalid : is_valid_job_id job_id = true).
  { apply is_valid_job_id_iff. apply valid_request_iff, request_job_id in Hv as (? & ? & ?). naive_solver. }
  unfold Worker.handle_message, Worker.process_job, Worker.fail_without_retry.
  rewrite Hp. cbn [as_object]. rewrite Hv. unfold mbind, M_bind, log, emit, mret, M_ret.
  rewrite (at_string_run _ _ job_id), valid_job_id_c_str by done.
  rewrite (at_object_run _ _ task), (at_string_run _ _ name) by done.
  rewrite is_terminal_run, Hterm, Hfind.
  match goal with |- context [Worker.status w ?i ?st ?u ?m] =>
    destruct (status_run i st u m) as (x & es & e & -> & Hvis & Hw & Hsl) end.
  rewrite TaskDLQ.remove_run. simpl. split_and!; [done|done| |].
  - rewrite !app_nil_r. repeat (constructor; [done|]). done.
  - exists e. by rewrite !app_nil_r.
Qed.

(** ** The decision to retry *)

(** What [handle_processing_failure] does once the failure has been recorded
    as the [n]-th: with [fs'] the files then. *)
Definition retried (job_id reason : string) (message : object) (n : Z) (fs' : FileSystem)
    (s' : Machine X) (es : list Event) : Prop :=
  let path := TaskDLQ.entry_path (Worker.task_dlq w) job_id in
  let message' := <["dlq_try_count" := JInt64 n]> message in
  (∃ e q, vis es = [e; q] ∧ sends w job_id message n (Expected ()) e ∧
     status_write w job_id "queued" (Worker.counted_updates message' reason n) q ∧ files s' = fs') ∨
  (∃ e f err, vis es = [e; f] ∧ sends w job_id message n (Unexpected err) e ∧
     status_write w job_id "failed" (Worker.counted_updates message'
       (reason +:+ " (republish failed: " +:+ err +:+ ")") n) f ∧ files s' = fs_remove fs' path).

Lemma republish_job_outcome job_id reason message n (s : Machine X) :
  let '(o, s', es) := Worker.republish_job w job_id reason message n s in
  o = Returned () ∧ retried job_id reason message n (files s) s' es.
Proof.
  unfold Worker.republish_job, mbind, M_bind.
  pose proof (backoff_run n retry_base_delay_ms retry_max_delay_ms s) as Hb. cbv zeta in Hb.
  destruct (uniform_int _ _ _) as [u x]. rewrite Hb. unfold log, sleep_for, emit, SqsSend, call.
  cbv beta iota zeta. cbn [files ext].
  destruct (sqs_send_message _ _ _ _) as [[[]|err] x']; cbn [files ext].
  - match goal with |- context [Worker.status w ?i ?st ?u ?m] =>
      destruct (status_run i st u m) as (y & es & e & -> & Hvis & Hw & _) end.
    split; [done|]. left. eexists _, e. split; [|by split].
    cbn [app]. simpl. rewrite Hvis. done.
  - rewrite TaskDLQ.remove_run. cbn [files ext].
    match goal with |- context [Worker.status w ?i ?st ?u ?m] =>
      destruct (status_run i st u m) as (y & es & e & -> & Hvis & Hw & _) end.
    split; [done|]. right. eexists _, e, err. split; [|by split].
    cbn [app]. simpl. rewrite Hvis. done.
Qed.

(** C6: a failed attempt is retried exactly while its count is within the
    limit. The count is one more than the larger of what the message carries
    and what the job's entry holds. Within the limit the message goes back on
    the queue with that count and the job is [queued] (or [failed], with its
    entry removed, if the queue refuses); beyond it nothing is sent, the job is
    [failed] and its entry is removed. When the failure cannot be recorded
    nothing is sent, the job is [failed] and the files stay as they were. *)
Theorem retry_decision job_id body message reason (s : Machine X) :
  parse body = inl (JObject message) → healthy (files s) →
  let path := TaskDLQ.entry_path (Worker.task_dlq w) job_id in
  let previous := TaskDLQ.previous_count (files s) path (Worker.inbound_count message) in
  let n := previous + 1 in
  previous ≠ INT_MAX →
  let '(o, s', es) := Worker.handle_processing_failure w job_id body reason s in
  o = Returned () ∧
  match write_file (files s) path (serialize (JObject (TaskDLQ.entry_object job_id body reason n))) with
  | None => ∃ f, vis es = [f] ∧ files s' = files s ∧
      status_write w job_id "failed" (Worker.failure_updates message reason) f
  | Some fs' =>
      if n <=? TaskDLQ.max_retry_count (Worker.task_dlq w)
      then retried job_id reason message n fs' s' es
      else ∃ f, vis es = [f] ∧ files s' = fs_remove fs' path ∧
        status_write w job_id "failed" (Worker.counted_updates message reason n) f
  end.
Proof.
  intros Hp Hh. cbv zeta. intros Hmax. unfold Worker.handle_processing_failure, Worker.parsed_body.
  rewrite Hp. unfold mbind at 1, M_bind at 1. rewrite TaskDLQ.record_failure_cases. cbv zeta.
  rewrite healthy_stat by done. rewrite bool_decide_eq_false_2 by done.
  destruct (write_file _ _ _) as [fs'|].
  - unfold TaskDLQ.can_retry. destruct (_ <=? _); cbn [negb].
    + match goal with |- context [Worker.republish_job w ?a ?b ?c ?d ?e] =>
        pose proof (republish_job_outcome a b c d e) as Hrep;
        destruct (Worker.republish_job w a b c d e) as [[o s'] es] end. done.
    + unfold mbind, M_bind, log, emit. rewrite TaskDLQ.remove_run. cbn [files ext].
      match goal with |- context [Worker.status w ?i ?st ?u ?m] =>
        destruct (status_run i st u m) as (y & es & e & -> & Hvis & Hw & _) end.
      split; [done|]. exists e. by split.
  - unfold mbind, M_bind, log, emit.
    match goal with |- context [Worker.status w ?i ?st ?u ?m] =>
      destruct (status_run i st u m) as (y & es & e & -> & Hvis & Hw & _) end.
    split; [done|]. exists e. by split.
Qed.

(** ** Finished jobs *)

(** [tail] and [urls] are those of the run, from the files [fs] the task left:
    the end of its captured output, and one result for each regular file of the outputs directory, uploaded
    under the prefix of the request and signed during the run. *)
Definition results_of_run (message : object) (root : string) (es : list Event) (tail : string)
    (urls : list json) : Prop :=
  ∃ fs prefix entries, tail = TaskExecutor.read_stdout_tail fs (stdout_log root) ∧
    get_string message "output_prefix" = Some prefix ∧
    directory_entries fs (outputs_dir root) = Some entries ∧
    Forall2 (result_of w (c_str prefix) es) (regular_names entries) urls.

(** The final status write of a run that succeeded. *)
Lemma run_job_done message task job_id name definition root (s s' : Machine X) es :
  Worker.run_job w message task job_id name definition root s = (Returned (Expected ()), s', es) →
  ∃ before got updated_at tail urls r after,
    es = before ++ EvRedisGet job_id got ::
      EvRedisSet job_id (serialize (JObject (merge_status (stored_document got) job_id "done"
        (Worker.done_updates message 0 tail urls) updated_at)))
        (Some (redis_ttl_sec_ (Worker.configurations w))) r :: after ∧
    results_of_run message root before tail urls.
Proof.
  unfold Worker.run_job. intros Hr.
  bind_inv Hr as ([[]|] & s1 & es1 & es2 & _ & Hr & ->); [|by ret_inv Hr].
  bind_inv Hr as (args & s2 & es3 & es4 & _ & Hr & ->).
  bind_inv Hr as (timeout & s3 & es5 & es6 & _ & Hr & ->).
  bind_inv Hr as ([result|] & s4 & es7 & es8 & Hex & Hr & ->); [|by ret_inv Hr].
  apply TaskExecutor.execute_tail in Hex.
  destruct (TaskExecutor.exit_code result =? 0) eqn:Hcode; cbn [negb] in Hr; [|by ret_inv Hr].
  bind_inv Hr as (prefix & s5 & es9 & es10 & Hpre & Hr & ->).
  apply at_string_Returned in Hpre as (raw & Hraw & -> & -> & ->).
  bind_inv Hr as ([urls|] & s6 & es11 & es12 & Hup & Hr & ->); [|by ret_inv Hr].
  apply upload_outputs_run in Hup as (entries & Hdir & _ & Hall).
  bind_inv Hr as ([] & s7 & es13 & es14 & Hst & _ & ->).
  bool_to_prop. rewrite Hcode in Hst. unfold Worker.status in Hst.
  match type of Hst with set_job_status ?t ?i ?st ?u ?m = _ =>
    destruct (set_job_status_run t i st u m) as (existing & updated_at & saved & x & _ & Heq) end.
  rewrite Heq in Hst. injection Hst as <- <-.
  eexists (es1 ++ es3 ++ es5 ++ es7 ++ es11), existing, updated_at, _, urls, saved, _.
  split; [by rewrite <-!app_assoc|]. 
  exists (files s4), raw, entries. split_and!; [done|by apply get_string_Some|done|].
  eapply Forall2_impl; [exact Hall|]. intros n u. apply result_of_mono. set_solver.
Qed.

(** The document of a finished job says [done] with exit code 0, carries
    the tail of the captured output and one signed result per output file, no longer has the failure reason
    of earlier attempts, and keeps the retry count they recorded. *)
Theorem done_document message task job_id name definition root (s s' : Machine X) es :
  Worker.run_job w message task job_id name definition root s = (Returned (Expected ()), s', es) →
  ∃ before got document tail urls r after,
    es = before ++ EvRedisGet job_id got ::
      EvRedisSet job_id (serialize (JObject document)) (Some (redis_ttl_sec_ (Worker.configurations w))) r ::
      after ∧
    document !! "job_id" = Some (JString job_id) ∧ document !! "status" = Some (JString "done") ∧
    document !! "exit_code" = Some (JInt64 0) ∧ document !! "stdout_tail" = Some (JString tail) ∧
    document !! "result_download_url" = Some (JArray urls) ∧
    document !! "failure_reason" = None ∧ document !! "retry_count" = stored_document got !! "retry_count" ∧
    results_of_run message root before tail urls.
Proof.
  intros Hr. destruct (run_job_done _ _ _ _ _ _ _ _ _ Hr) 
    as (before & got & updated_at & tail & urls & r & after & Heq & Hres).
  eexists before, got, _, tail, urls, r, after. split; [exact Heq|].
  rewrite !merge_status_lookup. unfold Worker.done_updates.
  repeat (rewrite lookup_insert_eq || rewrite lookup_insert_ne by done).
  by rewrite !contract_fields_None.
Qed.

(** C40: a finished job whose output is not UTF-8 is not recognised as
    finished: the document written for it cannot be read back, so neither the
    guard against redelivery nor the next status write sees it. *)
Theorem invalid_output_not_terminal `{!JsonCodecLaws} existing job_id message code tail urls updated_at :
  valid_utf8 tail = false →
  let text := serialize (JObject (merge_status existing job_id "done"
                (Worker.done_updates message code tail urls) updated_at)) in
  terminal_text (Expected text) = false ∧ stored_document (Expected text) = ∅.
Proof.
  intros Ht. cbv zeta.
  match goal with |- context [serialize (JObject ?d)] => set (document := d) end.
  assert (Hu : json_utf8 (JObject document) = false).
  { destruct (json_utf8 (JObject document)) eqn:Hu; [|done].
    assert (Hk : document !! "stdout_tail" = Some (JString tail)).
    { unfold document. rewrite merge_status_lookup. unfold Worker.done_updates.
      by repeat (rewrite lookup_insert_eq || rewrite lookup_insert_ne by done). }
    pose proof (json_utf8_lookup _ _ _ Hu Hk). simpl in *. congruence. }
  destruct (parse_serialize_invalid _ Hu) as [what Hp].
  unfold terminal_text, stored_document. by rewrite Hp.
Qed.

End Outcomes.

(** ** Deduplication ids *)

Lemma digits_suffix_inj (s t : string) (u v : string) (c : ascii) :
  is_digit c = false → str_forallb is_digit u = true → str_forallb is_digit v = true →
  s +:+ String c u = t +:+ String c v → s = t ∧ u = v.
Proof.
  intros Hc Hu Hv. revert t. induction s as [|d s IH]; intros t Heq.
  - destruct t as [|e t]; [by injection Heq as ->|]. injection Heq as <- ->.
    rewrite str_forallb_In in Hu. rewrite (Hu c) in Hc; [done|]. rewrite str_In_app. simpl. auto.
  - destruct t as [|e t].
    + injection Heq as -> <-.
      rewrite str_forallb_In in Hv. rewrite (Hv c) in Hc; [done|]. rewrite str_In_app. simpl. auto.
    + injection Heq as -> Heq. by apply IH in Heq as [-> ->].
Qed.

(** Deduplication ids of different retries, or of different jobs, differ,
    so the FIFO queue never takes one retry for a duplicate of another. *)
Theorem dedup_id_injective job1 job2 n1 n2 :
  0 ≤ n1 → 0 ≤ n2 → Worker.dedup_id job1 n1 = Worker.dedup_id job2 n2 → job1 = job2 ∧ n1 = n2.
Proof.
  intros H1 H2 Heq. unfold Worker.dedup_id in Heq.
  change ("-retry-" +:+ fmt_int n1) with ("-retry" +:+ String "-" (fmt_int n1)) in Heq.
  change ("-retry-" +:+ fmt_int n2) with ("-retry" +:+ String "-" (fmt_int n2)) in Heq.
  rewrite <-!str_app_assoc in Heq.
  apply digits_suffix_inj in Heq as [Hj Hn]; [|done|by apply fmt_int_digits..].
  split; [by eapply str_app_inv_r|by apply fmt_int_inj].
Qed.

Section OutcomesWitnesses.
Import RefCodec.

Definition stored_retry : string := ref_serialize (JObject (<["retry_count" := JInt64 2]> ∅)).

Lemma set_job_status_merges_witness :
  ∃ (document : object), document !! "retry_count" = Some (JInt64 2) ∧
    document !! "status" = Some (JString "running") ∧ document !! "failure_reason" = None.
Proof.
  destruct (set_job_status_merges 60 "job-1" "running" (<["failure_reason" := JNull]> ∅)
    (Sample.machine {["job-1" := stored_retry]} 0)) as (d & t & r & x & _ & _ & Hst & _ & Hup & Hkeep);
    [reflexivity..|].
  exists d. split; [|split; [exact Hst|exact (Hup "failure_reason" JNull eq_refl)]].
  rewrite (Hkeep "retry_count") by (reflexivity || discriminate). vm_compute. reflexivity.
Defined.

Lemma malformed_message_dropped_witness :
  (Worker.handle_message Sample.worker "not json" (Sample.machine ∅ 0)).1.2 = Sample.machine ∅ 0.
Proof.
  destruct (malformed_message_dropped Sample.worker "not json" (Sample.machine ∅ 0)) as [line ->];
    [|reflexivity].
  intros message. vm_compute. discriminate.
Defined.

(** A message without a task. *)
Definition incomplete : object := {["job_id" := JString "job-1"]}.

Lemma invalid_message_rejected_witness :
  ∃ es e, vis es = [e] ∧ es = (Worker.handle_message Sample.worker (ref_serialize (JObject incomplete))
    (Sample.machine ∅ 0)).2.
Proof.
  destruct (validate_request incomplete) as [|error] eqn:Hv; [vm_compute in Hv; discriminate|].
  pose proof (invalid_message_rejected Sample.worker (ref_serialize (JObject incomplete)) incomplete
    error (Sample.machine ∅ 0)) as Hw.
  destruct (Worker.handle_message _ _ _) as [[o s'] es].
  destruct Hw as (_ & _ & e & He & _); [vm_compute; reflexivity|exact Hv|].
  exists es, e. split; [exact He|reflexivity].
Defined.

Lemma unregistered_task_fails_at_once_witness :
  ∃ es e, vis es = [e] ∧ es = (Worker.handle_message Sample.worker
    (ref_serialize (JObject (Sample.message_for "rm"))) (Sample.machine ∅ 0)).2.
Proof.
  pose proof (unregistered_task_fails_at_once Sample.worker (ref_serialize (JObject (Sample.message_for "rm")))
    (Sample.message_for "rm") (Sample.task "rm") "job-1" "rm" (Sample.machine ∅ 0)) as Hw.
  cbv zeta in Hw. destruct (Worker.handle_message _ _ _) as [[o s'] es].
  destruct Hw as (_ & _ & _ & e & He & _); [vm_compute; reflexivity..|].
  exists es, e. split; [exact He|reflexivity].
Defined.

Definition wordcount : TaskDefinition := default (mkTask "" "" "")
  (TaskExecutor.find_task (Worker.task_executor Sample.worker) "wordcount").

Lemma done_document_witness :
  ∃ (document : object), document !! "status" = Some (JString "done") ∧ document !! "failure_reason" = None.
Proof.
  set (s := (make_temp_dir "job-1" (Sample.machine ∅ 0)).1.2).
  destruct (Worker.run_job Sample.worker Sample.message (Sample.task "wordcount") "job-1" "wordcount"
    wordcount "/tmp/taskforge/job-1" s) as [[o s'] es] eqn:Hr.
  assert (Ho : o = Returned (Expected ())).
  { change o with (o, s', es).1.1. rewrite <-Hr. vm_compute. reflexivity. }
  rewrite Ho in Hr.
  destruct (done_document Sample.worker Sample.message (Sample.task "wordcount") "job-1" "wordcount"
    wordcount "/tmp/taskforge/job-1" s s' es Hr) as (_ & _ & d & _ & _ & _ & _ & _ & _ & Hst & _ & _ & _ & Hf & _).
  exists d. split; [exact Hst|exact Hf].
Defined.

(** One byte of Latin-1 text. *)
Definition latin1 : string := String "255" EmptyString.

Lemma invalid_output_not_terminal_witness :
  terminal_text (Expected (ref_serialize (JObject (merge_status ∅ "job-1" "done"
    (Worker.done_updates Sample.message 0 latin1 []) "now")))) = false.
Proof.
  destruct (invalid_output_not_terminal ∅ "job-1" Sample.message 0 latin1 [] "now") as [Ht _];
    [vm_compute; reflexivity|exact Ht].
Defined.

(** Such a job runs again when its message is delivered again. *)
Definition runs_task (es : list Event) : bool :=
  existsb (λ e, match e with EvExec _ _ _ => true | _ => false end) es.

Definition latin1_machine : Machine Sim :=
  let x := Sample.services ∅ 0 in
  mkMachine sim_fs (mkSim (sim_redis x) (sim_objects x) [] (sim_clock x) 0 false latin1 [] false).

Example latin1_job_runs_twice :
  let run s := Worker.handle_message Sample.worker Sample.body s in
  let first := run latin1_machine in
  (first.1.1, runs_task first.2, runs_task (run first.1.2).2) = (Returned (Expected ()), true, true).
Proof. vm_compute. reflexivity. Qed.

(** The stored status of the sample job. *)
Definition stored_status (s : Machine Sim) : option string :=
  text ← sim_redis (ext s) !! "job-1";
  match ref_parse text with inl (JObject o) => get_string o "status" | _ => None end.

(** An invalid message that carries the id of a finished job turns its status
    from [done] to [failed]: only valid requests pass the guard against
    redelivery. *)
Definition done_text : string := ref_serialize (JObject {["status" := JString "done"]}).

Example invalid_message_overwrites_done :
  let s := Sample.machine {["job-1" := done_text]} 0 in
  (stored_status s,
   stored_status (Worker.handle_message Sample.worker (ref_serialize (JObject incomplete)) s).1.2)
  = (Some "done", Some "failed").
Proof. vm_compute. reflexivity. Qed.

(** When the retry entry of a job exists but can no longer be written, the
    job is recorded as [failed] while its entry stays behind and keeps
    counting as backlog. *)
Definition entry_node : list string := ["srv"; "dlq"; "job-1.json"].

Definition unwritable_machine : Machine Sim :=
  mkMachine (mkFS (<[entry_node := RegularFile (ref_serialize (JObject {["try_count" := JInt64 1]}))]>
                    (nodes sim_fs))
               (cwd sim_fs) (temp_directory sim_fs)
               (λ op p, match op with OpWrite => bool_decide (p = entry_node) | _ => false end)
               (error_message sim_fs))
    (Sample.services ∅ 1).

Example unrecorded_failure_leaves_entry :
  let '(o, s, _) := Worker.handle_message Sample.worker Sample.body unwritable_machine in
  (o, stored_status s, TaskDLQ.pending (files s) (Worker.task_dlq Sample.worker))
  = (Returned (Expected ()), Some "failed", 1).
Proof. vm_compute. reflexivity. Qed.

Lemma retry_decision_witness :
  ∃ fs' (s' : Machine Sim) es, retried Sample.worker "job-1" "boom" Sample.message 1 fs' s' es.
Proof.
  pose proof (retry_decision Sample.worker "job-1" Sample.body Sample.message "boom"
    (Sample.machine ∅ 1) Sample.body_parses sim_fs_healthy) as Hw. cbv zeta in Hw.
  assert (Hprev : TaskDLQ.previous_count (files (Sample.machine ∅ 1))
    (TaskDLQ.entry_path (Worker.task_dlq Sample.worker) "job-1") (Worker.inbound_count Sample.message) = 0)
    by (vm_compute; reflexivity).
  rewrite Hprev in Hw. specialize (Hw ltac:(discriminate)).
  destruct (Worker.handle_processing_failure _ _ _ _ _) as [[o s'] es]. destruct Hw as [_ Hw].
  unfold write_file in Hw.
  assert (Hopen : can_open_write (files (Sample.machine ∅ 1))
    (TaskDLQ.entry_path (Worker.task_dlq Sample.worker) "job-1") = true) by (vm_compute; reflexivity).
  rewrite Hopen in Hw. cbv iota beta in Hw.
  match type of Hw with context [retried _ _ _ _ _ ?fs _ _] => set (fs' := fs) in Hw end.
  exists fs', s', es. change (0 + 1) with 1 in Hw.
  assert (Hle : (1 <=? TaskDLQ.max_retry_count (Worker.task_dlq Sample.worker)) = true)
    by (vm_compute; reflexivity).
  rewrite Hle in Hw. exact Hw.
Defined.

Lemma dedup_id_injective_witness :
  Worker.dedup_id "job-1" 1 = "job-1-retry-1" ∧ Worker.dedup_id "job-1" 1 ≠ Worker.dedup_id "job-1" 11.
Proof.
  split; [reflexivity|]. intros Heq.
  destruct (dedup_id_injective "job-1" "job-1" 1 11) as [_ Hn]; [done|done|exact Heq|discriminate].
Defined.
End OutcomesWitnesses.
