(* ===== verification/WorkerHistory.v ===== *)
(** * Histories: many messages, one store

    The consumer hands messages to [handle_message] one after the other. With
    a Redis that keeps what is written, the store after any operation of the
    worker is the replay of the writes in its trace; from this, what a sequence
    of messages can do to the status of a job. *)

From S2P Require Import Prelude Utf8 Json Filesystem Effects Testbed MessageValidation Configurations.
From S2P Require Import TaskDLQ TaskExecutor WorkerStatus Worker WorkerTrace WorkerRuns WorkerSafety WorkerProtocol WorkerSample.
From S2P Require Import WorkerProperties.
Import MessageValidation.

(** ** A Redis that keeps what is written

    [redis_view] holds the value last written under each key. A read returns
    that value or fails (Redis does not answer, or the entry is missing or has
    expired), a write replaces it exactly when it succeeds, and nothing else
    changes it. *)

Class RedisStore (X : Type) `{Services X} := {
  redis_view : X → gmap string string;
  view_get key x : redis_view (redis_get key x).2 = redis_view x;
  view_get_only key x text :
    (redis_get key x).1 = Expected text → redis_view x !! key = Some text;
  view_set key value ttl x :
    redis_view (redis_set key value ttl x).2 =
      match (redis_set key value ttl x).1 with
      | Expected _ => <[key := value]> (redis_view x)
      | Unexpected _ => redis_view x
      end;
  view_download b k p fs x : redis_view (s3_download_file b k p fs x).2 = redis_view x;
  view_upload b k p fs x : redis_view (s3_upload_file b k p fs x).2 = redis_view x;
  view_presign b k ttl x : redis_view (s3_presign b k ttl x).2 = redis_view x;
  view_send body group dedup x : redis_view (sqs_send_message body group dedup x).2 = redis_view x;
  view_child exe args out timeout fs x : redis_view (run_child exe args out timeout fs x).2 = redis_view x;
  view_now x : redis_view (system_clock_now x).2 = redis_view x;
  view_uniform lo hi x : redis_view (uniform_int lo hi x).2 = redis_view x;
}.

(** Moreover, a read of what has been written does not fail. *)
Class AnsweringStore (X : Type) `{RedisStore X} : Prop :=
  view_get_stored key x text : redis_view x !! key = Some text → (redis_get key x).1 = Expected text.

Definition replay_event (store : gmap string string) (e : Event) : gmap string string :=
  match e with
  | EvRedisSet key value _ (Expected _) => <[key := value]> store
  | _ => store
  end.

Definition replay (es : list Event) (store : gmap string string) : gmap string string :=
  foldl replay_event store es.

(** A read that succeeded returned what was stored. *)
Definition read_stored (store : gmap string string) (e : Event) : Prop :=
  match e with EvRedisGet key (Expected text) => store !! key = Some text | _ => True end.

(** The reads of a trace that begins with [store]. *)
Fixpoint reads_stored (store : gmap string string) (es : list Event) : Prop :=
  match es with [] => True | e :: es => read_stored store e ∧ reads_stored (replay_event store e) es end.

Lemma replay_app es es' store : replay (es ++ es') store = replay es' (replay es store).
Proof. apply foldl_app. Qed.

Lemma reads_stored_app es es' store :
  reads_stored store es → reads_stored (replay es store) es' → reads_stored store (es ++ es').
Proof.
  revert store. induction es as [|e es IH]; intros store; simpl; [done|]. intros [He Hes] Hes'. by split; [|apply IH].
Qed.

Section Tracking.
Context {X : Type} `{Services X} `{RS : !RedisStore X}.
#[local] Set Default Proof Using "Type RS".

(** The store after a run is the replay of its trace, and its reads return
    what was stored. *)
Definition tracking (x : X) (es : list Event) (x' : X) : Prop :=
  redis_view x' = replay es (redis_view x) ∧ reads_stored (redis_view x) es.

#[export] Instance tracking_run : RunRelation tracking.
Proof.
  split; unfold tracking; intros; simpl; rewrite ?view_get, ?view_download, ?view_upload, ?view_presign, ?view_send,
    ?view_child, ?view_now, ?view_uniform; try done.
  - match goal with H1 : _ ∧ _, H2 : _ ∧ _ |- _ => destruct H1 as [Hv Hr], H2 as [Hv' Hr'] end.
    rewrite Hv', Hv in *. rewrite replay_app. split; [done|]. by apply reads_stored_app.
  - split; [done|]. split; [|done]. destruct (redis_get key x).1 eqn:Hget; [|done]. by apply view_get_only.
  - rewrite view_set. by destruct (redis_set key value ttl x).1.
Qed.

Definition tracks {A} (m : M X A) : Prop := follows tracking m.

Lemma tracks_view {A} (m : M X A) s : tracks m → redis_view (ext (m s).1.2) = replay (m s).2 (redis_view (ext s)).
Proof. intros Hm. apply Hm. Qed.

Lemma handle_message_tracks `{JsonCodec} w body : tracks (Worker.handle_message w body : M X (expected unit)).
Proof. apply handle_message_follows. apply _. Qed.

End Tracking.

(** ** Sequences of messages *)

Section History.
Context {X : Type} `{Services X} `{JsonCodec}.
Context (w : Worker.t).

(** The consumer's calls of the registered handler, one after the other. *)
Fixpoint consume (bodies : list string) : M X unit :=
  match bodies with
  | [] => mret ()
  | body :: rest => _ ← Worker.handle_message w body; consume rest
  end.

Lemma consume_follows (R : X → list Event → X → Prop) `{!RunRelation R} bodies : follows R (consume bodies).
Proof.
  induction bodies as [|body bodies IH]; simpl; [by apply follows_ret|].
  apply (follows_bind R); [by apply handle_message_follows|done].
Qed.

(** [body] is a JSON object with this job id. *)
Definition addressed (job_id body : string) (message : object) : Prop :=
  parse body = inl (JObject message) ∧ get_string message "job_id" = Some job_id.

Lemma addressed_dec job_id body : Decision (∃ message, addressed job_id body message).
Proof.
  destruct (parse body) as [[| | | | | | |message]|] eqn:Hp;
    try (right; intros (m & Hm & _); rewrite Hp in Hm; discriminate).
  destruct (decide (get_string message "job_id" = Some job_id)) as [Hid|Hid].
  - left. by exists message.
  - right. intros (m & Hm & Hid'). rewrite Hp in Hm. by simplify_eq.
Qed.

Definition writes_key (key : string) (e : Event) : Prop := ∃ value ttl r, e = EvRedisSet key value ttl r.

(** A read of [key] does not fail. *)
Definition reads_answered (key : string) (e : Event) : Prop :=
  match e with EvRedisGet k r => k = key → ∀ err, r ≠ Unexpected err | _ => True end.

#[export] Instance writes_key_dec key e : Decision (writes_key key e).
Proof.
  destruct e as [| | | | |k v t r| | | | | | |]; try (right; by intros (? & ? & ? & ?)).
  destruct (decide (k = key)) as [->|Hne]; [left; by eexists _, _, _|right; by intros (? & ? & ? & [=])].
Defined.

Lemma replay_other key es (store : gmap string string) :
  Forall (λ e, ¬ writes_key key e) es → replay es store !! key = store !! key.
Proof.
  revert store. induction es as [|e es IH]; intros store Hes; [done|].
  apply Forall_cons in Hes as [He Hes]. 
  change (replay (e :: es) store) with (replay es (replay_event store e)). rewrite IH by done.
  destruct e as [| | | | |k v ttl r| | | | | | |]; try done. destruct r; [|done]. simpl.
  apply lookup_insert_ne. intros ->. apply He. by eexists _, _, _.
Qed.

(** Messages for other jobs do not touch the status of this one. *)
Lemma other_message_keys job_id body :
  (∀ message, ¬ addressed job_id body message) →
  emits (λ e, ¬ writes_key job_id e) (Worker.handle_message w body : M X (expected unit)).
Proof.
  intros Hother. destruct (parse body) as [[| | | | | | |message]|] eqn:Hp;
    try (apply handle_message_garbage; [by intros ? ? (? & ? & ? & ?)|intros m; by rewrite Hp]).
  eapply (handle_message_emits w); try done; try (by intros; intros (? & ? & ? & ?)).
  - intros id st updates e Hid _ _ (? & ? & ? & ->) (? & ? & ? & ?). simplify_eq.
    by apply (Hother message).
  - intros id n e _ _ _ [? ->] (? & ? & ? & ?). done.
Qed.

(** One message, valid if it is for the job, leaves a job alone that it reads
    as finished. *)
Lemma live_message_keeps job_id text body (s : Machine X) :
  (∀ message, addressed job_id body message → validate_request message = Expected ()) →
  terminal_text (Expected text) = true → (redis_get job_id (ext s)).1 = Expected text →
  Forall (λ e, ¬ writes_key job_id e) (Worker.handle_message w body s).2.
Proof.
  intros Hvalid Hterm Hget.
  destruct (addressed_dec job_id body) as [(message & Hp & Hid)|Hno].
  - assert (Hv : validate_request message = Expected ()) by (by apply Hvalid).
    apply valid_request_iff in Hv as Hval. destruct (request_task _ Hval) as (task & Htask & Ht).
    destruct (task_has_name _ Ht) as (name & Hname & _). apply get_string_Some in Hid.
    rewrite (handle_message_terminal w body message task job_id name text) by done.
    repeat constructor; by intros (? & ? & ? & ?).
  - apply other_message_keys. intros message Hm. apply Hno. eauto.
Qed.

Context `{RS : !RedisStore X}.
#[local] Set Default Proof Using "All".

Lemma message_keeps_finished job_id text body (s : Machine X) :
  (∀ message, addressed job_id body message → validate_request message = Expected ()) →
  terminal_text (Expected text) = true → redis_view (ext s) !! job_id = Some text →
  Forall (reads_answered job_id) (Worker.handle_message w body s).2 →
  Forall (λ e, ¬ writes_key job_id e) (Worker.handle_message w body s).2.
Proof.
  intros Hvalid Hterm Hview Hreads.
  destruct (addressed_dec job_id body) as [(message & Hp & Hid)|Hno];
    [|apply other_message_keys; intros message Hm; apply Hno; eauto].
  apply (live_message_keeps job_id text); [done..|].
  destruct (handle_message_checks w body message job_id s Hp (Hvalid _ (conj Hp Hid))) as [rest Htrace];
    [by apply get_string_Some|].
  rewrite Htrace, !Forall_cons in Hreads. destruct Hreads as (_ & Hread & _). simpl in Hread.
  destruct (redis_get job_id (ext s)).1 as [text'|e] eqn:Hget; [|by destruct (Hread eq_refl e)].
  apply view_get_only in Hget. congruence.
Qed.

(** C3: a finished job stays finished. Whatever messages are handled after the
    job was recorded as finished, in any order and number, as long as those for
    the job itself are valid requests and no read of its document fails
    meanwhile (Redis answers and the document has not expired), nothing is
    written for the job again. *)
Theorem finished_job_stays_finished job_id text bodies (s : Machine X) :
  Forall (λ body, ∀ message, addressed job_id body message → validate_request message = Expected ()) bodies →
  terminal_text (Expected text) = true → redis_view (ext s) !! job_id = Some text →
  Forall (reads_answered job_id) (consume bodies s).2 →
  Forall (λ e, ¬ writes_key job_id e) (consume bodies s).2 ∧
  redis_view (ext (consume bodies s).1.2) !! job_id = Some text.
Proof.
  intros Hall Hterm. revert s. induction Hall as [|body bodies Hbody _ IH]; intros s Hview Hreads; [done|].
  cbn [consume] in *. pose proof (message_keeps_finished job_id text body s Hbody Hterm Hview) as Hkeep.
  pose proof (tracks_view _ s (handle_message_tracks w body)) as Htrack. unfold mbind, M_bind in *.
  destruct (Worker.handle_message w body s) as [[[r|e|] s1] es1]; simpl in *.
  - specialize (IH s1). destruct (consume bodies s1) as [[o s2] es2]. simpl in *.
    apply Forall_app in Hreads as [Hreads1 Hreads2]. specialize (Hkeep Hreads1).
    destruct IH as [Hrest Hend]; [by rewrite Htrack, replay_other|done|]. split; [by apply Forall_app|done].
  - split; [by apply Hkeep|]. rewrite Htrack, replay_other; [done|by apply Hkeep].
  - split; [by apply Hkeep|]. rewrite Htrack, replay_other; [done|by apply Hkeep].
Qed.

End History.

(** ** A request and its retries *)

Section Delivery.
Context {X : Type} `{Services X} `{FL : !FileLaws X} `{JsonCodec} `{JL : !JsonCodecLaws}.
Context (w : Worker.t).
#[local] Set Default Proof Using "All".

Abbreviation max_retry := (TaskDLQ.max_retry_count (Worker.task_dlq w)).

(** The message a trace put on the queue. *)
Fixpoint requeued (es : list Event) : option string :=
  match es with
  | [] => None
  | EvSend out _ _ (Expected _) :: _ => Some out
  | _ :: es => requeued es
  end.

(** Handle a message and then, as long as handling put one on the queue, that
    one; the last run, or [None] when [fuel] messages were not enough. *)
Fixpoint deliver (fuel : nat) (body : string) (s : Machine X)
    : option (outcome (expected unit) * Machine X * list Event) :=
  match fuel with
  | O => None
  | S fuel =>
      let '(o, s', es) := Worker.handle_message w body s in
      match o, requeued es with
      | Returned _, Some out => deliver fuel out s'
      | _, _ => Some (o, s', es)
      end
  end.

Lemma requeued_Some es out :
  requeued es = Some out → ∃ group dedup r, EvSend out group dedup r ∈ es.
Proof.
  induction es as [|e es IH]; simpl; [done|]. intros Hr.
  destruct e as [| | | | | | | | |b g d [[]|]| | |]; simplify_eq/=;
    try (destruct (IH Hr) as (? & ? & ? & ?); eexists _, _, _; by right).
  eexists _, _, _. by left.
Qed.

Lemma requeued_None es out group dedup :
  EvSend out group dedup (Expected ()) ∈ es → requeued es ≠ None.
Proof.
  induction es as [|e es IH]; [by intros ?%not_elem_of_nil|].
  intros [<-|Hin]%elem_of_cons; [done|]. specialize (IH Hin).
  destruct e as [| | | | | | | | |b g d [[]|]| | |]; done.
Qed.

Lemma vis_elem e es : e ∈ vis es → e ∈ es.
Proof. unfold vis. rewrite !list_elem_of_In. by intros [? _]%List.filter_In. Qed.

(** A write that Redis accepted. *)
Definition accepted (e : Event) : Prop :=
  match e with EvRedisSet _ _ _ r => r = Expected () | _ => True end.

(** The job is settled by the run with trace [es]: it was found finished and
    left alone, or the last visible interaction is the write of [done] or
    [failed], and Redis accepted it. *)
Definition settled (job_id : string) (es : list Event) : Prop :=
  (vis es = [] ∧ ∃ text, EvRedisGet job_id (Expected text) ∈ es ∧ terminal_text (Expected text) = true) ∨
  ∃ e, last (vis es) = Some e ∧ (writes w job_id "done" e ∨ writes w job_id "failed" e) ∧ accepted e.

(** Redis refuses no write. *)
Context (redis_accepts : ∀ key text ttl (x : X), (redis_set key text ttl x).1 = Expected ()).

#[local] Instance accepting_run : RunRelation (λ (_ : X) es (_ : X), Forall accepted es).
Proof.
  split; intros; try (by repeat constructor); [by apply Forall_app|].
  constructor; [apply redis_accepts|constructor].
Qed.

Lemma handled_accepted body (s s' : Machine X) o es e :
  Worker.handle_message w body s = (o, s', es) → e ∈ es → accepted e.
Proof.
  intros Hr. pose proof (handle_message_follows (λ (_ : X) es (_ : X), Forall accepted es) w body s) as Hall.
  rewrite Hr in Hall. rewrite Forall_forall in Hall. apply Hall.
Qed.

(** A handled request that was not put on the queue again is settled. *)
Lemma settled_unless_requeued body message job_id (s s' : Machine X) r es :
  parse body = inl (JObject message) → validate_request message = Expected () →
  message !! "job_id" = Some (JString job_id) →
  Worker.handle_message w body s = (Returned r, s', es) → requeued es = None →
  settled job_id es.
Proof.
  intros Hp Hv Hid Hr Hq. apply valid_request_iff in Hv as Hval.
  destruct (request_task _ Hval) as (task & Htask & Ht). destruct (task_has_name _ Ht) as (name & Hname & _).
  pose proof (handle_message_session w _ _ _ _ _ _ _ _ _ Hp Hv Hid Htask Hname Hr) as Hs.
  assert (Hlast : ∀ f, last (vis es) = Some f → writes w job_id "done" f ∨ writes w job_id "failed" f → settled job_id es).
  { intros f Hf Hw. right. exists f. split_and!; [done..|]. eapply handled_accepted; [done|].
    apply vis_elem. by apply last_Some_elem_of. }
  inversion Hs as [Hterm Hnil|f ? ? Hf Hnil|r0 es0 d ? ? ? Hd Hl|r0 es0 f ? ? ? Hf Hl
    |r0 es0 n e q ? ? ? ? Hsend ? Hl|r0 es0 n e err f ? ? ? ? ? Hf Hl].
  - left. split; [done|]. destruct (redis_get job_id (ext s)).1 as [text|] eqn:Hget; [|done].
    exists text. split; [|done].
    rewrite (handle_message_terminal w body message task job_id name text) in Hr by done.
    simplify_eq. set_solver.
  - apply (Hlast f); [by rewrite <-Hnil|auto].
  - apply (Hlast d); [by rewrite <-Hl, app_comm_cons, last_snoc|auto].
  - apply (Hlast f); [by rewrite <-Hl, app_comm_cons, last_snoc|auto].
  - exfalso. assert (Hin : e ∈ es) by (apply vis_elem; rewrite <-Hl; set_solver).
    unfold sends in Hsend. rewrite Hsend in Hin. by apply requeued_None in Hin.
  - apply (Hlast f); [|auto]. rewrite <-Hl. change [e; f] with ([e] ++ [f]). by rewrite app_assoc, app_comm_cons, last_snoc.
Qed.

Lemma deliver_settles fuel body message job_id (s : Machine X) :
  healthy (files s) → parse body = inl (JObject message) → json_wf (JObject message) = true →
  validate_request message = Expected () → message !! "job_id" = Some (JString job_id) →
  max_retry ≤ INT_MAX → Z.max 0 (max_retry - Z.max 0 (Worker.inbound_count message)) < Z.of_nat fuel →
  ∃ o s' es, deliver fuel body s = Some (o, s', es) ∧
    (o = Undefined ∨ o = Returned (Expected ()) ∧ settled job_id es).
Proof.
  revert body message s. induction fuel as [|fuel IH];
    intros body message s Hh Hp Hwf Hv Hid Hmax Hfuel; [lia|]. cbn [deliver].
  destruct (handle_message_safe w healthy (λ _, id) healthy_same body s Hh) as [Hh' Ho].
  destruct (Worker.handle_message w body s) as [[o s'] es] eqn:Hr; simpl in Hh', Ho.
  destruct o as [r|e|]; [|done|by eexists _, _, _; split; [done|left]]. subst r.
  destruct (requeued es) as [out|] eqn:Hq.
  - destruct (requeued_Some _ _ Hq) as (group & dedup & r & Hin).
    assert (Hin' : EvSend out group dedup r ∈ (Worker.handle_message w body s).2) by (by rewrite Hr).
    destruct (send_in_trace w _ _ _ _ _ _ _ Hp Hin') as (id & n & _ & _ & (Hlow & Hgt & Hup) & -> & _ & _).
    assert (Hint : in_int n) by (unfold in_int, INT_MIN; lia).
    pose proof (count_insert_wf message n Hwf Hint) as Hwf'.
    eapply (IH _ (<["dlq_try_count" := JInt64 n]> message)); try done.
    + by apply parse_serialize.
    + by apply valid_request_iff, valid_request_count, valid_request_iff.
    + by rewrite lookup_insert_ne.
    + rewrite inbound_count_insert by done. lia.
  - eexists _, _, _. split; [done|]. right. split; [done|].
    by eapply settled_unless_requeued.
Qed.

(** C2: every request is settled after finitely many messages. On a healthy
    file system and with a Redis that accepts writes, handling a valid request
    and then each retry it puts on the queue ends after at most one more
    message than the retry limit, and then the last thing recorded for the job
    is [done] or [failed] (or the job was found finished already), unless a
    retry counter overflows. *)
Theorem request_is_settled body message job_id (s : Machine X) :
  healthy (files s) → parse body = inl (JObject message) → json_wf (JObject message) = true →
  validate_request message = Expected () → message !! "job_id" = Some (JString job_id) →
  max_retry ≤ INT_MAX →
  ∃ o s' es, deliver (S (Z.to_nat max_retry)) body s = Some (o, s', es) ∧
    (o = Undefined ∨ o = Returned (Expected ()) ∧ settled job_id es).
Proof. intros. eapply deliver_settles; try done. lia. Qed.

End Delivery.

(** ** Concrete histories *)

#[export] Instance sim_store : RedisStore Sim.
Proof.
  refine (Build_RedisStore _ _ sim_redis _ _ _ _ _ _ _ _ _ _).
  - done.
  - intros key x text. simpl. by destruct (sim_redis x !! key) as [v|]; intros [= ->].
  - done.
  - intros b k p fs x. simpl. by destruct (sim_objects x !! _).
  - intros b k p fs x. simpl. by destruct (open_read fs p).
  - done.
  - intros body group dedup x. simpl. by destruct (sim_refuse_send x).
  - intros exe args out timeout fs x. simpl. by destruct (sim_hangs x).
  - done.
  - done.
Defined.

#[export] Instance sim_answering : AnsweringStore Sim.
Proof. intros key x text Hk. simpl in *. by rewrite Hk. Qed.

Lemma sim_accepts key text ttl (x : Sim) : (redis_set key text ttl x).1 = Expected ().
Proof. reflexivity. Qed.

Section HistoryWitnesses.
Import RefCodec.

Lemma finished_job_stays_finished_witness :
  redis_view (ext (consume Sample.worker [Sample.body; Sample.body]
    (Sample.machine {["job-1" := finished]} 0)).1.2) !! "job-1" = Some finished.
Proof.
  apply (finished_job_stays_finished Sample.worker "job-1" finished [Sample.body; Sample.body]
    (Sample.machine {["job-1" := finished]} 0)).
  - assert (Hvalid : ∀ message, addressed "job-1" Sample.body message → validate_request message = Expected ()).
    { intros message [Hp _]. rewrite Sample.body_parses in Hp. injection Hp as <-.
      exact Sample.message_valid. }
    constructor; [exact Hvalid|]. constructor; [exact Hvalid|constructor].
  - vm_compute. reflexivity.
  - reflexivity.
  - vm_compute. repeat constructor; intros; discriminate.
Defined.

(** The messages the sample worker may need for one request. *)
Definition sample_fuel : nat := S (Z.to_nat (TaskDLQ.max_retry_count (Worker.task_dlq Sample.worker))).

Lemma request_is_settled_witness :
  ∃ r, deliver Sample.worker sample_fuel Sample.body (Sample.machine ∅ 1) = Some r ∧
    r.1.1 = Returned (Expected ()).
Proof.
  destruct (request_is_settled Sample.worker sim_accepts Sample.body Sample.message "job-1" (Sample.machine ∅ 1))
    as (o & s' & es & Hd & Ho);
    [exact sim_fs_healthy|exact Sample.body_parses|vm_compute; reflexivity|exact Sample.message_valid
    |reflexivity|vm_compute; discriminate|].
  exists (o, s', es). split; [exact Hd|].
  assert (Hr : option_map (λ r, r.1.1) (deliver Sample.worker sample_fuel Sample.body (Sample.machine ∅ 1))
    = Some (Returned (Expected ()))) by (vm_compute; reflexivity).
  unfold sample_fuel in Hr. rewrite Hd in Hr. injection Hr as Hr. exact Hr.
Defined.
End HistoryWitnesses.
