(* ===== verification/JobStates.v ===== *)
(** * The type and the state machine of a job

    Over any sequence of messages: every status document the worker stores has
    the type of [StatusSchema] ([status_documents_typed]), and the status of a
    job moves only along the transitions of an abstract state machine
    ([job_follows_state_machine]). *)

From S2P Require Import Prelude Utf8 Json Filesystem Effects Testbed MessageValidation Configurations.
From S2P Require Import TaskDLQ TaskExecutor WorkerStatus Worker StatusSchema WorkerTrace WorkerRuns WorkerSafety WorkerProtocol.
From S2P Require Import WorkerSample WorkerProperties WorkerHistory.
Import MessageValidation.

(** ** Typed writes *)

Section Typed.
Context {X : Type} `{Services X} `{JsonCodec} `{JL : !JsonCodecLaws}.
Context (w : Worker.t) (k : string).
#[local] Set Default Proof Using "Type JL".

(** A text that is a typed status document of [k], if it is a document. *)
Definition typed_text (text : string) : Prop := ∀ d, parse text = inl (JObject d) → schema k d.

Definition typed_store (store : gmap string string) : Prop := ∀ text, store !! k = Some text → typed_text text.

Definition typed_event (e : Event) : Prop :=
  match e with EvRedisSet key text _ _ => key = k → typed_text text | _ => True end.

Definition typed_read (e : Event) : Prop :=
  match e with EvRedisGet key (Expected text) => key = k → typed_text text | _ => True end.

(** A trace that writes only typed documents for [k], as long as those it
    reads are typed. *)
Fixpoint rely_typed (es : list Event) : Prop :=
  match es with [] => True | e :: es => typed_event e ∧ (typed_read e → rely_typed es) end.

Definition typed {A} (m : M X A) : Prop := ∀ s, rely_typed (m s).2.

Lemma rely_typed_app es es' : rely_typed es → rely_typed es' → rely_typed (es ++ es').
Proof. intros Hes Hes'. induction es as [|e es IH]; simpl in *; [done|]. destruct Hes. auto. Qed.

Lemma rely_typed_all es : Forall typed_event es → rely_typed es.
Proof. induction 1; by simpl. Qed.

Lemma typed_emits {A} (m : M X A) : emits typed_event m → typed m.
Proof. intros Hm s. apply rely_typed_all, Hm. Qed.

Lemma typed_bind {A B} (m : M X A) (f : A → M X B) :
  typed m → (∀ s a s' es, m s = (Returned a, s', es) → typed (f a)) → typed (m ≫= f).
Proof.
  intros Hm Hf s. specialize (Hm s). unfold mbind, M_bind.
  destruct (m s) as [[[a|e|] s'] es] eqn:Hr; simpl in *; [|done..].
  specialize (Hf s a s' es Hr s'). destruct (f a s') as [[o s''] es']. by apply rely_typed_app.
Qed.

Lemma typed_with_cleanup {A} (m : M X A) c : typed m → typed c → typed (with_cleanup m c).
Proof.
  intros Hm Hc s. specialize (Hm s). unfold with_cleanup.
  destruct (m s) as [[o s'] es]; simpl in *. specialize (Hc s').
  destruct (c s') as [[o' s''] es']. by apply rely_typed_app.
Qed.

Lemma typed_ret {A} (a : A) : typed (mret a).
Proof. apply typed_emits, emits_ret. Qed.
Lemma typed_log l m : typed (log l m).
Proof. by apply typed_emits, emits_emit. Qed.

Lemma typed_log_then {A} l m (next : M X A) : typed next → typed (log l m;; next).
Proof. intros Hn. apply typed_bind; [apply typed_log|done]. Qed.

Lemma typed_status id st updates :
  updates_ok updates → st ∈ job_statuses → typed (Worker.status w id st updates).
Proof.
  intros Hu Hst s. unfold Worker.status.
  destruct (set_job_status_run (redis_ttl_sec_ (Worker.configurations w)) id st updates s)
    as (existing & updated_at & saved & x & _ & ->). cbn [snd app rely_typed].
  split; [done|]. intros Hread. split; [|intros _; apply rely_typed_all; by destruct saved; repeat constructor].
  intros -> d Hp.
  assert (Hfields : fields_ok (stored_document existing)).
  { unfold stored_document. destruct existing as [text|]; [|apply map_Forall_empty].
    destruct (parse text) as [[| | | | | | |d']|] eqn:Ht; try apply map_Forall_empty.
    by apply (schema_fields k), Hread. }
  pose proof (merge_schema _ k st updates updated_at Hfields Hu Hst) as Hschema.
  by apply fields_ok_readback in Hp as ->; [|apply (schema_fields k)].
Qed.

Lemma typed_remove q id : typed (TaskDLQ.remove q id : M X unit).
Proof. apply typed_emits, TaskDLQ.remove_emits. Qed.

Lemma typed_remove_then {A} q id (next : M X A) : typed next → typed (TaskDLQ.remove q id;; next).
Proof. intros Hn. apply typed_bind; [apply typed_remove|done]. Qed.

(** ** The operations of the worker *)

Lemma typed_fail_without_retry id message reason : typed (Worker.fail_without_retry w id message reason).
Proof.
  apply typed_log_then.
  apply typed_bind; [|intros; apply typed_remove].
  apply typed_status; [apply failure_updates_ok|set_solver].
Qed.

Lemma typed_republish id reason message n : in_int n → typed (Worker.republish_job w id reason message n).
Proof.
  intros Hn. unfold Worker.republish_job. cbv zeta.
  apply typed_bind; [apply typed_emits, backoff_emits|intros s b s' es _].
  apply typed_log_then.
  apply typed_bind; [by apply typed_emits, emits_emit|intros _ _ _ _ _].
  apply typed_bind; [apply typed_emits, emits_call; intros; by repeat constructor|].
  intros _ [[]|e] _ _ _.
  - apply typed_log_then.
    apply typed_status; [by apply counted_updates_ok|set_solver].
  - apply typed_log_then.
    apply typed_remove_then.
    apply typed_status; [by apply counted_updates_ok|set_solver].
Qed.

Lemma typed_failure id body reason : typed (Worker.handle_processing_failure w id body reason).
Proof.
  unfold Worker.handle_processing_failure. cbv zeta.
  apply typed_bind; [apply typed_emits, TaskDLQ.record_failure_emits|].
  intros s [n|e] s' es Hr.
  - apply TaskDLQ.record_failure_in_int in Hr; [|apply inbound_count_in_int].
    destruct (negb _); [|by apply typed_republish].
    apply typed_log_then.
    apply typed_remove_then.
    apply typed_status; [by apply counted_updates_ok|set_solver].
  - apply typed_log_then.
    apply typed_status; [apply failure_updates_ok|set_solver].
Qed.

Lemma typed_run_job message task id name d root : typed (Worker.run_job w message task id name d root).
Proof.
  unfold Worker.run_job.
  apply typed_bind; [by apply typed_emits, download_inputs_emits|].
  intros _ [[]|e] _ _ _; [|apply typed_ret].
  apply typed_bind; [apply typed_emits, task_arguments_emits|intros _ args _ _ _].
  apply typed_bind; [apply typed_emits, task_timeout_emits|intros _ timeout _ _ _].
  apply typed_bind; [by apply typed_emits, TaskExecutor.execute_emits|].
  intros _ [result|e] _ _ _; [|apply typed_ret].
  destruct (TaskExecutor.exit_code result =? 0) eqn:Hcode; cbn [negb]; [|apply typed_ret].
  apply Z.eqb_eq in Hcode.
  apply typed_bind; [apply typed_emits, at_string_emits|intros _ prefix _ _ _].
  apply typed_bind; [by apply typed_emits, upload_outputs_emits|].
  intros s [urls|e] s' es Hr; [|apply typed_ret]. apply upload_outputs_results_typed in Hr.
  apply typed_bind; [|intros _ _ _ _ _].
  { apply typed_status; [by apply done_updates_ok; [rewrite Hcode|]|set_solver]. }
  apply typed_remove_then.
  apply typed_log_then, typed_ret.
Qed.

Lemma typed_process_job message body : typed (Worker.process_job w message body).
Proof.
  unfold Worker.process_job, Worker.at_object, Worker.at_value.
  apply typed_bind; [apply typed_emits, at_string_emits|intros _ id _ _ _].
  apply typed_bind; [apply typed_emits; emits_tac|intros _ task _ _ _].
  apply typed_bind; [apply typed_emits, at_string_emits|intros _ name _ _ _].
  apply typed_bind; [apply typed_emits; unfold is_terminal_status; emits_tac|].
  intros _ [|] _ _ _.
  { apply typed_log_then, typed_ret. }
  destruct (TaskExecutor.find_task _ _) as [d|].
  - apply typed_bind; [apply typed_status; [apply contract_fields_ok|set_solver]|intros _ _ _ _ _].
    unfold with_temp_dir, make_temp_dir, remove_temp_dir.
    apply typed_bind; [apply typed_emits; emits_tac|intros _ root _ _ _].
    apply typed_with_cleanup; [apply typed_run_job|apply typed_emits; emits_tac].
  - apply typed_bind; [apply typed_fail_without_retry|intros; apply typed_ret].
Qed.

Lemma typed_reject message error : typed (Worker.reject_message w message error).
Proof.
  unfold Worker.reject_message. apply typed_log_then.
  apply typed_bind; [|intros; apply typed_ret].
  repeat case_match; try apply typed_ret. apply typed_status; [apply failure_updates_ok|set_solver].
Qed.

Lemma typed_handle_message body : typed (Worker.handle_message w body).
Proof.
  unfold Worker.handle_message. apply typed_log_then.
  destruct (parse body) as [v|what]; [|apply typed_log_then, typed_ret].
  destruct (as_object v) as [message|];
    [|apply typed_log_then, typed_ret].
  destruct (validate_request message); [|apply typed_reject].
  apply typed_bind; [apply typed_process_job|].
  intros _ [[]|e] _ _ _; [apply typed_ret|].
  apply typed_bind; [apply typed_emits, at_string_emits|intros _ id _ _ _].
  apply typed_log_then.
  apply typed_bind; [apply typed_failure|intros; apply typed_ret].
Qed.

Lemma typed_consume bodies : typed (consume w bodies).
Proof.
  induction bodies as [|body bodies IH]; simpl; [apply typed_ret|].
  apply typed_bind; [apply typed_handle_message|done].
Qed.

(** ** Typed stores *)

Lemma replay_typed es store : typed_store store → Forall typed_event es → typed_store (replay es store).
Proof.
  intros Hs Hes. revert store Hs. induction Hes as [|e es He _ IH]; intros store Hs; [done|]. apply IH.
  destruct e as [| | | | |key text ttl [[]|]| | | | | | |]; try done. simpl. intros t.
  rewrite lookup_insert_Some. intros [[-> ->]|[_ Ht]]; [by apply He|by apply Hs].
Qed.

(** What is read from a typed store is typed. *)
Lemma typed_store_read store e : typed_store store → read_stored store e → typed_read e.
Proof. intros Hs. destruct e as [| | | |key [text|]| | | | | | | |]; try done. intros Hr ->. by apply Hs. Qed.

Lemma typed_from_store es store :
  typed_store store → reads_stored store es → rely_typed es → Forall typed_event es.
Proof.
  revert store. induction es as [|e es IH]; intros store Hs Hr Ht; [done|].
  destruct Hr as [Hread Hr], Ht as [He Ht]. constructor; [done|].
  apply (IH (replay_event store e)); [|done|by apply Ht, (typed_store_read store)].
  apply (replay_typed [e]); [done|by constructor].
Qed.

Context `{RS : !RedisStore X}.
#[local] Set Default Proof Using "Type RS JL".

Lemma consume_tracks bodies : tracks (consume w bodies).
Proof. apply (consume_follows w tracking). Qed.

(** Status documents keep their type. Whatever messages are handled
    (valid or not, for this job or others), every document the worker writes
    for a job has the contract's fields and no others: job id, one of the four
    statuses and a timestamp, and the optional ones with their types; so a
    store that held such a document (or none) holds one afterwards. *)
Theorem status_documents_typed bodies (s : Machine X) :
  typed_store (redis_view (ext s)) →
  Forall typed_event (consume w bodies s).2 ∧ typed_store (redis_view (ext (consume w bodies s).1.2)).
Proof.
  intros Hs. destruct (consume_tracks bodies s) as [Hview Hreads].
  pose proof (typed_from_store _ _ Hs Hreads (typed_consume bodies s)) as Hall. split; [done|].
  rewrite Hview. by apply replay_typed.
Qed.

End Typed.

(** ** The abstract state machine of a job *)

Inductive job_state := JNone | JQueued | JRunning | JDone | JFailed.

#[export] Instance job_state_eq_dec : EqDecision job_state.
Proof. solve_decision. Defined.

(** Not finished: work on the job may start (again). *)
Definition open_state (a : job_state) : bool := match a with JDone | JFailed => false | _ => true end.

Inductive job_step : job_state → job_state → Prop :=
| job_take a : open_state a = true → job_step a JRunning
| job_fail a : open_state a = true → job_step a JFailed
| job_finish : job_step JRunning JDone
| job_retry : job_step JRunning JQueued.

(** A run of the machine from [a] through the states [l]. *)
Fixpoint job_path (a : job_state) (l : list job_state) : Prop :=
  match l with [] => True | b :: l => job_step a b ∧ job_path b l end.

Lemma job_path_app a l l' : job_path a (l ++ l') ↔ job_path a l ∧ job_path (default a (last l)) l'.
Proof.
  revert a. induction l as [|b l IH]; intros a; cbn [job_path app]; [simpl; tauto|].
  rewrite IH, last_cons. destruct (last l); simpl; tauto.
Qed.

(** What a client reads off a stored text. *)
Definition status_state (st : string) : job_state :=
  if bool_decide (st = "queued") then JQueued
  else if bool_decide (st = "running") then JRunning
  else if bool_decide (st = "done") then JDone
  else if bool_decide (st = "failed") then JFailed
  else JNone.

Section StateMachine.
Context {X : Type} `{Services X} `{RS : !RedisStore X} `{AS : !AnsweringStore X} `{JsonCodec} `{JL : !JsonCodecLaws}.
Context (w : Worker.t) (k : string).
#[local] Set Default Proof Using "Type RS AS JL".

Definition text_state (text : string) : job_state :=
  match parse text with
  | inl (JObject d) => match get_string d "status" with Some st => status_state st | None => JNone end
  | _ => JNone
  end.

Definition stored_state (store : gmap string string) : job_state :=
  match store !! k with Some text => text_state text | None => JNone end.

(** The states written for the job, in order. *)
Definition written (es : list Event) : list job_state :=
  omap (λ e, match e with
             | EvRedisSet key text _ (Expected _) => if bool_decide (key = k) then Some (text_state text) else None
             | _ => None
             end) es.

(** A write for the job succeeds, and what it writes can be read back. *)
Definition write_ok (e : Event) : Prop :=
  match e with
  | EvRedisSet key text _ r => key = k → r = Expected () ∧ ∃ d, parse text = inl (JObject d)
  | _ => True
  end.

Lemma written_app es es' : written (es ++ es') = written es ++ written es'.
Proof. apply omap_app. Qed.

Lemma written_vis es : written (vis es) = written es.
Proof.
  induction es as [|e es IH]; [done|]. simpl. destruct e; simpl; rewrite ?IH; try done; by destruct (_ : option _).
Qed.

Lemma written_none (P : Event → Prop) es :
  (∀ e, P e → ¬ writes_key k e) → Forall P es → written es = [].
Proof.
  intros HP. induction 1 as [|e es He _ IH]; [done|]. apply HP in He. simpl.
  destruct e as [| | | | |key text ttl [[]|]| | | | | | |]; try done.
  rewrite bool_decide_eq_false_2; [done|]. intros ->. apply He. by eexists _, _, _.
Qed.

(** The stored state is the last one written. *)
Lemma stored_state_replay es store :
  stored_state (replay es store) = default (stored_state store) (last (written es)).
Proof.
  revert store. induction es as [|e es IH]; intros store; [done|].
  change (replay (e :: es) store) with (replay es (replay_event store e)). rewrite IH.
  destruct e as [| | | | |key text ttl [[]|]| | | | | | |]; try done. simpl. case_bool_decide as Hk; simpl.
  - subst. unfold stored_state at 1. rewrite lookup_insert_eq.
    change (omap _ es) with (written es). rewrite last_cons. by destruct (last (written es)).
  - change (omap _ es) with (written es). destruct (last (written es)); [done|]. simpl.
    unfold stored_state. by rewrite lookup_insert_ne.
Qed.

(** The state a status write of the worker leaves. *)
Lemma writes_state st e :
  writes w k st e → write_ok e → written [e] = [status_state st].
Proof.
  intros (updates & Hu & existing & t & r & ->) Hok. destruct (Hok eq_refl) as [-> [d Hp]]. simpl.
  rewrite bool_decide_eq_true_2 by done. f_equal. unfold text_state. rewrite Hp.
  assert (Hst : d !! "status" = Some (JString st)).
  { apply (parse_serialize_string _ _ _ _ Hp). rewrite merge_status_lookup. simpl.
    destruct (updates !! "status") as [v|] eqn:Hv; [|done].
    destruct (Hu _ _ Hv) as [Hn _]. exfalso. apply Hn. set_solver. }
  apply get_string_Some in Hst. by rewrite Hst.
Qed.

(** Whether the job counts as finished is what its stored state says. *)
Lemma terminal_open (x : X) :
  terminal_text (redis_get k x).1 = negb (open_state (stored_state (redis_view x))).
Proof.
  unfold stored_state. destruct (redis_view x !! k) as [text|] eqn:Hv.
  - rewrite (view_get_stored _ _ _ Hv). unfold terminal_text, text_state.
    destruct (parse text) as [[| | | | | | |d]|]; try done. destruct (get_string d "status") as [st|]; [|done].
    unfold status_state. repeat case_bool_decide; subst; naive_solver.
  - destruct (redis_get k x).1 as [text|] eqn:Hg; [|done]. apply view_get_only in Hg. by rewrite Hv in Hg.
Qed.

Lemma quiet_attempt name es : attempt w name es → written es = [].
Proof.
  assert (Hd : ∀ ds, Forall is_download ds → written ds = []).
  { intros ds. apply written_none. intros e (?&?&?&?&->) (?&?&?&?). done. }
  assert (Hu : ∀ us, Forall is_upload us → written us = []).
  { intros us. apply written_none. intros e (?&?&?&?&->) (?&?&?&?). done. }
  intros [ds Hds|ds x us Hds (?&?&?&_&->) Hus]; [by apply Hd|]. rewrite written_app, Hd by done. simpl. by apply Hu.
Qed.

Lemma complete_is_attempt name es : complete_attempt w name es → attempt w name es.
Proof.
  intros [ds x us Hd Hx Hu]. apply attempt_executed; [done..|]. eapply Forall_impl; [done|].
  intros e (b & key & p & ->). by eexists _, _, _, _.
Qed.

(** One valid request for the job moves it along the machine. *)
Lemma message_path body message (s s' : Machine X) r es :
  parse body = inl (JObject message) → validate_request message = Expected () →
  message !! "job_id" = Some (JString k) →
  Worker.handle_message w body s = (Returned r, s', es) → Forall write_ok es →
  job_path (stored_state (redis_view (ext s))) (written es).
Proof.
  intros Hp Hv Hid Hr Hok. apply valid_request_iff in Hv as Hval.
  destruct (request_task _ Hval) as (task & Htask & Ht). destruct (task_has_name _ Ht) as (name & Hname & _).
  pose proof (handle_message_session w _ _ _ _ _ _ _ _ _ Hp Hv Hid Htask Hname Hr) as Hs.
  assert (Hokv : Forall write_ok (vis es)).
  { apply Forall_forall. intros e He. rewrite Forall_forall in Hok. by apply Hok, vis_elem. }
  rewrite <-written_vis. set (a := stored_state (redis_view (ext s))).
  assert (Hopen : terminal_text (redis_get k (ext s)).1 = false → open_state a = true).
  { rewrite terminal_open. by destruct (open_state _). }
  assert (Hstep : ∀ st e, writes w k st e → e ∈ vis es → written [e] = [status_state st]).
  { intros st e Hw He. apply writes_state; [done|]. rewrite Forall_forall in Hokv. auto. }
  assert (Hmid : ∀ r0 es0 rest, vis es = r0 :: es0 ++ rest → writes w k "running" r0 → attempt w (c_str name) es0 →
    written (vis es) = JRunning :: written rest).
  { intros r0 es0 rest Heq Hr0 Ha. rewrite Heq. change (r0 :: es0 ++ rest) with ([r0] ++ es0 ++ rest).
    rewrite !written_app, (quiet_attempt _ _ Ha), (Hstep _ _ Hr0); [done|]. rewrite Heq. by left. }
  assert (Hsend : ∀ e, (∃ n r, sends w k message n r e) → written [e] = []) by (by intros e (n & r' & ->)).
  destruct Hs as [Hterm|f Hterm _ Hf|r0 es0 d [Hterm _] Hr0 Ha Hd|r0 es0 f [Hterm _] Hr0 Ha Hf
    |r0 es0 n e q [Hterm _] Hr0 Ha _ He Hq|r0 es0 n e err f [Hterm _] Hr0 Ha _ He Hf].
  - done.
  - rewrite (Hstep _ _ Hf) by set_solver. split; [|done]. by apply job_fail, Hopen.
  - rewrite (Hmid r0 es0 [d]), (Hstep _ _ Hd) by (done || set_solver || by apply complete_is_attempt).
    split; [by apply job_take, Hopen|]. split; [apply job_finish|done].
  - rewrite (Hmid r0 es0 [f]), (Hstep _ _ Hf) by (done || set_solver).
    split; [by apply job_take, Hopen|]. split; [by apply job_fail|done].
  - rewrite (Hmid r0 es0 ([e] ++ [q])) by done. rewrite written_app, Hsend, (Hstep _ _ Hq) by (eauto || set_solver).
    split; [by apply job_take, Hopen|]. split; [apply job_retry|done].
  - rewrite (Hmid r0 es0 ([e] ++ [f])) by done. rewrite written_app, Hsend, (Hstep _ _ Hf) by (eauto || set_solver).
    split; [by apply job_take, Hopen|]. split; [by apply job_fail|done].
Qed.

(** C11: the status of a job follows the state machine. Over any sequence of
    messages (those for the job itself being valid requests), with a Redis that
    answers reads with what was written last, and as long as the status writes
    of the job succeed and can be read back, the states written for it are
    a run of the machine from the state stored before, and the stored state
    afterwards is where that run ends: a job is taken up only while it is not
    finished, becomes done or queued only from running, and once done or failed
    never changes. *)
Theorem job_follows_state_machine bodies (s s' : Machine X) es :
  Forall (λ body, ∀ message, addressed k body message → validate_request message = Expected ()) bodies →
  consume w bodies s = (Returned (), s', es) → Forall write_ok es →
  job_path (stored_state (redis_view (ext s))) (written es) ∧
  stored_state (redis_view (ext s')) = default (stored_state (redis_view (ext s))) (last (written es)).
Proof.
  intros Hall Hr Hok. split.
  2:{ pose proof (tracks_view _ s (consume_tracks w bodies)) as Ht. rewrite Hr in Ht. simpl in Ht. rewrite Ht. apply stored_state_replay. }
  revert s es Hr Hok. induction Hall as [|body bodies Hbody _ IH]; intros s es Hr Hok; simpl in Hr; [by ret_inv Hr|].
  bind_inv Hr as (r & s1 & es1 & es2 & H1 & Hr & ->). apply Forall_app in Hok as [Hok1 Hok2].
  rewrite written_app, job_path_app.
  pose proof (tracks_view _ s (handle_message_tracks w body)) as Ht. rewrite H1 in Ht. simpl in Ht. split.
  - destruct (addressed_dec k body) as [(message & Hp & Hid)|Hno].
    + apply (message_path body message s s1 r); [done|by apply Hbody|by apply get_string_Some|done..].
    + rewrite (written_none (λ e, ¬ writes_key k e)); [done|auto|].
      pose proof (other_message_keys w k body ltac:(intros message Hm; apply Hno; eauto) s) as Hquiet.
      by rewrite H1 in Hquiet.
  - rewrite <-stored_state_replay, <-Ht. by apply IH.
Qed.

End StateMachine.

(** ** Concrete histories *)

Section JobStateWitnesses.
Import RefCodec.

(** A job handled twice: run, then redelivered. *)
Definition history0 : outcome unit * Machine Sim * list Event :=
  consume Sample.worker [Sample.body; Sample.body] (Sample.machine ∅ 0).

Lemma status_documents_typed_witness : Forall (typed_event "job-1") history0.2.
Proof.
  apply (status_documents_typed Sample.worker "job-1" [Sample.body; Sample.body] (Sample.machine ∅ 0)).
  intros text Ht. discriminate Ht.
Defined.

(** [write_ok] as a test. *)
Definition write_okb (k : string) (e : Event) : bool :=
  match e with
  | EvRedisSet key text _ r =>
      negb (bool_decide (key = k)) ||
      (has_value r && match ref_parse text with inl (JObject _) => true | _ => false end)
  | _ => true
  end.

Lemma write_okb_ok k e : write_okb k e = true → write_ok k e.
Proof.
  destruct e as [| | | | |key text ttl r| | | | | | |]; try done. simpl. intros Hb ->.
  rewrite bool_decide_eq_true_2 in Hb by done. simpl in Hb. destruct r as [[]|]; [|done]. split; [done|].
  simpl in *. destruct (ref_parse text) as [[| | | | | | |d]|]; try done. by exists d.
Qed.

Lemma write_okb_all k es : forallb (write_okb k) es = true → Forall (write_ok k) es.
Proof.
  intros Hb. apply Forall_forall. intros e He. apply write_okb_ok. rewrite forallb_forall in Hb.
  by apply Hb, list_elem_of_In.
Qed.

Lemma history0_returns : history0.1.1 = Returned ().
Proof. vm_compute. reflexivity. Qed.
Lemma history0_writes : forallb (write_okb "job-1") history0.2 = true.
Proof. vm_compute. reflexivity. Qed.
Lemma history0_states : written "job-1" history0.2 = [JRunning; JDone].
Proof. vm_compute. reflexivity. Qed.

Lemma history0_start : stored_state "job-1" (redis_view (ext (Sample.machine ∅ 0))) = JNone.
Proof. vm_compute. reflexivity. Qed.
Lemma history0_run : consume Sample.worker [Sample.body; Sample.body] (Sample.machine ∅ 0) = (Returned (), history0.1.2, history0.2).
Proof. fold history0. rewrite <-history0_returns. by destruct history0 as [[o s] es]. Qed.

Lemma job_follows_state_machine_witness : job_path JNone [JRunning; JDone].
Proof.
  assert (Hvalid : ∀ message, addressed "job-1" Sample.body message → validate_request message = Expected ()).
  { intros message [Hp _]. rewrite Sample.body_parses in Hp. injection Hp as <-. exact Sample.message_valid. }
  destruct (job_follows_state_machine Sample.worker "job-1" [Sample.body; Sample.body] (Sample.machine ∅ 0)
    history0.1.2 history0.2) as [Hpath _].
  - constructor; [exact Hvalid|]. constructor; [exact Hvalid|constructor].
  - exact history0_run.
  - exact (write_okb_all _ _ history0_writes).
  - rewrite history0_start, history0_states in Hpath. exact Hpath.
Defined.
End JobStateWitnesses.
