(* ===== verification/Expiry.v ===== *)
(** * The lifetime of a status document

    Every status is written with a lifetime ([redis_ttl_sec]), after which
    Redis drops it. Here Redis has a time of its own, its entries have
    deadlines, and reads see live entries only. A finished job is protected by
    its document for the lifetime counted from the last write, and not
    longer. *)

From S2P Require Import Prelude Utf8 Json Filesystem Effects Testbed MessageValidation Configurations.
From S2P Require Import TaskDLQ TaskExecutor WorkerStatus Worker WorkerTrace WorkerRuns WorkerSafety WorkerProtocol.
From S2P Require Import WorkerSample WorkerProperties WorkerHistory.
Import MessageValidation.

(** ** A Redis with deadlines *)

(** A value, and the second from which it is gone. *)
Record Entry := mkEntry { value : string; deadline : option Z }.

Definition live (now : Z) (e : Entry) : bool :=
  match deadline e with None => true | Some d => now <? d end.

(** What a read at [now] finds. *)
Definition found (now : Z) (store : gmap string Entry) (key : string) : option string :=
  e ← store !! key; if live now e then Some (value e) else None.

(** A call is answered at the time of the state it is made in, and time may
    pass afterwards, never back. A read returns the live value, if there is
    one; a write that succeeded with a positive lifetime (or none) lives from
    then on for that lifetime; a failed one changes nothing; nothing else
    changes the entries. *)
Class ExpiringRedis (X : Type) `{Services X} := {
  entries : X → gmap string Entry;
  redis_time : X → Z;
  exp_get key x : entries (redis_get key x).2 = entries x ∧ redis_time x ≤ redis_time (redis_get key x).2 ∧
    match found (redis_time x) (entries x) key with
    | Some text => (redis_get key x).1 = Expected text
    | None => ∃ e, (redis_get key x).1 = Unexpected e
    end;
  exp_set key text ttl x :
    redis_time x ≤ redis_time (redis_set key text ttl x).2 ∧
    (∀ k, k ≠ key → entries (redis_set key text ttl x).2 !! k = entries x !! k) ∧
    match (redis_set key text ttl x).1 with
    | Expected _ => (∀ t, ttl = Some t → 0 < t) →
        entries (redis_set key text ttl x).2 !! key = Some (mkEntry text (Z.add (redis_time x) <$> ttl))
    | Unexpected _ => entries (redis_set key text ttl x).2 !! key = entries x !! key
    end;
  exp_download b k p fs x : let x' := (s3_download_file b k p fs x).2 in
    entries x' = entries x ∧ redis_time x ≤ redis_time x';
  exp_upload b k p fs x : let x' := (s3_upload_file b k p fs x).2 in
    entries x' = entries x ∧ redis_time x ≤ redis_time x';
  exp_presign b k ttl x : let x' := (s3_presign b k ttl x).2 in
    entries x' = entries x ∧ redis_time x ≤ redis_time x';
  exp_send body group dedup x : let x' := (sqs_send_message body group dedup x).2 in
    entries x' = entries x ∧ redis_time x ≤ redis_time x';
  exp_child exe args out timeout fs x : let x' := (run_child exe args out timeout fs x).2 in
    entries x' = entries x ∧ redis_time x ≤ redis_time x';
  exp_now x : let x' := (system_clock_now x).2 in entries x' = entries x ∧ redis_time x ≤ redis_time x';
  exp_uniform lo hi x : let x' := (uniform_int lo hi x).2 in entries x' = entries x ∧ redis_time x ≤ redis_time x';
}.

(** The last write of a trace that stored something under [k]. *)
Fixpoint last_set (k : string) (es : list Event) : option (string * option Z) :=
  match es with
  | [] => None
  | e :: es =>
      match last_set k es, e with
      | Some w, _ => Some w
      | None, EvRedisSet key text ttl (Expected _) => if bool_decide (key = k) then Some (text, ttl) else None
      | None, _ => None
      end
  end.

Lemma last_set_app k es es' :
  last_set k (es ++ es') = match last_set k es' with Some w => Some w | None => last_set k es end.
Proof. induction es as [|e es IH]; simpl; [by destruct (last_set k es')|]. rewrite IH. by destruct (last_set k es'). Qed.


Section Expiring.
Context {X : Type} `{Services X} `{ER : !ExpiringRedis X}.
#[local] Set Default Proof Using "Type ER".

(** The entry of [k] after a run with trace [es]. *)
Definition entry_after (k : string) (x : X) (es : list Event) (x' : X) : Prop :=
  match last_set k es with
  | None => entries x' !! k = entries x !! k
  | Some (text, ttl) => (∀ t, ttl = Some t → 0 < t) →
      ∃ τ, redis_time x ≤ τ ≤ redis_time x' ∧ entries x' !! k = Some (mkEntry text (Z.add τ <$> ttl))
  end.

Definition expiring (x : X) (es : list Event) (x' : X) : Prop :=
  redis_time x ≤ redis_time x' ∧ ∀ k, entry_after k x es x'.

Lemma expiring_same x e x' :
  (∀ k, last_set k [e] = None) → entries x' = entries x ∧ redis_time x ≤ redis_time x' → expiring x [e] x'.
Proof. intros He [Hx Ht]. split; [done|]. intros k. unfold entry_after. by rewrite He, Hx. Qed.

Lemma expiring_silent x x' : entries x' = entries x ∧ redis_time x ≤ redis_time x' → expiring x [] x'.
Proof. intros [Hx Ht]. split; [done|]. intros k. unfold entry_after. simpl. by rewrite Hx. Qed.

Lemma expiring_app x es x' es' x'' : expiring x es x' → expiring x' es' x'' → expiring x (es ++ es') x''.
Proof.
  intros [Ht Hk] [Ht' Hk']. split; [lia|]. intros k. specialize (Hk k). specialize (Hk' k).
  unfold entry_after in *. rewrite last_set_app. destruct (last_set k es') as [[text ttl]|].
  - intros Hpos. destruct (Hk' Hpos) as (τ & ? & ?). exists τ. split; [lia|done].
  - rewrite Hk'. destruct (last_set k es) as [[text ttl]|]; [|done].
    intros Hpos. destruct (Hk Hpos) as (τ & ? & ?). exists τ. split; [lia|done].
Qed.

Lemma expiring_set key text ttl x :
  expiring x [EvRedisSet key text ttl (redis_set key text ttl x).1] (redis_set key text ttl x).2.
Proof.
  destruct (exp_set key text ttl x) as (Ht & Hother & Hkey). split; [done|]. intros k. unfold entry_after. simpl.
  destruct (decide (key = k)) as [<-|Hne].
  - destruct (redis_set key text ttl x).1; [|done]. rewrite bool_decide_eq_true_2 by done.
    intros Hpos. exists (redis_time x). split; [lia|by apply Hkey].
  - rewrite (bool_decide_eq_false_2 (key = k)) by done. destruct (redis_set key text ttl x).1; by apply Hother.
Qed.

#[export] Instance expiring_run : RunRelation expiring.
Proof.
  split.
  - intros x. by apply expiring_silent.
  - apply expiring_app.
  - intros. by apply expiring_same.
  - intros. by apply expiring_same.
  - intros key x. apply expiring_same; [done|]. by destruct (exp_get key x) as (? & ? & _).
  - apply expiring_set.
  - intros. apply expiring_same; [done|apply exp_download].
  - intros. apply expiring_same; [done|apply exp_upload].
  - intros. apply expiring_same; [done|apply exp_presign].
  - intros. apply expiring_same; [done|apply exp_send].
  - intros. apply expiring_same; [done|apply exp_child].
  - intros. apply expiring_silent, exp_now.
  - intros. apply expiring_silent, exp_uniform.
Qed.



End Expiring.

(** ** A finished job, for its lifetime *)

Section Lifetime.
Context {X : Type} `{Services X} `{ER : !ExpiringRedis X} `{JsonCodec}.
Context (w : Worker.t).
#[local] Set Default Proof Using "Type ER".

Abbreviation message_expiring body s := (handle_message_follows expiring w body s).





End Lifetime.

(** ** A concrete Redis with deadlines *)

(** The simulated services, with the entries of Redis beside them; the clock of
    the simulation is the time of Redis. *)
Record ExpSim := mkExp { exp_sim : Sim; exp_entries : gmap string Entry }.

Definition lift_sim {A} (op : Sim → A * Sim) (x : ExpSim) : A * ExpSim :=
  let '(a, y) := op (exp_sim x) in (a, mkExp y (exp_entries x)).

#[export] Instance exp_services : Services ExpSim := {|
  redis_connect := lift_sim redis_connect;
  redis_disconnect x := x;
  redis_get key x :=
    (match found (sim_clock (exp_sim x)) (exp_entries x) key with Some v => Expected v | None => Unexpected "nil" end, x);
  redis_set key text ttl x :=
    (Expected (), mkExp (exp_sim x)
      (<[key := mkEntry text (Z.add (sim_clock (exp_sim x)) <$> ttl)]> (exp_entries x)));
  s3_download_file b k p fs := lift_sim (s3_download_file b k p fs);
  s3_upload_file b k p fs := lift_sim (s3_upload_file b k p fs);
  s3_presign b k ttl := lift_sim (s3_presign b k ttl);
  sqs_send_message body group dedup := lift_sim (sqs_send_message body group dedup);
  run_child exe args out timeout fs := lift_sim (run_child exe args out timeout fs);
  consumer_call what := lift_sim (consumer_call what);
  pool_call what := lift_sim (pool_call what);
  system_clock_now := lift_sim system_clock_now;
  uniform_int lo hi := lift_sim (uniform_int lo hi);
|}.

Lemma lift_sim_time {A} (op : Sim → A * Sim) x :
  sim_clock (exp_sim x) ≤ sim_clock (op (exp_sim x)).2 →
  exp_entries (lift_sim op x).2 = exp_entries x ∧
  sim_clock (exp_sim x) ≤ sim_clock (exp_sim (lift_sim op x).2).
Proof. unfold lift_sim. by destruct (op (exp_sim x)). Qed.

#[export] Instance exp_expiring : ExpiringRedis ExpSim.
Proof.
  refine (Build_ExpiringRedis _ _ exp_entries (λ x, sim_clock (exp_sim x)) _ _ _ _ _ _ _ _ _).
  - intros key x. split_and!; [done|done|]. simpl. destruct (found _ _ _); [done|by eexists].
  - intros key text ttl x. simpl. split_and!; [done|by intros; rewrite lookup_insert_ne|].
    intros _. by rewrite lookup_insert_eq.
  - intros. apply lift_sim_time. simpl. by destruct (sim_objects _ !! _).
  - intros. apply lift_sim_time. simpl. by destruct (open_read _ _).
  - intros. by apply lift_sim_time.
  - intros. apply lift_sim_time. simpl. by destruct (sim_refuse_send _).
  - intros. apply lift_sim_time. simpl. by destruct (sim_hangs _).
  - intros. apply lift_sim_time. simpl. lia.
  - intros. by apply lift_sim_time.
Defined.

Lemma lift_sim_entries {A} (op : Sim → A * Sim) x : exp_entries (lift_sim op x).2 = exp_entries x.
Proof. unfold lift_sim. by destruct (op (exp_sim x)). Qed.

(** It is also a store in the sense of [WorkerHistory]: what was written last
    is what is read, until it has expired. *)
#[export] Instance exp_store : RedisStore ExpSim.
Proof.
  refine (Build_RedisStore _ _ (λ x, value <$> exp_entries x) _ _ _ _ _ _ _ _ _ _);
    try (intros; exact (f_equal (fmap value) (lift_sim_entries _ _))).
  - done.
  - intros key x text. simpl. unfold found. rewrite lookup_fmap.
    destruct (exp_entries x !! key) as [e|]; [|done]. simpl.
    destruct (live _ e); [|done]. by intros [= ->].
  - intros key text ttl x. simpl. by rewrite fmap_insert.
Defined.

Module ExpirySample.
Import RefCodec.

Definition start : Machine ExpSim := mkMachine sim_fs (mkExp (Sample.services ∅ 0) ∅).
Definition handled : outcome (expected unit) * Machine ExpSim * list Event :=
  Worker.handle_message Sample.worker Sample.body start.

(** The machine some seconds later. *)
Definition later (seconds : Z) (s : Machine ExpSim) : Machine ExpSim :=
  let y := exp_sim (ext s) in
  mkMachine (files s) (mkExp (mkSim (sim_redis y) (sim_objects y) (sim_queue y) (sim_clock y + seconds)
    (sim_exit_code y) (sim_hangs y) (sim_stdout y) (sim_outputs y) (sim_refuse_send y)) (exp_entries (ext s))).

Definition runs (s : Machine ExpSim) : nat :=
  length (List.filter (λ e, match e with EvExec _ _ _ => true | _ => false end)
    (Worker.handle_message Sample.worker Sample.body s).2).

(** A message that is delivered again after the document has expired is
    processed again. *)
Example redelivered_after_expiry : runs (later 3000 handled.1.2) = 0%nat ∧ runs (later 3600 handled.1.2) = 1%nat.
Proof. vm_compute. done. Qed.
End ExpirySample.

Section ExpiryWitnesses.
Import RefCodec.

End ExpiryWitnesses.
