(* ===== verification/Lifecycle.v ===== *)
(** * Lifecycle of the worker (Main/TaskForgeWorker.cpp, Main/main.cpp)

    The members a worker creates while it starts and drops while it stops,
    [start] with everything it calls, [stop], the monitor of the retry backlog,
    and [main].  The members are pointers in the code: a member is [None] when
    its pointer is null and otherwise carries what the object was constructed
    with.  The clients themselves (Redis, S3, SQS, the thread pool) belong to
    CppToolkit; calls on them are interactions. *)

From S2P Require Import Prelude Utf8 Json Filesystem Effects MessageValidation Configurations.
From S2P Require Import TaskDLQ TaskExecutor WorkerStatus Worker.

(** ** Members *)

Inductive JobPriorities := High | Normal | Low | LongTerm.

#[export] Instance JobPriorities_eq_dec : EqDecision JobPriorities.
Proof. solve_decision. Defined.

Inductive Scheme := HTTP | HTTPS.

(** The fields of [Aws::Client::ClientConfiguration] the worker sets. *)
Record ClientConfiguration := mkClientConfig {
  region : string;
  endpointOverride : string;
  scheme : Scheme;
  verifySSL : bool;
}.

(** Access key and secret key, or the default provider chain. *)
Definition credentials : Type := option (string * string).

Record RedisMember := mkRedisMember { member_host : string; member_port : Z; member_db : Z }.
Record S3Member := mkS3Member {
  s3_credentials : credentials; s3_config : ClientConfiguration; use_virtual_addressing : bool }.
Record PublisherMember := mkPublisher {
  publisher_credentials : credentials; publisher_config : ClientConfiguration; publisher_url : string }.
Record ConsumerMember := mkConsumer {
  consumer_credentials : credentials; consumer_config : ClientConfiguration;
  wait_time_seconds : Z; visibility_timeout : Z; max_number_of_messages : Z;
  consumer_url : string; handler_registered : bool }.

Record TaskForgeWorker := mkTaskForgeWorker {
  thread_pool_ : option (list (list JobPriorities));
  redis_client_ : option RedisMember;
  s3_client_ : option S3Member;
  sqs_consumer_ : option ConsumerMember;
  sqs_publisher_ : option PublisherMember;
  task_executor_ : option TaskExecutor.t;
  task_dlq_ : option TaskDLQ.t;
  running_ : bool;
  stop_promise_set : bool;
}.

(** The constructor: null members, not running, promise unset. *)
Definition initial_worker : TaskForgeWorker :=
  mkTaskForgeWorker None None None None None None None false false.

Definition set_thread_pool v w := mkTaskForgeWorker v (redis_client_ w) (s3_client_ w)
  (sqs_consumer_ w) (sqs_publisher_ w) (task_executor_ w) (task_dlq_ w) (running_ w) (stop_promise_set w).
Definition set_redis_client v w := mkTaskForgeWorker (thread_pool_ w) v (s3_client_ w)
  (sqs_consumer_ w) (sqs_publisher_ w) (task_executor_ w) (task_dlq_ w) (running_ w) (stop_promise_set w).
Definition set_s3_client v w := mkTaskForgeWorker (thread_pool_ w) (redis_client_ w) v
  (sqs_consumer_ w) (sqs_publisher_ w) (task_executor_ w) (task_dlq_ w) (running_ w) (stop_promise_set w).
Definition set_sqs_consumer v w := mkTaskForgeWorker (thread_pool_ w) (redis_client_ w) (s3_client_ w)
  v (sqs_publisher_ w) (task_executor_ w) (task_dlq_ w) (running_ w) (stop_promise_set w).
Definition set_sqs_publisher v w := mkTaskForgeWorker (thread_pool_ w) (redis_client_ w) (s3_client_ w)
  (sqs_consumer_ w) v (task_executor_ w) (task_dlq_ w) (running_ w) (stop_promise_set w).
Definition set_task_executor v w := mkTaskForgeWorker (thread_pool_ w) (redis_client_ w) (s3_client_ w)
  (sqs_consumer_ w) (sqs_publisher_ w) v (task_dlq_ w) (running_ w) (stop_promise_set w).
Definition set_task_dlq v w := mkTaskForgeWorker (thread_pool_ w) (redis_client_ w) (s3_client_ w)
  (sqs_consumer_ w) (sqs_publisher_ w) (task_executor_ w) v (running_ w) (stop_promise_set w).
Definition set_running v w := mkTaskForgeWorker (thread_pool_ w) (redis_client_ w) (s3_client_ w)
  (sqs_consumer_ w) (sqs_publisher_ w) (task_executor_ w) (task_dlq_ w) v (stop_promise_set w).
Definition set_stop_promise v w := mkTaskForgeWorker (thread_pool_ w) (redis_client_ w) (s3_client_ w)
  (sqs_consumer_ w) (sqs_publisher_ w) (task_executor_ w) (task_dlq_ w) (running_ w) v.

(** What the consume handler works with: all the members it dereferences. *)
Definition handler_worker (cfg : Configurations) (w : TaskForgeWorker) : option Worker.t :=
  match task_executor_ w, task_dlq_ w, redis_client_ w, s3_client_ w, sqs_publisher_ w with
  | Some executor, Some dlq, Some _, Some _, Some _ => Some (Worker.mkWorker cfg executor dlq)
  | _, _, _, _, _ => None
  end.

(** ** Operations on the members: a state monad over the effects *)

Definition W (X A : Type) : Type := TaskForgeWorker → M X (A * TaskForgeWorker).

#[export] Instance W_ret X : MRet (W X) := λ A a w, mret (a, w).
#[export] Instance W_bind X : MBind (W X) := λ A B f m w,
  r ← m w; f (r.1 : A) (r.2 : TaskForgeWorker).

Definition lift {X A} (m : M X A) : W X A := λ w, a ← m; mret (a, w).
Definition get_member {X A} (f : TaskForgeWorker → A) : W X A := λ w, mret (f w, w).
Definition update {X} (f : TaskForgeWorker → TaskForgeWorker) : W X unit := λ w, mret ((), f w).

Arguments W_ret : simpl never.
Arguments W_bind : simpl never.

Section Operations.
Context {X : Type} `{Services X} `{JsonCodec}.

(** [Aws::Client::ClientConfiguration config;] before the worker changes it. *)
Context (default_client_config : ClientConfiguration).
Context (cfg : Configurations).

(** [push] of [count] threads with the given priorities; the results are not
    looked at. *)
Fixpoint push_workers (count : nat) (priorities : list JobPriorities) : W X unit :=
  match count with
  | O => mret ()
  | S count =>
      _ ← lift (PoolCall "push worker");
      update (λ w, set_thread_pool (option_map (λ ws, ws ++ [priorities]) (thread_pool_ w)) w);;
      push_workers count priorities
  end.

Definition create_thread_pool : W X (expected unit) :=
  update (set_thread_pool (Some []));;
  push_workers (Z.to_nat (high_priority_count_ cfg)) [High];;
  push_workers (Z.to_nat (normal_priority_count_ cfg)) [Normal; High];;
  push_workers (Z.to_nat (low_priority_count_ cfg)) [Low; Normal];;
  push_workers 1 [LongTerm];;
  lift (PoolCall "start").

(** One attempt: [connect] is lazy, so a command verifies the connection; after
    a failure the error is logged and the next attempt delayed. *)
Definition connect_attempt (attempt : Z) : M X (expected unit) :=
  connected ← RedisConnect;
  verified ← match connected with
             | Expected _ => RedisSet "taskforge:healthcheck" "ok" (Some 5)
             | Unexpected e => mret (Unexpected e)
             end;
  match verified with
  | Expected _ =>
      log LogInformation ("redis connected: " +:+ redis_host_ cfg +:+ ":" +:+ fmt_int (redis_port_ cfg));;
      mret (Expected ())
  | Unexpected e =>
      log LogWarning ("redis connect attempt " +:+ fmt_int attempt +:+ "/"
        +:+ fmt_int (Z.of_nat redis_connect_attempts) +:+ " failed: " +:+ e);;
      delay ← backoff_with_jitter attempt redis_base_delay_ms redis_max_delay_ms;
      sleep_for delay;;
      mret (Unexpected e)
  end.

(** The attempts loop of [connect_redis]. *)
Fixpoint connect_loop (remaining : nat) (attempt : Z) (last_error : string) : M X (expected unit) :=
  match remaining with
  | O => mret (Unexpected last_error)
  | S remaining =>
      tried ← connect_attempt attempt;
      match tried with
      | Expected _ => mret (Expected ())
      | Unexpected e => connect_loop remaining (attempt + 1) e
      end
  end.

Definition connect_redis : W X (expected unit) :=
  update (set_redis_client (Some (mkRedisMember (redis_host_ cfg) (redis_port_ cfg) (redis_db_index_ cfg))));;
  lift (connect_loop redis_connect_attempts 1 "").

Definition catalog_entry (definition : TaskDefinition) : json :=
  JObject (<["description" := JString (task_description definition)]>
          (<["name" := JString (task_name definition)]> ∅)).

Definition catalog_document (updated_at : string) : object :=
  <["updated_at" := JString updated_at]>
  (<["tasks" := JArray (catalog_entry <$> task_whitelist_ cfg)]> ∅).

Definition upload_task_catalog : M X (expected unit) :=
  updated_at ← current_utc_timestamp;
  uploaded ← RedisSet "task_catalog" (serialize (JObject (catalog_document updated_at))) None;
  match uploaded with
  | Unexpected e => mret (Unexpected e)
  | Expected _ =>
      log LogInformation ("task catalog uploaded: " +:+ fmt_int (Z.of_nat (length (task_whitelist_ cfg)))
                          +:+ " tasks");;
      mret (Expected ())
  end.

Definition make_client_config : ClientConfiguration :=
  if size (aws_endpoint_ cfg) =? 0
  then mkClientConfig (c_str (aws_region_ cfg)) (endpointOverride default_client_config)
         (scheme default_client_config) (verifySSL default_client_config)
  else mkClientConfig (c_str (aws_region_ cfg)) (c_str (aws_endpoint_ cfg)) HTTP false.

(** Keys from the configuration when there is an access key; the S3 client
    takes them as C strings. *)
Definition configured_credentials : credentials :=
  if size (aws_access_key_ cfg) =? 0 then None else Some (aws_access_key_ cfg, aws_secret_key_ cfg).

Definition connect_aws_service : W X (expected unit) :=
  let config := make_client_config in
  let use_virtual := size (aws_endpoint_ cfg) =? 0 in
  update (set_s3_client (Some (mkS3Member
    (option_map (λ '(a, k), (c_str a, c_str k)) configured_credentials) config use_virtual)));;
  update (set_sqs_publisher (Some (mkPublisher configured_credentials config (sqs_request_queue_url_ cfg))));;
  let consumer := mkConsumer configured_credentials config (sqs_wait_time_seconds_ cfg)
    (sqs_visibility_timeout_ cfg) (sqs_max_number_of_messages_ cfg) (sqs_request_queue_url_ cfg) in
  update (set_sqs_consumer (Some (consumer false)));;
  registered ← lift (ConsumerCall "register_consume_handler");
  match registered with
  | Unexpected e => mret (Unexpected e)
  | Expected _ =>
  update (set_sqs_consumer (Some (consumer true)));;
  started ← lift (ConsumerCall "start");
  match started with
  | Unexpected e => mret (Unexpected e)
  | Expected _ =>
  consuming ← lift (ConsumerCall "start_consume");
  match consuming with
  | Unexpected e => mret (Unexpected e)
  | Expected _ =>
      lift (log LogInformation ("sqs consuming started: " +:+ sqs_request_queue_url_ cfg));;
      mret (Expected ())
  end end end.

Definition start_dlq_backlog_monitor : M X (expected unit) := PoolCall "push dlq_backlog_monitor".

(** A step of [start] whose error ends it with a prefixed message. *)
Definition guarded (what : string) (step : W X (expected unit)) (next : W X (expected unit))
    : W X (expected unit) :=
  r ← step;
  match r with
  | Unexpected e => mret (Unexpected (what +:+ ": " +:+ e))
  | Expected _ => next
  end.

Definition start : W X (expected unit) :=
  match validate_required cfg with
  | Unexpected e => mret (Unexpected ("invalid configuration: " +:+ e))
  | Expected _ =>
  update (set_running true);;
  update (set_task_executor (Some (TaskExecutor.mkExecutor (task_whitelist_ cfg) (root_path_ cfg)
                                     (default_timeout_sec_ cfg))));;
  dlq ← lift (TaskDLQ.make (dlq_path_ cfg) (dlq_max_retry_count_ cfg));
  update (set_task_dlq (Some dlq));;
  guarded "cannot create thread pool" create_thread_pool (
  guarded "cannot connect redis" connect_redis (
  guarded "cannot upload task catalog" (lift upload_task_catalog) (
  guarded "cannot connect aws service" connect_aws_service (
  guarded "cannot start dlq backlog monitor" (lift start_dlq_backlog_monitor) (
  lift (log LogInformation "TaskForgeWorker started");;
  mret (Expected ()))))))
  end.

(** [compare_exchange_strong(true, false)]: whether it exchanged. *)
Definition claim_stop : W X bool := λ w,
  if running_ w then mret (true, set_running false w) else mret (false, w).

Definition stop_consumer : W X unit :=
  consumer ← get_member sqs_consumer_;
  match consumer with
  | None => mret ()
  | Some _ =>
      _ ← lift (ConsumerCall "stop_consume");
      _ ← lift (ConsumerCall "stop");
      update (set_sqs_consumer None)
  end.

Definition stop_pool : W X unit :=
  pool ← get_member thread_pool_;
  match pool with
  | None => mret ()
  | Some _ =>
      _ ← lift (PoolCall "stop(true)");
      update (set_thread_pool None)
  end.

Definition stop_redis : W X unit :=
  redis ← get_member redis_client_;
  match redis with
  | None => mret ()
  | Some _ => lift RedisDisconnect;; update (set_redis_client None)
  end.

(** [stop_promise_.set_value()] throws when a value was set before. *)
Definition fulfil_promise : W X unit :=
  already ← get_member stop_promise_set;
  if (already : bool) then lift (throw "promise_already_satisfied")
  else update (set_stop_promise true).

Definition stop : W X unit :=
  mine ← claim_stop;
  if negb mine then mret ()
  else
    stop_consumer;;
    update (set_sqs_publisher None);;
    update (set_s3_client None);;
    stop_pool;;
    stop_redis;;
    fulfil_promise;;
    lift (log LogInformation "TaskForgeWorker stopped").

(** One round of the monitor's loop. *)
Definition monitor_round (dlq : TaskDLQ.t) : M X unit :=
  backlog ← TaskDLQ.pending_count dlq;
  (if dlq_backlog_alert_count_ cfg <=? to_int backlog
   then log LogWarning ("dlq backlog alert: " +:+ fmt_int backlog +:+ " entries pending")
   else mret ());;
  sleep_for 5000.

(** The loop, on the successive readings of [running_]: it ends with the first
    reading that is false ([None]: the readings ended before). *)
Fixpoint monitor (dlq : TaskDLQ.t) (readings : list bool) : M X (option (expected unit)) :=
  match readings with
  | [] => mret None
  | false :: _ => mret (Some (Expected ()))
  | true :: readings => monitor_round dlq;; monitor dlq readings
  end.

(** [main] from the construction of the worker on. While [wait_stop] blocks,
    the signal [signum] is delivered and [signal_callback] stops the worker;
    the destructor stops it once more. *)
Definition signal_callback (signum : Z) : W X unit :=
  lift (log LogInformation ("received signal " +:+ fmt_int signum +:+ ": stopping"));;
  stop.

Definition main (signum : Z) : W X Z :=
  started ← start;
  exit_code ← match started with
    | Unexpected e =>
        lift (log LogError ("cannot start TaskForgeWorker: " +:+ e));;
        stop;;
        mret 1
    | Expected _ => signal_callback signum;; mret 0
    end;
  stop;;
  mret exit_code.

End Operations.
