(* ===== verification/LifecycleProperties.v ===== *)
(** * Properties of the worker's lifecycle

    Total-correctness rules for the operations on the worker's members, then:
    what a successful [start] leaves, that nothing is consumed before
    everything else is up, that [main] always ends with everything released
    and the right exit code, and that exactly one of any number of concurrent
    calls of [stop] does the work. *)

From S2P Require Import Prelude Utf8 Json Filesystem Effects Testbed MessageValidation Configurations.
From S2P Require Import TaskDLQ TaskExecutor WorkerStatus Worker WorkerSample WorkerTransfers Lifecycle.

(** ** Total correctness *)

Section Rules.
Context {X : Type} `{Services X}.

(** From [w], whatever the machine, [m] returns, with a result and members
    that satisfy [Q]. *)
Definition wp {A} (m : W X A) (Q : A → TaskForgeWorker → Prop) (w : TaskForgeWorker) : Prop :=
  ∀ s, ∃ a w', (m w s).1.1 = Returned (a, w') ∧ Q a w'.

Lemma wp_ret {A} (a : A) Q w : Q a w → wp (mret a) Q w.
Proof. intros HQ s. by exists a, w. Qed.

Lemma wp_mono {A} (m : W X A) (P Q : A → TaskForgeWorker → Prop) w :
  wp m P w → (∀ a w', P a w' → Q a w') → wp m Q w.
Proof. intros Hm HPQ s. destruct (Hm s) as (a & w' & Hr & HP). eauto. Qed.

Lemma wp_bind {A B} (m : W X A) (f : A → W X B) Q w :
  wp m (λ a w', wp (f a) Q w') w → wp (m ≫= f) Q w.
Proof.
  intros Hm s. destruct (Hm s) as (a & w' & Hr & Hf). unfold mbind, W_bind, mbind, M_bind.
  destruct (m w s) as [[o s'] es]; simpl in *; subst. simpl.
  destruct (Hf s') as (b & w'' & Hr' & HQ). exists b, w''.
  destruct (f a w' s') as [[o s''] es']; simpl in *. by subst.
Qed.

Lemma wp_lift {A} (m : M X A) (Q : A → TaskForgeWorker → Prop) w :
  returns m → (∀ a, Q a w) → wp (lift m) Q w.
Proof.
  intros Hm HQ s. destruct (Hm s) as [a Ha]. exists a, w. split; [|done].
  unfold lift, mbind, M_bind. destruct (m s) as [[o s'] es]; simpl in *. by subst.
Qed.

Lemma wp_lift_value {A} (m : M X A) a (Q : A → TaskForgeWorker → Prop) w :
  (∀ s, (m s).1.1 = Returned a) → Q a w → wp (lift m) Q w.
Proof.
  intros Hm HQ s. exists a, w. split; [|done].
  unfold lift, mbind, M_bind. specialize (Hm s). destruct (m s) as [[o s'] es]; simpl in *. by subst.
Qed.

Lemma wp_update f (Q : unit → TaskForgeWorker → Prop) w : Q () (f w) → wp (update f) Q w.
Proof. intros HQ s. by exists (), (f w). Qed.

Lemma wp_get {A} (f : TaskForgeWorker → A) (Q : A → TaskForgeWorker → Prop) w :
  Q (f w) w → wp (get_member f) Q w.
Proof. intros HQ s. by exists (f w), w. Qed.

Lemma wp_guarded what (step next : W X (expected unit)) Q w :
  wp step (λ r w', match r with
                   | Expected _ => wp next Q w'
                   | Unexpected e => Q (Unexpected (what +:+ ": " +:+ e)) w'
                   end) w →
  wp (guarded what step next) Q w.
Proof.
  intros Hs. unfold guarded. apply wp_bind. eapply wp_mono; [exact Hs|].
  intros [[]|e] w' Hw'; [done|by apply wp_ret].
Qed.

Lemma wbind_run {A B} (m : W X A) (f : A → W X B) w s a w' s' es :
  m w s = (Returned (a, w'), s', es) →
  (m ≫= f) w s = let '(o, s'', es') := f a w' s' in (o, s'', es ++ es').
Proof. intros Hm. unfold mbind, W_bind, mbind, M_bind. by rewrite Hm. Qed.

(** What [wp] says of a run at hand. *)
Lemma wp_run {A} (m : W X A) Q w s a w' s' es :
  wp m Q w → m w s = (Returned (a, w'), s', es) → Q a w'.
Proof. intros Hm Hr. destruct (Hm s) as (b & w'' & Hr' & HQ). rewrite Hr in Hr'. by simplify_eq/=. Qed.

End Rules.

Ltac wp_step :=
  lazymatch goal with
  | |- wp (_ ≫= _) _ _ => apply wp_bind
  | |- wp (mret _) _ _ => apply wp_ret
  | |- wp (update _) _ _ => apply wp_update
  | |- wp (get_member _) _ _ => apply wp_get
  | |- wp (lift _) _ _ => apply wp_lift; [solve [returns_tac]|intros ?]
  | |- wp (match ?x with _ => _ end) _ _ => destruct x eqn:?
  | |- wp (if ?b then _ else _) _ _ => destruct b eqn:?
  end; cbv beta.
Ltac wp_tac := repeat wp_step.

(** ** Members after each operation *)

Section Lifecycle.
Context {X : Type} `{Services X} `{JsonCodec}.
Context (default_client : ClientConfiguration) (cfg : Configurations).

Lemma pool_returns what : returns (PoolCall what : M X (expected unit)).
Proof. apply returns_call. Qed.
Hint Resolve pool_returns : taskforge.

Lemma push_workers_wp n priorities w workers :
  thread_pool_ w = Some workers →
  wp (push_workers n priorities : W X unit)
    (λ _ w', w' = set_thread_pool (Some (workers ++ replicate n priorities)) w) w.
Proof.
  revert w workers. induction n as [|n IH]; intros w workers Hw; simpl.
  { wp_tac. rewrite app_nil_r, <-Hw. by destruct w. }
  wp_tac. eapply wp_mono; [by apply IH; simpl; rewrite Hw|].
  intros _ w' ->. simpl. rewrite <-app_assoc. by destruct w.
Qed.

Definition pool_threads : list (list JobPriorities) :=
  replicate (Z.to_nat (high_priority_count_ cfg)) [High] ++
  replicate (Z.to_nat (normal_priority_count_ cfg)) [Normal; High] ++
  replicate (Z.to_nat (low_priority_count_ cfg)) [Low; Normal] ++ [[LongTerm]].

Lemma create_thread_pool_wp w :
  wp (create_thread_pool cfg : W X (expected unit))
    (λ _ w', w' = set_thread_pool (Some pool_threads) w) w.
Proof.
  unfold create_thread_pool. wp_step. wp_step.
  do 4 (wp_step; eapply wp_mono; [by apply push_workers_wp|]; intros _ ? ->).
  wp_step. unfold pool_threads. simpl. by rewrite !app_assoc.
Qed.

Lemma connect_attempt_returns attempt : returns (connect_attempt cfg attempt : M X (expected unit)).
Proof.
  apply returns_bind; [apply returns_call|intros connected].
  apply returns_bind; [destruct connected; [apply returns_call|apply returns_ret]|intros [[]|]]; returns_tac.
Qed.
Hint Resolve connect_attempt_returns : taskforge.

Lemma connect_loop_returns n attempt err : returns (connect_loop cfg n attempt err : M X (expected unit)).
Proof.
  revert attempt err. induction n as [|n IH]; intros attempt err; simpl; returns_tac.
Qed.
Hint Resolve connect_loop_returns : taskforge.

Definition redis_member : RedisMember := mkRedisMember (redis_host_ cfg) (redis_port_ cfg) (redis_db_index_ cfg).

Lemma connect_redis_wp w :
  wp (connect_redis cfg : W X (expected unit)) (λ _ w', w' = set_redis_client (Some redis_member) w) w.
Proof. unfold connect_redis. by wp_tac. Qed.

Lemma upload_task_catalog_returns : returns (upload_task_catalog cfg : M X (expected unit)).
Proof. unfold upload_task_catalog, current_utc_timestamp. returns_tac. Qed.
Hint Resolve upload_task_catalog_returns : taskforge.

(** The clients of a connected worker. *)
Definition s3_member : S3Member :=
  mkS3Member (option_map (λ '(a, k), (c_str a, c_str k)) (configured_credentials cfg))
    (make_client_config default_client cfg) (size (aws_endpoint_ cfg) =? 0).
Definition publisher_member : PublisherMember :=
  mkPublisher (configured_credentials cfg) (make_client_config default_client cfg) (sqs_request_queue_url_ cfg).
Definition consumer_member (registered : bool) : ConsumerMember :=
  mkConsumer (configured_credentials cfg) (make_client_config default_client cfg) (sqs_wait_time_seconds_ cfg)
    (sqs_visibility_timeout_ cfg) (sqs_max_number_of_messages_ cfg) (sqs_request_queue_url_ cfg) registered.

Lemma consumer_returns what : returns (ConsumerCall what : M X (expected unit)).
Proof. apply returns_call. Qed.
Hint Resolve consumer_returns : taskforge.

Lemma connect_aws_wp w :
  wp (connect_aws_service default_client cfg : W X (expected unit))
    (λ r w', ∃ registered, (r = Expected () → registered = true) ∧
       w' = set_sqs_consumer (Some (consumer_member registered))
              (set_sqs_publisher (Some publisher_member) (set_s3_client (Some s3_member) w))) w.
Proof.
  unfold connect_aws_service. wp_tac; try (by exists true); by exists false.
Qed.

Definition executor_member : TaskExecutor.t :=
  TaskExecutor.mkExecutor (task_whitelist_ cfg) (root_path_ cfg) (default_timeout_sec_ cfg).
Definition dlq_member : TaskDLQ.t := TaskDLQ.mkDLQ (dlq_path_ cfg) (dlq_max_retry_count_ cfg).

(** A worker that is up. *)
Definition ready_worker (promise : bool) : TaskForgeWorker :=
  mkTaskForgeWorker (Some (pool_threads)) (Some redis_member) (Some s3_member)
    (Some (consumer_member true)) (Some publisher_member) (Some executor_member) (Some dlq_member) true promise.

Lemma make_dlq_value path n (s : Machine X) :
  (TaskDLQ.make path n s).1.1 = Returned (TaskDLQ.mkDLQ path n).
Proof.
  unfold TaskDLQ.make, mbind, M_bind, get_files, set_files, log, emit, mret, M_ret.
  destruct (create_directories _ _) as [fs' []]; done.
Qed.

(** [start] returns in every case; with unusable settings it does nothing. *)
Lemma start_wp w :
  wp (start default_client cfg : W X (expected unit))
    (λ r w', match validate_required cfg with
             | Unexpected e => r = Unexpected ("invalid configuration: " +:+ e) ∧ w' = w
             | Expected _ => running_ w' = true ∧ stop_promise_set w' = stop_promise_set w ∧
                             (r = Expected () → w' = ready_worker (stop_promise_set w))
             end) w.
Proof.
  unfold start. destruct (validate_required cfg) as [[]|e]; [|by wp_tac].
  do 4 wp_step. wp_step. apply (wp_lift_value _ dlq_member); [intros; apply make_dlq_value|].
  do 2 wp_step.
  apply wp_guarded. eapply wp_mono; [apply create_thread_pool_wp|]. intros [[]|] ? ->; [|done].
  apply wp_guarded. eapply wp_mono; [apply connect_redis_wp|]. intros [[]|] ? ->; [|done].
  apply wp_guarded. apply wp_lift; [apply upload_task_catalog_returns|]. intros [[]|]; [|done].
  apply wp_guarded. eapply wp_mono; [apply connect_aws_wp|]. intros [[]|] ? (reg & Hreg & ->); [|done].
  rewrite Hreg by done.
  apply wp_guarded. apply wp_lift; [apply pool_returns|]. intros [[]|]; [|done].
  by wp_tac.
Qed.

(** The members after a [stop] that does its work. *)
Definition released (w : TaskForgeWorker) : TaskForgeWorker :=
  mkTaskForgeWorker None None None None None (task_executor_ w) (task_dlq_ w) false true.

Lemma stop_wp w :
  stop_promise_set w = false ∨ running_ w = false →
  wp (stop : W X unit) (λ _ w', w' = if running_ w then released w else w) w.
Proof.
  intros Hp. unfold stop. apply wp_bind.
  assert (Hc : wp (claim_stop : W X bool) (λ b w', b = running_ w ∧ w' = set_running false w) w).
  { intros s. unfold claim_stop. destruct (running_ w) eqn:Hr; eexists _, _; (split; [done|]); [done|].
    split; [done|]. destruct w; simpl in *. by subst. }
  eapply wp_mono; [exact Hc|]. intros b w' [-> ->].
  destruct (running_ w) eqn:Hr; simpl; [|wp_tac; destruct w; simpl in *; by subst].
  destruct Hp as [Hp|]; [|done].
  assert (Hconsumer : ∀ v, wp (stop_consumer : W X unit) (λ _ w', w' = set_sqs_consumer None v) v).
  { intros v. unfold stop_consumer. wp_tac; [done|]. destruct v; simpl in *; by subst. }
  assert (Hpool : ∀ v, wp (stop_pool : W X unit) (λ _ w', w' = set_thread_pool None v) v).
  { intros v. unfold stop_pool. wp_tac; [done|]. destruct v; simpl in *; by subst. }
  assert (Hredis : ∀ v, wp (stop_redis : W X unit) (λ _ w', w' = set_redis_client None v) v).
  { intros v. unfold stop_redis. wp_tac; [done|]. destruct v; simpl in *; by subst. }
  wp_step. eapply wp_mono; [apply Hconsumer|]. intros _ ? ->. do 4 wp_step.
  wp_step. eapply wp_mono; [apply Hpool|]. intros _ ? ->.
  wp_step. eapply wp_mono; [apply Hredis|]. intros _ ? ->.
  unfold fulfil_promise. do 3 wp_step. simpl. rewrite Hp. wp_tac. done.
Qed.

(** ** Order of start-up *)

Definition is_consumer (e : Event) : bool := match e with EvConsumer _ _ => true | _ => false end.
Definition quiet (es : list Event) : Prop := Forall (λ e, is_consumer e = false) es.

(** The thread pool runs, Redis has answered and holds the task catalog. *)
Definition services_up (es : list Event) : Prop :=
  EvPool "start" (Expected ()) ∈ es ∧
  EvRedisSet "taskforge:healthcheck" "ok" (Some 5) (Expected ()) ∈ es ∧
  ∃ updated_at, EvRedisSet "task_catalog" (serialize (JObject (catalog_document cfg updated_at))) None
                  (Expected ()) ∈ es.

(** In [es], continuing [before], the consumer is only used once the services
    are up. *)
Definition ordered (before es : list Event) : Prop :=
  ∀ pre c r post, es = pre ++ EvConsumer c r :: post → services_up (before ++ pre).

Lemma ordered_quiet before es : quiet es → ordered before es.
Proof.
  intros Hq pre c r post ->. apply Forall_app in Hq as [_ Hq]. by apply Forall_inv in Hq.
Qed.

Lemma ordered_app before es es' : quiet es → ordered (before ++ es) es' → ordered before (es ++ es').
Proof.
  revert before. induction es as [|e es IH]; intros before Hq Ho; simpl; [by rewrite app_nil_r in Ho|].
  apply Forall_cons in Hq as [He Hq]. intros [|e' pre] c r post Heq; simplify_eq/=.
  assert (Hs : services_up ((before ++ [e']) ++ pre)); [|by rewrite <-app_assoc in Hs].
  eapply (IH (before ++ [e'])); [done| |done]. by rewrite <-app_assoc.
Qed.

Lemma ordered_up before es : services_up before → ordered before es.
Proof.
  intros (Hp & Hh & t & Hc) pre c r post _. unfold services_up. setoid_rewrite elem_of_app. naive_solver.
Qed.

Lemma ordered_bind {A B} (m : W X A) (f : A → W X B) before w (s : Machine X) :
  quiet (m w s).2 →
  (∀ a w' s' es, m w s = (Returned (a, w'), s', es) → ordered (before ++ es) (f a w' s').2) →
  ordered before ((m ≫= f) w s).2.
Proof.
  intros Hq Hn. unfold mbind, W_bind, mbind, M_bind.
  destruct (m w s) as [[[[a w']|e|] s'] es]; simpl in *; try (by apply ordered_quiet).
  specialize (Hn a w' s' es eq_refl). destruct (f a w' s') as [[o s''] es']. by apply ordered_app.
Qed.

Lemma guarded_ordered what (step next : W X (expected unit)) before w (s : Machine X) :
  quiet (step w s).2 →
  (∀ w' s' es, step w s = (Returned (Expected (), w'), s', es) → ordered (before ++ es) (next w' s').2) →
  ordered before (guarded what step next w s).2.
Proof.
  intros Hq Hn. apply ordered_bind; [done|]. intros [[]|e] w' s' es Hr; [by apply Hn|].
  apply ordered_quiet. constructor.
Qed.

Lemma emits_wbind {A B} P (m : W X A) (f : A → W X B) w :
  emits P (m w) → (∀ a w', emits P (f a w')) → emits P ((m ≫= f) w).
Proof. intros Hm Hf. apply emits_bind; [done|]. intros [a w']. apply Hf. Qed.

Lemma emits_lift {A} P (m : M X A) w : emits P m → emits P (lift m w).
Proof. intros Hm. apply emits_bind; [done|]. intros a. apply emits_ret. Qed.

Lemma push_workers_quiet n priorities w :
  emits (λ e, is_consumer e = false) ((push_workers n priorities : W X unit) w).
Proof.
  revert w. induction n as [|n IH]; intros w; simpl; [apply emits_ret|].
  apply emits_wbind; [by apply emits_lift, emits_call; intros; constructor|intros _ w1].
  apply emits_wbind; [apply emits_ret|intros _ w2]. apply IH.
Qed.

Lemma create_thread_pool_trace w (s : Machine X) :
  quiet (create_thread_pool cfg w s).2 ∧
  ∀ w' s' es, create_thread_pool cfg w s = (Returned (Expected (), w'), s', es) →
    EvPool "start" (Expected ()) ∈ es.
Proof.
  split.
  - apply emits_wbind; [apply emits_ret|intros _ w1].
    do 4 (apply emits_wbind; [apply push_workers_quiet|intros _ ?]).
    apply emits_lift, emits_call. intros. by repeat constructor.
  - intros w' s' es Hr. unfold create_thread_pool, mbind, W_bind in Hr.
    do 5 (bind_inv Hr as (? & ? & ? & ? & _ & Hr & ->)).
    unfold lift in Hr. bind_inv Hr as (r & s1 & es1 & es2 & Hp & Hr & ->). ret_inv Hr.
    unfold PoolCall, call in Hp. destruct (pool_call _ _); simplify_eq. set_solver.
Qed.

Lemma connect_attempt_quiet attempt :
  emits (λ e, is_consumer e = false) (connect_attempt cfg attempt : M X (expected unit)).
Proof. unfold connect_attempt. emits_tac. Qed.
Hint Resolve connect_attempt_quiet : taskforge.

Lemma connect_loop_quiet n attempt err :
  emits (λ e, is_consumer e = false) (connect_loop cfg n attempt err : M X (expected unit)).
Proof.
  revert attempt err. induction n as [|n IH]; intros attempt err; simpl; emits_tac.
Qed.

(** The results of the connection attempts in a trace. *)
Definition connects (es : list Event) : list bool :=
  omap (λ e, match e with EvRedisConnect r => Some (has_value r) | _ => None end) es.

Lemma connects_app es es' : connects (es ++ es') = connects es ++ connects es'.
Proof. apply omap_app. Qed.

(** One attempt: connect, then the first command, then a pause if it failed. *)
Lemma connect_attempt_run attempt (s : Machine X) :
  ∃ tried s' es, connect_attempt cfg attempt s = (Returned tried, s', es) ∧
    length (connects es) = 1%nat ∧ length (pauses es) = (if has_value tried then 0 else 1)%nat ∧
    (EvRedisSet "taskforge:healthcheck" "ok" (Some 5) (Expected ()) ∈ es ↔ has_value tried = true).
Proof.
  assert (Hfail : ∀ e x, ∃ s' u, ∀ line,
    (log LogWarning line;; delay ← backoff_with_jitter attempt redis_base_delay_ms redis_max_delay_ms;
     sleep_for delay;; mret (Unexpected e)) (mkMachine (files s) x)
      = (Returned (Unexpected e : expected unit), s', [EvLog LogWarning line; EvSleep u])).
  { intros e x. unfold mbind, M_bind, log, emit, sleep_for.
    pose proof (backoff_run attempt redis_base_delay_ms redis_max_delay_ms (mkMachine (files s) x)) as Hb.
    cbv zeta in Hb. simpl in Hb. destruct (uniform_int _ _ _) as [u x3]. eexists _, _.
    intros line. by rewrite Hb. }
  unfold connect_attempt. unfold mbind at 1 2, M_bind at 1 2, RedisConnect, RedisSet, call.
  destruct (redis_connect (ext s)) as [[[]|e] x1]; cbn [files ext].
  - destruct (redis_set _ _ _ _) as [[[]|e] x2]; [eexists (Expected ()), _, _; split; [done|]; simpl; set_solver|].
    destruct (Hfail e x2) as (s' & u & Hf). eexists (Unexpected e), s', _. rewrite Hf. split; [done|].
    simpl. set_solver.
  - destruct (Hfail e x1) as (s' & u & Hf). eexists (Unexpected e), s', _.
    unfold mret at 1, M_ret at 1. rewrite Hf. split; [done|]. simpl. set_solver.
Qed.

(** [n] attempts. *)
Lemma connect_loop_attempts n attempt err (s : Machine X) :
  let '(o, s', es) := connect_loop cfg n attempt err s in
  ∃ k, length (pauses es) = k ∧
    ((k < n)%nat ∧ length (connects es) = S k ∧ o = Returned (Expected ()) ∧
       EvRedisSet "taskforge:healthcheck" "ok" (Some 5) (Expected ()) ∈ es ∨
     k = n ∧ length (connects es) = k ∧ (∃ e, o = Returned (Unexpected e)) ∧
       EvRedisSet "taskforge:healthcheck" "ok" (Some 5) (Expected ()) ∉ es).
Proof.
  revert attempt err s. induction n as [|n IH]; intros attempt err s; cbn [connect_loop].
  { exists 0%nat. split; [done|]. right. split_and!; [done|done|by eexists|set_solver]. }
  destruct (connect_attempt_run attempt s) as (tried & s1 & evs & Hrun & Hcon & Hpause & Hin).
  unfold mbind at 1, M_bind at 1. rewrite Hrun. destruct tried as [[]|e]; simpl in Hpause, Hin.
  { exists 0%nat. rewrite app_nil_r. split; [done|]. left. split_and!; [lia|done|done|set_solver]. }
  specialize (IH (attempt + 1) e s1).
  destruct (connect_loop cfg n _ _ _) as [[o s'] es]. destruct IH as (k & Hk & Hcase).
  exists (S k). rewrite pauses_app, length_app, Hpause. split; [simpl; by rewrite Hk|].
  rewrite connects_app, length_app, Hcon.
  destruct Hcase as [(Hlt & Hc & -> & Hin')|(-> & Hc & He & Hin')]; [left|right];
    split_and!; try done; try (simpl; lia); set_solver.
Qed.

Lemma connect_loop_success n attempt err (s s' : Machine X) es :
  connect_loop cfg n attempt err s = (Returned (Expected ()), s', es) →
  EvRedisSet "taskforge:healthcheck" "ok" (Some 5) (Expected ()) ∈ es.
Proof.
  intros Hr. pose proof (connect_loop_attempts n attempt err s) as Hl. rewrite Hr in Hl.
  destruct Hl as (k & _ & [(_ & _ & _ & Hin)|(_ & _ & [e He] & _)]); [done|by simplify_eq].
Qed.

Lemma connect_redis_trace w (s : Machine X) :
  quiet (connect_redis cfg w s).2 ∧
  ∀ w' s' es, connect_redis cfg w s = (Returned (Expected (), w'), s', es) →
    EvRedisSet "taskforge:healthcheck" "ok" (Some 5) (Expected ()) ∈ es.
Proof.
  split.
  - apply emits_wbind; [apply emits_ret|intros _ w1]. apply emits_lift, connect_loop_quiet.
  - intros w' s' es Hr. unfold connect_redis, mbind, W_bind in Hr.
    bind_inv Hr as (? & ? & ? & ? & _ & Hr & ->). unfold lift in Hr.
    bind_inv Hr as (r & s1 & es1 & es2 & Hp & Hr & ->). ret_inv Hr.
    apply connect_loop_success in Hp. set_solver.
Qed.

Lemma upload_task_catalog_trace w (s : Machine X) :
  quiet (lift (upload_task_catalog cfg) w s).2 ∧
  ∀ w' s' es, lift (upload_task_catalog cfg) w s = (Returned (Expected (), w'), s', es) →
    ∃ updated_at, EvRedisSet "task_catalog" (serialize (JObject (catalog_document cfg updated_at))) None
                    (Expected ()) ∈ es.
Proof.
  split.
  - apply emits_lift. unfold upload_task_catalog. emits_tac.
  - intros w' s' es Hr. unfold lift in Hr. bind_inv Hr as (r & s1 & es1 & es2 & Hp & Hr & ->). ret_inv Hr.
    unfold upload_task_catalog in Hp. bind_inv Hp as (t & s2 & es3 & es4 & _ & Hp & ->).
    bind_inv Hp as ([[]|] & s3 & es5 & es6 & Hset & Hp & ->); [|by ret_inv Hp]. exists t.
    unfold RedisSet, call in Hset. destruct (redis_set _ _ _ _); simplify_eq. set_solver.
Qed.

(** ** The claims *)

(** Nothing is consumed too early. In every run of [start], whether it
    succeeds or not, each call on the queue consumer comes after the thread
    pool has started, Redis has answered and the task catalog is stored. *)
Theorem consuming_starts_last (s : Machine X) :
  ∀ pre c r post, (start default_client cfg initial_worker s).2 = pre ++ EvConsumer c r :: post →
    services_up pre.
Proof.
  change (ordered [] (start default_client cfg initial_worker s).2). unfold start.
  destruct (validate_required cfg) as [[]|]; [|apply ordered_quiet; constructor].
  do 2 (apply ordered_bind; [constructor|intros _ ? ? ? _]).
  apply ordered_bind.
  { apply emits_lift. unfold TaskDLQ.make. emits_tac. }
  intros ? ? ? ? _. apply ordered_bind; [constructor|intros _ ? ? ? _].
  apply guarded_ordered; [apply create_thread_pool_trace|]. intros ? ? ? Hpool.
  apply create_thread_pool_trace in Hpool.
  apply guarded_ordered; [apply connect_redis_trace|]. intros ? ? ? Hredis.
  apply connect_redis_trace in Hredis.
  apply guarded_ordered; [apply upload_task_catalog_trace|]. intros ? ? ? Hcat.
  apply upload_task_catalog_trace in Hcat as [t Hcat].
  apply ordered_up. split_and!; [set_solver..|]. exists t. set_solver.
Qed.

(** A successful [start] leaves every member the consume handler
    dereferences in place, the pool with the configured threads and one for
    the monitor, and the consumer on the configured queue with its handler. *)
Theorem start_completes_worker (s s' : Machine X) w es :
  start default_client cfg initial_worker s = (Returned (Expected (), w), s', es) →
  running_ w = true ∧ thread_pool_ w = Some pool_threads ∧
  handler_worker cfg w = Some (Worker.mkWorker cfg executor_member dlq_member) ∧
  ∃ consumer, sqs_consumer_ w = Some consumer ∧ handler_registered consumer = true ∧
    consumer_url consumer = sqs_request_queue_url_ cfg ∧ sqs_request_queue_url_ cfg ≠ "" ∧
    s3_bucket_ cfg ≠ "" ∧ task_whitelist_ cfg ≠ [].
Proof.
  intros Hr. pose proof (wp_run _ _ _ _ _ _ _ _ (start_wp initial_worker) Hr) as Hw. simpl in Hw.
  destruct (validate_required cfg) as [[]|] eqn:Hv; [|by destruct Hw].
  destruct Hw as (_ & _ & Hw). rewrite (Hw eq_refl). split_and!; [done..|]. exists (consumer_member true).
  unfold validate_required in Hv. split_and!; try done; intros He; rewrite He in Hv; simpl in Hv;
    repeat case_match; done.
Qed.

(** Once a signal arrives while the worker waits, or when the start
    fails, [main] ends: with exit code 0 exactly when the worker had started,
    and with every client released; the stop promise is set once (unless the
    settings were unusable, when there is nothing to stop). *)
Theorem main_releases_everything signum (s : Machine X) :
  ∃ code w s' es, main default_client cfg signum initial_worker s = (Returned (code, w), s', es) ∧
    (code = 0 ∧ (∃ w1 s1 es1, start default_client cfg initial_worker s = (Returned (Expected (), w1), s1, es1)) ∨
     code = 1 ∧ (∃ e w1 s1 es1, start default_client cfg initial_worker s = (Returned (Unexpected e, w1), s1, es1))) ∧
    running_ w = false ∧ thread_pool_ w = None ∧ redis_client_ w = None ∧ s3_client_ w = None ∧
    sqs_consumer_ w = None ∧ sqs_publisher_ w = None ∧
    stop_promise_set w = has_value (validate_required cfg).
Proof.
  destruct (start_wp initial_worker s) as (r & w1 & Hr & Hw1).
  destruct (start default_client cfg initial_worker s) as [[o s1] es1] eqn:Hs. simpl in Hr. subst o.
  set (Q := λ (code : Z) (w : TaskForgeWorker), code = (if has_value r then 0 else 1) ∧
    running_ w = false ∧ thread_pool_ w = None ∧ redis_client_ w = None ∧ s3_client_ w = None ∧
    sqs_consumer_ w = None ∧ sqs_publisher_ w = None ∧
    stop_promise_set w = has_value (validate_required cfg)).
  assert (Hafter : wp (exit_code ← match r with
      | Unexpected e => lift (log LogError ("cannot start TaskForgeWorker: " +:+ e));; stop;; mret 1
      | Expected _ => signal_callback signum;; mret 0
      end; stop;; mret exit_code : W X Z) Q w1).
  { assert (Hstop : wp (stop : W X unit)
      (λ _ w', w' = if running_ w1 then released w1 else w1) w1).
    { apply stop_wp. destruct (validate_required cfg); [left; naive_solver|right; by destruct Hw1 as [_ ->]]. }
    assert (Hend : wp (stop;; mret (if has_value r then 0 else 1) : W X Z) Q
      (if running_ w1 then released w1 else w1)).
    { wp_step. eapply wp_mono; [apply stop_wp; by destruct (running_ w1) eqn:?; [right|right]|].
      intros _ w' ->. apply wp_ret. unfold Q. destruct (validate_required cfg).
      - destruct Hw1 as (-> & _ & _). done.
      - destruct Hw1 as [_ ->]. done. }
    unfold signal_callback. wp_step. destruct r as [[]|e].
    - do 2 wp_step. wp_step. eapply wp_mono; [exact Hstop|]. intros _ w' ->. by wp_step.
    - do 2 wp_step. wp_step. eapply wp_mono; [exact Hstop|]. intros _ w' ->. by wp_step. }
  destruct (Hafter s1) as (code & w2 & Hc & -> & HQ).
  unfold main. rewrite (wbind_run _ _ _ _ _ _ _ _ Hs). cbv beta.
  match type of Hc with (?m w1 s1).1.1 = _ => destruct (m w1 s1) as [[o s2] es2] eqn:Hrun end.
  simpl in Hc. subst o. eexists _, w2, s2, (es1 ++ es2). 
  split; [done|]. split; [|done].
  destruct r as [[]|e]; [left|right]; (split; [done|]); by repeat eexists.
Qed.

(** Unusable settings stop the program before it touches anything: no
    queue url, no bucket or no registered task means exit code 1, one error
    line and no other interaction. *)
Theorem missing_settings_exit signum (s : Machine X) :
  sqs_request_queue_url_ cfg = "" ∨ s3_bucket_ cfg = "" ∨ task_whitelist_ cfg = [] →
  ∃ line, main default_client cfg signum initial_worker s =
    (Returned (1, initial_worker), s, [EvLog LogError line]).
Proof.
  intros Hmissing. unfold main, start.
  destruct (validate_required cfg) as [[]|e] eqn:Hv; [|by eexists].
  unfold validate_required in Hv. destruct Hmissing as [Hm|[Hm|Hm]]; rewrite Hm in Hv; simpl in Hv;
    repeat case_match; done.
Qed.

(** [stop] releases in order: the consumer first, so that no message is
    handled while the rest goes down, then the pool, then Redis; a second call
    does nothing. *)
Theorem stop_once w (s : Machine X) :
  running_ w = true → stop_promise_set w = false →
  ∃ r1 r2 r3 s', stop w s = (Returned ((), released w), s',
    (if sqs_consumer_ w is Some _ then [EvConsumer "stop_consume" r1; EvConsumer "stop" r2] else []) ++
    (if thread_pool_ w is Some _ then [EvPool "stop(true)" r3] else []) ++
    (if redis_client_ w is Some _ then [EvRedisDisconnect] else []) ++
    [EvLog LogInformation "TaskForgeWorker stopped"]) ∧
    ∀ s2 : Machine X, stop (released w) s2 = (Returned ((), released w), s2, []).
Proof.
  intros Hrun Hp. destruct w as [pool redis s3 consumer publisher executor dlq run promise].
  simpl in Hrun, Hp. subst run promise.
  unfold stop, claim_stop, stop_consumer, stop_pool, stop_redis, fulfil_promise, get_member, update, lift,
    released, ConsumerCall, PoolCall, RedisDisconnect, call, log, emit, mbind, W_bind, mbind, M_bind,
    mret, W_ret, mret, M_ret.
  simpl.
  destruct consumer as [c|], pool as [l|], redis as [r|]; simpl;
    repeat match goal with
      | |- context [let '(_, _) := consumer_call ?c ?x in _] => destruct (consumer_call c x); simpl
      | |- context [let '(_, _) := pool_call ?c ?x in _] => destruct (pool_call c x); simpl
      end;
    eexists _, _, _, _; (split; [reflexivity|done]).
  Unshelve. all: exact (Expected ()).
Qed.

(** Connecting to Redis is tried at most five times, with a pause after
    each failed attempt; it reports success exactly when an attempt connected
    and its first command was answered, and then stops trying. *)
Theorem connect_redis_attempts w (s : Machine X) :
  let '(o, s', es) := connect_redis cfg w s in
  ∃ k, length (pauses es) = k ∧
    ((k < redis_connect_attempts)%nat ∧ length (connects es) = S k ∧
       (∃ w', o = Returned (Expected (), w')) ∧
       EvRedisSet "taskforge:healthcheck" "ok" (Some 5) (Expected ()) ∈ es ∨
     k = redis_connect_attempts ∧ length (connects es) = k ∧
       (∃ e w', o = Returned (Unexpected e, w')) ∧
       EvRedisSet "taskforge:healthcheck" "ok" (Some 5) (Expected ()) ∉ es).
Proof.
  unfold connect_redis, mbind, W_bind, update, lift, mbind, M_bind, mret, M_ret. cbn [fst snd].
  assert (Hloop := connect_loop_attempts redis_connect_attempts 1 "" s).
  destruct (connect_loop cfg redis_connect_attempts 1 "" s) as [[o s'] es].
  destruct Hloop as (k & Hk & [(Hlt & Hc & -> & Hin)|(-> & Hc & [e ->] & Hin)]);
    rewrite !app_nil_r, !app_nil_l; eexists; (split; [exact Hk|]).
  - left. split; [done|]. split; [done|]. split; [by eexists|done].
  - right. split; [done|]. split; [done|]. split; [by eexists _, _|done].
Qed.

(** ** The backlog monitor *)

Lemma pending_count_run dlq (s : Machine X) :
  healthy (files s) →
  ∃ backlog, TaskDLQ.pending_count dlq s = (Returned backlog, s, []) ∧
    backlog = if directory_entries (files s) (TaskDLQ.dlq_path dlq) is Some _
              then TaskDLQ.pending (files s) dlq else 0.
Proof.
  intros Hh. unfold TaskDLQ.pending_count, mbind, M_bind, get_files, fs_exists, TaskDLQ.pending.
  rewrite healthy_stat by done. unfold directory_entries. simpl.
  case_bool_decide as Hex; simpl.
  - destruct (denied _ OpIterate _); [by eexists|]. case_bool_decide; [|by eexists].
    eexists. split; [|done]. rewrite TaskDLQ.count_entries_run; [done|].
    apply Forall_forall. intros e _. by apply healthy_stat.
  - eexists. split; [done|]. destruct (denied _ OpIterate _); [done|].
    rewrite bool_decide_eq_false_2; [done|]. intros Hd. rewrite Hd in Hex. naive_solver.
Qed.

(** The monitor ends with the first reading of [running_] that is false;
    until then, every round warns exactly when the backlog has reached the
    configured limit, and waits five seconds. *)
Theorem monitor_alerts dlq n rest (s : Machine X) :
  healthy (files s) → directory_entries (files s) (TaskDLQ.dlq_path dlq) ≠ None →
  TaskDLQ.pending (files s) dlq ≤ INT_MAX →
  let backlog := TaskDLQ.pending (files s) dlq in
  let round := (if dlq_backlog_alert_count_ cfg <=? backlog
                then [EvLog LogWarning ("dlq backlog alert: " +:+ fmt_int backlog +:+ " entries pending")]
                else []) ++ [EvSleep 5000] in
  monitor cfg dlq (replicate n true ++ false :: rest) s =
    (Returned (Some (Expected ())), s, concat (replicate n round)).
Proof.
  intros Hh Hd Hmax. cbv zeta. induction n as [|n IH]; [done|].
  cbn [replicate app monitor]. unfold mbind at 1, M_bind at 1.
  destruct (pending_count_run dlq s Hh) as (backlog & Hrun & Hb).
  destruct (directory_entries _ _); [|done].
  assert (Hround : monitor_round cfg dlq s = (Returned (), s,
    (if dlq_backlog_alert_count_ cfg <=? backlog
     then [EvLog LogWarning ("dlq backlog alert: " +:+ fmt_int backlog +:+ " entries pending")]
     else []) ++ [EvSleep 5000])).
  { unfold monitor_round, mbind, M_bind. rewrite Hrun. rewrite to_int_id.
    - by destruct (dlq_backlog_alert_count_ cfg <=? backlog).
    - rewrite Hb. unfold in_int, INT_MIN. split; [unfold TaskDLQ.pending; lia|done]. }
  rewrite Hround, IH, Hb. done.
Qed.

(** ** Concurrent calls of [stop]

    [stop] is called by the main thread, by the signal handler and by the
    destructor. The compare-and-exchange is atomic; everything after it
    interleaves. *)

Inductive stopper := Calling | Skipped | Working | Finished.

#[local] Instance stopper_eq_dec : EqDecision stopper.
Proof. solve_decision. Defined.

Inductive stop_step : TaskForgeWorker * list stopper → TaskForgeWorker * list stopper → Prop :=
| step_claim w ts i b w' s :
    ts !! i = Some Calling → (claim_stop : W X bool) w s = (Returned (b, w'), s, []) →
    stop_step (w, ts) (w', <[i := if (b : bool) then Working else Skipped]> ts)
| step_work w ts i w' :
    ts !! i = Some Working → running_ w' = running_ w → stop_step (w, ts) (w', ts)
| step_finish w ts i :
    ts !! i = Some Working → stop_step (w, ts) (w, <[i := Finished]> ts).

(** The threads that passed the exchange. *)
Definition winners (ts : list stopper) : list stopper := filter (λ t, t = Working ∨ t = Finished) ts.

Lemma winners_insert ts i t t' :
  ts !! i = Some t →
  (length (winners (<[i := t']> ts)) + length (winners [t]) =
   length (winners ts) + length (winners [t']))%nat.
Proof.
  intros Hi. rewrite <-(take_drop_middle ts i t Hi) at 2.
  rewrite insert_take_drop by (by eapply lookup_lt_Some).
  unfold winners. rewrite !filter_app, !length_app, !filter_cons, !filter_nil.
  repeat case_decide; simpl; lia.
Qed.

Lemma stop_step_winners c c' :
  stop_step c c' →
  (length (winners c.2) + (if running_ c.1 then 1 else 0) =
   length (winners c'.2) + (if running_ c'.1 then 1 else 0))%nat.
Proof.
  intros [w ts i b w' s Hi Hc|w ts i w' Hi Hr|w ts i Hi]; simpl.
  - apply (winners_insert _ _ _ (if b then Working else Skipped)) in Hi.
    unfold claim_stop in Hc. destruct (running_ w) eqn:Hrun; unfold mret, M_ret in Hc; simplify_eq;
      simpl in *; rewrite ?Hrun; unfold winners in *; simpl in *; lia.
  - by rewrite Hr.
  - apply (winners_insert _ _ _ Finished) in Hi. unfold winners in *. simpl in *. lia.
Qed.

(** However concurrent calls of [stop] on a running worker interleave,
    at most one of them does the work, and once none is still waiting to
    claim it, exactly one does. *)
Theorem stop_is_exclusive w n w' ts :
  running_ w = true → rtc stop_step (w, replicate n Calling) (w', ts) →
  (length (winners ts) ≤ 1)%nat ∧ (running_ w' = false → length (winners ts) = 1%nat).
Proof.
  intros Hrun Hsteps.
  assert (Hinv : ∀ c, rtc stop_step c (w', ts) →
    (length (winners c.2) + (if running_ c.1 then 1 else 0) =
     length (winners ts) + (if running_ w' then 1 else 0))%nat).
  { intros c Hc. remember (w', ts) as c' eqn:Hc'. induction Hc as [|c1 c2 c3 H1 _ IH]; [by subst|].
    rewrite (stop_step_winners _ _ H1). by apply IH. }
  apply Hinv in Hsteps. simpl in Hsteps. rewrite Hrun in Hsteps.
  assert (Hz : winners (replicate n Calling) = []) by (clear; induction n; done).
  rewrite Hz in Hsteps. simpl in Hsteps. destruct (running_ w'); split; lia.
Qed.

(** ** Signals before the start *)

(** A signal that arrives before [start] has set [running_] is logged and has
    no other effect: the worker starts as if it had not been sent. (The
    handler has deregistered itself by then.) *)
Theorem early_signal_is_lost signum (s : Machine X) :
  signal_callback signum initial_worker s =
    (Returned ((), initial_worker), s,
     [EvLog LogInformation ("received signal " +:+ fmt_int signum +:+ ": stopping")]).
Proof. done. Qed.

End Lifecycle.

(** ** Concrete runs *)

Section LifecycleWitnesses.
Import RefCodec.

Definition client0 : ClientConfiguration := mkClientConfig "us-east-1" "" HTTPS true.
Definition machine0 : Machine Sim := Sample.machine ∅ 0.

Definition started : outcome (expected unit * TaskForgeWorker) * Machine Sim * list Event :=
  start client0 Sample.config initial_worker machine0.

Lemma consuming_starts_last_witness :
  ∃ pre c r post, started.2 = pre ++ EvConsumer c r :: post ∧ EvPool "start" (Expected ()) ∈ pre.
Proof.
  assert (Hsplit : ∃ n c r, started.2 !! n = Some (EvConsumer c r)).
  { exists 11%nat. vm_compute. eexists _, _. reflexivity. }
  destruct Hsplit as (n & c & r & Hn). apply list_elem_of_split_length in Hn as (pre & post & Heq & _).
  exists pre, c, r, post. split; [exact Heq|].
  destruct (consuming_starts_last client0 Sample.config machine0 pre c r post Heq) as [Hp _]. exact Hp.
Defined.

Lemma start_completes_worker_witness :
  ∃ w, handler_worker Sample.config w = Some Sample.worker ∧ running_ w = true.
Proof.
  destruct started as [[o s'] es] eqn:Hr.
  assert (Ho : ∃ w, o = Returned (Expected (), w)).
  { change o with (o, s', es).1.1. rewrite <-Hr. eexists. vm_compute. reflexivity. }
  destruct Ho as [w Ho]. rewrite Ho in Hr.
  destruct (start_completes_worker client0 Sample.config machine0 s' w es Hr) as (Hrun & _ & Hh & _).
  exists w. split; [exact Hh|exact Hrun].
Defined.

(** The compiled-in defaults name no queue. *)
Definition no_queue : Configurations :=
  mkConfig "" "" "" 0 0 0 "" 1 1 1 "localhost" 6379 0 60 "" "" "" "" "" "request" 5 60 1 "bucket" 600
    "/srv/dlq" 4 10 30 (task_whitelist_ Sample.config).

Lemma missing_settings_exit_witness :
  (main client0 no_queue 15 initial_worker machine0).1.1 = Returned (1, initial_worker).
Proof.
  destruct (missing_settings_exit client0 no_queue 15 machine0) as [line ->]; [left|]; reflexivity.
Defined.

Definition running_worker : TaskForgeWorker := ready_worker client0 Sample.config false.

Lemma stop_once_witness :
  ∃ s', (stop running_worker machine0).1 = (Returned ((), released running_worker), s') ∧
    stop (released running_worker) s' = (Returned ((), released running_worker), s', []).
Proof.
  destruct (stop_once running_worker machine0) as (r1 & r2 & r3 & s' & Hr & Hagain); [reflexivity..|].
  exists s'. split; [rewrite Hr; reflexivity|apply Hagain].
Defined.

Lemma monitor_alerts_witness :
  (monitor Sample.config (dlq_member Sample.config) (replicate 2 true ++ [false]) machine0).1.1
    = Returned (Some (Expected ())).
Proof.
  rewrite (monitor_alerts Sample.config (dlq_member Sample.config) 2 [] machine0);
    [reflexivity|exact sim_fs_healthy|vm_compute; discriminate|vm_compute; discriminate].
Defined.

Lemma stop_is_exclusive_witness :
  ∃ w' ts, rtc (stop_step (X := Sim)) (running_worker, replicate 2 Calling) (w', ts) ∧
    (length (winners ts) ≤ 1)%nat.
Proof.
  assert (Hsteps : rtc (stop_step (X := Sim)) (running_worker, replicate 2 Calling)
    (set_running false running_worker, [Working; Skipped])).
  { eapply rtc_l.
    - apply (step_claim _ _ 0 true (set_running false running_worker) machine0); reflexivity.
    - eapply rtc_l; [|apply rtc_refl].
      apply (step_claim _ [Working; Calling] 1 false (set_running false running_worker) machine0); reflexivity. }
  eexists _, _. split; [exact Hsteps|].
  apply (stop_is_exclusive (X := Sim) running_worker 2 (set_running false running_worker) [Working; Skipped]);
    [reflexivity|exact Hsteps].
Defined.
End LifecycleWitnesses.
