(* ===== verification/StartSteps.v ===== *)
(** * The start of the worker, statement by statement

    [TaskForgeWorker::start] and the functions it calls as a machine that
    makes one step per statement ([start_step]), for the places where a signal
    handler can run in between.  A call through a member is undefined when the
    member is null.  Undisturbed, the machine does what [start] does: the same
    result, members, files and interactions ([start_steps_agree]), within a
    number of steps known beforehand. *)

From S2P Require Import Prelude Utf8 Json Filesystem Effects Testbed MessageValidation Configurations.
From S2P Require Import TaskDLQ TaskExecutor WorkerStatus Worker WorkerSample Lifecycle LifecycleProperties.

(** ** Equal computations

    Two operations on the members are equivalent when they give the same
    outcome, machine and interactions from all members and machines. *)

Section Equivalence.
Context {X : Type}.

#[export] Instance W_equiv {A} : Equiv (W X A) := λ m m', ∀ w s, m w s = m' w s.

#[export] Instance W_equivalence {A} : Equivalence (≡@{W X A}).
Proof.
  split; [by intros m w s|by intros m m' Hm w s|].
  intros m1 m2 m3 H1 H2 w s. by rewrite H1, H2.
Qed.

#[export] Instance W_bind_proper {A B} :
  Proper (pointwise_relation A (≡@{W X B}) ==> (≡@{W X A}) ==> (≡)) (@mbind (W X) (W_bind X) A B).
Proof.
  intros f g Hfg m m' Hm w s. unfold mbind, W_bind, mbind, M_bind. rewrite Hm.
  destruct (m' w s) as [[[[a w']|?|] s'] es]; [|done..]. simpl. by rewrite (Hfg a w' s').
Qed.

(** Only the first part differs. *)
Lemma W_bind_run {A B} (m m' : W X A) (f : A → W X B) w s : m w s = m' w s → (m ≫= f) w s = (m' ≫= f) w s.
Proof. intros Hm. unfold mbind, W_bind, mbind, M_bind. by rewrite Hm. Qed.

Lemma W_bind_assoc {A B C} (m : W X A) (f : A → W X B) (g : B → W X C) :
  (m ≫= f) ≫= g ≡ (m ≫= λ a, f a ≫= g).
Proof. intros w s. unfold mbind, W_bind. apply assoc_bind. Qed.

Lemma W_ret_bind {A B} (a : A) (f : A → W X B) : mret a ≫= f ≡ f a.
Proof.
  intros w s. unfold mbind, W_bind, mbind, M_bind, mret, W_ret, mret, M_ret. simpl.
  by destruct (f a w s) as [[o s'] es].
Qed.

(** A computation cut into steps: each step says where to go on, or the
    result. *)
Definition proceed {P R} (rest : P → W X R) (r : P + R) : W X R :=
  match r with inl p => rest p | inr r => mret r end.

End Equivalence.

(** ** The machine *)

Inductive start_point :=
| SValidate | SRunning | SExecutor | SDlq
| SPoolCreate | SPoolPush (pending : list (list JobPriorities)) | SPoolStart
| SRedisCreate | SConnect (remaining : nat) (attempt : Z) (last_error : string)
| SCatalog
| SS3Create | SPublisherCreate | SConsumerCreate | SRegisterHandler | SConsumerStart | SStartConsume
| SMonitor | SLogStarted.

Section Machine.
Context {X : Type} `{Services X} `{JsonCodec}.
Context (default_client : ClientConfiguration) (cfg : Configurations).

(** [member_->...]: undefined when the pointer is null. *)
Definition dereference {A} (member : TaskForgeWorker → option A) : W X A := λ w,
  match member w with Some a => mret (a, w) | None => undefined end.

(** Go on at [p], or leave [start] with the error under its prefix. *)
Definition checked (what : string) (p : start_point) (r : expected unit) : W X (start_point + expected unit) :=
  mret match r with
       | Expected _ => inl p
       | Unexpected e => inr (Unexpected (what +:+ ": " +:+ e))
       end.

Definition push_one (priorities : list JobPriorities) : W X unit :=
  dereference thread_pool_;;
  _ ← lift (PoolCall "push worker");
  update (λ w, set_thread_pool (option_map (λ ws, ws ++ [priorities]) (thread_pool_ w)) w).

Definition start_step (p : start_point) : W X (start_point + expected unit) :=
  match p with
  | SValidate =>
      mret match validate_required cfg with
           | Unexpected e => inr (Unexpected ("invalid configuration: " +:+ e))
           | Expected _ => inl SRunning
           end
  | SRunning => update (set_running true);; mret (inl SExecutor)
  | SExecutor => update (set_task_executor (Some (executor_member cfg)));; mret (inl SDlq)
  | SDlq =>
      dlq ← lift (TaskDLQ.make (dlq_path_ cfg) (dlq_max_retry_count_ cfg));
      update (set_task_dlq (Some dlq));; mret (inl SPoolCreate)
  | SPoolCreate => update (set_thread_pool (Some []));; mret (inl (SPoolPush (pool_threads cfg)))
  | SPoolPush (priorities :: pending) => push_one priorities;; mret (inl (SPoolPush pending))
  | SPoolPush [] => mret (inl SPoolStart)
  | SPoolStart =>
      dereference thread_pool_;;
      r ← lift (PoolCall "start"); checked "cannot create thread pool" SRedisCreate r
  | SRedisCreate =>
      update (set_redis_client (Some (redis_member cfg)));; mret (inl (SConnect redis_connect_attempts 1 ""))
  | SConnect (S remaining) attempt _ =>
      dereference redis_client_;;
      tried ← lift (connect_attempt cfg attempt);
      mret (inl match tried with
                | Expected _ => SCatalog
                | Unexpected e => SConnect remaining (attempt + 1) e
                end)
  | SConnect O _ last_error => checked "cannot connect redis" SCatalog (Unexpected last_error)
  | SCatalog =>
      dereference redis_client_;;
      r ← lift (upload_task_catalog cfg); checked "cannot upload task catalog" SS3Create r
  | SS3Create => update (set_s3_client (Some (s3_member default_client cfg)));; mret (inl SPublisherCreate)
  | SPublisherCreate =>
      update (set_sqs_publisher (Some (publisher_member default_client cfg)));; mret (inl SConsumerCreate)
  | SConsumerCreate =>
      update (set_sqs_consumer (Some (consumer_member default_client cfg false)));; mret (inl SRegisterHandler)
  | SRegisterHandler =>
      dereference sqs_consumer_;;
      r ← lift (ConsumerCall "register_consume_handler");
      (if has_value r then update (set_sqs_consumer (Some (consumer_member default_client cfg true))) else mret ());;
      checked "cannot connect aws service" SConsumerStart r
  | SConsumerStart =>
      dereference sqs_consumer_;;
      r ← lift (ConsumerCall "start"); checked "cannot connect aws service" SStartConsume r
  | SStartConsume =>
      dereference sqs_consumer_;;
      r ← lift (ConsumerCall "start_consume");
      (if has_value r
       then lift (log LogInformation ("sqs consuming started: " +:+ sqs_request_queue_url_ cfg)) else mret ());;
      checked "cannot connect aws service" SMonitor r
  | SMonitor =>
      dereference thread_pool_;;
      r ← lift start_dlq_backlog_monitor; checked "cannot start dlq backlog monitor" SLogStarted r
  | SLogStarted => lift (log LogInformation "TaskForgeWorker started");; mret (inr (Expected ()))
  end.

(** Steps from [p] on ([None]: [fuel] steps were not enough). *)
Fixpoint run_start (fuel : nat) (p : start_point) : W X (option (expected unit)) :=
  match fuel with
  | O => mret None
  | S fuel =>
      r ← start_step p;
      match r with inl p' => run_start fuel p' | inr r => mret (Some r) end
  end.

(** ** What is left of [start] at each point *)

Fixpoint push_all (pending : list (list JobPriorities)) : W X unit :=
  match pending with
  | [] => mret ()
  | priorities :: pending =>
      _ ← lift (PoolCall "push worker");
      update (λ w, set_thread_pool (option_map (λ ws, ws ++ [priorities]) (thread_pool_ w)) w);;
      push_all pending
  end.

Definition after_monitor : W X (expected unit) :=
  lift (log LogInformation "TaskForgeWorker started");; mret (Expected ()).
Definition after_aws : W X (expected unit) :=
  guarded "cannot start dlq backlog monitor" (lift start_dlq_backlog_monitor) after_monitor.
Definition consume_rest : W X (expected unit) :=
  consuming ← lift (ConsumerCall "start_consume");
  match consuming with
  | Unexpected e => mret (Unexpected e)
  | Expected _ =>
      lift (log LogInformation ("sqs consuming started: " +:+ sqs_request_queue_url_ cfg));;
      mret (Expected ())
  end.
Definition consumer_rest : W X (expected unit) :=
  started ← lift (ConsumerCall "start");
  match started with Unexpected e => mret (Unexpected e) | Expected _ => consume_rest end.
Definition register_rest : W X (expected unit) :=
  registered ← lift (ConsumerCall "register_consume_handler");
  match registered with
  | Unexpected e => mret (Unexpected e)
  | Expected _ => update (set_sqs_consumer (Some (consumer_member default_client cfg true)));; consumer_rest
  end.
Definition aws_rest (m : W X (expected unit)) : W X (expected unit) :=
  guarded "cannot connect aws service" m after_aws.
Definition after_catalog : W X (expected unit) := aws_rest (connect_aws_service default_client cfg).
Definition after_redis : W X (expected unit) :=
  guarded "cannot upload task catalog" (lift (upload_task_catalog cfg)) after_catalog.
Definition after_pool : W X (expected unit) :=
  guarded "cannot connect redis" (connect_redis cfg) after_redis.

Definition rest (p : start_point) : W X (expected unit) :=
  match p with
  | SValidate => start default_client cfg
  | SRunning =>
      update (set_running true);;
      update (set_task_executor (Some (executor_member cfg)));;
      dlq ← lift (TaskDLQ.make (dlq_path_ cfg) (dlq_max_retry_count_ cfg));
      update (set_task_dlq (Some dlq));;
      guarded "cannot create thread pool" (create_thread_pool cfg) after_pool
  | SExecutor =>
      update (set_task_executor (Some (executor_member cfg)));;
      dlq ← lift (TaskDLQ.make (dlq_path_ cfg) (dlq_max_retry_count_ cfg));
      update (set_task_dlq (Some dlq));;
      guarded "cannot create thread pool" (create_thread_pool cfg) after_pool
  | SDlq =>
      dlq ← lift (TaskDLQ.make (dlq_path_ cfg) (dlq_max_retry_count_ cfg));
      update (set_task_dlq (Some dlq));;
      guarded "cannot create thread pool" (create_thread_pool cfg) after_pool
  | SPoolCreate => guarded "cannot create thread pool" (create_thread_pool cfg) after_pool
  | SPoolPush pending => push_all pending;; guarded "cannot create thread pool" (lift (PoolCall "start")) after_pool
  | SPoolStart => guarded "cannot create thread pool" (lift (PoolCall "start")) after_pool
  | SRedisCreate => after_pool
  | SConnect remaining attempt last_error =>
      guarded "cannot connect redis" (lift (connect_loop cfg remaining attempt last_error)) after_redis
  | SCatalog => after_redis
  | SS3Create => after_catalog
  | SPublisherCreate =>
      update (set_sqs_publisher (Some (publisher_member default_client cfg)));;
      update (set_sqs_consumer (Some (consumer_member default_client cfg false)));;
      aws_rest register_rest
  | SConsumerCreate =>
      update (set_sqs_consumer (Some (consumer_member default_client cfg false)));; aws_rest register_rest
  | SRegisterHandler => aws_rest register_rest
  | SConsumerStart => aws_rest consumer_rest
  | SStartConsume => aws_rest consume_rest
  | SMonitor => after_aws
  | SLogStarted => after_monitor
  end.

(** ** Members that are in place at each point of an undisturbed start *)

Definition point_ok (p : start_point) (w : TaskForgeWorker) : Prop :=
  match p with
  | SPoolPush _ | SPoolStart | SRedisCreate => is_Some (thread_pool_ w)
  | SConnect _ _ _ | SCatalog => is_Some (thread_pool_ w) ∧ is_Some (redis_client_ w)
  | SS3Create | SPublisherCreate | SConsumerCreate | SMonitor => is_Some (thread_pool_ w)
  | SRegisterHandler | SConsumerStart | SStartConsume => is_Some (thread_pool_ w) ∧ is_Some (sqs_consumer_ w)
  | _ => True
  end.

(** Steps left, at most. *)
Definition start_measure (p : start_point) : nat :=
  match p with
  | SLogStarted => 1 | SMonitor => 2 | SStartConsume => 3 | SConsumerStart => 4 | SRegisterHandler => 5
  | SConsumerCreate => 6 | SPublisherCreate => 7 | SS3Create => 8 | SCatalog => 9
  | SConnect remaining _ _ => 10 + remaining
  | SRedisCreate => 11 + redis_connect_attempts
  | SPoolStart => 12 + redis_connect_attempts
  | SPoolPush pending => 13 + redis_connect_attempts + length pending
  | SPoolCreate => 14 + redis_connect_attempts + length (pool_threads cfg)
  | SDlq => 15 + redis_connect_attempts + length (pool_threads cfg)
  | SExecutor => 16 + redis_connect_attempts + length (pool_threads cfg)
  | SRunning => 17 + redis_connect_attempts + length (pool_threads cfg)
  | SValidate => 18 + redis_connect_attempts + length (pool_threads cfg)
  end%nat.

(** ** The machine undisturbed *)

Lemma dereference_bind {A B} (member : TaskForgeWorker → option A) (k : A → W X B) w s a :
  member w = Some a → (dereference member ≫= k) w s = k a w s.
Proof.
  intros Hw. unfold mbind, W_bind, dereference. rewrite Hw. unfold mbind, M_bind, mret, M_ret. simpl.
  by destruct (k a w s) as [[o s'] es].
Qed.

Lemma lift_bind {A B} (m : M X A) (f : A → M X B) : lift (m ≫= f) ≡ (a ← lift m; lift (f a) : W X B).
Proof.
  intros w s. unfold lift, mbind, W_bind, mbind, M_bind.
  destruct (m s) as [[[a|?|] s1] es1]; [|done..]. simpl.
  destruct (f a s1) as [[[b|?|] s2] es2]; simpl; by rewrite ?app_nil_r.
Qed.

Lemma lift_ret {A} (a : A) : lift (mret a : M X A) ≡ mret a.
Proof. by intros w s. Qed.

Lemma proceed_ret (f : start_point → W X (expected unit)) r : mret r ≫= proceed f ≡ proceed f r.
Proof. apply W_ret_bind. Qed.

(** A step with a checked result is a [guarded] one. *)
Lemma checked_step what p (m : W X (expected unit)) :
  (r ← m; checked what p r) ≫= proceed rest ≡ guarded what m (rest p).
Proof.
  unfold guarded. rewrite W_bind_assoc. f_equiv. intros [u|e]; unfold checked; by rewrite proceed_ret.
Qed.

(** An assignment followed by the rest. *)
Lemma update_step f p : (update f;; mret (inl p)) ≫= proceed rest ≡ (update f;; rest p).
Proof. rewrite W_bind_assoc. f_equiv. intros u. by rewrite proceed_ret. Qed.

Lemma push_all_app l l' : push_all (l ++ l') ≡ (push_all l;; push_all l').
Proof.
  induction l as [|p l IH]; simpl; [by rewrite W_ret_bind|].
  rewrite W_bind_assoc. f_equiv. intros u. rewrite W_bind_assoc. f_equiv. intros u'. exact IH.
Qed.

Lemma push_workers_all n priorities : push_workers n priorities ≡ push_all (replicate n priorities).
Proof. induction n as [|n IH]; simpl; [done|]. f_equiv. intros u. f_equiv. intros u'. exact IH. Qed.

Lemma create_thread_pool_all :
  create_thread_pool cfg ≡ (update (set_thread_pool (Some []));; push_all (pool_threads cfg);; lift (PoolCall "start")).
Proof.
  unfold create_thread_pool, pool_threads. f_equiv. intros _.
  do 3 (rewrite push_all_app, W_bind_assoc; apply W_bind_proper; [intros _|apply push_workers_all]).
  apply W_bind_proper; [done|apply (push_workers_all 1)].
Qed.

Lemma guarded_bind {A} what (m : W X A) (f : A → W X (expected unit)) next :
  guarded what (m ≫= f) next ≡ (a ← m; guarded what (f a) next).
Proof. unfold guarded. apply W_bind_assoc. Qed.

#[export] Instance guarded_proper what :
  Proper ((≡@{W X (expected unit)}) ==> (≡) ==> (≡)) (guarded what).
Proof.
  intros m m' Hm n n' Hn. unfold guarded. f_equiv; [|done]. intros [u|e]; [done|reflexivity].
Qed.

Lemma rest_pool_create :
  rest SPoolCreate ≡ (update (set_thread_pool (Some []));; rest (SPoolPush (pool_threads cfg))).
Proof.
  simpl. rewrite create_thread_pool_all, guarded_bind. f_equiv. intros _. apply guarded_bind.
Qed.

Lemma rest_redis_create :
  rest SRedisCreate ≡
    (update (set_redis_client (Some (redis_member cfg)));; rest (SConnect redis_connect_attempts 1 "")).
Proof. apply guarded_bind. Qed.

Lemma rest_connect n attempt err :
  rest (SConnect (S n) attempt err) ≡
    (tried ← lift (connect_attempt cfg attempt);
     rest match tried with Expected _ => SCatalog | Unexpected e => SConnect n (attempt + 1) e end).
Proof.
  cbn [rest connect_loop]. rewrite lift_bind, guarded_bind. f_equiv. intros [u|e]; [|done].
  unfold guarded. rewrite lift_ret. by rewrite W_ret_bind.
Qed.

Lemma rest_s3_create :
  rest SS3Create ≡ (update (set_s3_client (Some (s3_member default_client cfg)));; rest SPublisherCreate).
Proof.
  simpl. unfold after_catalog, aws_rest, connect_aws_service. cbv zeta.
  do 2 (rewrite guarded_bind; apply W_bind_proper; [intros _|reflexivity]). apply guarded_bind.
Qed.

(** [k] continues after a call on the consumer whose result is checked. *)
Lemma rest_consumer (m : W X (expected unit)) (f : expected unit → W X unit) p next :
  rest p ≡ aws_rest next →
  aws_rest (r ← m; match r with Unexpected e => mret (Unexpected e) | Expected _ => f r;; next end) ≡
  (r ← m; (if has_value r then f r else mret ());; checked "cannot connect aws service" p r) ≫= proceed rest.
Proof.
  intros Hp. unfold aws_rest. rewrite guarded_bind, W_bind_assoc. f_equiv. intros [u|e]; simpl.
  - rewrite guarded_bind, W_bind_assoc. f_equiv. intros _. unfold checked. by rewrite proceed_ret.
  - rewrite !W_ret_bind. unfold checked, guarded. by rewrite !W_ret_bind.
Qed.

Lemma rest_consumer_plain (m : W X (expected unit)) p next :
  rest p ≡ aws_rest next →
  aws_rest (r ← m; match r with Unexpected e => mret (Unexpected e) | Expected _ => next end) ≡
  (r ← m; checked "cannot connect aws service" p r) ≫= proceed rest.
Proof.
  intros Hp. unfold aws_rest. rewrite guarded_bind, W_bind_assoc. f_equiv. intros [u|e]; unfold checked;
    rewrite proceed_ret; [by rewrite Hp|]. unfold guarded. by rewrite W_ret_bind.
Qed.

(** One step and what is left afterwards is what was left before. *)
Lemma rest_step p w s :
  point_ok p w → rest p w s = (start_step p ≫= proceed rest) w s.
Proof.
  destruct p as [| | | | |[|priorities pending]| | |[|n] attempt err| | | | | | | | |]; cbn [point_ok start_step];
    intros Hok.
  - simpl. unfold start. destruct (validate_required cfg); by rewrite (proceed_ret rest _ w s).
  - by rewrite (update_step _ _ w s).
  - by rewrite (update_step _ _ w s).
  - rewrite (W_bind_assoc _ _ _ w s). apply W_bind_proper; [|done]. intros dlq. by rewrite update_step.
  - by rewrite (update_step _ _ w s), (rest_pool_create w s).
  - rewrite (proceed_ret rest _ w s). simpl. by rewrite (W_ret_bind _ _ w s).
  - destruct Hok as [a Ha]. unfold push_one. rewrite !(W_bind_assoc _ _ _ w s), (dereference_bind _ _ _ _ a Ha).
    cbn [rest push_all]. rewrite !(W_bind_assoc _ _ _ w s). apply W_bind_proper; [|done]. intros r.
    rewrite !W_bind_assoc. f_equiv. intros u. by rewrite proceed_ret.
  - destruct Hok as [a Ha]. rewrite (W_bind_assoc _ _ _ w s), (dereference_bind _ _ _ _ a Ha).
    by rewrite (checked_step _ _ _ w s).
  - by rewrite (update_step _ _ w s), (rest_redis_create w s).
  - unfold checked. by rewrite (proceed_ret rest _ w s).
  - destruct Hok as [_ [a Ha]]. rewrite (W_bind_assoc _ _ _ w s), (dereference_bind _ _ _ _ a Ha).
    rewrite (rest_connect _ _ _ w s), (W_bind_assoc _ _ _ w s). apply W_bind_proper; [|done].
    intros tried. by rewrite proceed_ret.
  - destruct Hok as [_ [a Ha]]. rewrite (W_bind_assoc _ _ _ w s), (dereference_bind _ _ _ _ a Ha).
    by rewrite (checked_step _ _ _ w s).
  - by rewrite (update_step _ _ w s), (rest_s3_create w s).
  - by rewrite (update_step _ _ w s).
  - by rewrite (update_step _ _ w s).
  - destruct Hok as [_ [a Ha]]. rewrite (W_bind_assoc _ _ _ w s), (dereference_bind _ _ _ _ a Ha).
    apply (rest_consumer _ (λ _, _) SConsumerStart consumer_rest); reflexivity.
  - destruct Hok as [_ [a Ha]]. rewrite (W_bind_assoc _ _ _ w s), (dereference_bind _ _ _ _ a Ha).
    by apply (rest_consumer_plain _ SStartConsume).
  - destruct Hok as [_ [a Ha]]. rewrite (W_bind_assoc _ _ _ w s), (dereference_bind _ _ _ _ a Ha).
    apply (rest_consumer _ (λ _, _) SMonitor (mret (Expected ()))).
    unfold aws_rest, guarded. by rewrite W_ret_bind.
  - destruct Hok as [a Ha]. rewrite (W_bind_assoc _ _ _ w s), (dereference_bind _ _ _ _ a Ha).
    by rewrite (checked_step _ _ _ w s).
  - rewrite (W_bind_assoc _ _ _ w s). apply W_bind_proper; [|done]. intros u. by rewrite proceed_ret.
Qed.

(** ** One step, wherever it is taken *)

(** From [w], whatever the machine, [m] does not throw; it is undefined only
    if [U]; and what it returns satisfies [Q]. *)
Definition wlp {A} (U : Prop) (m : W X A) (Q : A → TaskForgeWorker → Prop) (w : TaskForgeWorker) : Prop :=
  ∀ s, match (m w s).1.1 with Returned (a, w') => Q a w' | Threw _ => False | Undefined => U end.

Lemma wlp_ret {A} U (a : A) Q w : Q a w → wlp U (mret a) Q w.
Proof. by intros HQ s. Qed.

Lemma wlp_bind {A B} U (m : W X A) (f : A → W X B) Q w :
  wlp U m (λ a w', wlp U (f a) Q w') w → wlp U (m ≫= f) Q w.
Proof.
  intros Hm s. specialize (Hm s). unfold mbind, W_bind, mbind, M_bind.
  destruct (m w s) as [[[[a w']|?|] s'] es]; [|done..]. specialize (Hm s'). simpl in *.
  by destruct (f a w' s') as [[o s''] es'].
Qed.

Lemma wlp_wp {A} U (m : W X A) Q w : wp m Q w → wlp U m Q w.
Proof. intros Hm s. destruct (Hm s) as (a & w' & -> & HQ). done. Qed.

Lemma wlp_dereference {A} U (member : TaskForgeWorker → option A) Q w :
  (∀ a, member w = Some a → Q a w) → (member w = None → U) → wlp U (dereference member) Q w.
Proof. intros HQ HU s. unfold dereference. destruct (member w) as [a|]; simpl; auto. Qed.

Definition past_running (p : start_point) : bool :=
  match p with SValidate | SRunning => false | _ => true end.

(** What a step from [p] with members [w] gives. *)
Definition step_post (p : start_point) (w : TaskForgeWorker) (r : start_point + expected unit)
    (w' : TaskForgeWorker) : Prop :=
  running_ w' = (if p is SRunning then true else running_ w) ∧ stop_promise_set w' = stop_promise_set w ∧
  match r with
  | inl p' => (start_measure p' < start_measure p)%nat ∧ (point_ok p w → point_ok p' w') ∧
              past_running p' = (match p with SValidate => false | _ => true end)
  | inr (Expected _) => past_running p = true
  | inr (Unexpected _) => p ≠ SRunning
  end.

Ltac wlp_step :=
  lazymatch goal with
  | |- wlp _ (_ ≫= _) _ _ => apply wlp_bind
  | |- wlp _ (mret _) _ _ => apply wlp_ret
  | |- wlp _ (checked _ _ _) _ _ => apply wlp_ret
  | |- wlp _ (dereference _) _ _ => apply wlp_dereference; [intros ? ?|]
  | |- wlp _ (update _) _ _ => apply wlp_wp, wp_update
  | |- wlp _ (lift _) _ _ => apply wlp_wp, wp_lift; [solve [returns_tac; eauto using connect_attempt_returns,
        upload_task_catalog_returns, pool_returns, consumer_returns]|intros ?]
  | |- wlp _ (if ?b then _ else _) _ _ => destruct b eqn:?
  end; cbv beta.

(** A step never throws; it is undefined only where a member it uses is
    missing. *)
Lemma start_step_spec p w : wlp (¬ point_ok p w) (start_step p) (step_post p w) w.
Proof.
  destruct p as [| | | | |[|priorities pending]| | |[|n] attempt err| | | | | | | | |]; cbn [start_step];
    unfold push_one, start_dlq_backlog_monitor.
  4: { apply wlp_bind. apply wlp_wp, (wp_lift_value _ (dlq_member cfg)); [intros; apply make_dlq_value|].
       repeat wlp_step. unfold step_post; simpl. split_and!; try done; lia. }
  all: repeat wlp_step; unfold step_post; simpl.
  all: try (intros ->; unfold is_Some; naive_solver).
  all: repeat match goal with
       | |- context [match ?x with Expected _ => _ | Unexpected _ => _ end] => destruct x as [[]|]
       end; simpl.
  all: try (split_and!; try done; try lia; try naive_solver).
  by intros [? ->].
Qed.

(** The steps left are bounded by the measure, and give what was left of
    [start]. *)
Lemma run_start_rest fuel p w s :
  point_ok p w → (start_measure p ≤ fuel)%nat →
  run_start fuel p w s = (r ← rest p; mret (Some r)) w s.
Proof.
  revert p w s. induction fuel as [|fuel IH]; intros p w s Hok Hm; [by destruct p; simpl in Hm; lia|].
  pose proof (start_step_spec p w s) as Hstep. cbn [run_start].
  rewrite (W_bind_run _ _ _ _ _ (rest_step p w s Hok)). unfold mbind, W_bind, mbind, M_bind.
  destruct (start_step p w s) as [[[[r w']|?|] s'] es]; [|done..]. simpl in *.
  destruct Hstep as (_ & _ & Hr). destruct r as [p'|r]; simpl.
  - destruct Hr as (Hlt & Hok' & _). rewrite IH by (by auto || lia). unfold mbind, W_bind, mbind, M_bind.
    destruct (rest p' w' s') as [[[[r w'']|?|] s''] es']; simpl; by rewrite ?app_nil_r, ?app_assoc.
  - by rewrite !app_nil_r.
Qed.

(** The start, cut into its statements, is the start: run to the end it
    takes at most the number of steps known beforehand (the threads of the
    pool, the attempts on Redis and a constant) and gives the result, members,
    files and interactions of [start]. *)
Theorem start_steps_agree w s :
  run_start (start_measure SValidate) SValidate w s =
    (r ← start default_client cfg; mret (Some r)) w s.
Proof. by apply (run_start_rest _ SValidate). Qed.

End Machine.
