(* ===== verification/Program.v ===== *)
(** * The program: [main], its signal handlers and what they share (Main/main.cpp)

    The process as a machine that makes one step per statement of [main] (and
    of the worker's start, [StartSteps]); between any two steps a signal may
    arrive.  A signal whose disposition is [signal_callback] runs that handler
    on the shared state; one left to the default action ends the process.  The
    logger and the AWS SDK are objects of libraries: of them the state records
    what [main] has told them. *)

From S2P Require Import Prelude Utf8 Json Filesystem Effects MessageValidation Configurations.
From S2P Require Import TaskDLQ TaskExecutor WorkerStatus Worker Lifecycle LifecycleProperties StartSteps.

(** ** Shared state *)

Inductive Signal := SIGINT | SIGILL | SIGABRT | SIGFPE | SIGSEGV | SIGTERM.

#[export] Instance Signal_eq_dec : EqDecision Signal.
Proof. solve_decision. Defined.

Definition signal_number (sig : Signal) : Z :=
  match sig with SIGINT => 2 | SIGILL => 4 | SIGABRT => 6 | SIGFPE => 8 | SIGSEGV => 11 | SIGTERM => 15 end.

(** What [std::signal] has installed; a null handler is the default action,
    which for these signals ends the process. *)
Inductive Disposition := DefaultAction | Callback.

Record LoggerSettings := mkLoggerSettings {
  set_file_mode : option Z; set_console_mode : option Z;
  set_write_interval : option Z; set_log_root : option string }.

Inductive LoggerState :=
| LoggerIdle (settings : LoggerSettings)
| LoggerRunning (settings : LoggerSettings) (title : string)
| LoggerStopped
| LoggerDestroyed.

(** A worker object: the configuration it shares with [main], and its other
    members. *)
Definition worker_object : Type := Configurations * TaskForgeWorker.

Record process := mkProcess {
  cout_unitbuf : bool;
  configurations_ : option Configurations;
  worker_ : option worker_object;
  logger_ : LoggerState;
  sdk_initialized : bool;
  dispositions : Signal → Disposition;
}.

Definition initial_process : process :=
  mkProcess false None None (LoggerIdle (mkLoggerSettings None None None None)) false (λ _, DefaultAction).

Definition with_unitbuf b p := mkProcess b (configurations_ p) (worker_ p) (logger_ p) (sdk_initialized p) (dispositions p).
Definition with_configurations c p := mkProcess (cout_unitbuf p) c (worker_ p) (logger_ p) (sdk_initialized p) (dispositions p).
Definition with_worker w p := mkProcess (cout_unitbuf p) (configurations_ p) w (logger_ p) (sdk_initialized p) (dispositions p).
Definition with_logger l p := mkProcess (cout_unitbuf p) (configurations_ p) (worker_ p) l (sdk_initialized p) (dispositions p).
Definition with_sdk b p := mkProcess (cout_unitbuf p) (configurations_ p) (worker_ p) (logger_ p) b (dispositions p).
Definition with_dispositions d p := mkProcess (cout_unitbuf p) (configurations_ p) (worker_ p) (logger_ p) (sdk_initialized p) d.

(** ** Signal registration *)

(** [std::signal(sig, d)] *)
Definition set_signal (sig : Signal) (d : Disposition) (p : process) : process :=
  with_dispositions (λ sig', if decide (sig' = sig) then d else dispositions p sig') p.

(** The signals [register_signal] and [deregister_signal] go through. *)
Definition handled_signals : list Signal := [SIGINT; SIGILL; SIGABRT; SIGFPE; SIGSEGV; SIGTERM].

Definition register_signal (p : process) : process := foldl (λ p sig, set_signal sig Callback p) p handled_signals.
Definition deregister_signal (p : process) : process :=
  foldl (λ p sig, set_signal sig DefaultAction p) p handled_signals.

(** ** The statements of [main] *)

Inductive point :=
| AtUnitbuf | AtConfigure
| AtFileMode | AtConsoleMode | AtWriteInterval | AtLogRoot | AtLoggerStart
| AtRegister (pending : list Signal)
| AtInitAPI | AtConstruct
| AtStart (p : start_point)
| AtStartFailed (error : string) | AtStopFailed
| AtWait
| AtReset (exit_code : Z) | AtDestroy (exit_code : Z) (dying : worker_object)
| AtResetConfigurations (exit_code : Z) | AtShutdown (exit_code : Z)
| AtDeregister (pending : list Signal) (exit_code : Z)
| AtLoggerStop (exit_code : Z) | AtLoggerDestroy (exit_code : Z).

Section Program.
Context {X : Type} `{Services X} `{JsonCodec}.
Context (default_client : ClientConfiguration).
Context (log_information : Z) (arguments : ArgumentParser) (read_file : string → ConfigFile).

Definition emit_all (es : list Event) : M X unit := λ s, (Returned (), s, es).

(** [configurations_->...] and [worker_->...] in [main]. *)
Definition pointee {A} (pointer : option A) : M X A :=
  match pointer with Some a => mret a | None => undefined end.

(** A call of the logger that sets one of its settings. *)
Definition logger_setting (f : LoggerSettings → LoggerSettings) (p : process) : process :=
  with_logger (match logger_ p with
               | LoggerIdle s => LoggerIdle (f s)
               | LoggerRunning s title => LoggerRunning (f s) title
               | l => l
               end) p.

Definition start_logger (title : string) (p : process) : process :=
  with_logger (match logger_ p with
               | LoggerIdle s => LoggerRunning s title
               | l => l
               end) p.

(** One statement: where [main] goes on, or the code it returns. *)
Definition main_step (pt : point) (p : process) : M X ((point + Z) * process) :=
  match pt with
  | AtUnitbuf => mret (inl AtConfigure, with_unitbuf true p)
  | AtConfigure =>
      let '(cfg, es) := make_configurations log_information arguments read_file in
      emit_all es;; mret (inl AtFileMode, with_configurations (Some cfg) p)
  | AtFileMode =>
      cfg ← pointee (configurations_ p);
      mret (inl AtConsoleMode, logger_setting (λ s, mkLoggerSettings (Some (write_file_log cfg))
              (set_console_mode s) (set_write_interval s) (set_log_root s)) p)
  | AtConsoleMode =>
      cfg ← pointee (configurations_ p);
      mret (inl AtWriteInterval, logger_setting (λ s, mkLoggerSettings (set_file_mode s)
              (Some (write_console_log cfg)) (set_write_interval s) (set_log_root s)) p)
  | AtWriteInterval =>
      cfg ← pointee (configurations_ p);
      mret (inl AtLogRoot, logger_setting (λ s, mkLoggerSettings (set_file_mode s)
              (set_console_mode s) (Some (write_interval cfg)) (set_log_root s)) p)
  | AtLogRoot =>
      cfg ← pointee (configurations_ p);
      mret (inl AtLoggerStart, logger_setting (λ s, mkLoggerSettings (set_file_mode s)
              (set_console_mode s) (set_write_interval s) (Some (log_root_path cfg))) p)
  | AtLoggerStart =>
      cfg ← pointee (configurations_ p);
      mret (inl (AtRegister handled_signals), start_logger (worker_title cfg) p)
  | AtRegister (sig :: pending) => mret (inl (AtRegister pending), set_signal sig Callback p)
  | AtRegister [] => mret (inl AtInitAPI, p)
  | AtInitAPI => mret (inl AtConstruct, with_sdk true p)
  | AtConstruct =>
      cfg ← pointee (configurations_ p);
      mret (inl (AtStart SValidate), with_worker (Some (cfg, initial_worker)) p)
  | AtStart sp =>
      '(cfg, w) ← pointee (worker_ p);
      '(r, w') ← start_step default_client cfg sp w;
      mret (inl match r with
                | inl sp' => AtStart sp'
                | inr (Expected _) => AtWait
                | inr (Unexpected e) => AtStartFailed e
                end, with_worker (Some (cfg, w')) p)
  | AtStartFailed e =>
      log LogError ("cannot start TaskForgeWorker: " +:+ e);; mret (inl AtStopFailed, p)
  | AtStopFailed =>
      '(cfg, w) ← pointee (worker_ p);
      '(_, w') ← stop w;
      mret (inl (AtReset 1), with_worker (Some (cfg, w')) p)
  | AtWait => mret (inl (AtReset 0), p)
  | AtReset code =>
      (* the pointer is null before the object's destructor runs *)
      mret (inl match worker_ p with Some o => AtDestroy code o | None => AtResetConfigurations code end,
            with_worker None p)
  | AtDestroy code (cfg, w) =>
      _ ← stop w; mret (inl (AtResetConfigurations code), p)
  | AtResetConfigurations code => mret (inl (AtShutdown code), with_configurations None p)
  | AtShutdown code => mret (inl (AtDeregister handled_signals code), with_sdk false p)
  | AtDeregister (sig :: pending) code => mret (inl (AtDeregister pending code), set_signal sig DefaultAction p)
  | AtDeregister [] code => mret (inl (AtLoggerStop code), p)
  | AtLoggerStop code => mret (inl (AtLoggerDestroy code), with_logger LoggerStopped p)
  | AtLoggerDestroy code => mret (inr code, with_logger LoggerDestroyed p)
  end.

(** [wait_stop] blocks until the stop promise is set. *)
Definition blocked (pt : point) (p : process) : bool :=
  match pt, worker_ p with
  | AtWait, Some (_, w) => negb (stop_promise_set w)
  | _, _ => false
  end.

(** The signal handler. *)
Definition signal_callback (sig : Signal) (p : process) : M X process :=
  let p := deregister_signal p in
  match worker_ p with
  | None => mret p
  | Some (cfg, w) =>
      '(_, w') ← Lifecycle.signal_callback (signal_number sig) w;
      mret (with_worker (Some (cfg, w')) p)
  end.

(** ** Runs with signals *)

Inductive ending :=
| ExitedWith (code : Z)
| KilledBy (sig : Signal)
| NullDereference
| UncaughtException (what : string).

Inductive pstate :=
| Live (pt : point) (p : process) (s : Machine X)
| Ended (how : ending) (p : process) (s : Machine X).

(** Who moves: [main], or the handler of a signal that arrives at [pt]. *)
Inductive label := Main | Handled (pt : point) (sig : Signal) | Default (sig : Signal).

Inductive proc_step : pstate → label → pstate → Prop :=
| step_main pt p s pt' p' s' es :
    blocked pt p = false → main_step pt p s = (Returned (inl pt', p'), s', es) →
    proc_step (Live pt p s) Main (Live pt' p' s')
| step_exit pt p s code p' s' es :
    blocked pt p = false → main_step pt p s = (Returned (inr code, p'), s', es) →
    proc_step (Live pt p s) Main (Ended (ExitedWith code) p' s')
| step_undefined pt p s s' es :
    blocked pt p = false → main_step pt p s = (Undefined, s', es) →
    proc_step (Live pt p s) Main (Ended NullDereference p s')
| step_throw pt p s what s' es :
    blocked pt p = false → main_step pt p s = (Threw what, s', es) →
    proc_step (Live pt p s) Main (Ended (UncaughtException what) p s')
| step_handled pt p s sig p' s' es :
    dispositions p sig = Callback → signal_callback sig p s = (Returned p', s', es) →
    proc_step (Live pt p s) (Handled pt sig) (Live pt p' s')
| step_handler_throw pt p s sig what s' es :
    dispositions p sig = Callback → signal_callback sig p s = (Threw what, s', es) →
    proc_step (Live pt p s) (Handled pt sig) (Ended (UncaughtException what) p s')
| step_default pt p s sig :
    dispositions p sig = DefaultAction →
    proc_step (Live pt p s) (Default sig) (Ended (KilledBy sig) p s).

(** The states of runs of the program, with their labels, latest first. *)
Inductive reaches (from : pstate) : list label → pstate → Prop :=
| reaches_here : reaches from [] from
| reaches_step ls st l st' : reaches from ls st → proc_step st l st' → reaches from (l :: ls) st'.

(** The same as a function, on a schedule of who moves next ([None]: [main]);
    moves that are not possible change nothing. *)
Definition advance (st : pstate) : pstate :=
  match st with
  | Live pt p s =>
      if blocked pt p then st else
      match main_step pt p s with
      | (Returned (inl pt', p'), s', _) => Live pt' p' s'
      | (Returned (inr code, p'), s', _) => Ended (ExitedWith code) p' s'
      | (Undefined, s', _) => Ended NullDereference p s'
      | (Threw what, s', _) => Ended (UncaughtException what) p s'
      end
  | Ended _ _ _ => st
  end.

Definition interrupt (sig : Signal) (st : pstate) : pstate :=
  match st with
  | Live pt p s =>
      match dispositions p sig with
      | DefaultAction => Ended (KilledBy sig) p s
      | Callback =>
          match signal_callback sig p s with
          | (Returned p', s', _) => Live pt p' s'
          | (Threw what, s', _) => Ended (UncaughtException what) p s'
          | (Undefined, _, _) => st
          end
      end
  | Ended _ _ _ => st
  end.

Definition move (who : option Signal) (st : pstate) : pstate :=
  match who with None => advance st | Some sig => interrupt sig st end.

Definition play (schedule : list (option Signal)) (st : pstate) : pstate := foldl (λ st who, move who st) st schedule.

(** The labels of a move and of a schedule, latest first. *)
Definition move_labels (who : option Signal) (st : pstate) : list label :=
  match who, st with
  | None, Live pt p _ => if blocked pt p then [] else [Main]
  | Some sig, Live pt p s =>
      match dispositions p sig with
      | DefaultAction => [Default sig]
      | Callback => match signal_callback sig p s with (Undefined, _, _) => [] | _ => [Handled pt sig] end
      end
  | _, Ended _ _ _ => []
  end.

Fixpoint play_labels (schedule : list (option Signal)) (st : pstate) : list label :=
  match schedule with
  | [] => []
  | who :: schedule => play_labels schedule (move who st) ++ move_labels who st
  end.

Definition launched (s : Machine X) : pstate := Live AtUnitbuf initial_process s.

End Program.
