(* ===== verification/ProgramProperties.v ===== *)
(** * Properties of the program under signals

    What holds at every point of every run of the process, whatever signals
    arrive and when: which shared objects exist, which handlers are installed,
    how the worker's flags relate to each other.  From it: the handler works
    only on a live logger, at most one signal is handled once the handlers are
    in place, an exit leaves nothing behind, the program blocks only where it
    waits for its stop, and a null pointer is used only if a signal was handled
    during the start (where it then is used at the next step). *)

From S2P Require Import Prelude Utf8 Json Filesystem Effects Testbed MessageValidation Configurations.
From S2P Require Import TaskDLQ TaskExecutor WorkerStatus Worker WorkerSample Lifecycle LifecycleProperties.
From S2P Require Import StartSteps Program.

(** ** Points of [main] in the order of the code *)

Definition stage (pt : point) : nat :=
  match pt with
  | AtUnitbuf => 0 | AtConfigure => 1 | AtFileMode => 2 | AtConsoleMode => 3 | AtWriteInterval => 4
  | AtLogRoot => 5 | AtLoggerStart => 6 | AtRegister _ => 7 | AtInitAPI => 8 | AtConstruct => 9
  | AtStart _ => 10 | AtStartFailed _ => 11 | AtStopFailed => 12 | AtWait => 13
  | AtReset _ => 14 | AtDestroy _ _ => 15 | AtResetConfigurations _ => 16 | AtShutdown _ => 17
  | AtDeregister _ _ => 18 | AtLoggerStop _ => 19 | AtLoggerDestroy _ => 20
  end.

(** Between the first and the last of the given stages. *)
Definition within (first last : nat) (pt : point) : bool := Nat.leb first (stage pt) && Nat.leb (stage pt) last.

(** Points of the start between the assignment of [running_] and the last
    statement. *)
Definition vulnerable (sp : start_point) : bool :=
  past_running sp && match sp with SLogStarted => false | _ => true end.

(** No signal was handled at such a point. *)
Definition undisturbed (ls : list label) : Prop :=
  Forall (λ l, match l with Handled (AtStart sp) _ => vulnerable sp = false | _ => True end) ls.

(** A signal handled once all handlers were installed. *)
Definition late (l : label) : bool := match l with Handled pt _ => Nat.leb 8 (stage pt) | _ => false end.
Definition is_handled (l : label) : bool := match l with Handled _ _ => true | _ => false end.

Lemma handled_signals_all sig : sig ∈ handled_signals.
Proof. unfold handled_signals. destruct sig; set_solver. Qed.
Lemma handled_signals_nodup : NoDup handled_signals.
Proof. refine (bool_decide_unpack _ _). exact I. Qed.

(** ** The invariant *)

(** The shared objects that exist at a point. *)
Record objects (pt : point) (p : process) : Prop := {
  objects_configurations : bool_decide (is_Some (configurations_ p)) = within 2 16 pt;
  objects_worker : bool_decide (is_Some (worker_ p)) = within 10 14 pt;
  objects_sdk : sdk_initialized p = within 9 17 pt;
  objects_logger : match logger_ p with
                   | LoggerIdle _ => within 0 6 pt
                   | LoggerRunning _ _ => within 7 19 pt
                   | LoggerStopped => within 20 20 pt
                   | LoggerDestroyed => false
                   end = true;
}.

(** The installed handlers, given the signals handled so far. *)
Record handlers (ls : list label) (pt : point) (p : process) : Prop := {
  handlers_within sig : dispositions p sig = Callback →
    match pt with
    | AtRegister pending => sig ∉ pending
    | AtDeregister pending _ => sig ∈ pending
    | _ => within 8 17 pt = true
    end;
  handlers_all : existsb is_handled ls = false → ∀ sig,
    match pt with
    | AtRegister pending => sig ∉ pending
    | AtDeregister pending _ => sig ∈ pending
    | _ => within 8 17 pt = true
    end → dispositions p sig = Callback;
  handlers_gone : existsb late ls = true → Nat.leb 8 (stage pt) = true ∧ ∀ sig, dispositions p sig = DefaultAction;
  handlers_pending : match pt with AtRegister pending | AtDeregister pending _ => NoDup pending | _ => True end;
  handlers_once : (length (filter late ls) ≤ 1)%nat;
}.

(** The flags of the worker. *)
Definition flags (sp : start_point) (w : TaskForgeWorker) : Prop :=
  if past_running sp then running_ w = negb (stop_promise_set w)
  else running_ w = false ∧ stop_promise_set w = false.

Definition worker_state (ls : list label) (pt : point) (p : process) : Prop :=
  match pt, worker_ p with
  | AtStart sp, Some (_, w) =>
      flags sp w ∧ (undisturbed ls → point_ok sp w) ∧ (existsb late ls = false → stop_promise_set w = false)
  | (AtStartFailed _ | AtStopFailed), Some (_, w) => stop_promise_set w = true → running_ w = false
  | AtWait, Some (_, w) => running_ w = negb (stop_promise_set w)
  | AtReset _, Some (_, w) => running_ w = false
  | AtDestroy _ (_, w), _ => running_ w = false
  | _, _ => True
  end.

Definition exit_code_of (pt : point) : option Z :=
  match pt with
  | AtReset c | AtDestroy c _ | AtResetConfigurations c | AtShutdown c | AtDeregister _ c
  | AtLoggerStop c | AtLoggerDestroy c => Some c
  | _ => None
  end.

Record process_inv (ls : list label) (pt : point) (p : process) : Prop := {
  inv_objects : objects pt p;
  inv_handlers : handlers ls pt p;
  inv_worker : worker_state ls pt p;
  inv_code : ∀ c, exit_code_of pt = Some c → c = 0 ∨ c = 1;
}.

(** What an exit leaves: nothing. *)
Record finished (p : process) : Prop := {
  finished_configurations : configurations_ p = None;
  finished_worker : worker_ p = None;
  finished_sdk : sdk_initialized p = false;
  finished_logger : logger_ p = LoggerDestroyed;
  finished_handlers : ∀ sig, dispositions p sig = DefaultAction;
}.

Lemma deregister_dispositions p sig : dispositions (deregister_signal p) sig = DefaultAction.
Proof. by destruct sig. Qed.
Lemma deregister_rest p :
  configurations_ (deregister_signal p) = configurations_ p ∧ worker_ (deregister_signal p) = worker_ p ∧
  logger_ (deregister_signal p) = logger_ p ∧ sdk_initialized (deregister_signal p) = sdk_initialized p.
Proof. done. Qed.

Section Invariant.
Context {X : Type} `{Services X} `{JsonCodec}.
Context (default_client : ClientConfiguration).
Context (log_information : Z) (arguments : ArgumentParser) (read_file : string → ConfigFile).

Abbreviation main_step := (main_step default_client log_information arguments read_file).
Abbreviation proc_step := (proc_step default_client log_information arguments read_file).
Abbreviation advance := (advance default_client log_information arguments read_file).
Abbreviation move := (move default_client log_information arguments read_file).
Abbreviation play := (play default_client log_information arguments read_file).
Abbreviation play_labels := (play_labels default_client log_information arguments read_file).
Abbreviation reaches := (reaches default_client log_information arguments read_file).

(** ** Preservation by the steps of [main] *)

Lemma is_Some_bool {A} (o : option A) : bool_decide (is_Some o) = true → ∃ a, o = Some a.
Proof. intros Ho. by apply bool_decide_eq_true in Ho. Qed.

(** While the worker exists, only its members change. *)
Lemma objects_worker_change pt pt' p o :
  within 10 14 pt = true → within 10 14 pt' = true → objects pt p → objects pt' (with_worker (Some o) p).
Proof.
  intros Hpt Hpt' [Hc Hw Hs Hl]. 
  destruct pt; try discriminate Hpt; destruct pt'; try discriminate Hpt'; split; try done;
    simpl; by destruct (logger_ p).
Qed.

Lemma handlers_worker_change ls pt pt' p w :
  within 10 14 pt = true → within 10 14 pt' = true → handlers ls pt p → handlers (Main :: ls) pt' (with_worker w p).
Proof.
  intros Hpt Hpt' [Hw Ha Hg Hn Ho].
  destruct pt; try discriminate Hpt; destruct pt'; try discriminate Hpt'; by split.
Qed.

Lemma handlers_register ls sig pending p :
  handlers ls (AtRegister (sig :: pending)) p → handlers (Main :: ls) (AtRegister pending) (set_signal sig Callback p).
Proof.
  intros [Hw Ha Hg Hn Ho]. apply NoDup_cons in Hn as [Hsig Hn]. split; simpl in *; try done.
  - intros sig'. case_decide as Heq; [by subst|]. intros Hd. apply Hw in Hd. set_solver.
  - intros Hh sig' Hs. case_decide as Heq; [done|]. apply Ha; set_solver.
  - intros Hl. by destruct (Hg Hl).
Qed.

Lemma handlers_deregister ls sig pending c p :
  handlers ls (AtDeregister (sig :: pending) c) p →
  handlers (Main :: ls) (AtDeregister pending c) (set_signal sig DefaultAction p).
Proof.
  intros [Hw Ha Hg Hn Ho]. apply NoDup_cons in Hn as [Hsig Hn]. split; simpl in *; try done.
  - intros sig'. case_decide as Heq; [done|]. intros Hd. apply Hw in Hd. set_solver.
  - intros Hh sig' Hs. case_decide as Heq; [by subst|]. apply Ha; set_solver.
  - intros Hl. split; [done|]. intros sig'. case_decide; [done|]. by apply Hg.
Qed.

Lemma undisturbed_main ls : undisturbed (Main :: ls) ↔ undisturbed ls.
Proof. unfold undisturbed. rewrite Forall_cons. naive_solver. Qed.

(** A step of the start. *)
Lemma start_point_inv ls sp p (s : Machine X) :
  process_inv ls (AtStart sp) p →
  match main_step (AtStart sp) p s with
  | (Returned (inl pt', p'), _, _) => process_inv (Main :: ls) pt' p'
  | (Undefined, _, _) => ¬ undisturbed ls
  | _ => False
  end.
Proof.
  intros [Hobj Hhan Hw Hc]. destruct (is_Some_bool (worker_ p)) as [[cfg w] Hwk]; [by rewrite (objects_worker _ _ Hobj)|].
  simpl in Hw. rewrite Hwk in Hw. destruct Hw as (Hflags & Hok & Hpr).
  pose proof (start_step_spec default_client cfg sp w s) as Hstep.
  unfold Program.main_step. rewrite Hwk. unfold mbind, M_bind, pointee, mret, M_ret.
  destruct (start_step default_client cfg sp w s) as [[[[r w']|?|] s'] es]; simpl in *; [|done|naive_solver].
  destruct Hstep as (Hrun & Hprom & Hr). unfold flags in Hflags.
  destruct r as [sp'|[[]|e]].
  all: split; [by apply (objects_worker_change (AtStart sp))|by apply (handlers_worker_change _ (AtStart sp))| |done].
  - simpl. rewrite undisturbed_main. unfold flags. destruct Hr as (_ & Hok' & ->). split; [|split; [auto|by rewrite Hprom]].
    rewrite Hrun, Hprom. destruct sp; simpl in *; try exact Hflags. by destruct Hflags as [_ ->].
  - simpl. rewrite Hrun, Hprom. by destruct sp; simpl in *.
  - simpl. rewrite Hrun, Hprom. intros Hp. rewrite Hp in Hflags.
    destruct sp; simpl in *; first [exact Hflags|by destruct Hflags].
Qed.

Lemma stop_run w (s : Machine X) :
  (stop_promise_set w = true → running_ w = false) →
  ∃ s' es, stop w s = (Returned ((), if running_ w then released w else w), s', es).
Proof.
  intros Hp. destruct (stop_wp w ltac:(destruct (stop_promise_set w); naive_solver) s) as (u & w' & Hr & ->).
  destruct (stop w s) as [[o s'] es]. simpl in Hr. subst. destruct u. eauto.
Qed.

(** Every other step. *)
Lemma main_step_inv ls pt p (s : Machine X) :
  process_inv ls pt p → blocked pt p = false →
  match main_step pt p s with
  | (Returned (inl pt', p'), _, _) => process_inv (Main :: ls) pt' p'
  | (Returned (inr code, p'), _, _) => finished p' ∧ (code = 0 ∨ code = 1)
  | (Undefined, _, _) => ¬ undisturbed ls
  | (Threw _, _, _) => False
  end.
Proof.
  intros Hinv Hb. destruct pt as [| | | | | | |[|sig pending]| | |sp|e| | |c|c [cfg w]|c|c|[|sig pending] c|c|c].
  12: { pose proof (start_point_inv ls sp p s Hinv) as Hstep.
        destruct (Program.main_step _ _ _ _ _ _ _) as [[[[[]]| |]]]; done. }
  all: try (destruct Hinv as [Hobj Hhan _ Hc]; split;
    [|first [by apply handlers_register|by apply handlers_deregister]|done|done];
    destruct Hobj as [Hcfg Hwk Hsdk Hlog]; by split).
  all: destruct p as [ub [cf|] [[wc w0]|] [| | |] sdk disp], Hinv as [[Hcfg Hwk Hsdk Hlog] [Hw Ha Hg Hn Ho] Hs Hc];
    try discriminate Hcfg; try discriminate Hwk; try discriminate Hlog; simpl in Hsdk, Hs, Hb.
  all: unfold Program.main_step, mbind, M_bind, pointee, mret, M_ret, emit_all, log, emit; simpl.
  all: try (destruct (stop_run w0 s) as (s' & es & ->); [exact Hs|]; simpl).
  all: try (destruct (stop_run w s) as (s' & es & ->); [intros _; exact Hs|]; simpl).
  all: try (destruct (make_configurations log_information arguments read_file) as [cfg es]; simpl).
  all: try (split; [split; try done; try (by rewrite Hsdk)|split; try done|try done|try done]).
  all: cbn -[handled_signals within] in *.
  - intros sig Hd. by apply Hw in Hd.
  - intros _ sig Hn'. by destruct (Hn' (handled_signals_all sig)).
  - apply handled_signals_nodup.
  - intros Hh sig _. apply Ha; [done|by apply not_elem_of_nil].
  - intros Hl. by destruct (Hg Hl).
  - by destruct (running_ w0) eqn:Hr.
  - intros ? [= <-]. by right.
  - by rewrite Hs, Hb.
  - intros ? [= <-]. by left.
  - intros sig _. apply handled_signals_all.
  - intros Hh sig _. by apply Ha.
  - apply handled_signals_nodup.
  - intros sig Hd. apply Hw in Hd. by apply not_elem_of_nil in Hd.
  - split; [|by apply Hc]. split; try done. simpl. intros sig. destruct (disp sig) eqn:Hd; [done|].
    by apply Hw in Hd.
Qed.

(** ** Preservation by the handler *)

Lemma handler_run p cfg w sig (s : Machine X) :
  worker_ p = Some (cfg, w) → (stop_promise_set w = true → running_ w = false) →
  ∃ s' es, signal_callback sig p s =
    (Returned (with_worker (Some (cfg, if running_ w then released w else w)) (deregister_signal p)), s', es).
Proof.
  intros Hwk Hp. destruct (stop_run w s Hp) as (s' & es & Hstop). exists s'.
  unfold signal_callback. cbv zeta. change (worker_ (deregister_signal p)) with (worker_ p). rewrite Hwk.
  unfold Lifecycle.signal_callback, mbind, W_bind, lift, mbind, M_bind, log, emit, mret, M_ret. simpl.
  rewrite Hstop. by eexists.
Qed.

Lemma worker_state_promise ls pt p cfg w :
  objects pt p → worker_state ls pt p → worker_ p = Some (cfg, w) → stop_promise_set w = true → running_ w = false.
Proof.
  intros Hobj Hs Hwk Hp. assert (Hpt : within 10 14 pt = true) by (by rewrite <-(objects_worker _ _ Hobj), Hwk).
  unfold worker_state, flags in Hs. rewrite Hwk in Hs.
  destruct pt; try discriminate Hpt; try (by apply Hs); try (by rewrite Hs, Hp); try done.
  destruct Hs as [Hs _]. destruct (past_running _); [by rewrite Hs, Hp|by destruct Hs].
Qed.

(** Stopping keeps the flags consistent; it takes members away only where that
    counts as a disturbance. *)
Lemma worker_state_stop ls pt p sig cfg w :
  objects pt p → worker_state ls pt p → worker_ p = Some (cfg, w) →
  worker_state (Handled pt sig :: ls) pt
    (with_worker (Some (cfg, if running_ w then released w else w)) (deregister_signal p)).
Proof.
  intros Hobj Hs Hwk. assert (Hpt : within 10 14 pt = true) by (by rewrite <-(objects_worker _ _ Hobj), Hwk).
  unfold worker_state, flags in *. rewrite Hwk in Hs.
  destruct pt as [| | | | | | | | | |sp| | | | | | | | | |]; try discriminate Hpt; simpl.
  2-5: by destruct (running_ w) eqn:Hr; simpl in *; rewrite ?Hr.
  destruct Hs as (Hf & Hok & _). split; [|split; [|done]].
  - destruct (past_running sp); [by destruct (running_ w) eqn:Hr; rewrite ?Hr|].
    destruct Hf as [Hr Hf]. by rewrite Hr.
  - intros Hu. apply Forall_cons in Hu as [Hv Hu]. destruct sp; try discriminate Hv; done.
Qed.

Lemma handler_inv ls pt p sig (s : Machine X) :
  process_inv ls pt p → dispositions p sig = Callback →
  match signal_callback sig p s with
  | (Returned p', _, _) => process_inv (Handled pt sig :: ls) pt p'
  | _ => False
  end.
Proof.
  intros [Hobj Hhan Hs Hc] Hd.
  assert (Hhan' : ∀ w, handlers (Handled pt sig :: ls) pt (with_worker w (deregister_signal p))).
  { intros w. destruct Hhan as [Hw Ha Hg Hn Ho]. split; simpl.
    - intros sig'. by rewrite ?deregister_dispositions; destruct sig'.
    - done.
    - intros Hl. split; [|intros []; reflexivity]. apply orb_true_iff in Hl as [Hl|Hl]; [done|by apply Hg].
    - done.
    - destruct (existsb late ls) eqn:Hl; [by rewrite (proj2 (Hg eq_refl)) in Hd|].
      assert (Hnone : filter late ls = []).
      { clear -Hl. induction ls as [|l ls IH]; [done|]. simpl in *. apply orb_false_iff in Hl as [Hl' Hl].
        rewrite filter_cons_False by (rewrite Hl'; tauto). by apply IH. }
      rewrite filter_cons, Hnone. case_decide; simpl; lia. }
  assert (Hobj' : objects pt (deregister_signal p)) by (by destruct Hobj).
  destruct (worker_ p) as [[cfg w]|] eqn:Hwk.
  - assert (Hflag : stop_promise_set w = true → running_ w = false) by (by eapply worker_state_promise).
    destruct (handler_run p cfg w sig s Hwk Hflag) as (s' & es & Hh).
    rewrite Hh. split; [|apply Hhan'| |done].
    + apply objects_worker_change with pt; try done; rewrite <-(objects_worker _ _ Hobj), Hwk; done.
    + by apply (worker_state_stop ls pt p sig cfg w).
  - unfold signal_callback. cbv zeta. change (worker_ (deregister_signal p)) with (worker_ p).
    rewrite Hwk. unfold mret, M_ret. split; [done| | |done].
    + replace (deregister_signal p) with (with_worker None (deregister_signal p)) by (by destruct p; simpl in *; subst).
      apply Hhan'.
    + unfold worker_state in *. change (worker_ (deregister_signal p)) with (worker_ p). rewrite Hwk in *.
      by destruct pt.
Qed.

(** ** The invariant holds in every run *)

Definition state_inv (ls : list label) (st : pstate (X := X)) : Prop :=
  match st with
  | Live pt p _ => process_inv ls pt p
  | Ended (ExitedWith code) p _ => finished p ∧ (code = 0 ∨ code = 1)
  | Ended (KilledBy _) _ _ => True
  | Ended NullDereference _ _ => ¬ undisturbed ls
  | Ended (UncaughtException _) _ _ => False
  end ∧ (length (filter late ls) ≤ 1)%nat.

Lemma initial_inv : process_inv [] AtUnitbuf initial_process.
Proof. split; [split|split| |]; simpl; try done. lia. Qed.

Lemma proc_step_inv ls st l st' : state_inv ls st → proc_step st l st' → state_inv (l :: ls) st'.
Proof.
  intros [Hinv Hlen] Hstep. destruct Hstep as [pt p s pt' p' s' es Hb Hm|pt p s code p' s' es Hb Hm
    |pt p s s' es Hb Hm|pt p s what s' es Hb Hm|pt p s sig p' s' es Hd Hm|pt p s sig what s' es Hd Hm|pt p s sig Hd].
  1-4: pose proof (main_step_inv ls pt p s Hinv Hb) as Hpost; rewrite Hm in Hpost.
  1-2: by split; [exact Hpost|exact Hlen].
  - split; [|exact Hlen]. by rewrite undisturbed_main.
  - done.
  - pose proof (handler_inv ls pt p sig s Hinv Hd) as Hpost. rewrite Hm in Hpost.
    split; [done|]. apply Hpost.
  - pose proof (handler_inv ls pt p sig s Hinv Hd) as Hpost. by rewrite Hm in Hpost.
  - by split; [|exact Hlen].
Qed.

Lemma reaches_inv s ls st : reaches (launched s) ls st → state_inv ls st.
Proof.
  induction 1 as [|ls st l st' _ IH Hstep]; [split; [apply initial_inv|simpl; lia]|].
  by eapply proc_step_inv.
Qed.

Lemma reaches_app from ls st ls' st' : reaches from ls st → reaches st ls' st' → reaches from (ls' ++ ls) st'.
Proof. intros H1 H2. induction H2; simpl; [done|by econstructor]. Qed.

(** The functions and the relation. *)
Lemma move_reaches who st : reaches st (move_labels who st) (move who st).
Proof.
  destruct st as [pt p s|how p s]; [|destruct who; constructor]. destruct who as [sig|]; simpl.
  - destruct (dispositions p sig) eqn:Hd; [by repeat econstructor|].
    destruct (signal_callback sig p s) as [[[p'|what|] s'] es] eqn:Hm; [| |constructor];
      (eapply reaches_step; [apply reaches_here|]); by econstructor.
  - destruct (blocked pt p) eqn:Hb; [constructor|].
    destruct (Program.main_step _ _ _ _ pt p s) as [[[[[pt'|code] p']|what|] s'] es] eqn:Hm;
      (eapply reaches_step; [apply reaches_here|]); by econstructor.
Qed.

Lemma play_reaches schedule st : reaches st (play_labels schedule st) (play schedule st).
Proof.
  revert st. induction schedule as [|who schedule IH]; intros st; simpl; [constructor|].
  eapply reaches_app; [apply move_reaches|apply IH].
Qed.

Lemma main_is_advance st st' : proc_step st Main st' → st' = advance st.
Proof.
  intros Hstep. remember Main as l eqn:Hl. destruct Hstep as [pt p s pt' p' s' es Hb Hm|pt p s code p' s' es Hb Hm
    |pt p s s' es Hb Hm|pt p s what s' es Hb Hm| | |]; try discriminate Hl; simpl; by rewrite Hb, Hm.
Qed.

(** ** The claims *)

(** Nothing is used outside its life. At every point of every run,
    whatever signals arrive, a signal handler is installed only while the
    logger runs, and the worker exists only while the AWS SDK is initialised,
    the logger runs and the configuration exists. *)
Theorem shared_objects_alive s ls pt p s' :
  reaches (launched s) ls (Live pt p s') →
  (∀ sig, dispositions p sig = Callback → ∃ settings title, logger_ p = LoggerRunning settings title) ∧
  (is_Some (worker_ p) →
   sdk_initialized p = true ∧ is_Some (configurations_ p) ∧
   ∃ settings title, logger_ p = LoggerRunning settings title).
Proof.
  intros Hr. apply reaches_inv in Hr as [[[Hc Hw Hs Hl] [Hin _ _ _ _] _ _] _]. split.
  - intros sig Hd. apply Hin in Hd. clear -Hl Hd. destruct pt; try discriminate Hd;
      destruct (logger_ p); try discriminate Hl; eauto.
  - intros Hwk. rewrite bool_decide_true in Hw by done. symmetry in Hw.
    destruct pt; try discriminate Hw; (split; [done|]; split; [by apply bool_decide_eq_true in Hc|]);
      destruct (logger_ p); try discriminate Hl; eauto.
Qed.

(** At most one signal is handled once all handlers are installed: the
    handler takes itself and the others away first, so the next signal has its
    default action. *)
Theorem handled_at_most_once s ls st :
  reaches (launched s) ls st → (length (filter late ls) ≤ 1)%nat.
Proof. intros Hr. by apply reaches_inv in Hr as [_ Hlen]. Qed.

(** C30: every exit is clean, whatever signals arrived: the code is 0 or 1, the
    worker and the configuration are gone, the SDK is shut down, no handler is
    installed and the logger is destroyed; and no run ends with an uncaught
    exception. *)
Theorem exit_is_clean s ls how p s' :
  reaches (launched s) ls (Ended how p s') →
  match how with
  | ExitedWith code => finished p ∧ (code = 0 ∨ code = 1)
  | UncaughtException _ => False
  | _ => True
  end.
Proof. intros Hr. apply reaches_inv in Hr as [Hinv _]. by destruct how. Qed.

(** C31: a null pointer is used only after a signal was handled during the
    start, between the assignment of [running_] and the last statement. *)
Theorem crash_needs_signal_in_start s ls p s' :
  reaches (launched s) ls (Ended NullDereference p s') →
  ∃ sp sig, Handled (AtStart sp) sig ∈ ls ∧ vulnerable sp = true.
Proof.
  intros Hr. apply reaches_inv in Hr as [Hn _]. apply not_Forall_Exists in Hn.
  - apply Exists_exists in Hn as (l & Hin & Hl). simpl in Hl.
    destruct l as [|[] sig|]; try (exfalso; by apply Hl).
    eexists _, _. split; [exact Hin|]. by destruct (vulnerable _).
  - intros [|[] ?|]; apply _.
Qed.

(** The points of the start whose statement goes through a member that
    [stop] takes away. *)
Definition uses_member (sp : start_point) : bool :=
  match sp with
  | SPoolPush (_ :: _) | SPoolStart | SConnect (S _) _ _ | SCatalog
  | SRegisterHandler | SConsumerStart | SStartConsume | SMonitor => true
  | _ => false
  end.

Lemma uses_released sp cfg w (s : Machine X) :
  uses_member sp = true → ∃ s', start_step default_client cfg sp (released w) s = (Undefined, s', []).
Proof. intros Hu. destruct sp as [| | | | |[]| | |[]| | | | | | | | |]; try discriminate Hu; by eexists. Qed.

(** C33: a signal handled where the start next uses a client or the pool (for
    instance while it waits for Redis to come up) makes that use a null
    pointer dereference: the handler returns into a start that goes on with
    the members [stop] has dropped. *)
Theorem interrupted_start_crashes s ls sp p s1 sig :
  reaches (launched s) ls (Live (AtStart sp) p s1) → dispositions p sig = Callback → uses_member sp = true →
  ∃ p2 s2, proc_step (Live (AtStart sp) p s1) (Handled (AtStart sp) sig) (Live (AtStart sp) p2 s2) ∧
    ∀ st, proc_step (Live (AtStart sp) p2 s2) Main st → ∃ s3, st = Ended NullDereference p2 s3.
Proof.
  intros Hr Hd Hu. apply reaches_inv in Hr as [[Hobj Hhan Hs Hc] _].
  destruct (is_Some_bool (worker_ p)) as [[cfg w] Hwk]; [by rewrite (objects_worker _ _ Hobj)|].
  simpl in Hs. rewrite Hwk in Hs. destruct Hs as (Hf & _ & Hp).
  assert (Hl : existsb late ls = false).
  { destruct (existsb late ls) eqn:Hl; [|done]. by rewrite (proj2 (handlers_gone _ _ _ Hhan Hl)) in Hd. }
  specialize (Hp Hl). assert (Hrun : running_ w = true).
  { unfold flags in Hf. rewrite Hp in Hf. by destruct sp; try discriminate Hu. }
  destruct (handler_run p cfg w sig s1 Hwk) as (s2 & es & Hh); [by rewrite Hp|]. rewrite Hrun in Hh.
  exists (with_worker (Some (cfg, released w)) (deregister_signal p)), s2. split; [by eapply step_handled|].
    intros st Hstep. destruct (uses_released sp cfg w s2 Hu) as [s3 Hs3].
    assert (Hm : main_step (AtStart sp) (with_worker (Some (cfg, released w)) (deregister_signal p)) s2
      = (Undefined, s3, [])).
    { unfold Program.main_step, mbind, M_bind, pointee, mret, M_ret. simpl. by rewrite Hs3. }
    apply main_is_advance in Hstep. unfold Program.advance, blocked in Hstep. rewrite Hm in Hstep. by eexists.
Qed.

(** The calls of [std::signal] one by one are [register_signal] and
    [deregister_signal]. *)
Lemma registration_steps p (s : Machine X) :
  Nat.iter 7 advance (Live (AtRegister handled_signals) p s) = Live AtInitAPI (register_signal p) s.
Proof. reflexivity. Qed.
Lemma deregistration_steps p c (s : Machine X) :
  Nat.iter 7 advance (Live (AtDeregister handled_signals c) p s) = Live (AtLoggerStop c) (deregister_signal p) s.
Proof. reflexivity. Qed.

(** ** Waiting and stopping *)

(** The program is never stuck. At every point of every run [main] can
    make its next step, unless it waits in [wait_stop] for a running worker
    whose promise is not set yet; there, as long as no signal has been handled,
    every signal is caught. *)
Theorem blocks_only_waiting s ls pt p s' :
  reaches (launched s) ls (Live pt p s') →
  (∃ st, proc_step (Live pt p s') Main st) ∨
  (pt = AtWait ∧ (∃ cfg w, worker_ p = Some (cfg, w) ∧ running_ w = true ∧ stop_promise_set w = false) ∧
   (existsb is_handled ls = false → ∀ sig, dispositions p sig = Callback)).
Proof.
  intros Hr. apply reaches_inv in Hr as [[Hobj Hhan Hs Hc] _].
  destruct (blocked pt p) eqn:Hb.
  - right. unfold blocked, worker_state in *. destruct pt; try discriminate Hb.
    destruct (worker_ p) as [[cfg w]|]; [|done]. apply negb_true_iff in Hb. rewrite Hb in Hs.
    split; [done|]. split; [by exists cfg, w|]. intros Hh sig. by apply (handlers_all _ _ _ Hhan Hh).
  - left. destruct (Program.main_step default_client log_information arguments read_file pt p s')
      as [[[[[pt'|code] p']|what|] s''] es] eqn:Hm; eexists; by econstructor.
Qed.

(** [main] alone. *)
Lemma advances_reaches n st : ∃ ls, Forall (eq Main) ls ∧ reaches st ls (Nat.iter n advance st).
Proof.
  induction n as [|n (ls & Hall & Hr)]; [exists []; split; constructor|].
  exists (move_labels None (Nat.iter n advance st) ++ ls). split; [|exact (reaches_app _ _ _ _ _ Hr (move_reaches None _))].
  apply Forall_app; split; [|done]. destruct (Nat.iter n advance st); simpl; [case_match|]; by repeat constructor.
Qed.

(** [main] after its worker is destroyed. *)
Lemma main_tail p code (s : Machine X) :
  ∃ p', Nat.iter 11 advance
    (Live (AtResetConfigurations code) p s) = Ended (ExitedWith code) p' s.
Proof. destruct p. eexists. reflexivity. Qed.

(** The rest of [main] after a worker that has stopped. *)
Lemma main_finishes p cfg w (s : Machine X) :
  worker_ p = Some (cfg, w) → running_ w = false → stop_promise_set w = true →
  ∃ p' s', Nat.iter 14 advance (Live AtWait p s)
    = Ended (ExitedWith 0) p' s'.
Proof.
  intros Hwk Hrun Hp. destruct (stop_run w s) as (s' & es & Hstop); [done|]. rewrite Hrun in Hstop.
  assert (H1 : advance (Live AtWait p s) = Live (AtReset 0) p s).
  { unfold Program.advance, blocked. by rewrite Hwk, Hp. }
  assert (H2 : advance (Live (AtReset 0) p s) = Live (AtDestroy 0 (cfg, w)) (with_worker None p) s).
  { unfold Program.advance, blocked, Program.main_step, mret, M_ret. by rewrite Hwk. }
  assert (H3 : advance (Live (AtDestroy 0 (cfg, w)) (with_worker None p) s)
    = Live (AtResetConfigurations 0) (with_worker None p) s').
  { unfold Program.advance, blocked, Program.main_step, mbind, M_bind. by rewrite Hstop. }
  destruct (main_tail (with_worker None p) 0 s') as [p' Htail]. exists p', s'.
  change 14%nat with (11 + 3)%nat. rewrite Nat.iter_add. cbn [Nat.iter nat_rect]. by rewrite H1, H2, H3.
Qed.

(** C32: a signal that arrives while [main] waits for a running worker, with
    its handler installed, stops the worker: the handler releases every client, the promise is set, and [main] then runs to its end
    with exit code 0. *)
Theorem signal_stops_waiting_worker s ls p s1 cfg w sig :
  reaches (launched s) ls (Live AtWait p s1) → worker_ p = Some (cfg, w) → running_ w = true →
  dispositions p sig = Callback →
  ∃ p2 s2, proc_step (Live AtWait p s1) (Handled AtWait sig) (Live AtWait p2 s2) ∧
    worker_ p2 = Some (cfg, released w) ∧
    ∃ ls' p3 s3, Forall (eq Main) ls' ∧ reaches (Live AtWait p2 s2) ls' (Ended (ExitedWith 0) p3 s3).
Proof.
  intros Hr Hwk Hrun Hd. apply reaches_inv in Hr as [[Hobj Hhan Hs Hc] _].
  destruct (handler_run p cfg w sig s1 Hwk) as (s2 & es & Hh).
  { by apply (worker_state_promise ls AtWait p cfg). }
  rewrite Hrun in Hh. eexists _, s2. split; [by eapply step_handled|]. split; [done|].
  destruct (main_finishes (with_worker (Some (cfg, released w)) (deregister_signal p)) cfg (released w) s2)
    as (p3 & s3 & Hend); [done..|].
  destruct (advances_reaches 14 (Live AtWait (with_worker (Some (cfg, released w)) (deregister_signal p)) s2))
    as (ls' & Hall & Hreach). rewrite Hend in Hreach. by exists ls', p3, s3.
Qed.

(** C34: a signal that is handled once all handlers are installed, but before
    the start has set [running_], is lost for good: if the worker comes up and
    waits all the same, nothing but the default
    action of a further signal can end the process. *)
Theorem lost_signal_leaves_unstoppable s ls p s1 cfg w :
  reaches (launched s) ls (Live AtWait p s1) → existsb late ls = true →
  worker_ p = Some (cfg, w) → running_ w = true →
  ∀ l st, proc_step (Live AtWait p s1) l st → ∃ sig, l = Default sig ∧ st = Ended (KilledBy sig) p s1.
Proof.
  intros Hr Hl Hwk Hrun l st Hstep. apply reaches_inv in Hr as [[Hobj Hhan Hs Hc] _].
  pose proof (proj2 (handlers_gone _ _ _ Hhan Hl)) as Hgone. simpl in Hs. rewrite Hwk, Hrun in Hs.
  assert (Hb : blocked AtWait p = true) by (unfold blocked; by rewrite Hwk, <-Hs).
  remember (Live AtWait p s1) as st0 eqn:Hst0. destruct Hstep as [| | | |? ? ? sig ? ? ? Hd|? ? ? sig ? ? ? Hd|? ? ? sig Hd];
    simplify_eq; try congruence; try (by rewrite Hgone in Hd). by exists sig.
Qed.

End Invariant.

(** ** Concrete runs *)

Section ProgramWitnesses.
Import RefCodec.

Definition arguments0 : ArgumentParser := mkArguments "/srv" (λ _, None) (λ _, None).
Definition read0 (path : string) : ConfigFile := FileBytes (ref_serialize (JObject (config_json shipped_configuration))).

(** A run of the program from its launch under a schedule. *)
Definition run0 (schedule : list (option Signal)) : pstate :=
  play client0 4 arguments0 read0 schedule (launched machine0).
Definition labels0 (schedule : list (option Signal)) : list label :=
  play_labels client0 4 arguments0 read0 schedule (launched machine0).

Lemma run0_reaches schedule : reaches client0 4 arguments0 read0 (launched machine0) (labels0 schedule) (run0 schedule).
Proof. apply play_reaches. Qed.

(** Undisturbed until it waits, then stopped. *)
Definition waiting : list (option Signal) := replicate 60 None.
Definition stopped : list (option Signal) := waiting ++ [Some SIGTERM] ++ replicate 14 None.
(** A signal before the worker is constructed. *)
Definition early : list (option Signal) := replicate 15 None ++ [Some SIGTERM] ++ replicate 60 None.

(** A signal while the start is about to connect to Redis. *)
Definition connecting : list (option Signal) := replicate 29 None.
Definition crashed : list (option Signal) := connecting ++ [Some SIGTERM; None].

(** The point and the shared state of a run that has not ended. *)
Definition live0 (schedule : list (option Signal)) (P : point → process → Prop) : Prop :=
  match run0 schedule with Live pt p _ => P pt p | Ended _ _ _ => False end.

Lemma live0_reaches schedule P :
  live0 schedule P → ∃ pt p s, reaches client0 4 arguments0 read0 (launched machine0) (labels0 schedule) (Live pt p s) ∧ P pt p.
Proof.
  unfold live0. pose proof (run0_reaches schedule) as Hr. destruct (run0 schedule) as [pt p s|]; [|done].
  intros HP. by exists pt, p, s.
Qed.

(** A run that has ended so. *)
Definition ends0 (schedule : list (option Signal)) (how : ending) : Prop :=
  match run0 schedule with Live _ _ _ => False | Ended how' _ _ => how' = how end.

Lemma ends0_reaches schedule how :
  ends0 schedule how →
  ∃ p s, reaches client0 4 arguments0 read0 (launched machine0) (labels0 schedule) (Ended how p s).
Proof.
  unfold ends0. pose proof (run0_reaches schedule) as Hr. destruct (run0 schedule) as [|how' p s]; [done|].
  intros ->. by exists p, s.
Qed.

Definition up (pt : point) (p : process) : Prop :=
  pt = AtWait ∧ match worker_ p with Some (_, w) => running_ w = true | None => False end.

Lemma waiting_up : live0 waiting (λ pt p, up pt p ∧ blocked pt p = true ∧ dispositions p SIGINT = Callback).
Proof. by vm_compute. Qed.
Lemma waiting_unhandled : existsb is_handled (labels0 waiting) = false.
Proof. by vm_compute. Qed.
Lemma early_up : live0 early up ∧ existsb late (labels0 early) = true.
Proof. by vm_compute. Qed.
Lemma connecting_caught :
  live0 connecting (λ pt p, pt = AtStart (SConnect 5 1 "") ∧ dispositions p SIGTERM = Callback).
Proof. by vm_compute. Qed.
Lemma stopped_exits : ends0 stopped (ExitedWith 0).
Proof. by vm_compute. Qed.
Lemma crashed_ends : ends0 crashed NullDereference.
Proof. by vm_compute. Qed.

Lemma shared_objects_alive_witness :
  ∃ pt p s, reaches client0 4 arguments0 read0 (launched machine0) (labels0 waiting) (Live pt p s) ∧
    sdk_initialized p = true.
Proof.
  destruct (live0_reaches _ _ waiting_up) as (pt & p & s & Hr & [_ Hw] & _). exists pt, p, s. split; [exact Hr|].
  apply (shared_objects_alive client0 4 arguments0 read0 machine0 _ _ _ _ Hr).
  destruct (worker_ p); [by eexists|destruct Hw].
Defined.

Lemma handled_at_most_once_witness : (length (filter late (labels0 stopped)) ≤ 1)%nat.
Proof. exact (handled_at_most_once client0 4 arguments0 read0 machine0 _ _ (run0_reaches stopped)). Defined.

Lemma exit_is_clean_witness :
  ∃ p s, reaches client0 4 arguments0 read0 (launched machine0) (labels0 stopped) (Ended (ExitedWith 0) p s) ∧ finished p.
Proof.
  destruct (ends0_reaches _ _ stopped_exits) as (p & s & Hr). exists p, s. split; [exact Hr|].
  apply (exit_is_clean client0 4 arguments0 read0 machine0 _ _ _ _ Hr).
Defined.

Lemma crash_needs_signal_in_start_witness :
  ∃ sp sig, Handled (AtStart sp) sig ∈ labels0 crashed ∧ vulnerable sp = true.
Proof.
  destruct (ends0_reaches _ _ crashed_ends) as (p & s & Hr).
  apply (crash_needs_signal_in_start client0 4 arguments0 read0 machine0 _ _ _ Hr).
Defined.

Lemma interrupted_start_crashes_witness :
  ∃ p s p2 s2, proc_step client0 4 arguments0 read0 (Live (AtStart (SConnect 5 1 "")) p s)
    (Handled (AtStart (SConnect 5 1 "")) SIGTERM) (Live (AtStart (SConnect 5 1 "")) p2 s2).
Proof.
  destruct (live0_reaches _ _ connecting_caught) as (pt & p & s & Hr & -> & Hd).
  destruct (interrupted_start_crashes client0 4 arguments0 read0 machine0 _ _ p s SIGTERM Hr Hd eq_refl)
    as (p2 & s2 & Hstep & _).
  exists p, s, p2, s2. exact Hstep.
Defined.

Lemma blocks_only_waiting_witness : ∃ p, ∀ sig, dispositions p sig = Callback.
Proof.
  destruct (live0_reaches _ _ waiting_up) as (pt & p & s & Hr & [-> _] & Hb & _). exists p.
  destruct (blocks_only_waiting client0 4 arguments0 read0 machine0 _ _ _ _ Hr) as [[st Hst]|(_ & _ & Hall)].
  - exfalso. inversion Hst; congruence.
  - apply Hall, waiting_unhandled.
Defined.

Lemma signal_stops_waiting_worker_witness :
  ∃ p2 s2 ls p3 s3, reaches client0 4 arguments0 read0 (Live AtWait p2 s2) ls (Ended (ExitedWith 0) p3 (s3 : Machine Sim)).
Proof.
  destruct (live0_reaches _ _ waiting_up) as (pt & p & s & Hr & [-> Hw] & _ & Hd).
  destruct (worker_ p) as [[cfg w]|] eqn:Hwk; [|destruct Hw].
  destruct (signal_stops_waiting_worker client0 4 arguments0 read0 machine0 _ p s cfg w SIGINT Hr Hwk Hw Hd)
    as (p2 & s2 & _ & _ & ls & p3 & s3 & _ & Hend).
  exists p2, s2, ls, p3, s3. exact Hend.
Defined.

Lemma lost_signal_leaves_unstoppable_witness :
  ∃ p s, ∀ l st, proc_step client0 4 arguments0 read0 (Live AtWait p (s : Machine Sim)) l st →
    ∃ sig, l = Default sig ∧ st = Ended (KilledBy sig) p s.
Proof.
  destruct early_up as [Hup Hlate]. destruct (live0_reaches _ _ Hup) as (pt & p & s & Hr & -> & Hw).
  destruct (worker_ p) as [[cfg w]|] eqn:Hwk; [|destruct Hw]. exists p, s.
  apply (lost_signal_leaves_unstoppable client0 4 arguments0 read0 machine0 _ p s cfg w Hr); [exact Hlate|exact Hwk|exact Hw].
Defined.
End ProgramWitnesses.
