(* ===== verification/Api.v ===== *)
(** * What the three REST interfaces share

    The interfaces (Interface/golang, Interface/python, Interface/js) are thin
    services over the same stores: they presign uploads in S3, keep status
    documents in Redis and put requests on the queue.  This file holds the
    services they call, the monad their functions are written in (a result or
    an error, the state of the services, and the calls made, in order), the
    envelope of the answers, and the strings they build. *)

From S2P Require Import Prelude Utf8 Json Filesystem Effects WorkerStatus.

(** ** Services and calls *)

Inductive ApiEvent :=
| ApPresign (key : string) (ttl : Z) (r : expected string)
| ApGet (key : string) (r : expected (option string))
| ApSet (key value : string) (ttl : Z) (r : expected unit)
| ApSend (body group : string) (r : expected unit).

(** S3, Redis, SQS and the generators of identifiers and time, as the
    interfaces reach them; an [Unexpected] is a call that failed (or timed
    out). *)
Class ApiServices (X : Type) := {
  new_uuid : X → string * X;
  api_now : X → Z * X;
  presign_put : string → Z → X → expected string * X;
  store_get : string → X → expected (option string) * X;
  store_set : string → string → Z → X → expected unit * X;
  enqueue : string → string → X → expected unit * X;
}.

(** What the services are constructed with. *)
Record ApiSettings := mkApiSettings {
  api_bucket : string;
  presign_ttl : Z;
  status_ttl : Z;
  group_id : string;
}.

(** ** The monad: errors of type [E] end a function early *)

Definition Api (X E A : Type) : Type := X → (A + E) * X * list ApiEvent.

#[export] Instance Api_ret X E : MRet (Api X E) := λ A a x, (inl a, x, []).
#[export] Instance Api_bind X E : MBind (Api X E) := λ A B f m x,
  match m x with
  | (inl a, x', es) => let '(r, x'', es') := f a x' in (r, x'', es ++ es')
  | (inr e, x', es) => (inr e, x', es)
  end.

Arguments Api_ret : simpl never.
Arguments Api_bind : simpl never.

Section Calls.
Context {X E : Type} `{ApiServices X}.

Definition fail {A} (e : E) : Api X E A := λ x, (inr e, x, []).

Definition api_call {A} (op : X → A * X) (ev : A → list ApiEvent) : Api X E A := λ x,
  let '(a, x') := op x in (inl a, x', ev a).

Definition NewUuid : Api X E string := api_call new_uuid (λ _, []).
Definition ApiNow : Api X E Z := api_call api_now (λ _, []).
Definition PresignPut (key : string) (ttl : Z) : Api X E (expected string) :=
  api_call (presign_put key ttl) (λ r, [ApPresign key ttl r]).
Definition StoreGet (key : string) : Api X E (expected (option string)) :=
  api_call (store_get key) (λ r, [ApGet key r]).
Definition StoreSet (key value : string) (ttl : Z) : Api X E (expected unit) :=
  api_call (store_set key value ttl) (λ r, [ApSet key value ttl r]).
Definition Enqueue (body group : string) : Api X E (expected unit) :=
  api_call (enqueue body group) (λ r, [ApSend body group r]).

(** The value of a call, or the error it is turned into. *)
Definition orElse {A} (r : expected A) (wrap : string → E) : Api X E A :=
  match r with Expected a => mret a | Unexpected e => fail (wrap e) end.

End Calls.

(** ** Answers *)

Inductive payload := Json (v : json) | RawMessage (text : string).

Inductive Envelope :=
| Success (data : payload)
| Failure (code message : string).

(** HTTP status and body. *)
Definition response : Type := Z * Envelope.

(** ** Strings *)

(** [strings.Contains(s, needle)], [needle in s] *)
Fixpoint str_contains (needle s : string) : bool :=
  String.prefix needle s ||
  match s with EmptyString => false | String _ s' => str_contains needle s' end.

(** Characters of a string: in well-formed UTF-8 every byte that is not a
    continuation byte starts one. *)
Fixpoint code_points (s : string) : Z :=
  match s with
  | EmptyString => 0
  | String b s' => (if is_continuation b then 0 else 1) + code_points s'
  end.

(** [jobs/<id>/inputs/<filename>] and [jobs/<id>/outputs/] *)
Definition input_key (job_id filename : string) : string :=
  "jobs/" +:+ job_id +:+ "/inputs/" +:+ filename.
Definition output_prefix_of (job_id : string) : string := "jobs/" +:+ job_id +:+ "/outputs/".

(** [xxxxxxxx-xxxx-xxxx-xxxx-xxxxxxxxxxxx] in hexadecimal digits. *)
Definition is_hex (c : ascii) : bool :=
  ((48 <=? uchar c) && (uchar c <=? 57)) || ((97 <=? uchar c) && (uchar c <=? 102)) ||
  ((65 <=? uchar c) && (uchar c <=? 70)).

(** What follows [n] hexadecimal digits. *)
Fixpoint take_hex (n : nat) (s : string) : option string :=
  match n, s with
  | O, _ => Some s
  | S n, String c s' => if is_hex c then take_hex n s' else None
  | S _, EmptyString => None
  end.

(** Groups of the given numbers of digits, separated by dashes. *)
Fixpoint matches_shape (shape : list nat) (s : string) : bool :=
  match shape with
  | [] => bool_decide (s = "")
  | group :: rest =>
      match take_hex group s with
      | None => false
      | Some s' =>
          match rest, s' with
          | [], _ => bool_decide (s' = "")
          | _ :: _, String c s'' => bool_decide (c = "-"%char) && matches_shape rest s''
          | _ :: _, EmptyString => false
          end
      end
  end.

Definition is_uuid (s : string) : bool := matches_shape [8; 4; 4; 4; 12]%nat s.

(** ** Lemmas *)

Definition is_uuid_char (c : ascii) : bool := is_hex c || bool_decide (c = "-"%char).

Lemma take_hex_Some n s r :
  take_hex n s = Some r → ∃ p, s = p +:+ r ∧ String.length p = n ∧ str_forallb is_uuid_char p = true.
Proof.
  revert s. induction n as [|n IH]; intros s Hs; [simpl in Hs; simplify_eq; by exists ""|].
  destruct s as [|c s]; simpl in Hs; [done|]. destruct (is_hex c) eqn:Hc; [|done].
  destruct (IH s Hs) as (p & -> & <- & Hp). exists (String c p). simpl. unfold is_uuid_char at 1. by rewrite Hc, Hp.
Qed.

Lemma matches_shape_spec shape s :
  matches_shape shape s = true →
  String.length s = (foldr Nat.add 0 shape + pred (length shape))%nat ∧ str_forallb is_uuid_char s = true.
Proof.
  revert s. induction shape as [|n shape IH]; intros s Hs; simpl in Hs; [by case_bool_decide; subst|].
  destruct (take_hex n s) as [r|] eqn:Hr; [|done].
  apply take_hex_Some in Hr as (p & -> & Hlen & Hp). rewrite str_length_app.
  assert (Happ : ∀ r, str_forallb is_uuid_char r = true → str_forallb is_uuid_char (p +:+ r) = true).
  { intros t Ht. rewrite str_forallb_In in *. intros c Hc. apply str_In_app in Hc as []; auto. }
  destruct shape as [|m shape].
  - case_bool_decide; [|done]. subst r. simpl. split; [lia|by apply Happ].
  - destruct r as [|c r]; [done|]. apply andb_true_iff in Hs as [Hc Hs].
    apply bool_decide_eq_true in Hc as ->. apply IH in Hs as [Hl Hs].
    split; [simpl in *; lia|]. apply Happ. simpl. by rewrite Hs.
Qed.

Lemma is_uuid_spec s : is_uuid s = true → size s = 36 ∧ str_forallb is_uuid_char s = true.
Proof. intros Hs. apply matches_shape_spec in Hs as [Hl Hs]. split; [|done]. unfold size. rewrite Hl. done. Qed.

(** ** What is assumed of the services *)

(** [uuid.NewString], [uuid.uuid4] and [uuidv4] give the textual form of RFC
    4122. *)
Class UuidLaws (X : Type) `{ApiServices X} : Prop := {
  new_uuid_form x : is_uuid (new_uuid x).1 = true;
}.
