(* ===== verification/ApiGo.v ===== *)
(** * The Go interface (Interface/golang/internal)

    [service/job.go] (creation of a job, reading a job and the catalog) and
    the handlers of [http/handlers] that answer for it.  Decoding a request
    body into [createJobDTO] is the binder's (gin); the constraints it checks
    are [binding_ok].  [encode] stands for [json.Marshal], which cannot fail on
    these types, [valid_json] for [json.Valid], [uuid_parses] for
    [uuid.Parse] of google/uuid. *)

From S2P Require Import Prelude Utf8 Json Filesystem Effects WorkerStatus Api.

Module Go.

(** ** service/job.go *)

Inductive error := ErrNotFound | Wrapped (message : string).

Record CreateJobInput := mkInput {
  TaskName : string;
  Arguments : option (list string);   (* a nil slice, or the values *)
  InputFiles : list string;
  TimeoutSec : Z;
}.

Record UploadURL := mkUploadURL { Filename : string; Upload : string; Method : string }.
Record CreateJobResult := mkResult { JobID : string; UploadURLs : list UploadURL }.

(** A [queueDownloadS3]. *)
Definition queueDownloadS3 (bucket key : string) : json :=
  JObject (<["bucket" := JString bucket]> (<["key" := JString key]> (<["method" := JString "GET"]> ∅))).

(** A [queueTask]; [timeout_sec] is omitted when it is 0. *)
Definition queueTask (name : string) (arguments : list string) (timeout : Z) : object :=
  let task := <["name" := JString name]> (<["arguments" := JArray (JString <$> arguments)]> ∅) in
  if timeout =? 0 then task else <["timeout_sec" := JInt64 timeout]> task.

Definition queueMessage (job_id : string) (task : object) (downloads : list json) (now : string) : object :=
  <["job_id" := JString job_id]>
  (<["mode" := JString "execute"]>
  (<["task" := JObject task]>
  (<["download_s3" := JArray downloads]>
  (<["output_prefix" := JString (output_prefix_of job_id)]>
  (<["enqueued_at" := JString now]> ∅))))).

Definition initialStatus (job_id task_name now : string) : object :=
  <["job_id" := JString job_id]>
  (<["task_name" := JString task_name]>
  (<["status" := JString "queued"]>
  (<["enqueued_at" := JString now]>
  (<["updated_at" := JString now]> ∅)))).

Definition emptyIfNil (values : option (list string)) : list string :=
  match values with None => [] | Some l => l end.

Section Service.
Context {X : Type} `{ApiServices X}.
Context (encode : json → string) (valid_json : string → bool) (uuid_parses : string → bool).
Context (cfg : ApiSettings).

(** The loop over the input files. *)
Fixpoint presign_inputs (jobID : string) (files : list string) (urls : list UploadURL) (downloads : list json)
    : Api X error (list UploadURL * list json) :=
  match files with
  | [] => mret (urls, downloads)
  | filename :: rest =>
      let key := input_key jobID filename in
      r ← PresignPut key (presign_ttl cfg);
      url ← orElse r (λ e, Wrapped ("presign input " +:+ filename +:+ ": " +:+ e));
      presign_inputs jobID rest (urls ++ [mkUploadURL filename url "PUT"])
        (downloads ++ [queueDownloadS3 (api_bucket cfg) key])
  end.

Definition CreateJob (input : CreateJobInput) : Api X error CreateJobResult :=
  jobID ← NewUuid;
  time ← ApiNow;
  let now := format_utc time in
  '(uploadURLs, downloads) ← presign_inputs jobID (InputFiles input) [] [];
  let status := encode (JObject (initialStatus jobID (TaskName input) now)) in
  set ← StoreSet jobID status (status_ttl cfg);
  orElse set (λ e, Wrapped ("record queued status: " +:+ e));;
  let message := encode (JObject (queueMessage jobID
    (queueTask (TaskName input) (emptyIfNil (Arguments input)) (TimeoutSec input)) downloads now)) in
  sent ← Enqueue message (group_id cfg);
  orElse sent (λ e, Wrapped ("enqueue job: " +:+ e));;
  mret (mkResult jobID uploadURLs).

(** A stored document that must be JSON. *)
Definition read_document (key not_json : string) : Api X error string :=
  r ← StoreGet key;
  value ← orElse r Wrapped;
  match value with
  | None => fail ErrNotFound
  | Some text => if valid_json text then mret text else fail (Wrapped not_json)
  end.

Definition GetJob (jobID : string) : Api X error string :=
  read_document jobID ("job " +:+ jobID +:+ " status document is not valid JSON").

Definition GetTaskCatalog : Api X error string :=
  read_document "task_catalog" "task catalog document is not valid JSON".

(** ** http/handlers *)

Record createJobDTO := mkDTO {
  dto_task_name : string;
  dto_arguments : option (list string);
  dto_input_files : list string;
  dto_timeout_sec : Z;
}.

(** The [binding] tags: [required,max=128] and [omitempty,gte=1,lte=3600]. *)
Definition binding_ok (dto : createJobDTO) : bool :=
  negb (size (dto_task_name dto) =? 0) && (code_points (dto_task_name dto) <=? 128) &&
  ((dto_timeout_sec dto =? 0) || ((1 <=? dto_timeout_sec dto) && (dto_timeout_sec dto <=? 3600))).

Definition validFilename (filename : string) : bool :=
  if (size filename =? 0) || (255 <? size filename) then false
  else if str_contains "/" filename || str_contains "\" filename then false
  else if str_contains ".." filename then false
  else true.

Definition validJobID (jobID : string) : bool := uuid_parses jobID.

(** The [json] tags of the result. *)
Definition result_json (result : CreateJobResult) : json :=
  JObject (<["job_id" := JString (JobID result)]>
    (<["upload_urls" := JArray ((λ u, JObject (<["filename" := JString (Filename u)]>
        (<["upload_url" := JString (Upload u)]> (<["method" := JString (Method u)]> ∅)))) <$> UploadURLs result)]> ∅)).

(** The answer to a service call; handlers themselves do not fail. *)
Definition answer {A} (m : Api X error A) (ok : A → response) (failed : error → response)
    : Api X Empty_set response := λ x,
  let '(r, x', es) := m x in
  (inl match r with inl a => ok a | inr e => failed e end, x', es).

Definition Create (dto : createJobDTO) : Api X Empty_set response :=
  if negb (binding_ok dto)
  then mret (400, Failure "invalid_request" "request body is invalid")
  else if negb (forallb validFilename (dto_input_files dto))
  then mret (400, Failure "invalid_filename" "filename must not be empty or contain path separators")
  else answer (CreateJob (mkInput (dto_task_name dto) (dto_arguments dto) (dto_input_files dto) (dto_timeout_sec dto)))
         (λ result, (202, Success (Json (result_json result))))
         (λ _, (500, Failure "create_failed" "cannot enqueue job")).

Definition Get (jobID : string) : Api X Empty_set response :=
  if negb (validJobID jobID) then mret (404, Failure "job_not_found" "job not found")
  else answer (GetJob jobID) (λ document, (200, Success (RawMessage document)))
         (λ e, match e with
               | ErrNotFound => (404, Failure "job_not_found" "job not found")
               | Wrapped _ => (500, Failure "get_failed" "cannot read job status")
               end).

Definition List : Api X Empty_set response :=
  answer GetTaskCatalog (λ catalog, (200, Success (RawMessage catalog)))
    (λ e, match e with
          | ErrNotFound => (404, Failure "catalog_not_found" "task catalog is not published yet (worker not started?)")
          | Wrapped _ => (500, Failure "catalog_failed" "cannot read task catalog")
          end).

End Service.
End Go.
