(* ===== verification/ApiPython.v ===== *)
(** * The Python interface (Interface/python/src/app)

    [services/job_service.py], the request types of [schemas/jobs.py], the
    routes of [api/routes.py] and the exception handlers of [main.py].
    Building a [CreateJobRequest] from a body is pydantic's; the constraints it
    declares are [schema_ok].  [dumps] and [loads] stand for the [json] module
    ([None]: [loads] raised). *)

From S2P Require Import Prelude Utf8 Json Filesystem Effects WorkerStatus Api.

Module Python.

(** ** schemas/jobs.py *)

Record CreateJobRequest := mkRequest {
  task_name : string;
  arguments : list string;
  input_files : list string;
  timeout_sec : option Z;
}.

(** [InputFile]: a length of 1 to 255 characters, and [reject_path_traversal]. *)
Definition reject_path_traversal (value : string) : bool :=
  str_contains "/" value || str_contains "\" value || str_contains ".." value.

Definition filename_ok (filename : string) : bool :=
  (1 <=? code_points filename) && (code_points filename <=? 255) && negb (reject_path_traversal filename).

(** The other constraints of [CreateJobRequest]. *)
Definition fields_ok (request : CreateJobRequest) : bool :=
  (1 <=? code_points (task_name request)) && (code_points (task_name request) <=? 128) &&
  match timeout_sec request with None => true | Some t => (1 <=? t) && (t <=? 3600) end.

(** ** core/errors.py, and exceptions of the infrastructure *)

Inductive exception :=
| JobNotFoundError (message : string)
| CatalogNotFoundError (message : string)
| EnqueueError (message : string)
| OtherException (message : string).

(** ** services/job_service.py *)

Record UploadURL := mkUploadURL { filename : string; upload_url : string; method : string }.
Record CreateJobResponse := mkResponse { job_id : string; upload_urls : list UploadURL }.

Definition download (bucket key : string) : json :=
  JObject (<["bucket" := JString bucket]> (<["key" := JString key]> (<["method" := JString "GET"]> ∅))).

Definition status_document (job_id task_name now : string) : object :=
  <["job_id" := JString job_id]>
  (<["task_name" := JString task_name]>
  (<["status" := JString "queued"]>
  (<["enqueued_at" := JString now]>
  (<["updated_at" := JString now]> ∅)))).

Definition task (request : CreateJobRequest) : object :=
  let task := <["name" := JString (task_name request)]>
              (<["arguments" := JArray (JString <$> arguments request)]> ∅) in
  match timeout_sec request with
  | None => task
  | Some t => <["timeout_sec" := JInt64 t]> task
  end.

Definition message (job_id : string) (task : object) (downloads : list json) (now : string) : object :=
  <["job_id" := JString job_id]>
  (<["mode" := JString "execute"]>
  (<["task" := JObject task]>
  (<["download_s3" := JArray downloads]>
  (<["output_prefix" := JString (output_prefix_of job_id)]>
  (<["enqueued_at" := JString now]> ∅))))).

Section Service.
Context {X : Type} `{ApiServices X}.
Context (dumps : json → string) (loads : string → option json).
Context (cfg : ApiSettings).

(** The loop over the input files. *)
Fixpoint presign_inputs (job_id : string) (files : list string) (urls : list UploadURL) (downloads : list json)
    : Api X exception (list UploadURL * list json) :=
  match files with
  | [] => mret (urls, downloads)
  | name :: rest =>
      let key := input_key job_id name in
      r ← PresignPut key (presign_ttl cfg);
      url ← orElse r OtherException;
      presign_inputs job_id rest (urls ++ [mkUploadURL name url "PUT"]) (downloads ++ [download (api_bucket cfg) key])
  end.

Definition create_job (request : CreateJobRequest) : Api X exception CreateJobResponse :=
  job_id ← NewUuid;
  time ← ApiNow;
  let now := format_utc time in
  '(urls, downloads) ← presign_inputs job_id (input_files request) [] [];
  set ← StoreSet job_id (dumps (JObject (status_document job_id (task_name request) now))) (status_ttl cfg);
  orElse set OtherException;;
  sent ← Enqueue (dumps (JObject (message job_id (task request) downloads now))) (group_id cfg);
  orElse sent (λ e, EnqueueError ("cannot enqueue job: " +:+ e));;
  mret (mkResponse job_id urls).

(** A stored document; [missing] when there is none. *)
Definition load_document (key : string) (missing : exception) : Api X exception json :=
  r ← StoreGet key;
  value ← orElse r OtherException;
  match value with
  | None => fail missing
  | Some text => match loads text with
                 | Some v => mret v
                 | None => fail (OtherException "JSONDecodeError")
                 end
  end.

Definition get_job (job_id : string) : Api X exception json :=
  load_document job_id (JobNotFoundError ("job not found: " +:+ job_id)).

Definition get_task_catalog : Api X exception json :=
  load_document "task_catalog" (CatalogNotFoundError "task catalog is not published yet (worker not started?)").

(** ** main.py: exceptions to answers *)

Definition exception_answer (e : exception) : response :=
  match e with
  | JobNotFoundError m => (404, Failure "job_not_found" m)
  | CatalogNotFoundError m => (404, Failure "catalog_not_found" m)
  | EnqueueError _ => (500, Failure "create_failed" "cannot enqueue job")
  | OtherException _ => (500, Failure "internal_error" "internal error")
  end.

(** The handler of a [RequestValidationError], told whether one of the errors
    is about a [filename]. *)
Definition validation_error (about_filename : bool) : response :=
  if about_filename then (422, Failure "invalid_filename" "input_files[].filename is invalid")
  else (422, Failure "invalid_request" "invalid request").

Definition guard {A} (m : Api X exception A) (ok : A → response) : Api X Empty_set response := λ x,
  let '(r, x', es) := m x in
  (inl match r with inl a => ok a | inr e => exception_answer e end, x', es).

(** ** api/routes.py *)

Definition response_json (result : CreateJobResponse) : json :=
  JObject (<["job_id" := JString (job_id result)]>
    (<["upload_urls" := JArray ((λ u, JObject (<["filename" := JString (filename u)]>
        (<["upload_url" := JString (upload_url u)]> (<["method" := JString (method u)]> ∅)))) <$> upload_urls result)]> ∅)).

Definition create_job_route (body : CreateJobRequest) : Api X Empty_set response :=
  if negb (fields_ok body && forallb filename_ok (input_files body))
  then mret (validation_error (negb (forallb filename_ok (input_files body))))
  else guard (create_job body) (λ result, (202, Success (Json (response_json result)))).

(** [Path(pattern=_JOB_ID_PATTERN)] *)
Definition get_job_route (job_id : string) : Api X Empty_set response :=
  if negb (is_uuid job_id) then mret (validation_error false)
  else guard (get_job job_id) (λ document, (200, Success (Json document))).

Definition get_tasks_route : Api X Empty_set response :=
  guard get_task_catalog (λ catalog, (200, Success (Json catalog))).

End Service.
End Python.
