(* ===== verification/ApiJs.v ===== *)
(** * The JavaScript interface (Interface/js/src)

    [jobs/jobs.service.ts], the request type of [jobs/dto], the controller and
    the exception filter.  Building a [CreateJobDto] from a body is Nest's
    validation pipe; the constraints its decorators declare are [dto_ok], with
    [js_length] the length [Length] measures.  [stringify] and [parse] stand
    for the [JSON] object ([None]: [parse] threw), [validation_message] for the
    text the pipe gives its error. *)

From S2P Require Import Prelude Utf8 Json Filesystem Effects WorkerStatus Api.

Module Js.

(** An optional property: absent, null, or a value.  [IsOptional] lets the
    first two pass unchecked. *)
Inductive optional (A : Type) := Undefined | Null | Value (a : A).
Arguments Undefined {A}.
Arguments Null {A}.
Arguments Value {A} a.

(** [v ?? d] *)
Definition coalesce {A} (v : optional A) (d : A) : A := match v with Value a => a | _ => d end.

(** ** jobs/dto/create-job.dto.ts *)

Record CreateJobDto := mkDto {
  task_name : string;
  arguments : optional (list string);
  input_files : optional (list string);
  timeout_sec : optional Z;
}.

Section Constraints.
Context (js_length : string → Z).

(** [Length(1, 255)] and the pattern: no [..], no separator. *)
Definition filename_ok (filename : string) : bool :=
  (1 <=? js_length filename) && (js_length filename <=? 255) &&
  negb (size filename =? 0) && negb (str_contains ".." filename) &&
  negb (str_contains "/" filename) && negb (str_contains "\" filename).

Definition dto_ok (dto : CreateJobDto) : bool :=
  (1 <=? js_length (task_name dto)) && (js_length (task_name dto) <=? 128) &&
  match arguments dto with Value l => Nat.leb (length l) 64 | _ => true end &&
  match input_files dto with Value l => Nat.leb (length l) 32 && forallb filename_ok l | _ => true end &&
  match timeout_sec dto with Value t => (1 <=? t) && (t <=? 3600) | _ => true end.

End Constraints.

(** ** common/domain-errors.ts, and other errors *)

Inductive exception :=
| JobNotFoundError (jobId : string)
| CatalogNotFoundError
| EnqueueError (message : string)
| OtherError (message : string).

(** ** jobs/jobs.service.ts *)

Record UploadUrl := mkUploadUrl { filename : string; upload_url : string; method : string }.
Record CreateJobResult := mkResult { job_id : string; upload_urls : list UploadUrl }.

Definition download (bucket key : string) : json :=
  JObject (<["bucket" := JString bucket]> (<["key" := JString key]> (<["method" := JString "GET"]> ∅))).

Definition status_document (job_id task_name now : string) : object :=
  <["job_id" := JString job_id]>
  (<["task_name" := JString task_name]>
  (<["status" := JString "queued"]>
  (<["enqueued_at" := JString now]>
  (<["updated_at" := JString now]> ∅)))).

(** [timeout_sec] is spread in unless it is [undefined]. *)
Definition task (dto : CreateJobDto) : object :=
  let task := <["name" := JString (task_name dto)]>
              (<["arguments" := JArray (JString <$> coalesce (arguments dto) [])]> ∅) in
  match timeout_sec dto with
  | Undefined => task
  | Null => <["timeout_sec" := JNull]> task
  | Value t => <["timeout_sec" := JInt64 t]> task
  end.

Definition QueueMessage (job_id : string) (task : object) (downloads : list json) (now : string) : object :=
  <["job_id" := JString job_id]>
  (<["mode" := JString "execute"]>
  (<["task" := JObject task]>
  (<["download_s3" := JArray downloads]>
  (<["output_prefix" := JString (output_prefix_of job_id)]>
  (<["enqueued_at" := JString now]> ∅))))).

Section Service.
Context {X : Type} `{ApiServices X}.
Context (js_length : string → Z) (stringify : json → string) (js_parse : string → option json).
Context (validation_message : CreateJobDto → string).
Context (cfg : ApiSettings).

(** The loop over the input files. *)
Fixpoint presign_inputs (jobId : string) (files : list string) (urls : list UploadUrl) (downloads : list json)
    : Api X exception (list UploadUrl * list json) :=
  match files with
  | [] => mret (urls, downloads)
  | name :: rest =>
      let key := input_key jobId name in
      r ← PresignPut key (presign_ttl cfg);
      url ← orElse r OtherError;
      presign_inputs jobId rest (urls ++ [mkUploadUrl name url "PUT"]) (downloads ++ [download (api_bucket cfg) key])
  end.

Definition createJob (dto : CreateJobDto) : Api X exception CreateJobResult :=
  jobId ← NewUuid;
  time ← ApiNow;
  let now := format_utc time in
  '(uploadUrls, downloads) ← presign_inputs jobId (coalesce (input_files dto) []) [] [];
  set ← StoreSet jobId (stringify (JObject (status_document jobId (task_name dto) now))) (status_ttl cfg);
  orElse set OtherError;;
  sent ← Enqueue (stringify (JObject (QueueMessage jobId (task dto) downloads now))) (group_id cfg);
  orElse sent (λ e, EnqueueError ("cannot enqueue job: " +:+ e));;
  mret (mkResult jobId uploadUrls).

Definition load_document (key : string) (missing : exception) : Api X exception json :=
  r ← StoreGet key;
  value ← orElse r OtherError;
  match value with
  | None => fail missing
  | Some text => match js_parse text with
                 | Some v => mret v
                 | None => fail (OtherError "SyntaxError")
                 end
  end.

Definition getJob (jobId : string) : Api X exception json :=
  if negb (is_uuid jobId) then fail (JobNotFoundError jobId)
  else load_document jobId (JobNotFoundError jobId).

Definition getTaskCatalog : Api X exception json := load_document "task_catalog" CatalogNotFoundError.

(** ** common/domain-exception.filter.ts *)

Definition catch_exception (e : exception) : response :=
  match e with
  | JobNotFoundError jobId => (404, Failure "job_not_found" ("job not found: " +:+ jobId))
  | CatalogNotFoundError =>
      (404, Failure "catalog_not_found" "task catalog is not published yet (worker not started?)")
  | EnqueueError _ => (500, Failure "create_failed" "internal error")
  | OtherError _ => (500, Failure "internal_error" "internal error")
  end.

Definition guard {A} (m : Api X exception A) (ok : A → response) : Api X Empty_set response := λ x,
  let '(r, x', es) := m x in
  (inl match r with inl a => ok a | inr e => catch_exception e end, x', es).

(** ** jobs/jobs.controller.ts *)

Definition result_json (result : CreateJobResult) : json :=
  JObject (<["job_id" := JString (job_id result)]>
    (<["upload_urls" := JArray ((λ u, JObject (<["filename" := JString (filename u)]>
        (<["upload_url" := JString (upload_url u)]> (<["method" := JString (method u)]> ∅)))) <$> upload_urls result)]> ∅)).

(** The pipe answers 400, which the filter reports as [invalid_request]. *)
Definition create (dto : CreateJobDto) : Api X Empty_set response :=
  if negb (dto_ok js_length dto) then mret (400, Failure "invalid_request" (validation_message dto))
  else guard (createJob dto) (λ result, (202, Success (Json (result_json result)))).

Definition get (jobId : string) : Api X Empty_set response :=
  guard (getJob jobId) (λ document, (200, Success (Json document))).

Definition tasks : Api X Empty_set response :=
  guard getTaskCatalog (λ catalog, (200, Success (Json catalog))).

End Service.
End Js.
