(* ===== verification/ApiContract.v ===== *)
(** * The contract of the REST interfaces

    Creating a job as the contract has it ([create_spec]): identifier and time,
    the uploads presigned in order, the queued status recorded, the request
    enqueued, stopping at the first call that fails.  The three
    implementations are this specification up to the shape of their results
    and errors; what is then shown once for the specification (the order of
    the calls, the request that is enqueued, the document that is stored) holds
    for each of them. *)

From S2P Require Import Prelude Utf8 Json Filesystem Effects MessageValidation WorkerStatus.
From S2P Require Import Api ApiGo ApiPython ApiJs.

(** ** The specification *)

(** Which call failed. *)
Inductive create_error :=
| PresignFailed (filename error : string)
| StatusFailed (error : string)
| EnqueueFailed (error : string).

Definition download_entry_of (bucket job_id filename : string) : json :=
  JObject (<["bucket" := JString bucket]> (<["key" := JString (input_key job_id filename)]>
    (<["method" := JString "GET"]> ∅))).

Definition request_message (cfg : ApiSettings) (job_id now : string) (task : object) (files : list string) : object :=
  <["job_id" := JString job_id]>
  (<["mode" := JString "execute"]>
  (<["task" := JObject task]>
  (<["download_s3" := JArray (download_entry_of (api_bucket cfg) job_id <$> files)]>
  (<["output_prefix" := JString (output_prefix_of job_id)]>
  (<["enqueued_at" := JString now]> ∅))))).

Definition queued_document (job_id name now : string) : object :=
  <["job_id" := JString job_id]>
  (<["task_name" := JString name]>
  (<["status" := JString "queued"]>
  (<["enqueued_at" := JString now]>
  (<["updated_at" := JString now]> ∅)))).

Definition request_task_of (name : string) (args : list string) (timeout : option Z) : object :=
  let task := <["name" := JString name]> (<["arguments" := JArray (JString <$> args)]> ∅) in
  match timeout with None => task | Some t => <["timeout_sec" := JInt64 t]> task end.

Section Spec.
Context {X : Type} `{ApiServices X}.
Context (encode : json → string) (cfg : ApiSettings).

Fixpoint presign_all (job_id : string) (files : list string) (urls : list (string * string))
    : Api X create_error (list (string * string)) :=
  match files with
  | [] => mret urls
  | filename :: rest =>
      r ← PresignPut (input_key job_id filename) (presign_ttl cfg);
      url ← orElse r (PresignFailed filename);
      presign_all job_id rest (urls ++ [(filename, url)])
  end.

(** The identifier and the upload locations of the new job. *)
Definition create_spec (name : string) (files : list string) (task : object)
    : Api X create_error (string * list (string * string)) :=
  job_id ← NewUuid;
  time ← ApiNow;
  let now := format_utc time in
  urls ← presign_all job_id files [];
  set ← StoreSet job_id (encode (JObject (queued_document job_id name now))) (status_ttl cfg);
  orElse set StatusFailed;;
  sent ← Enqueue (encode (JObject (request_message cfg job_id now task files))) (group_id cfg);
  orElse sent EnqueueFailed;;
  mret (job_id, urls).

(** ** Each implementation is the specification

    [renamed ok err m m'] : [m'] makes the calls of [m] and ends with the
    result or error of [m], renamed. *)
Definition renamed {A B E F} (ok : A → B) (err : E → F) (m : Api X E A) (m' : Api X F B) : Prop :=
  ∀ x, m' x = let '(r, x', es) := m x in
              (match r with inl a => inl (ok a) | inr e => inr (err e) end, x', es).

Lemma renamed_ret {A B E F} (ok : A → B) (err : E → F) a : renamed ok err (mret a) (mret (ok a)).
Proof. done. Qed.

Lemma renamed_bind {A B C D E F} (ok : A → B) (ok' : C → D) (err : E → F) m m' f f' :
  renamed ok err m m' → (∀ a, renamed ok' err (f a) (f' (ok a))) → renamed ok' err (m ≫= f) (m' ≫= f').
Proof.
  intros Hm Hf x. unfold mbind, Api_bind. rewrite (Hm x). destruct (m x) as [[[a|e] x1] es1]; [|done].
  rewrite (Hf a x1). by destruct (f a x1) as [[r x2] es2].
Qed.

Lemma renamed_call {A E F} (op : X → A * X) ev (err : E → F) : renamed id err (api_call op ev) (api_call op ev).
Proof. intros x. unfold api_call. by destruct (op x). Qed.

Lemma renamed_orElse {A E F} (err : E → F) (r : expected A) wrap wrap' :
  (∀ e, err (wrap e) = wrap' e) → renamed id err (orElse r wrap : Api X E A) (orElse r wrap').
Proof. intros Hw x. destruct r; simpl; [done|]. unfold fail. by rewrite Hw. Qed.

(** The loop over the input files, and the sequence of calls around it. *)
Ltac presign_tac upload :=
  match goal with |- renamed _ _ (presign_all ?id ?fs ?us) (_ _ _ _ _ ?ds) =>
    revert ds us; induction fs as [|f fs IH]; intros ds us; simpl; [intros x; by rewrite app_nil_r|];
    eapply renamed_bind; [apply renamed_call|]; intros r;
    eapply renamed_bind; [by apply renamed_orElse|]; intros url;
    specialize (IH (ds ++ [download_entry_of (api_bucket cfg) id f]) (us ++ [(f, url)]));
    rewrite <-app_assoc, (fmap_app upload) in IH; exact IH
  end.

Ltac create_tac presign result :=
  eapply renamed_bind; [apply renamed_call|intros job_id];
  eapply renamed_bind; [apply renamed_call|intros time]; cbv zeta;
  eapply renamed_bind; [apply (presign _ _ [] [])|intros urls];
  eapply renamed_bind; [apply renamed_call|intros set];
  eapply renamed_bind; [by apply renamed_orElse|intros _];
  eapply renamed_bind; [apply renamed_call|intros sent];
  eapply renamed_bind; [by apply renamed_orElse|intros _];
  apply (renamed_ret result).

Definition go_error (e : create_error) : Go.error :=
  match e with
  | PresignFailed filename e => Go.Wrapped ("presign input " +:+ filename +:+ ": " +:+ e)
  | StatusFailed e => Go.Wrapped ("record queued status: " +:+ e)
  | EnqueueFailed e => Go.Wrapped ("enqueue job: " +:+ e)
  end.
Definition go_upload (u : string * string) : Go.UploadURL := Go.mkUploadURL u.1 u.2 "PUT".
Definition go_result (r : string * list (string * string)) : Go.CreateJobResult :=
  Go.mkResult r.1 (go_upload <$> r.2).

Lemma go_presign job_id files downloads urls :
  renamed (λ urls, (go_upload <$> urls, downloads ++ (download_entry_of (api_bucket cfg) job_id <$> files))) go_error
    (presign_all job_id files urls)
    (Go.presign_inputs cfg job_id files (go_upload <$> urls) downloads).
Proof. presign_tac go_upload. Qed.

(** The Go service is the specification. *)
Lemma go_refines input :
  renamed go_result go_error
    (create_spec (Go.TaskName input) (Go.InputFiles input) 
       (Go.queueTask (Go.TaskName input) (Go.emptyIfNil (Go.Arguments input)) (Go.TimeoutSec input)))
    (Go.CreateJob encode cfg input).
Proof. create_tac go_presign go_result. Qed.

Definition python_error (e : create_error) : Python.exception :=
  match e with
  | PresignFailed _ e => Python.OtherException e
  | StatusFailed e => Python.OtherException e
  | EnqueueFailed e => Python.EnqueueError ("cannot enqueue job: " +:+ e)
  end.
Definition python_upload (u : string * string) : Python.UploadURL := Python.mkUploadURL u.1 u.2 "PUT".
Definition python_result (r : string * list (string * string)) : Python.CreateJobResponse :=
  Python.mkResponse r.1 (python_upload <$> r.2).

Lemma python_presign job_id files downloads urls :
  renamed (λ urls, (python_upload <$> urls, downloads ++ (download_entry_of (api_bucket cfg) job_id <$> files))) python_error
    (presign_all job_id files urls)
    (Python.presign_inputs cfg job_id files (python_upload <$> urls) downloads).
Proof. presign_tac python_upload. Qed.

(** The Python service is the specification. *)
Lemma python_refines request :
  renamed python_result python_error
    (create_spec (Python.task_name request) (Python.input_files request) (Python.task request))
    (Python.create_job encode cfg request).
Proof. create_tac python_presign python_result. Qed.

Definition js_error (e : create_error) : Js.exception :=
  match e with
  | PresignFailed _ e => Js.OtherError e
  | StatusFailed e => Js.OtherError e
  | EnqueueFailed e => Js.EnqueueError ("cannot enqueue job: " +:+ e)
  end.
Definition js_upload (u : string * string) : Js.UploadUrl := Js.mkUploadUrl u.1 u.2 "PUT".
Definition js_result (r : string * list (string * string)) : Js.CreateJobResult :=
  Js.mkResult r.1 (js_upload <$> r.2).

Lemma js_presign job_id files downloads urls :
  renamed (λ urls, (js_upload <$> urls, downloads ++ (download_entry_of (api_bucket cfg) job_id <$> files))) js_error
    (presign_all job_id files urls)
    (Js.presign_inputs cfg job_id files (js_upload <$> urls) downloads).
Proof. presign_tac js_upload. Qed.

(** The JavaScript service is the specification. *)
Lemma js_refines dto :
  renamed js_result js_error
    (create_spec (Js.task_name dto) (Js.coalesce (Js.input_files dto) []) (Js.task dto))
    (Js.createJob encode cfg dto).
Proof. create_tac js_presign js_result. Qed.

End Spec.

(** ** The calls of a creation, in order *)

Section Creation.
Context {X : Type} `{ApiServices X}.
Context (encode : json → string) (cfg : ApiSettings).

(** Successful presigning of the given uploads. *)
Definition presigns (job_id : string) (urls : list (string * string)) : list ApiEvent :=
  (λ u, ApPresign (input_key job_id u.1) (presign_ttl cfg) (Expected u.2)) <$> urls.

Definition record_queued (job_id name now : string) (r : expected unit) : ApiEvent :=
  ApSet job_id (encode (JObject (queued_document job_id name now))) (status_ttl cfg) r.
Definition send_request (job_id now : string) (task : object) (files : list string) (r : expected unit) : ApiEvent :=
  ApSend (encode (JObject (request_message cfg job_id now task files))) (group_id cfg) r.

(** How a creation may go: the calls it makes and how it ends. *)
Inductive creation (job_id now name : string) (files : list string) (task : object)
    : list ApiEvent → (string * list (string * string)) + create_error → Prop :=
| creation_presign_failed urls f rest e :
    files = urls.*1 ++ f :: rest →
    creation job_id now name files task
      (presigns job_id urls ++ [ApPresign (input_key job_id f) (presign_ttl cfg) (Unexpected e)])
      (inr (PresignFailed f e))
| creation_status_failed urls e :
    files = urls.*1 →
    creation job_id now name files task
      (presigns job_id urls ++ [record_queued job_id name now (Unexpected e)]) (inr (StatusFailed e))
| creation_enqueue_failed urls e :
    files = urls.*1 →
    creation job_id now name files task
      (presigns job_id urls ++ [record_queued job_id name now (Expected ());
                                send_request job_id now task files (Unexpected e)]) (inr (EnqueueFailed e))
| creation_done urls :
    files = urls.*1 →
    creation job_id now name files task
      (presigns job_id urls ++ [record_queued job_id name now (Expected ());
                                send_request job_id now task files (Expected ())]) (inl (job_id, urls)).

Lemma presign_all_run job_id files before (x : X) :
  let '(r, x', es) := presign_all cfg job_id files before x in
  ∃ urls, (r = inl (before ++ urls) ∧ files = urls.*1 ∧ es = presigns job_id urls) ∨
    ∃ f rest e, r = inr (PresignFailed f e) ∧ files = urls.*1 ++ f :: rest ∧
      es = presigns job_id urls ++ [ApPresign (input_key job_id f) (presign_ttl cfg) (Unexpected e)].
Proof.
  revert before x. induction files as [|f files IH]; intros before x; simpl.
  { exists []. left. by rewrite app_nil_r. }
  unfold mbind, Api_bind, PresignPut, api_call. destruct (presign_put _ _ x) as [[url|e] x1]; simpl.
  - specialize (IH (before ++ [(f, url)]) x1).
    destruct (presign_all cfg job_id files (before ++ [(f, url)]) x1) as [[r x2] es].
    destruct IH as (urls & [(-> & -> & ->)|(f' & rest & e & -> & -> & ->)]); exists ((f, url) :: urls).
    + left. by rewrite <-app_assoc.
    + right. by exists f', rest, e.
  - exists []. right. by exists f, files, e.
Qed.

(** The identifier and time a creation works with. *)
Definition issued (x : X) : string * string :=
  ((new_uuid x).1, format_utc (api_now (new_uuid x).2).1).

Lemma create_spec_creation name files task (x : X) :
  let '(r, x', es) := create_spec encode cfg name files task x in
  creation (issued x).1 (issued x).2 name files task es r.
Proof.
  unfold create_spec, issued. unfold mbind, Api_bind at 1 2, NewUuid, ApiNow, api_call.
  destruct (new_uuid x) as [id x1]. simpl. destruct (api_now x1) as [time x2]. simpl.
  pose proof (presign_all_run id files [] x2) as Hp. unfold mbind, Api_bind.
  destruct (presign_all cfg id files [] x2) as [[r x3] es].
  destruct Hp as (urls & [(-> & Hfiles & ->)|(f & rest & e & -> & Hfiles & ->)]); simpl; [|by econstructor].
  unfold StoreSet, Enqueue, api_call.
  destruct (store_set _ _ _ x3) as [[[]|e] x4]; simpl; [|by apply (creation_status_failed _ _ _ _ _ urls)].
  destruct (enqueue _ _ x4) as [[[]|e] x5]; simpl;
    [by apply (creation_done _ _ _ _ _ urls)|by apply (creation_enqueue_failed _ _ _ _ _ urls)].
Qed.

Lemma renamed_creation {B F} (ok : string * list (string * string) → B) (err : create_error → F) name files task m (x : X) :
  renamed ok err (create_spec encode cfg name files task) m →
  ∃ r, creation (issued x).1 (issued x).2 name files task (m x).2 r ∧
    (m x).1.1 = match r with inl a => inl (ok a) | inr e => inr (err e) end.
Proof.
  intros Hm. pose proof (create_spec_creation name files task x) as Hc. rewrite (Hm x).
  destruct (create_spec encode cfg name files task x) as [[r x'] es]. by exists r.
Qed.

(** C19: the three services follow the contract. Each makes the calls of a
    creation: it presigns the input uploads in order, then records the queued
    status, then enqueues the request, and stops at the first call that fails;
    so the request is never enqueued before its status is recorded, and it
    reports success only when every call succeeded. *)
Theorem create_follows_contract input request dto (x : X) :
  (∃ r, creation (issued x).1 (issued x).2 (Go.TaskName input) (Go.InputFiles input)
     (Go.queueTask (Go.TaskName input) (Go.emptyIfNil (Go.Arguments input)) (Go.TimeoutSec input))
     (Go.CreateJob encode cfg input x).2 r ∧
     (Go.CreateJob encode cfg input x).1.1 = match r with inl a => inl (go_result a) | inr e => inr (go_error e) end) ∧
  (∃ r, creation (issued x).1 (issued x).2 (Python.task_name request) (Python.input_files request)
     (Python.task request) (Python.create_job encode cfg request x).2 r ∧
     (Python.create_job encode cfg request x).1.1
       = match r with inl a => inl (python_result a) | inr e => inr (python_error e) end) ∧
  (∃ r, creation (issued x).1 (issued x).2 (Js.task_name dto) (Js.coalesce (Js.input_files dto) [])
     (Js.task dto) (Js.createJob encode cfg dto x).2 r ∧
     (Js.createJob encode cfg dto x).1.1 = match r with inl a => inl (js_result a) | inr e => inr (js_error e) end).
Proof.
  split_and!; apply renamed_creation; [apply go_refines|apply python_refines|apply js_refines].
Qed.

End Creation.
