(* ===== verification/Posting.v ===== *)
(** * Posting a job

    The routes of the three interfaces that create a job, as one operation
    ([post]): what a request asks for, when it is accepted, and the answer it
    gets.  Accepted requests run the specification of creation, and the
    request they enqueue is one the worker accepts. *)

From S2P Require Import Prelude Utf8 Json Filesystem Effects MessageValidation WorkerStatus StatusSchema.
From S2P Require Import Api ApiGo ApiPython ApiJs ApiContract.
Import MessageValidation.

(** ** Identifiers *)

Lemma uuid_char_job_id c : is_uuid_char c = true → job_id_char c = true.
Proof. destruct c as [[] [] [] [] [] [] [] []]; vm_compute; done. Qed.

Lemma uuid_valid_job_id s : is_uuid s = true → is_valid_job_id s = true.
Proof.
  intros Hs. apply is_uuid_spec in Hs as [Hl Hs]. unfold is_valid_job_id. rewrite Hl. simpl.
  rewrite str_forallb_In in *. intros c Hc. by apply uuid_char_job_id, Hs.
Qed.

Lemma uuid_utf8 s : is_uuid s = true → valid_utf8 s = true.
Proof.
  intros Hs. apply is_uuid_spec in Hs as [_ Hs]. apply ascii_valid_utf8. intros c Hc.
  rewrite str_forallb_In in Hs. apply Hs in Hc. revert Hc.
  destruct c as [[] [] [] [] [] [] [] []]; vm_compute; done.
Qed.

(** ** The enqueued request *)

Lemma request_task_valid name args timeout : name ≠ "" → valid_task (request_task_of name args timeout).
Proof.
  intros Hn. split.
  - exists name. split; [|done]. by destruct timeout.
  - intros v Hv. exists (JString <$> args). split; [destruct timeout; by simplify_map_eq|].
    apply Forall_fmap, Forall_true. intros a. by exists a.
  - intros v Hv. destruct timeout as [t|]; simplify_map_eq. by exists t.
Qed.

Lemma request_message_valid cfg job_id now task files :
  is_uuid job_id = true → valid_task task → api_bucket cfg ≠ "" →
  validate_request (request_message cfg job_id now task files) = Expected ().
Proof.
  intros Hid Ht Hb. apply valid_request_iff. split.
  - exists job_id. split; [done|]. by apply is_valid_job_id_iff, uuid_valid_job_id.
  - done.
  - by exists task.
  - exists (download_entry_of (api_bucket cfg) job_id <$> files). split; [done|].
    apply Forall_fmap, Forall_true. intros f. by eexists _, (api_bucket cfg), (input_key job_id f), "GET".
  - by exists (output_prefix_of job_id).
Qed.

Lemma null_task_rejected cfg job_id now name args files :
  is_uuid job_id = true → name ≠ "" →
  validate_request (request_message cfg job_id now (<["timeout_sec" := JNull]> (request_task_of name args None)) files)
    = Unexpected "task.timeout_sec must be an integer".
Proof.
  intros Hid Hn. unfold validate_request. change (get_string _ "job_id") with (Some job_id). cbv iota.
  pose proof (uuid_valid_job_id _ Hid) as Hv. rewrite Hv.
  assert (Hne : (size job_id =? 0) = false) by (apply is_uuid_spec in Hid as [-> _]; done). rewrite Hne. simpl.
  change (get_object _ "task") with (Some (<["timeout_sec" := JNull]> (request_task_of name args None))). cbv iota.
  unfold check_task. change (get_string _ "name") with (Some name). cbv iota.
  rewrite (proj2 (size_nonzero name) Hn). change (at_ _ "arguments") with (Some (JArray (JString <$> args))). cbn [as_array].
  assert (Ha : check_arguments (JString <$> args) = Expected ()) by (by induction args).
  by rewrite Ha.
Qed.

Lemma queued_document_schema job_id name now : schema job_id (queued_document job_id name now).
Proof.
  split.
  - unfold queued_document. repeat apply map_Forall_insert_2; [done..|apply map_Forall_empty].
  - done.
  - exists "queued". split; [done|]. unfold job_statuses. set_solver.
  - by exists now.
Qed.

(** The only request a creation enqueues is the one it describes. *)
Lemma creation_sends encode cfg job_id now name files task es r body group sent :
  creation encode cfg job_id now name files task es r → ApSend body group sent ∈ es →
  body = encode (JObject (request_message cfg job_id now task files)).
Proof.
  assert (Hp : ∀ urls, ApSend body group sent ∉ presigns cfg job_id urls).
  { intros urls Hin. unfold presigns in Hin. by apply list_elem_of_fmap in Hin as (u & ? & _). }
  intros Hc Hin. destruct Hc as [urls f rest e ?|urls e ?|urls e ?|urls ?];
    apply elem_of_app in Hin as [Hin|Hin]; try (by destruct (Hp urls));
    unfold record_queued, send_request in Hin; set_solver.
Qed.

(** ** Posting a job through one of the interfaces *)

Inductive posting :=
| ViaGo (dto : Go.createJobDTO)
| ViaPython (request : Python.CreateJobRequest)
| ViaJs (dto : Js.CreateJobDto).

(** What is asked for: the task, its input files, and the [task] object that
    is enqueued. *)
Definition asked_name (q : posting) : string :=
  match q with
  | ViaGo dto => Go.dto_task_name dto
  | ViaPython request => Python.task_name request
  | ViaJs dto => Js.task_name dto
  end.
Definition asked_files (q : posting) : list string :=
  match q with
  | ViaGo dto => Go.dto_input_files dto
  | ViaPython request => Python.input_files request
  | ViaJs dto => Js.coalesce (Js.input_files dto) []
  end.
Definition asked_arguments (q : posting) : list string :=
  match q with
  | ViaGo dto => Go.emptyIfNil (Go.dto_arguments dto)
  | ViaPython request => Python.arguments request
  | ViaJs dto => Js.coalesce (Js.arguments dto) []
  end.
Definition asked_timeout (q : posting) : option Z :=
  match q with
  | ViaGo dto => if Go.dto_timeout_sec dto =? 0 then None else Some (Go.dto_timeout_sec dto)
  | ViaPython request => Python.timeout_sec request
  | ViaJs dto => match Js.timeout_sec dto with Js.Value t => Some t | _ => None end
  end.
Definition asked_task (q : posting) : object :=
  match q with
  | ViaGo dto => Go.queueTask (Go.dto_task_name dto) (Go.emptyIfNil (Go.dto_arguments dto)) (Go.dto_timeout_sec dto)
  | ViaPython request => Python.task request
  | ViaJs dto => Js.task dto
  end.

(** A JavaScript request with an explicit null for [timeout_sec]. *)
Definition null_timeout (q : posting) : Prop :=
  match q with ViaJs dto => Js.timeout_sec dto = Js.Null | _ => False end.

Lemma asked_task_of q :
  ¬ null_timeout q → asked_task q = request_task_of (asked_name q) (asked_arguments q) (asked_timeout q).
Proof.
  destruct q as [dto|request|dto]; simpl; intros Hn.
  - unfold Go.queueTask. by destruct (Go.dto_timeout_sec dto =? 0).
  - done.
  - unfold Js.task. by destruct (Js.timeout_sec dto).
Qed.

Section Posting.
Context {X : Type} `{ApiServices X}.
Context (encode : json → string) (js_length : string → Z) (validation_message : Js.CreateJobDto → string).
Context (cfg : ApiSettings).

Definition post (q : posting) : Api X Empty_set response :=
  match q with
  | ViaGo dto => Go.Create encode cfg dto
  | ViaPython request => Python.create_job_route encode cfg request
  | ViaJs dto => Js.create js_length encode validation_message cfg dto
  end.

Definition accepts (q : posting) : bool :=
  match q with
  | ViaGo dto => Go.binding_ok dto && forallb Go.validFilename (Go.dto_input_files dto)
  | ViaPython request => Python.fields_ok request && forallb Python.filename_ok (Python.input_files request)
  | ViaJs dto => Js.dto_ok js_length dto
  end.

(** The body of a 202. *)
Definition created_json (job_id : string) (urls : list (string * string)) : json :=
  JObject (<["job_id" := JString job_id]>
    (<["upload_urls" := JArray ((λ u, JObject (<["filename" := JString u.1]>
        (<["upload_url" := JString u.2]> (<["method" := JString "PUT"]> ∅)))) <$> urls)]> ∅)).

(** The answer when a service failed. *)
Definition failure_answer (q : posting) (e : create_error) : response :=
  match q with
  | ViaGo _ => (500, Failure "create_failed" "cannot enqueue job")
  | ViaPython _ => Python.exception_answer (python_error e)
  | ViaJs _ => Js.catch_exception (js_error e)
  end.

Definition creation_answer (q : posting) (r : (string * list (string * string)) + create_error) : response :=
  match r with
  | inl (job_id, urls) => (202, Success (Json (created_json job_id urls)))
  | inr e => failure_answer q e
  end.

(** The answer to a request that is not accepted. *)
Definition rejection (q : posting) : response :=
  match q with
  | ViaGo dto => if Go.binding_ok dto
      then (400, Failure "invalid_filename" "filename must not be empty or contain path separators")
      else (400, Failure "invalid_request" "request body is invalid")
  | ViaPython request => Python.validation_error (negb (forallb Python.filename_ok (Python.input_files request)))
  | ViaJs dto => (400, Failure "invalid_request" (validation_message dto))
  end.

(** An accepted request runs the specification, and is answered by it. *)
Lemma post_accepted q (x : X) :
  accepts q = true →
  post q x = let '(r, x', es) := create_spec encode cfg (asked_name q) (asked_files q) (asked_task q) x in
             (inl (creation_answer q r), x', es).
Proof.
  destruct q as [dto|request|dto]; simpl; intros Hok.
  - apply andb_true_iff in Hok as [Hb Hf]. unfold Go.Create, Go.answer. rewrite Hb, Hf. simpl.
    rewrite (go_refines encode cfg _ x). simpl. destruct (create_spec _ _ _ _ _ x) as [[[[id urls]|e] x'] es]; [|done].
    simpl. unfold Go.result_json, created_json. simpl. by rewrite <-list_fmap_compose.
  - unfold Python.create_job_route, Python.guard. rewrite Hok. simpl. rewrite (python_refines encode cfg _ x).
    destruct (create_spec _ _ _ _ _ x) as [[[[id urls]|e] x'] es]; [|done].
    simpl. unfold Python.response_json, created_json. simpl. by rewrite <-list_fmap_compose.
  - unfold Js.create, Js.guard. rewrite Hok. simpl. rewrite (js_refines encode cfg _ x).
    destruct (create_spec _ _ _ _ _ x) as [[[[id urls]|e] x'] es]; [|done].
    simpl. unfold Js.result_json, created_json. simpl. by rewrite <-list_fmap_compose.
Qed.

Lemma post_rejected q (x : X) : accepts q = false → post q x = (inl (rejection q), x, []).
Proof.
  destruct q as [dto|request|dto]; simpl; intros Hok.
  - unfold Go.Create. destruct (Go.binding_ok dto); simpl in *; [by rewrite Hok|done].
  - unfold Python.create_job_route. by rewrite Hok.
  - unfold Js.create. by rewrite Hok.
Qed.

(** The calls of an accepted request are those of a creation. *)
Lemma post_creation q (x : X) :
  accepts q = true →
  ∃ r, creation encode cfg (issued x).1 (issued x).2 (asked_name q) (asked_files q) (asked_task q) (post q x).2 r ∧
    (post q x).1.1 = inl (creation_answer q r).
Proof.
  intros Hok. pose proof (create_spec_creation encode cfg (asked_name q) (asked_files q) (asked_task q) x) as Hc.
  rewrite (post_accepted q x Hok). destruct (create_spec _ _ _ _ _ x) as [[r x'] es]. by exists r.
Qed.

End Posting.

(** ** What acceptance guarantees *)

(** A name without separators or parent references. *)
Definition safe_filename (f : string) : Prop :=
  f ≠ "" ∧ ¬ str_In "/" f ∧ ¬ str_In "\" f ∧ str_contains ".." f = false.

Lemma str_contains_char c s : str_contains (String c "") s = false → ¬ str_In c s.
Proof.
  induction s as [|d s IH]; [simpl; tauto|]. cbn [str_contains str_In String.prefix].
  intros [Hd Hs]%orb_false_iff [->|Hin]; [|by apply IH].
  destruct (ascii_dec d d); [destruct s; done|done].
Qed.

Lemma safe_filename_plain f : safe_filename f → f ≠ "." → plain_name f.
Proof. intros (Hne & Hslash & _ & Hdots) Hdot. split_and!; try done. by intros ->. Qed.

Lemma safe_filename_intro f :
  f ≠ "" → str_contains "/" f = false → str_contains "\" f = false → str_contains ".." f = false → safe_filename f.
Proof. intros. unfold safe_filename. split_and!; [done|by apply str_contains_char|by apply str_contains_char|done]. Qed.

Section Accepted.
Context (js_length : string → Z).
Context (js_length_empty : js_length "" = 0).

Lemma accepted_name q : accepts js_length q = true → asked_name q ≠ "".
Proof using js_length_empty.
  intros Hok Hn. destruct q as [dto|request|dto]; simpl in *.
  - unfold Go.binding_ok in Hok. by rewrite Hn in Hok.
  - unfold Python.fields_ok in Hok. by rewrite Hn in Hok.
  - unfold Js.dto_ok in Hok. by rewrite Hn, js_length_empty in Hok.
Qed.

Lemma accepted_files q : accepts js_length q = true → Forall safe_filename (asked_files q).
Proof.
  intros Hok. apply Forall_forall. intros f Hf. destruct q as [dto|request|dto]; simpl in Hok, Hf.
  - apply andb_true_iff in Hok as [_ Hok]. rewrite forallb_forall in Hok.
    specialize (Hok f (proj1 (list_elem_of_In _ _) Hf)). unfold Go.validFilename in Hok.
    destruct (_ || _) eqn:E1 in Hok; [done|]. destruct (_ || _) eqn:E2 in Hok; [done|].
    destruct (str_contains ".." f) eqn:E3; [done|].
    apply orb_false_iff in E1 as [E1%size_nonzero _]. apply orb_false_iff in E2 as [??].
    by apply safe_filename_intro.
  - apply andb_true_iff in Hok as [_ Hok]. rewrite forallb_forall in Hok.
    specialize (Hok f (proj1 (list_elem_of_In _ _) Hf)). unfold Python.filename_ok, Python.reject_path_traversal in Hok.
    bool_to_prop. apply safe_filename_intro; [by intros ->|done..].
  - unfold Js.dto_ok in Hok. bool_to_prop. destruct (Js.input_files dto) as [| |files]; simpl in Hf; [by apply elem_of_nil in Hf..|].
    bool_to_prop. match goal with Hall : forallb _ _ = true |- _ => rewrite forallb_forall in Hall;
      specialize (Hall f (proj1 (list_elem_of_In _ _) Hf)); unfold Js.filename_ok in Hall end.
    bool_to_prop. apply safe_filename_intro; try done. by apply size_nonzero, Z.eqb_neq.
Qed.

End Accepted.

Lemma accepted_timeout js_length q t :
  accepts js_length q = true → asked_timeout q = Some t → 1 ≤ t ≤ 3600.
Proof.
  intros Hok Ht. destruct q as [dto|request|dto]; simpl in *.
  - unfold Go.binding_ok in Hok. destruct (Go.dto_timeout_sec dto =? 0); [done|]. simplify_eq/=. bool_to_prop. lia.
  - unfold Python.fields_ok in Hok. rewrite Ht in Hok. bool_to_prop. lia.
  - unfold Js.dto_ok in Hok. destruct (Js.timeout_sec dto); simplify_eq/=. bool_to_prop. lia.
Qed.

(** ** The enqueued request is Unicode text *)

(** The strings of a request, as they are in a JSON body. *)
Definition unicode (q : posting) : Prop :=
  valid_utf8 (asked_name q) = true ∧ Forall (λ a, valid_utf8 a = true) (asked_arguments q) ∧
  Forall (λ f, valid_utf8 f = true) (asked_files q).

Lemma format_utc_utf8 time : valid_utf8 (format_utc time) = true.
Proof.
  unfold format_utc. destruct (civil_of_days _) as [[y m] d]. unfold two_digits.
  repeat apply valid_utf8_app; apply fmt_int_utf8 || done.
Qed.

Lemma strings_wf d l : Forall (λ a, valid_utf8 a = true) l → json_wf_at (S d) (JArray (JString <$> l)) = true.
Proof. intros Hl. rewrite json_wf_array. induction Hl as [|a l Ha _ IH]; [done|]. apply andb_true_iff. exact (conj Ha IH). Qed.

Lemma request_task_wf d name args timeout :
  valid_utf8 name = true → Forall (λ a, valid_utf8 a = true) args → (∀ t, timeout = Some t → in_int64 t) →
  json_wf_at (S (S d)) (JObject (request_task_of name args timeout)) = true.
Proof.
  intros Hn Ha Ht.
  assert (Hbase : json_wf_at (S (S d)) (JObject (request_task_of name args None)) = true).
  { unfold request_task_of. repeat apply json_wf_insert; try done. by apply strings_wf. }
  destruct timeout as [t|]; [|done]. change (request_task_of name args (Some t)) with
    (<["timeout_sec" := JInt64 t]> (request_task_of name args None)).
  apply json_wf_insert; [done..|]. by apply bool_decide_eq_true_2, Ht.
Qed.

Lemma request_message_wf cfg job_id time task files :
  valid_utf8 (api_bucket cfg) = true → valid_utf8 job_id = true → Forall (λ f, valid_utf8 f = true) files →
  json_wf_at 31 (JObject task) = true → json_wf (JObject (request_message cfg job_id (format_utc time) task files)) = true.
Proof.
  intros Hb Hid Hf Ht. unfold request_message, json_wf. repeat apply json_wf_insert; try done.
  - apply format_utc_utf8.
  - unfold output_prefix_of. simpl. by repeat apply valid_utf8_app.
  - rewrite json_wf_array. induction Hf as [|f files Hf _ IH]; [done|]. cbn [fmap list_fmap forallb]. rewrite IH, andb_true_r.
    unfold download_entry_of. repeat apply json_wf_insert; try done. simpl. by repeat apply valid_utf8_app.
Qed.
