(* ===== verification/ApiSample.v ===== *)
(** * The interfaces on simulated services

    The simulated outside world as the interfaces reach it, sharing Redis, the
    queue and the clock with the worker, and requests for concrete runs. *)

From S2P Require Import Prelude Utf8 Json Filesystem Effects Testbed WorkerSample.
From S2P Require Import Api ApiGo ApiPython ApiJs ApiContract Posting.

#[export] Instance sim_api : ApiServices Sim := {|
  new_uuid x := ("7d444840-9dc0-11d1-b245-5ffdce74fad2", x);
  api_now x := (sim_clock x, sim_tick x);
  presign_put key _ x := (Expected ("https://taskforge-jobs/" +:+ key), x);
  store_get key x := (Expected (sim_redis x !! key), x);
  store_set key value _ x := (Expected (), sim_with_redis x (<[key := value]> (sim_redis x)));
  enqueue body group x :=
    if sim_refuse_send x then (Unexpected "refused", x)
    else (Expected (), sim_with_queue x (sim_queue x ++ [(body, group)]));
|}.

#[export] Instance sim_uuid : UuidLaws Sim.
Proof. split. done. Qed.

Module ApiSample.
Definition settings : ApiSettings := mkApiSettings "taskforge-jobs" 3600 86400 "jobs".
Definition services : Sim := Sample.services ∅ 0.
Definition encode : json → string := RefCodec.ref_serialize.

Definition go : posting := ViaGo (Go.mkDTO "wordcount" None ["a.txt"] 0).
Definition js_null : Js.CreateJobDto := Js.mkDto "wordcount" Js.Undefined Js.Undefined Js.Null.

Definition posted (q : posting) : (response + Empty_set) * Sim * list ApiEvent :=
  post encode size (λ _, "") settings q services.

(** The calls of a creation, on a concrete request. *)
Example posted_calls :
  (λ e, match e with ApPresign k _ _ => k | ApGet k _ => k | ApSet k _ _ _ => k | ApSend _ g _ => g end)
    <$> (posted go).2
  = ["jobs/7d444840-9dc0-11d1-b245-5ffdce74fad2/inputs/a.txt"; "7d444840-9dc0-11d1-b245-5ffdce74fad2"; "jobs"].
Proof. vm_compute. reflexivity. Qed.
End ApiSample.
