(* ===== verification/ApiProperties.v ===== *)
(** * The interfaces and the worker together

    What the interfaces enqueue is what the worker accepts; what they store is
    a typed status document; an input file reaches the task under its own
    name; the three implementations behave alike where their contract says so;
    no client can read a store entry that is not a job; and a job created
    through an interface is settled by the worker. *)

From S2P Require Import Prelude Utf8 Json Filesystem Effects Testbed MessageValidation Configurations.
From S2P Require Import TaskDLQ TaskExecutor WorkerStatus Worker StatusSchema WorkerTrace WorkerSafety WorkerProtocol.
From S2P Require Import WorkerSample WorkerProperties WorkerTransfers WorkerHistory JobStates.
From S2P Require Import Api ApiGo ApiPython ApiJs ApiContract Posting ApiSample.
Import MessageValidation.

(** ** The calls of a creation *)

(** A call that serves the job [job_id]: uploads go below its inputs, the only
    entry written is its typed status document, and what is enqueued is a
    request for it, on which the validation of the worker says [verdict]. *)
Definition call_valid (encode : json → string) (verdict : expected unit) (job_id : string) (call : ApiEvent) : Prop :=
  match call with
  | ApPresign key _ _ => ∃ f, key = input_key job_id f ∧ safe_filename f
  | ApGet _ _ => False
  | ApSet key value _ _ => key = job_id ∧ ∃ d, value = encode (JObject d) ∧ schema job_id d
  | ApSend body _ _ => ∃ message, body = encode (JObject message) ∧
      validate_request message = verdict ∧ message !! "job_id" = Some (JString job_id)
  end.

(** What the worker says of the request enqueued for a posting: it accepts it,
    unless [timeout_sec] was an explicit null. *)
Definition verdict (q : posting) : expected unit :=
  match q with
  | ViaJs dto =>
      match Js.timeout_sec dto with
      | Js.Null => Unexpected "task.timeout_sec must be an integer"
      | _ => Expected ()
      end
  | _ => Expected ()
  end.

Section Creation.
Context {X : Type} `{ApiServices X} `{UL : !UuidLaws X}.
Context (encode : json → string) (js_length : string → Z) (validation_message : Js.CreateJobDto → string).
Context (cfg : ApiSettings).

Abbreviation post := (post encode js_length validation_message cfg).

Lemma creation_valid said job_id now name files task es r :
  creation encode cfg job_id now name files task es r →
  Forall safe_filename files → validate_request (request_message cfg job_id now task files) = said →
  Forall (call_valid encode said job_id) es.
Proof.
  intros Hc Hf Hv.
  assert (Hp : ∀ urls : list (string * string), Forall safe_filename urls.*1 →
    Forall (call_valid encode said job_id) (presigns cfg job_id urls)).
  { intros urls Hurls. unfold presigns. apply Forall_fmap, Forall_forall.
    rewrite Forall_forall in Hurls. intros u Hu. exists u.1. split; [done|]. by apply Hurls, list_elem_of_fmap_2. }
  assert (Hset : ∀ u, call_valid encode said job_id (record_queued encode cfg job_id name now u)).
  { intros u. split; [done|]. eexists. split; [done|]. apply queued_document_schema. }
  assert (Hsend : ∀ u, call_valid encode said job_id (send_request encode cfg job_id now task files u)).
  { intros u. by eexists. }
  destruct Hc as [urls f rest e ->|urls e ->|urls e ->|urls ->];
    rewrite ?Forall_app, ?Forall_cons in *; destruct_and?; split_and?; auto.
  by exists f.
Qed.

(** What the worker says of an accepted posting. *)
Lemma posted_verdict q job_id now :
  js_length "" = 0 → api_bucket cfg ≠ "" → accepts js_length q = true → is_uuid job_id = true →
  validate_request (request_message cfg job_id now (asked_task q) (asked_files q)) = verdict q.
Proof.
  intros Hjs Hb Hok Hid. pose proof (accepted_name js_length Hjs q Hok) as Hname.
  assert (Hvalid : ¬ null_timeout q →
    validate_request (request_message cfg job_id now (asked_task q) (asked_files q)) = Expected ()).
  { intros Hn. rewrite asked_task_of by done. by apply request_message_valid; [|apply request_task_valid|]. }
  destruct q as [dto|request|dto]; [by apply Hvalid; intros []|by apply Hvalid; intros []|]. simpl in Hvalid |- *.
  destruct (Js.timeout_sec dto) eqn:Ht; [by apply Hvalid| |by apply Hvalid].
  unfold Js.task. rewrite Ht. by apply null_task_rejected.
Qed.

(** Whatever a client posts, through any of the three interfaces, the
    calls made serve one new job only: uploads are signed below
    [jobs/<id>/inputs/] under safe names, the status document written under
    the identifier of the job is well typed, and the request put on the queue
    is one the worker's validation accepts for that job, or rejects when the
    timeout was an explicit null. *)
Theorem creation_calls_valid q (x : X) :
  js_length "" = 0 → api_bucket cfg ≠ "" →
  Forall (call_valid encode (verdict q) (issued x).1) (post q x).2.
Proof using UL.
  intros Hjs Hb. destruct (accepts js_length q) eqn:Hok; [|by rewrite post_rejected].
  destruct (post_creation encode js_length validation_message cfg q x Hok) as (r & Hc & _).
  eapply creation_valid; [exact Hc|by eapply accepted_files|]. apply posted_verdict; [done..|apply new_uuid_form].
Qed.

(** The JavaScript interface accepts an explicit null for [timeout_sec]
    and answers 202, but the request it has then enqueued is one the worker's
    validation rejects. *)
Theorem js_null_timeout_rejected dto (x : X) document :
  js_length "" = 0 → Js.timeout_sec dto = Js.Null →
  (post (ViaJs dto) x).1.1 = inl (202, document) →
  ∃ message, ApSend (encode (JObject message)) (group_id cfg) (Expected ()) ∈ (post (ViaJs dto) x).2 ∧
    validate_request message = Unexpected "task.timeout_sec must be an integer".
Proof using UL.
  intros Hjs Hnull Hans.
  destruct (accepts js_length (ViaJs dto)) eqn:Hok; [|by rewrite post_rejected in Hans].
  destruct (post_creation encode js_length validation_message cfg (ViaJs dto) x Hok) as (r & Hc & Ha).
  rewrite Hans in Ha. injection Ha as Ha. exists (request_message cfg (issued x).1 (issued x).2 (Js.task dto) (asked_files (ViaJs dto))).
  split.
  - destruct Hc as [| | |urls Hu]; [done..|]. unfold send_request. set_solver.
  - unfold Js.task. rewrite Hnull. apply null_task_rejected; [apply new_uuid_form|].
    by apply (accepted_name js_length Hjs (ViaJs dto)).
Qed.

End Creation.

(** ** The interfaces agree *)

(** A request every client can state. *)
Record job_request := mkJob {
  rq_name : string;
  rq_arguments : list string;
  rq_files : list string;
  rq_timeout : option Z;
}.

Definition to_go (r : job_request) : Go.createJobDTO :=
  Go.mkDTO (rq_name r) (Some (rq_arguments r)) (rq_files r) (default 0 (rq_timeout r)).
Definition to_python (r : job_request) : Python.CreateJobRequest :=
  Python.mkRequest (rq_name r) (rq_arguments r) (rq_files r) (rq_timeout r).
Definition to_js (r : job_request) : Js.CreateJobDto :=
  Js.mkDto (rq_name r) (Js.Value (rq_arguments r)) (Js.Value (rq_files r))
    match rq_timeout r with Some t => Js.Value t | None => Js.Undefined end.

Definition is_ascii (s : string) : bool := str_forallb (λ c, uchar c <=? 0x7F) s.

(** Within the limits only some of the interfaces have: ASCII names, at most 64
    arguments and 32 files, no [timeout_sec] of 0. *)
Record common_request (r : job_request) : Prop := {
  common_name : is_ascii (rq_name r) = true;
  common_filenames : Forall (λ f, is_ascii f = true) (rq_files r);
  common_arguments : (length (rq_arguments r) ≤ 64)%nat;
  common_files : (length (rq_files r) ≤ 32)%nat;
  common_timeout : rq_timeout r ≠ Some 0;
}.

(** The request the contract allows. *)
Definition filename_allowed (f : string) : bool :=
  (1 <=? size f) && (size f <=? 255) &&
  negb (str_contains "/" f) && negb (str_contains "\" f) && negb (str_contains ".." f).
Definition request_allowed (r : job_request) : bool :=
  (1 <=? size (rq_name r)) && (size (rq_name r) <=? 128) && forallb filename_allowed (rq_files r) &&
  match rq_timeout r with Some t => (1 <=? t) && (t <=? 3600) | None => true end.

Lemma code_points_ascii s : is_ascii s = true → code_points s = size s.
Proof.
  unfold is_ascii, size. induction s as [|c s IH]; [done|]. cbn [str_forallb code_points String.length].
  intros [Hc Hs]%andb_true_iff. rewrite (IH Hs), is_continuation_spec. unfold byte_in.
  rewrite (proj2 (Z.leb_gt 0x80 (uchar c))) by (apply Z.leb_le in Hc; lia). simpl. lia.
Qed.

Lemma forallb_ext_Forall {A} (P : A → Prop) (f g : A → bool) l :
  Forall P l → (∀ a, P a → f a = g a) → forallb f l = forallb g l.
Proof. intros Hl Hfg. induction Hl as [|a l Ha _ IH]; simpl; [done|]. by rewrite IH, Hfg. Qed.

Lemma size_nonneg s : 0 ≤ size s.
Proof. unfold size. lia. Qed.

(** Two boolean tests that are the same conditions in another order. *)
Ltac same_test :=
  apply eq_true_iff_eq; rewrite ?andb_true_iff, ?orb_true_iff, ?negb_true_iff, ?orb_false_iff, ?andb_false_iff,
    ?Z.leb_le, ?Z.ltb_lt, ?Z.ltb_ge, ?Z.eqb_eq, ?Z.eqb_neq.

Lemma go_filename f : Go.validFilename f = filename_allowed f.
Proof.
  unfold Go.validFilename, filename_allowed. pose proof (size_nonneg f).
  destruct (str_contains "/" f), (str_contains "\" f), (str_contains ".." f); simpl;
    rewrite ?andb_false_r, ?andb_true_r; destruct (_ || _) eqn:E; try done; symmetry.
  - apply orb_true_iff in E as [E|E]; bool_to_prop; [|lia]. apply andb_false_iff. left. lia.
  - bool_to_prop. apply andb_true_iff. lia.
Qed.

Section Agreement.
Context (js_length : string → Z).
Context (js_length_ascii : ∀ s, is_ascii s = true → js_length s = size s).

Lemma python_filename f : is_ascii f = true → Python.filename_ok f = filename_allowed f.
Proof.
  intros Hf. unfold Python.filename_ok, Python.reject_path_traversal, filename_allowed.
  rewrite code_points_ascii, !negb_orb by done. by rewrite !andb_assoc.
Qed.

Lemma js_filename f : is_ascii f = true → Js.filename_ok js_length f = filename_allowed f.
Proof using js_length_ascii.
  intros Hf. unfold Js.filename_ok, filename_allowed. rewrite js_length_ascii by done.
  destruct (1 <=? size f) eqn:E1; [|done]. destruct (size f =? 0) eqn:E0; bool_to_prop; [lia|].
  destruct (size f <=? 255), (str_contains "/" f), (str_contains "\" f), (str_contains ".." f); done.
Qed.

Lemma allowed_by_all r :
  common_request r →
  accepts js_length (ViaGo (to_go r)) = request_allowed r ∧
  accepts js_length (ViaPython (to_python r)) = request_allowed r ∧
  accepts js_length (ViaJs (to_js r)) = request_allowed r.
Proof using js_length_ascii.
  intros [Hn Hf Ha Hl Ht]. unfold request_allowed. simpl. split_and!.
  - unfold Go.binding_ok. simpl. rewrite code_points_ascii by done.
    rewrite (forallb_ext_Forall _ _ _ _ Hf (λ f _, go_filename f)). same_test.
    pose proof (size_nonneg (rq_name r)). destruct (rq_timeout r) as [t|]; simpl in *;
      rewrite ?andb_true_iff, ?Z.leb_le; [|naive_solver lia].
    assert (t ≠ 0) by naive_solver. naive_solver lia.
  - unfold Python.fields_ok. simpl. rewrite code_points_ascii by done.
    rewrite (forallb_ext_Forall _ _ _ _ Hf python_filename). same_test. naive_solver.
  - unfold Js.dto_ok. simpl. rewrite js_length_ascii by done.
    rewrite (proj2 (Nat.leb_le _ 64) Ha), (proj2 (Nat.leb_le _ 32) Hl). simpl.
    rewrite (forallb_ext_Forall _ _ _ _ Hf js_filename), andb_true_r. by destruct (rq_timeout r).
Qed.

End Agreement.

Section Agree.
Context {X : Type} `{ApiServices X}.
Context (encode : json → string) (js_length : string → Z) (validation_message : Js.CreateJobDto → string).
Context (cfg : ApiSettings).

Abbreviation post := (post encode js_length validation_message cfg).

Lemma same_task r :
  rq_timeout r ≠ Some 0 →
  asked_task (ViaGo (to_go r)) = request_task_of (rq_name r) (rq_arguments r) (rq_timeout r) ∧
  asked_task (ViaPython (to_python r)) = request_task_of (rq_name r) (rq_arguments r) (rq_timeout r) ∧
  asked_task (ViaJs (to_js r)) = request_task_of (rq_name r) (rq_arguments r) (rq_timeout r).
Proof.
  intros Ht. split_and!; rewrite asked_task_of by (simpl; destruct (rq_timeout r); tauto || discriminate); simpl.
  - destruct (rq_timeout r) as [t|]; simpl; [|done].
    rewrite (proj2 (Z.eqb_neq t 0)); [done|]. by intros ->.
  - done.
  - by destruct (rq_timeout r).
Qed.

(** C21: the three interfaces are interchangeable. On a request within the
    limits they share they accept or refuse alike; accepting, they make the
    same calls in the same order and leave the stores in the same state, and
    give the same body with a 202 or all answer 500; refusing, they make no
    call and answer 400 (422 in Python). *)
Theorem interfaces_agree r (x : X) :
  (∀ s, is_ascii s = true → js_length s = size s) → common_request r →
  let '(go, xg, eg) := post (ViaGo (to_go r)) x in
  let '(python, xp, ep) := post (ViaPython (to_python r)) x in
  let '(js, xj, ej) := post (ViaJs (to_js r)) x in
  xp = xg ∧ xj = xg ∧ ep = eg ∧ ej = eg ∧
  if request_allowed r
  then (∃ document, go = inl (202, Success document) ∧ python = go ∧ js = go) ∨
       (∃ g p j, go = inl (500, g) ∧ python = inl (500, p) ∧ js = inl (500, j))
  else xg = x ∧ eg = [] ∧ ∃ g p j, go = inl (400, g) ∧ python = inl (422, p) ∧ js = inl (400, j).
Proof.
  intros Hjs Hr. destruct (allowed_by_all js_length Hjs r Hr) as (Hg & Hp & Hj).
  destruct (same_task r (common_timeout r Hr)) as (Tg & Tp & Tj).
  destruct (request_allowed r).
  - rewrite !post_accepted, Tg, Tp, Tj by done. simpl.
    destruct (create_spec _ _ _ _ _ x) as [[[[id urls]|e] x'] es]; split_and!; try done; [left|right].
    + by eexists.
    + by destruct e; eexists _, _, _.
  - rewrite !post_rejected by done. split_and!; try done. simpl.
    unfold Python.validation_error. destruct (Go.binding_ok _), (forallb Python.filename_ok _); by eexists _, _, _.
Qed.

End Agree.

(** ** Reading a job *)

Inductive interface := GoApi | PythonApi | JsApi.

(** Text with a UUID in it, dashed or not: what [uuid.Parse] of google/uuid
    accepts (the canonical form, [urn:uuid:] and braces around it, and 32
    digits). *)
Definition uuid_like (s : string) : Prop :=
  ∃ before u after, s = before +:+ u +:+ after ∧ (is_uuid u = true ∨ matches_shape [32]%nat u = true).

Lemma uuid_like_long s : uuid_like s → 32 ≤ size s.
Proof.
  intros (b & u & a & -> & Hu). unfold size. rewrite !str_length_app.
  destruct Hu as [Hu|Hu]; apply matches_shape_spec in Hu as [-> _]; simpl; lia.
Qed.

Section Reading.
Context {X : Type} `{ApiServices X}.
Context (valid_json : string → bool) (uuid_parses : string → bool).
Context (loads js_parse : string → option json).

Definition fetch (i : interface) (job_id : string) : Api X Empty_set response :=
  match i with
  | GoApi => Go.Get valid_json uuid_parses job_id
  | PythonApi => Python.get_job_route loads job_id
  | JsApi => Js.get js_parse job_id
  end.

(** The stored text is a document the interface can read. *)
Definition readable (i : interface) (text : string) : bool :=
  match i with
  | GoApi => valid_json text
  | PythonApi => bool_decide (is_Some (loads text))
  | JsApi => bool_decide (is_Some (js_parse text))
  end.

Definition read_status (i : interface) (r : expected (option string)) : Z :=
  match r with
  | Unexpected _ => 500
  | Expected None => 404
  | Expected (Some text) => if readable i text then 200 else 500
  end.

Ltac read_tac parse :=
  unfold mbind, Api_bind, StoreGet, api_call;
  destruct (store_get _ _) as [[[text|]|e] x1] eqn:Hget; simpl;
    [destruct (parse text) eqn:Hj; simpl|..]; right; split_and!; auto; eexists _, _; split_and!; try done; simpl;
    match goal with Hj : parse _ = _ |- _ => by rewrite Hj end.

(** C26: reading a job reads that job and nothing else. A GET makes at most one
    call, a read of the requested identifier, and only when it has the form of
    a UUID, so never of the task catalog or another entry of the shared store;
    the status of the answer follows from what was read, and a malformed
    identifier is answered 404 (422 in Python) without reading. *)
Theorem get_reads_only_jobs i job_id (x : X) :
  (∀ s, uuid_parses s = true → uuid_like s) →
  let '(r, x', es) := fetch i job_id x in
  (x' = x ∧ es = [] ∧ ∃ e, r = inl (match i with PythonApi => 422 | _ => 404 end, e)) ∨
  (uuid_like job_id ∧ job_id ≠ "task_catalog" ∧
   ∃ v e, store_get job_id x = (v, x') ∧ es = [ApGet job_id v] ∧ r = inl (read_status i v, e)).
Proof.
  intros Hparse.
  assert (Hid : is_uuid job_id = true → uuid_like job_id).
  { intros Hu. exists "", job_id, "". rewrite str_app_nil_r. split; [done|by left]. }
  assert (Hnot : uuid_like job_id → job_id ≠ "task_catalog").
  { intros Hu%uuid_like_long ->. by vm_compute in Hu. }
  destruct i; simpl.
  - unfold Go.Get, Go.validJobID, Go.answer, Go.GetJob, Go.read_document.
    destruct (uuid_parses job_id) eqn:Hu; simpl; [|left; by eauto]. apply Hparse in Hu.
    read_tac valid_json.
  - unfold Python.get_job_route, Python.guard, Python.get_job, Python.load_document.
    destruct (is_uuid job_id) eqn:Hu; simpl; [|left; by eauto]. specialize (Hid eq_refl).
    read_tac loads.
  - unfold Js.get, Js.guard, Js.getJob, Js.load_document.
    destruct (is_uuid job_id) eqn:Hu; simpl; [|left; by eauto]. specialize (Hid eq_refl).
    read_tac js_parse.
Qed.

End Reading.

(** ** Concrete requests *)

Lemma creation_calls_valid_witness :
  Forall (call_valid ApiSample.encode (Expected ()) "7d444840-9dc0-11d1-b245-5ffdce74fad2") (ApiSample.posted ApiSample.go).2.
Proof.
  unfold ApiSample.posted.
  change "7d444840-9dc0-11d1-b245-5ffdce74fad2" with (issued ApiSample.services).1.
  apply (creation_calls_valid ApiSample.encode size (λ _, "") ApiSample.settings ApiSample.go ApiSample.services);
    [reflexivity|discriminate].
Defined.

Lemma js_null_timeout_rejected_witness :
  ∃ message, ApSend (ApiSample.encode (JObject message)) "jobs" (Expected ()) ∈ (ApiSample.posted (ViaJs ApiSample.js_null)).2 ∧
    validate_request message = Unexpected "task.timeout_sec must be an integer".
Proof.
  eapply (js_null_timeout_rejected ApiSample.encode size (λ _, "") ApiSample.settings ApiSample.js_null ApiSample.services);
    [reflexivity|reflexivity|vm_compute; reflexivity].
Defined.

Definition sample_job : job_request := mkJob "wordcount" ["-v"] ["a.txt"; "b.txt"] (Some 60).

Lemma sample_job_common : common_request sample_job.
Proof. split; try (simpl; lia); try done. repeat constructor. Qed.

Lemma interfaces_agree_witness :
  request_allowed sample_job = true ∧
  (post ApiSample.encode size (λ _, "") ApiSample.settings (ViaPython (to_python sample_job)) ApiSample.services).2
  = (post ApiSample.encode size (λ _, "") ApiSample.settings (ViaGo (to_go sample_job)) ApiSample.services).2.
Proof.
  split; [reflexivity|].
  pose proof (interfaces_agree ApiSample.encode size (λ _, "") ApiSample.settings sample_job ApiSample.services
    (λ s _, eq_refl) sample_job_common) as Ha.
  destruct (post _ _ _ _ (ViaGo _) _) as [[go xg] eg]. destruct (post _ _ _ _ (ViaPython _) _) as [[py xp] ep].
  destruct (post _ _ _ _ (ViaJs _) _) as [[js xj] ej]. exact (proj1 (proj2 (proj2 Ha))).
Defined.

Lemma get_reads_only_jobs_witness :
  let '(r, x', es) := fetch (λ _, true) is_uuid (λ _, None) (λ _, None) GoApi "task_catalog" ApiSample.services in
  es = [] ∧ x' = ApiSample.services.
Proof.
  pose proof (get_reads_only_jobs (λ _, true) is_uuid (λ _, None) (λ _, None) GoApi "task_catalog" ApiSample.services) as Hg.
  assert (Hp : ∀ s, is_uuid s = true → uuid_like s).
  { intros s Hs. exists "", s, "". rewrite str_app_nil_r. split; [reflexivity|left; exact Hs]. }
  specialize (Hg Hp). destruct (fetch _ _ _ _ _ _ _) as [[r x'] es].
  destruct Hg as [(Hx & He & _)|(_ & Hne & _)]; [split; assumption|destruct Hne; reflexivity].
Defined.

(** Outside the limits they share the interfaces differ: a [timeout_sec] of 0,
    and more than 64 arguments. *)
Example timeout_zero_differs :
  let r := mkJob "wordcount" [] [] (Some 0) in
  accepts size (ViaGo (to_go r)) = true ∧ accepts size (ViaPython (to_python r)) = false ∧
  accepts size (ViaJs (to_js r)) = false.
Proof. vm_compute. split_and!; reflexivity. Qed.

Example many_arguments_differ :
  let r := mkJob "wordcount" (replicate 65 "x") [] None in
  accepts size (ViaGo (to_go r)) = true ∧ accepts size (ViaPython (to_python r)) = true ∧
  accepts size (ViaJs (to_js r)) = false.
Proof. vm_compute. split_and!; reflexivity. Qed.

(** All of them accept the file name [.], which denotes no file of the inputs
    directory. *)
Example dot_accepted : request_allowed (mkJob "wordcount" [] ["."] None) = true.
Proof. reflexivity. Qed.
