(* ===== verification/ApiConfig.v ===== *)
(** * Configuration of the interfaces

    What each interface reads from its environment, and the check it makes
    before it serves: [config.Load] and [Validate] in Go, [Settings] in Python,
    [loadConfiguration] and [validateRequired] in JavaScript.  An interface
    that has come up has a bucket and a queue, which is what its calls rely
    on. *)

From S2P Require Import Prelude Utf8 Json Filesystem Effects MessageValidation WorkerStatus StatusSchema.
From S2P Require Import Api ApiGo ApiPython ApiJs ApiContract Posting ApiSample ApiProperties.
Import MessageValidation.

(** The environment of a process. *)
Definition environment : Type := gmap string string.

(** Why an interface does not come up. *)
Inductive boot_error :=
| Unparsable (key value : string)
| Required (key : string).

(** ** Numbers in text *)

Definition digit_value (c : ascii) : Z := uchar c - 48.

(** The value of leading decimal digits, and what follows them. *)
Fixpoint leading_digits (s : string) (acc : Z) : Z * string :=
  match s with
  | String c s' => if is_digit c then leading_digits s' (10 * acc + digit_value c) else (acc, s)
  | EmptyString => (acc, s)
  end.

(** The optional sign of a number. *)
Definition split_sign (s : string) : Z * string :=
  match s with
  | String c s' => if bool_decide (c = "-"%char) then (-1, s') else if bool_decide (c = "+"%char) then (1, s') else (1, s)
  | EmptyString => (1, s)
  end.

Definition starts_with_digit (s : string) : bool :=
  match s with String c _ => is_digit c | EmptyString => false end.

(** [strconv.Atoi]: a sign and digits, all of the text, within an [int]. *)
Definition atoi (s : string) : option Z :=
  let '(sign, digits) := split_sign s in
  if negb (starts_with_digit digits) then None else
  let '(n, rest) := leading_digits digits 0 in
  if bool_decide (rest = "") && bool_decide (in_int64 (sign * n)) then Some (sign * n) else None.

(** The white space [Number.parseInt] skips, in UTF-8. *)
Definition js_white : list string :=
  (λ bytes, foldr String "" (ascii_of_nat <$> bytes)) <$>
    ([[9]; [10]; [11]; [12]; [13]; [32]; [194; 160]; [225; 154; 128]; [226; 128; 168]; [226; 128; 169];
      [226; 128; 175]; [226; 129; 159]; [227; 128; 128]; [239; 187; 191]]
     ++ ((λ n, [226; 128; 128 + n]) <$> seq 0 11))%nat.

Fixpoint skip_white (fuel : nat) (s : string) : string :=
  match fuel with
  | O => s
  | S fuel =>
      match List.find (λ p, String.prefix p s) js_white with
      | Some p => skip_white fuel (str_drop (String.length p) s)
      | None => s
      end
  end.

(** [Number.parseInt(s, 10)]: the digits at the beginning, whatever follows;
    [None] is [NaN].  The result is exact up to 2^53 in magnitude; beyond it
    the code has the nearest double. *)
Definition js_parse_int (s : string) : option Z :=
  let '(sign, digits) := split_sign (skip_white (String.length s) s) in
  if negb (starts_with_digit digits) then None else Some (sign * (leading_digits digits 0).1).

Example atoi_cases :
  atoi "42" = Some 42 ∧ atoi "-7" = Some (-7) ∧ atoi "12abc" = None ∧ atoi "" = None ∧ atoi " 1" = None
  ∧ atoi "9223372036854775808" = None.
Proof. vm_compute. split_and!; reflexivity. Qed.
Example js_parse_int_cases :
  js_parse_int "42" = Some 42 ∧ js_parse_int " -7" = Some (-7) ∧ js_parse_int "12abc" = Some 12
  ∧ js_parse_int "" = None ∧ js_parse_int "abc" = None.
Proof. vm_compute. split_and!; reflexivity. Qed.

(** ** Go (internal/config/config.go) *)

Module GoConfig.

Record Config := mkConfig {
  HTTPAddr : string; AWSRegion : string; AWSEndpointURL : string;
  S3Bucket : string; PresignTTL : Z;                 (* durations in nanoseconds *)
  SQSRequestQueueURL : string; SQSMessageGroupID : string;
  RedisAddr : string; RedisDB : Z; RedisPassword : string; RedisTTL : Z;
  LogLevel : string;
}.

Definition second : Z := 1000000000.

Section Load.
Context (parse_duration : string → option Z).   (* [time.ParseDuration] *)
Context (env : environment).

(** [os.Getenv]: the empty string when the variable is not set. *)
Definition Getenv (key : string) : string := default "" (env !! key).

Definition getEnv (key fallback : string) : string :=
  if negb (size (Getenv key) =? 0) then Getenv key else fallback.

Definition getInt (key : string) (fallback : Z) : Z + boot_error :=
  if size (Getenv key) =? 0 then inl fallback else
  match atoi (Getenv key) with
  | Some parsed => inl parsed
  | None => inr (Unparsable key (Getenv key))
  end.

Definition getDuration (key : string) (fallback : Z) : Z + boot_error :=
  if size (Getenv key) =? 0 then inl fallback else
  match parse_duration (Getenv key) with
  | Some parsed => inl parsed
  | None => inr (Unparsable key (Getenv key))
  end.

Definition Load : Config + boot_error :=
  match getDuration "S3_PRESIGN_TTL" (600 * second) with
  | inr e => inr e
  | inl presignTTL =>
  match getDuration "REDIS_TTL" (3600 * second) with
  | inr e => inr e
  | inl redisTTL =>
  let redisAddr :=
    if size (Getenv "REDIS_ADDR") =? 0
    then getEnv "REDIS_HOST" "127.0.0.1" +:+ ":" +:+ getEnv "REDIS_PORT" "6379"
    else Getenv "REDIS_ADDR" in
  match getInt "REDIS_DB" 0 with
  | inr e => inr e
  | inl redisDB =>
  inl {| HTTPAddr := getEnv "HTTP_ADDR" ":8080";
         AWSRegion := getEnv "AWS_REGION" "us-east-1";
         AWSEndpointURL := Getenv "AWS_ENDPOINT_URL";
         S3Bucket := getEnv "S3_BUCKET" "taskforge-jobs";
         PresignTTL := presignTTL;
         SQSRequestQueueURL := Getenv "SQS_REQUEST_QUEUE_URL";
         SQSMessageGroupID := getEnv "SQS_MESSAGE_GROUP_ID" "request";
         RedisAddr := redisAddr; RedisDB := redisDB;
         RedisPassword := Getenv "REDIS_PASSWORD"; RedisTTL := redisTTL;
         LogLevel := getEnv "LOG_LEVEL" "info" |}
  end end end.

Definition Validate (c : Config) : option boot_error :=
  if size (SQSRequestQueueURL c) =? 0 then Some (Required "SQS_REQUEST_QUEUE_URL")
  else if size (S3Bucket c) =? 0 then Some (Required "S3_BUCKET")
  else None.

(** [run] up to the construction of the adapters: the configuration it goes on
    with. *)
Definition run : Config + boot_error :=
  match Load with
  | inr e => inr e
  | inl cfg => match Validate cfg with Some e => inr e | None => inl cfg end
  end.
End Load.

(** What [run] constructs the job service with. *)
Definition NewJobService (c : Config) : ApiSettings :=
  mkApiSettings (S3Bucket c) (PresignTTL c) (RedisTTL c) (SQSMessageGroupID c).

End GoConfig.

(** ** Python (core/config.py) *)

Module PythonConfig.

Record Settings := mkSettings {
  http_host : string; http_port : Z; aws_region : string; aws_endpoint_url : string;
  s3_bucket : string; s3_presign_ttl_sec : Z;
  sqs_request_queue_url : string; sqs_message_group_id : string;
  redis_host : string; redis_port : Z; redis_db : Z; redis_password : string; redis_ttl_sec : Z;
  log_level : string;
}.

Section Load.
Context (to_int : string → option Z).   (* how pydantic reads an [int] *)
Context (env : environment).

(** A field of [Settings]: the variable of its name (written in upper case; the
    lookup of pydantic does not distinguish case), or its default.  The first
    field that cannot be read stands for the error. *)
Definition str_field (key default_ : string) : string := default default_ (env !! key).
Definition int_field (key : string) (default_ : Z) : Z + boot_error :=
  match env !! key with
  | None => inl default_
  | Some value => match to_int value with Some n => inl n | None => inr (Unparsable key value) end
  end.

Definition get_settings : Settings + boot_error :=
  match int_field "HTTP_PORT" 8081 with inr e => inr e | inl http_port =>
  match int_field "S3_PRESIGN_TTL_SEC" 600 with inr e => inr e | inl presign_ttl =>
  match int_field "REDIS_PORT" 6379 with inr e => inr e | inl redis_port =>
  match int_field "REDIS_DB" 0 with inr e => inr e | inl redis_db =>
  match int_field "REDIS_TTL_SEC" 3600 with inr e => inr e | inl redis_ttl =>
  inl {| http_host := str_field "HTTP_HOST" "0.0.0.0"; http_port := http_port;
         aws_region := str_field "AWS_REGION" "us-east-1"; aws_endpoint_url := str_field "AWS_ENDPOINT_URL" "";
         s3_bucket := str_field "S3_BUCKET" "taskforge-jobs"; s3_presign_ttl_sec := presign_ttl;
         sqs_request_queue_url := str_field "SQS_REQUEST_QUEUE_URL" "";
         sqs_message_group_id := str_field "SQS_MESSAGE_GROUP_ID" "request";
         redis_host := str_field "REDIS_HOST" "127.0.0.1"; redis_port := redis_port; redis_db := redis_db;
         redis_password := str_field "REDIS_PASSWORD" ""; redis_ttl_sec := redis_ttl;
         log_level := str_field "LOG_LEVEL" "info" |}
  end end end end end.

Definition validate_required (c : Settings) : option boot_error :=
  if size (sqs_request_queue_url c) =? 0 then Some (Required "SQS_REQUEST_QUEUE_URL")
  else if size (s3_bucket c) =? 0 then Some (Required "S3_BUCKET")
  else None.

(** [lifespan] up to the construction of the repositories. *)
Definition lifespan : Settings + boot_error :=
  match get_settings with
  | inr e => inr e
  | inl c => match validate_required c with Some e => inr e | None => inl c end
  end.
End Load.

Definition JobService (c : Settings) : ApiSettings :=
  mkApiSettings (s3_bucket c) (s3_presign_ttl_sec c) (redis_ttl_sec c) (sqs_message_group_id c).

End PythonConfig.

(** ** JavaScript (config/configuration.ts) *)

Module JsConfig.

Record AppConfig := mkAppConfig {
  httpPort : Z; awsRegion : string; awsEndpointUrl : string;
  s3Bucket : string; s3PresignTtlSec : Z;
  sqsRequestQueueUrl : string; sqsMessageGroupId : string;
  redisHost : string; redisPort : Z; redisDb : Z; redisPassword : string; redisTtlSec : Z;
}.

Section Load.
Context (env : environment).

(** [process.env.KEY ?? fallback] *)
Definition env_or (key fallback : string) : string := default fallback (env !! key).

Definition parseIntEnv (key : string) (fallback : Z) : Z + boot_error :=
  match env !! key with
  | None => inl fallback
  | Some raw =>
      if size raw =? 0 then inl fallback else
      match js_parse_int raw with Some parsed => inl parsed | None => inr (Unparsable key raw) end
  end.

Definition loadConfiguration : AppConfig + boot_error :=
  match parseIntEnv "HTTP_PORT" 8082 with inr e => inr e | inl httpPort =>
  match parseIntEnv "S3_PRESIGN_TTL_SEC" 600 with inr e => inr e | inl presignTtl =>
  match parseIntEnv "REDIS_PORT" 6379 with inr e => inr e | inl redisPort =>
  match parseIntEnv "REDIS_DB" 0 with inr e => inr e | inl redisDb =>
  match parseIntEnv "REDIS_TTL_SEC" 3600 with inr e => inr e | inl redisTtl =>
  inl {| httpPort := httpPort;
         awsRegion := env_or "AWS_REGION" "us-east-1"; awsEndpointUrl := env_or "AWS_ENDPOINT_URL" "";
         s3Bucket := env_or "S3_BUCKET" "taskforge-jobs"; s3PresignTtlSec := presignTtl;
         sqsRequestQueueUrl := env_or "SQS_REQUEST_QUEUE_URL" "";
         sqsMessageGroupId := env_or "SQS_MESSAGE_GROUP_ID" "request";
         redisHost := env_or "REDIS_HOST" "127.0.0.1"; redisPort := redisPort; redisDb := redisDb;
         redisPassword := env_or "REDIS_PASSWORD" ""; redisTtlSec := redisTtl |}
  end end end end end.

Definition validateRequired (c : AppConfig) : option boot_error :=
  if size (sqsRequestQueueUrl c) =? 0 then Some (Required "SQS_REQUEST_QUEUE_URL")
  else if size (s3Bucket c) =? 0 then Some (Required "S3_BUCKET")
  else None.

(** [bootstrap] up to the creation of the application. *)
Definition bootstrap : AppConfig + boot_error :=
  match loadConfiguration with
  | inr e => inr e
  | inl c => match validateRequired c with Some e => inr e | None => inl c end
  end.
End Load.

Definition JobsService (c : AppConfig) : ApiSettings :=
  mkApiSettings (s3Bucket c) (s3PresignTtlSec c) (redisTtlSec c) (sqsMessageGroupId c).

End JsConfig.

(** ** Reading numbers *)

Lemma skip_white_start fuel c s :
  is_digit c = true ∨ c = "-"%char ∨ c = "+"%char → skip_white fuel (String c s) = String c s.
Proof.
  intros Hc. destruct fuel as [|fuel]; [done|]. cbn [skip_white].
  assert (Hfind : List.find (λ p, String.prefix p (String c s)) js_white = None); [|by rewrite Hfind].
  assert (Hall : Forall (λ p, String.prefix p (String c s) = false) js_white).
  { destruct Hc as [Hc|[->| ->]]; [|vm_compute; repeat constructor..].
    destruct c as [[] [] [] [] [] [] [] []]; try discriminate Hc; vm_compute; repeat constructor. }
  induction Hall as [|p l Hp _ IH]; cbn [List.find]; [done|]. by rewrite Hp.
Qed.

(** What [strconv.Atoi] reads, [Number.parseInt] reads alike. *)
Lemma atoi_js_parse_int s n : atoi s = Some n → js_parse_int s = Some n.
Proof.
  unfold atoi, js_parse_int. destruct s as [|c s]; [done|]. intros Hs.
  assert (Hc : is_digit c = true ∨ c = "-"%char ∨ c = "+"%char).
  { simpl in Hs. repeat case_bool_decide; [by auto..|]. simpl in Hs. destruct (is_digit c); [by left|done]. }
  rewrite skip_white_start by done. destruct (split_sign (String c s)) as [sign digits].
  destruct (starts_with_digit digits); [|done]. simpl in *.
  destruct (leading_digits digits 0) as [m rest]. by destruct (_ && _).
Qed.

(** ** Coming up *)

Section Boot.
Context (parse_duration to_int : string → option Z).
Context (env : environment).

Abbreviation queue_key := "SQS_REQUEST_QUEUE_URL".

(** The settings the service of an interface gets when its process starts:
    the interface a request is posted through. *)
Definition boot_settings (q : posting) : ApiSettings + boot_error :=
  match q with
  | ViaGo _ => sum_map GoConfig.NewJobService id (GoConfig.run parse_duration env)
  | ViaPython _ => sum_map PythonConfig.JobService id (PythonConfig.lifespan to_int env)
  | ViaJs _ => sum_map JsConfig.JobsService id (JsConfig.bootstrap env)
  end.

(** What the two required fields hold once the interface has come up. *)
Lemma go_booted c :
  GoConfig.run parse_duration env = inl c →
  GoConfig.S3Bucket c = GoConfig.getEnv env "S3_BUCKET" "taskforge-jobs" ∧ GoConfig.S3Bucket c ≠ "" ∧
  GoConfig.SQSRequestQueueURL c = default "" (env !! queue_key) ∧ GoConfig.SQSRequestQueueURL c ≠ "".
Proof.
  unfold GoConfig.run. destruct (GoConfig.Load _ _) as [c'|] eqn:Hload; [|done].
  destruct (GoConfig.Validate c') eqn:Hv; [done|]. intros [= ->]. revert Hv. unfold GoConfig.Validate.
  repeat case_match; try done. rewrite !size_nonzero in *. intros _.
  revert Hload. unfold GoConfig.Load. do 3 (case_match; [|done]). intros [= <-]. done.
Qed.
Lemma python_booted c :
  PythonConfig.lifespan to_int env = inl c →
  PythonConfig.s3_bucket c = default "taskforge-jobs" (env !! "S3_BUCKET") ∧ PythonConfig.s3_bucket c ≠ "" ∧
  PythonConfig.sqs_request_queue_url c = default "" (env !! queue_key) ∧ PythonConfig.sqs_request_queue_url c ≠ "".
Proof.
  unfold PythonConfig.lifespan. destruct (PythonConfig.get_settings _ _) as [c'|] eqn:Hload; [|done].
  destruct (PythonConfig.validate_required c') eqn:Hv; [done|]. intros [= ->]. revert Hv.
  unfold PythonConfig.validate_required. repeat case_match; try done. rewrite !size_nonzero in *. intros _.
  revert Hload. unfold PythonConfig.get_settings. do 5 (case_match; [|done]). intros [= <-]. done.
Qed.
Lemma js_booted c :
  JsConfig.bootstrap env = inl c →
  JsConfig.s3Bucket c = default "taskforge-jobs" (env !! "S3_BUCKET") ∧ JsConfig.s3Bucket c ≠ "" ∧
  JsConfig.sqsRequestQueueUrl c = default "" (env !! queue_key) ∧ JsConfig.sqsRequestQueueUrl c ≠ "".
Proof.
  unfold JsConfig.bootstrap. destruct (JsConfig.loadConfiguration _) as [c'|] eqn:Hload; [|done].
  destruct (JsConfig.validateRequired c') eqn:Hv; [done|]. intros [= ->]. revert Hv.
  unfold JsConfig.validateRequired. repeat case_match; try done. rewrite !size_nonzero in *. intros _.
  revert Hload. unfold JsConfig.loadConfiguration. do 5 (case_match; [|done]). intros [= <-]. done.
Qed.

Lemma default_nonempty key : default "" (env !! key) ≠ "" → ∃ value, env !! key = Some value ∧ value ≠ "".
Proof. destruct (env !! key) as [value|]; [|done]. by exists value. Qed.

(** An interface that has come up has a queue and a bucket. *)
Lemma booted_required q cfg :
  boot_settings q = inl cfg → api_bucket cfg ≠ "" ∧ ∃ url, env !! queue_key = Some url ∧ url ≠ "".
Proof.
  destruct q as [dto|request|dto]; simpl.
  - destruct (GoConfig.run _ _) as [c|] eqn:Hc; [|done]. intros [= <-].
    apply go_booted in Hc as (_ & Hb & Hq & Hne). rewrite Hq in Hne. split; [done|by apply default_nonempty].
  - destruct (PythonConfig.lifespan _ _) as [c|] eqn:Hc; [|done]. intros [= <-].
    apply python_booted in Hc as (_ & Hb & Hq & Hne). rewrite Hq in Hne. split; [done|by apply default_nonempty].
  - destruct (JsConfig.bootstrap _) as [c|] eqn:Hc; [|done]. intros [= <-].
    apply js_booted in Hc as (_ & Hb & Hq & Hne). rewrite Hq in Hne. split; [done|by apply default_nonempty].
Qed.

(** ** Environments all three read alike *)

(** A variable that holds a whole number. *)
Definition whole (value : string) (n : Z) : Prop := atoi value = Some n ∧ to_int value = Some n.

(** A lifetime: Go reads a duration under a name of its own, the other two a
    number of seconds. *)
Definition same_lifetime (go_key key : string) : Prop :=
  (env !! go_key = None ∧ env !! key = None) ∨
  ∃ duration value n, env !! go_key = Some duration ∧ env !! key = Some value ∧
    duration ≠ "" ∧ value ≠ "" ∧ parse_duration duration = Some (n * GoConfig.second) ∧ whole value n.

Record plain_environment : Prop := {
  plain_nonempty key : key ∈ ["S3_BUCKET"; "SQS_REQUEST_QUEUE_URL"; "SQS_MESSAGE_GROUP_ID"] → env !! key ≠ Some "";
  plain_whole key value : key ∈ ["REDIS_DB"; "REDIS_PORT"; "HTTP_PORT"] → env !! key = Some value →
    value ≠ "" ∧ ∃ n, whole value n;
  plain_presign : same_lifetime "S3_PRESIGN_TTL" "S3_PRESIGN_TTL_SEC";
  plain_status : same_lifetime "REDIS_TTL" "REDIS_TTL_SEC";
}.

(** The lifetimes of settings, in nanoseconds. *)
Definition in_nanoseconds (cfg : ApiSettings) : ApiSettings :=
  mkApiSettings (api_bucket cfg) (presign_ttl cfg * GoConfig.second) (status_ttl cfg * GoConfig.second) (group_id cfg).

Lemma whole_js value n : whole value n → js_parse_int value = Some n.
Proof. intros [Ha _]. by apply atoi_js_parse_int. Qed.

Lemma int_readers key fallback :
  (∀ value, env !! key = Some value → value ≠ "" ∧ ∃ n, whole value n) →
  ∃ n, PythonConfig.int_field to_int env key fallback = inl n ∧ JsConfig.parseIntEnv env key fallback = inl n ∧
       GoConfig.getInt env key fallback = inl n.
Proof.
  intros Hkey. unfold PythonConfig.int_field, JsConfig.parseIntEnv, GoConfig.getInt, GoConfig.Getenv.
  destruct (env !! key) as [value|]; [|by exists fallback].
  destruct (Hkey value eq_refl) as (Hne & n & Hw). exists n. simpl.
  rewrite (proj2 (size_nonzero value) Hne), (whole_js value n Hw).
  destruct Hw as [-> ->]. done.
Qed.

Lemma lifetime_readers go_key key fallback :
  same_lifetime go_key key →
  ∃ n, PythonConfig.int_field to_int env key fallback = inl n ∧ JsConfig.parseIntEnv env key fallback = inl n ∧
       GoConfig.getDuration parse_duration env go_key (fallback * GoConfig.second) = inl (n * GoConfig.second).
Proof.
  unfold PythonConfig.int_field, JsConfig.parseIntEnv, GoConfig.getDuration, GoConfig.Getenv.
  intros [[-> ->]|(d & value & n & -> & -> & Hd & Hne & Hp & Hw)]; [by exists fallback|]. exists n. simpl.
  rewrite (proj2 (size_nonzero d) Hd), (proj2 (size_nonzero value) Hne), Hp, (whole_js value n Hw).
  by destruct Hw as [_ ->].
Qed.

Lemma text_readers key fallback :
  env !! key ≠ Some "" → GoConfig.getEnv env key fallback = default fallback (env !! key).
Proof.
  unfold GoConfig.getEnv, GoConfig.Getenv. destruct (env !! key) as [value|]; simpl; [|done].
  intros Hne. by rewrite (proj2 (size_nonzero value)) by congruence.
Qed.

(** C28: one environment configures the three interfaces alike. Where no shared
    variable is set to the empty string, numbers are plain and the lifetimes
    agree, the interfaces start with the same bucket, message group and
    lifetimes (Go's in nanoseconds); without a queue none of them starts, and
    all three name the missing variable. *)
Theorem boot_agrees dto request dto' :
  plain_environment →
  (env !! queue_key ≠ None → ∃ cfg, boot_settings (ViaPython request) = inl cfg ∧
     boot_settings (ViaJs dto') = inl cfg ∧ boot_settings (ViaGo dto) = inl (in_nanoseconds cfg)) ∧
  (env !! queue_key = None → ∀ q, boot_settings q = inr (Required queue_key)).
Proof.
  intros Henv.
  assert (Hint : ∀ key fallback, key ∈ ["REDIS_DB"; "REDIS_PORT"; "HTTP_PORT"] →
    ∃ n, PythonConfig.int_field to_int env key fallback = inl n ∧ JsConfig.parseIntEnv env key fallback = inl n ∧
         GoConfig.getInt env key fallback = inl n).
  { intros key fallback Hkey. apply int_readers. intros value. by apply (plain_whole Henv). }
  destruct (Hint "REDIS_DB" 0 ltac:(set_solver)) as (db & Hdb & Hdb' & Hdb'').
  destruct (Hint "REDIS_PORT" 6379 ltac:(set_solver)) as (port & Hport & Hport' & _).
  destruct (Hint "HTTP_PORT" 8081 ltac:(set_solver)) as (http & Hhttp & _).
  destruct (Hint "HTTP_PORT" 8082 ltac:(set_solver)) as (http' & _ & Hhttp' & _).
  destruct (lifetime_readers _ _ 600 (plain_presign Henv)) as (presign & Hpre & Hpre' & Hpre'').
  destruct (lifetime_readers _ _ 3600 (plain_status Henv)) as (status & Hst & Hst' & Hst'').
  assert (Htext : ∀ key fallback, key ∈ ["S3_BUCKET"; queue_key; "SQS_MESSAGE_GROUP_ID"] →
    GoConfig.getEnv env key fallback = default fallback (env !! key)).
  { intros key fallback Hkey. by apply text_readers, (plain_nonempty Henv). }
  assert (Hbucket : (size (default "taskforge-jobs" (env !! "S3_BUCKET")) =? 0) = false).
  { apply size_nonzero. pose proof (plain_nonempty Henv "S3_BUCKET" ltac:(set_solver)).
    destruct (env !! "S3_BUCKET"); simpl; congruence. }
  pose proof (plain_nonempty Henv queue_key ltac:(set_solver)) as Hq.
  unfold boot_settings, GoConfig.run, PythonConfig.lifespan, JsConfig.bootstrap, GoConfig.Load, PythonConfig.get_settings,
    JsConfig.loadConfiguration.
  rewrite Hdb, Hdb', Hdb'', Hport, Hport', Hhttp, Hhttp', Hpre, Hpre', Hpre'', Hst, Hst', Hst''.
  unfold GoConfig.Validate, PythonConfig.validate_required, JsConfig.validateRequired, GoConfig.Getenv,
    PythonConfig.str_field, JsConfig.env_or.
  cbn [GoConfig.SQSRequestQueueURL GoConfig.S3Bucket PythonConfig.sqs_request_queue_url PythonConfig.s3_bucket
    JsConfig.sqsRequestQueueUrl JsConfig.s3Bucket].
  rewrite Hbucket, (Htext "S3_BUCKET"), Hbucket by set_solver. split.
  - destruct (env !! queue_key) as [url|]; [|done]. intros _. simpl. rewrite (proj2 (size_nonzero url)) by congruence.
    eexists. split; [done|]. split; [done|]. unfold GoConfig.NewJobService, in_nanoseconds. simpl. by rewrite !Htext by set_solver.
  - intros ->. by intros [].
Qed.
End Boot.

(** C13: whatever a client posts to an interface that has come up, with the
    settings its environment gave it, the calls made serve one new job only:
    uploads are signed below [jobs/<id>/inputs/] under safe names, the status
    document written under the identifier of the job is well typed, and the
    request put on the queue is one for that job, which the validation of the
    worker accepts, or rejects with a stated error when the timeout posted to
    JavaScript was an explicit null. *)
Theorem booted_calls_valid {X} `{ApiServices X} `{!UuidLaws X} parse_duration to_int env encode js_length
    validation_message cfg q (x : X) :
  boot_settings parse_duration to_int env q = inl cfg → js_length "" = 0 →
  Forall (call_valid encode (verdict q) (issued x).1) (post encode js_length validation_message cfg q x).2.
Proof.
  intros Hboot Hjs. destruct (booted_required _ _ _ _ _ Hboot) as [Hb _]. by apply creation_calls_valid.
Qed.

(** An empty bucket name is read differently. With [S3_BUCKET] set to the
    empty string, Go goes on with the default bucket, while Python and
    JavaScript do not start. *)
Theorem empty_bucket_differs parse_duration to_int env :
  env !! "S3_BUCKET" = Some "" →
  (∀ dto cfg, boot_settings parse_duration to_int env (ViaGo dto) = inl cfg → api_bucket cfg = "taskforge-jobs") ∧
  (∀ request cfg, boot_settings parse_duration to_int env (ViaPython request) ≠ inl cfg) ∧
  (∀ dto cfg, boot_settings parse_duration to_int env (ViaJs dto) ≠ inl cfg).
Proof.
  intros Henv. split_and!; intros p cfg; simpl.
  - destruct (GoConfig.run _ _) as [c|] eqn:Hc; [|done]. intros [= <-].
    apply go_booted in Hc as (Hb & _). simpl. rewrite Hb. unfold GoConfig.getEnv, GoConfig.Getenv. by rewrite Henv.
  - destruct (PythonConfig.lifespan _ _) as [c|] eqn:Hc; [|done]. intros _.
    apply python_booted in Hc as (Hb & Hne & _). rewrite Henv in Hb. done.
  - destruct (JsConfig.bootstrap _) as [c|] eqn:Hc; [|done]. intros _.
    apply js_booted in Hc as (Hb & Hne & _). rewrite Henv in Hb. done.
Qed.

(** ** Concrete environments *)

Module ApiConfigSample.
(** A reader of whole minutes and one of whole numbers. *)
Definition minutes (s : string) : option Z :=
  match s with
  | String c "m" => if is_digit c then Some (digit_value c * 60 * GoConfig.second) else None
  | _ => None
  end.

Definition env : environment :=
  <["SQS_REQUEST_QUEUE_URL" := "http://queue/request.fifo"]>
  (<["S3_PRESIGN_TTL" := "5m"]> (<["S3_PRESIGN_TTL_SEC" := "300"]> (<["REDIS_DB" := "2"]> ∅))).

Definition go_settings : ApiSettings := mkApiSettings "taskforge-jobs" (300 * GoConfig.second) (3600 * GoConfig.second) "request".

Lemma plain : plain_environment minutes atoi env.
Proof.
  split.
  - intros key Hkey. rewrite !elem_of_cons in Hkey. destruct Hkey as [->|[->|[->|[]%not_elem_of_nil]]]; vm_compute; discriminate.
  - intros key value Hkey Hv. rewrite !elem_of_cons in Hkey.
    destruct Hkey as [->|[->|[->|[]%not_elem_of_nil]]]; vm_compute in Hv; try discriminate Hv.
    injection Hv as <-. split; [discriminate|]. by exists 2.
  - right. exists "5m", "300", 300. do 5 (split; [first [reflexivity|discriminate|vm_compute; reflexivity]|]).
    split; vm_compute; reflexivity.
  - left. split; reflexivity.
Qed.
End ApiConfigSample.

Lemma boot_agrees_witness :
  ∃ cfg, boot_settings ApiConfigSample.minutes atoi ApiConfigSample.env ApiSample.go = inl (in_nanoseconds cfg).
Proof.
  destruct (proj1 (boot_agrees ApiConfigSample.minutes atoi ApiConfigSample.env (Go.mkDTO "wordcount" None ["a.txt"] 0)
    (Python.mkRequest "wordcount" [] [] None) ApiSample.js_null ApiConfigSample.plain)) as (cfg & _ & _ & Hgo).
  - vm_compute. discriminate.
  - exists cfg. exact Hgo.
Defined.

Lemma booted_calls_valid_witness :
  verdict ApiSample.go = Expected () ∧ Forall (call_valid ApiSample.encode (verdict ApiSample.go) (issued ApiSample.services).1)
    (post ApiSample.encode size (λ _, "") ApiConfigSample.go_settings ApiSample.go ApiSample.services).2.
Proof.
  split; [reflexivity|]. apply (booted_calls_valid ApiConfigSample.minutes atoi ApiConfigSample.env);
    [vm_compute; reflexivity|reflexivity].
Defined.

Lemma empty_bucket_differs_witness :
  ∀ cfg, boot_settings ApiConfigSample.minutes atoi (<["S3_BUCKET" := ""]> ApiConfigSample.env) (ViaJs ApiSample.js_null) ≠ inl cfg.
Proof. apply (empty_bucket_differs ApiConfigSample.minutes atoi (<["S3_BUCKET" := ""]> ApiConfigSample.env)). reflexivity. Defined.

(** The three readers of numbers are not the same: JavaScript takes what it
    can from the beginning of the text. *)
Example trailing_text_accepted :
  GoConfig.getInt (<["REDIS_DB" := "12abc"]> ∅) "REDIS_DB" 0 = inr (Unparsable "REDIS_DB" "12abc")
  ∧ JsConfig.parseIntEnv (<["REDIS_DB" := "12abc"]> ∅) "REDIS_DB" 0 = inl 12.
Proof. vm_compute. split; reflexivity. Qed.
