(* ===== verification/ApiHealth.v ===== *)
(** * Health of the interfaces

    The readiness routes: [Readiness] of http/handlers/health.go, [readyz] of
    api/routes.py and [readiness] of health.controller.ts, with the [Ping] of
    each repository and the deadlines they set.  Durations are in milliseconds.

    A dependency that is asked at some moment answers after a delay, or never
    ([reply]); a deadline cuts it short ([within]).  That asyncio, anyio,
    ioredis and the AWS SDKs of Go and JavaScript end a call when the deadline
    they are given has passed is their documented behaviour. The Redis client
    of Go is different: without [ContextTimeoutEnabled], which redisrepo does
    not set, go-redis does not apply the deadline of a context to its socket
    but limits of its own; when it gives up is a parameter ([GoRedis]). *)

From S2P Require Import Prelude Json Api.

(** ** Replies and deadlines *)

(** An error or exception: the name of its type and its text. *)
Record failure := mkFailure { type_name : string; text : string }.

(** What a dependency does when it is left alone: after some delay (or never)
    it succeeds ([None]) or fails. *)
Record reply := mkReply { delay : option N; outcome : option failure }.

(** How a call ended, and how long it took. *)
Record ended := mkEnded { elapsed : N; ending : option failure }.

(** A call under a deadline, which fails with [expired] when it passes. *)
Definition within (limit : N) (expired : failure) (r : reply) : ended :=
  match delay r with
  | Some d => if (d <? limit)%N then mkEnded d (outcome r) else mkEnded limit (Some expired)
  | None => mkEnded limit (Some expired)
  end.

Definition as_reply (e : ended) : reply := mkReply (Some (elapsed e)) (ending e).

(** [fmt.Errorf] with a prefix. *)
Definition errorf (prefix : string) (e : ended) : ended :=
  mkEnded (elapsed e) ((λ f, mkFailure "*fmt.wrapError" (prefix +:+ ": " +:+ text f)) <$> ending e).

(** What a round of probes has found: the time it took, the checks so far, and
    whether all succeeded. *)
Record round := mkRound { spent : N; checks : gmap string string; ready : bool }.

Definition no_round : round := mkRound 0 ∅ true.

(** One probe more: its check is "ok" or the description of its failure. *)
Definition record_check (describe : failure → string) (r : round) (name : string) (e : ended) : round :=
  match ending e with
  | Some f => mkRound (spent r + elapsed e) (<[name := describe f]> (checks r)) false
  | None => mkRound (spent r + elapsed e) (<[name := "ok"]> (checks r)) (ready r)
  end.

(** The answer: 200 or 503, with the checks. *)
Definition readiness_answer (r : round) : Z * json :=
  (if ready r then 200 else 503,
   JObject (<["status" := JString (if ready r then "ready" else "not_ready")]>
     (<["checks" := JObject (JString <$> checks r)]> ∅))).

(** ** Lemmas on deadlines and rounds *)

Lemma within_elapsed limit expired r : (elapsed (within limit expired r) ≤ limit)%N.
Proof.
  unfold within. destruct (delay r) as [d|]; simpl; [|lia]. destruct (N.ltb_spec d limit); simpl; lia.
Qed.

Lemma record_check_spent describe r name e : spent (record_check describe r name e) = (spent r + elapsed e)%N.
Proof. unfold record_check. by destruct (ending e). Qed.

Lemma within_ended limit expired e : (elapsed (within limit expired (as_reply e)) ≤ N.min limit (elapsed e))%N.
Proof. unfold within. simpl. destruct (N.ltb_spec (elapsed e) limit); simpl; lia. Qed.

Lemma within_ready limit expired r :
  ending (within limit expired r) = None ↔ ∃ d, r = mkReply (Some d) None ∧ (d < limit)%N.
Proof.
  unfold within. destruct r as [[d|] o]; simpl; [|naive_solver]. destruct (N.ltb_spec d limit); simpl; [naive_solver|].
  split; [done|]. intros (d' & [= -> _] & ?). lia.
Qed.

Lemma within_within_ready limit expired limit' expired' r :
  ending (within limit expired (as_reply (within limit' expired' r))) = None ↔
    ∃ d, r = mkReply (Some d) None ∧ (d < N.min limit limit')%N.
Proof.
  rewrite within_ready. unfold as_reply. split.
  - intros (d & [= Hd He] & Hlt). apply within_ready in He as He'. destruct He' as (d' & -> & Hlt').
    unfold within in Hd. simpl in Hd. rewrite (proj2 (N.ltb_lt d' limit') Hlt') in Hd. simpl in Hd. subst d.
    exists d'. split; [done|lia].
  - intros (d & -> & Hlt). exists d. unfold within. simpl. rewrite (proj2 (N.ltb_lt d limit')) by lia. split; [done|lia].
Qed.

(** Probes with limits of their own: the limits add up, and the round is ready
    when every probe succeeded. *)
Section OwnLimits.
Context (describe : failure → string) (probe : string → N → ended).

Abbreviation probe_round := (foldl (λ r name, record_check describe r name (probe name (spent r)))).

Lemma own_limits_spent (limit : string → N) names r :
  (∀ name now, elapsed (probe name now) ≤ limit name)%N →
  (spent (probe_round r names) ≤ spent r + foldr (λ name total, limit name + total) 0 names)%N.
Proof.
  intros Hlimit. revert r. induction names as [|name names IH]; intros r; simpl; [lia|].
  etrans; [apply IH|]. rewrite record_check_spent. specialize (Hlimit name (spent r)). lia.
Qed.

Lemma own_limits_ready names r :
  (∀ name now, probe name now = probe name 0) →
  ready (probe_round r names) = true ↔ ready r = true ∧ Forall (λ name, ending (probe name 0) = None) names.
Proof.
  intros Hsteady. revert r. induction names as [|name names IH]; intros r; simpl; [by rewrite Forall_nil; tauto|].
  rewrite IH, Forall_cons. unfold record_check. rewrite Hsteady.
  destruct (ending (probe name 0)) as [f|]; simpl; naive_solver.
Qed.
End OwnLimits.

(** The Redis client of Go: after how long it gives up a call, given the time
    its context has left, and the error it then reports. *)
Record GoRedis := mkGoRedis { gives_up : N → N; gave_up : failure }.

Section Health.
(** The reply of a dependency (by its name) to a probe at a moment, counted
    from the beginning of the request. *)
Context (replies : string → N → reply).

(** ** Go *)

Context (client : GoRedis).

(** [operationTimeout] of redisrepo and of sqsrepo, and the timeout of
    [Readiness]. *)
Definition redisTimeout : N := 2000.
Definition sqsTimeout : N := 5000.
Definition readyTimeout : N := 3000.
Definition deadline_exceeded : failure := mkFailure "context.deadlineExceededError" "context deadline exceeded".

(** [Ping] of redisrepo, sqsrepo and s3repo, with the time the context of the
    request has left. *)
Definition redisrepo_Ping (left now : N) : ended :=
  errorf "redis ping" (within (gives_up client (N.min redisTimeout left)) (gave_up client) (replies "redis" now)).
Definition sqsrepo_Ping (left now : N) : ended :=
  errorf "get queue attributes" (within (N.min sqsTimeout left) deadline_exceeded (replies "sqs" now)).
Definition s3repo_Ping (bucket : string) (left now : N) : ended :=
  errorf ("head bucket " +:+ bucket) (within left deadline_exceeded (replies "s3" now)).

(** The map of probes; its keys are redis, sqs and s3. *)
Definition go_ping (bucket name : string) (left now : N) : ended :=
  if bool_decide (name = "redis") then redisrepo_Ping left now
  else if bool_decide (name = "sqs") then sqsrepo_Ping left now
  else s3repo_Ping bucket left now.

(** [Readiness]: one deadline for all probes, which are visited in the order
    of the iteration over the map. *)
Definition go_readiness (bucket : string) (order : list string) : round :=
  foldl (λ r name, record_check text r name (go_ping bucket name (readyTimeout - spent r) (spent r))) no_round order.

(** ** Python *)

Definition python_timeout : failure := mkFailure "TimeoutError" "".

(** [str(exc) or type(exc).__name__] *)
Definition python_describe (f : failure) : string := if size (text f) =? 0 then type_name f else text f.

(** [ping] of the repositories; only Redis has a limit of its own. *)
Definition RedisRepository_ping (now : N) : reply := as_reply (within 2000 python_timeout (replies "redis" now)).
Definition python_ping (name : string) (now : N) : reply :=
  if bool_decide (name = "redis") then RedisRepository_ping now else replies name now.

(** [check] of [readyz]: every probe under a limit of its own. *)
Definition python_check (r : round) (name : string) : round :=
  record_check python_describe r name (within 3000 python_timeout (python_ping name (spent r))).

Definition readyz : round := foldl python_check no_round ["redis"; "sqs"; "s3"].

(** ** JavaScript *)

Definition REDIS_COMMAND_TIMEOUT_MS : N := 2000.
Definition AWS_OPERATION_TIMEOUT_MS : N := 5000.
Definition READINESS_TIMEOUT_MS : N := 3000.
Definition js_aborted : failure := mkFailure "TimeoutError" "The operation was aborted due to timeout".
Definition probe_timeout : failure := mkFailure "Error" "probe timeout".

Definition command_timed_out : failure := mkFailure "Error" "Command timed out".

(** [ping] of the services: Redis has a [commandTimeout], SQS and S3 are sent
    with an [AbortSignal]. *)
Definition RedisService_ping (now : N) : reply :=
  as_reply (within REDIS_COMMAND_TIMEOUT_MS command_timed_out (replies "redis" now)).
Definition SqsService_ping (now : N) : reply :=
  as_reply (within AWS_OPERATION_TIMEOUT_MS js_aborted (replies "sqs" now)).
Definition S3Service_ping (now : N) : reply :=
  as_reply (within AWS_OPERATION_TIMEOUT_MS js_aborted (replies "s3" now)).
Definition js_ping (name : string) (now : N) : reply :=
  if bool_decide (name = "redis") then RedisService_ping now
  else if bool_decide (name = "sqs") then SqsService_ping now
  else S3Service_ping now.

(** [withTimeout]: the probe races a timer. *)
Definition withTimeout (probe : reply) (timeoutMs : N) : ended := within timeoutMs probe_timeout probe.

Definition js_readiness : round :=
  foldl (λ r name, record_check text r name (withTimeout (js_ping name (spent r)) READINESS_TIMEOUT_MS))
    no_round ["redis"; "sqs"; "s3"].

(** ** Time *)

(** The client of Redis gives up after [redis_ms] at the latest. *)
Context (redis_ms : N) (gives_up_by : ∀ left, (gives_up client left ≤ redis_ms)%N).

Lemma go_ping_elapsed bucket name left now :
  (elapsed (go_ping bucket name left now) ≤ if bool_decide (name = "redis") then redis_ms else left)%N.
Proof using gives_up_by.
  unfold go_ping, redisrepo_Ping, sqsrepo_Ping, s3repo_Ping. repeat case_bool_decide; simpl;
    match goal with |- context [within ?l ?e ?r] => pose proof (within_elapsed l e r) end; [|lia..].
  etrans; [done|apply gives_up_by].
Qed.

(** The probes of Redis among those visited. *)
Definition redis_probes (order : list string) : N :=
  N.of_nat (length (filter (λ name, name = "redis") order)).

(** The deadline of the request bounds all probes but those of Redis. *)
Lemma go_round_spent bucket order r extra :
  (spent r ≤ readyTimeout + extra)%N →
  (spent (foldl (λ r name, record_check text r name (go_ping bucket name (readyTimeout - spent r) (spent r))) r order)
    ≤ readyTimeout + extra + redis_probes order * redis_ms)%N.
Proof using gives_up_by.
  revert r extra. induction order as [|name order IH]; intros r extra Hr; [simpl; lia|]. cbn [foldl].
  pose proof (go_ping_elapsed bucket name (readyTimeout - spent r) (spent r)) as He.
  unfold redis_probes in *. rewrite filter_cons. case_bool_decide; [rewrite decide_True by done|rewrite decide_False by done].
  - etrans; [apply (IH _ (extra + redis_ms)%N); rewrite record_check_spent; lia|]. simpl. lia.
  - apply IH. rewrite record_check_spent. lia.
Qed.

(** The limit of a probe of Python and JavaScript. *)
Definition probe_limit (name : string) : N := if bool_decide (name = "redis") then 2000 else 3000.

Lemma python_probe_elapsed name now :
  (elapsed (within 3000 python_timeout (python_ping name now)) ≤ probe_limit name)%N.
Proof.
  unfold python_ping, probe_limit. case_bool_decide; [|apply within_elapsed].
  etrans; [apply within_ended|]. pose proof (within_elapsed 2000 python_timeout (replies "redis" now)). lia.
Qed.

Lemma js_probe_elapsed name now :
  (elapsed (withTimeout (js_ping name now) READINESS_TIMEOUT_MS) ≤ probe_limit name)%N.
Proof.
  unfold withTimeout, js_ping, probe_limit. case_bool_decide; [|apply within_elapsed].
  etrans; [apply within_ended|].
  pose proof (within_elapsed REDIS_COMMAND_TIMEOUT_MS command_timed_out (replies "redis" now)).
  unfold REDIS_COMMAND_TIMEOUT_MS, READINESS_TIMEOUT_MS in *. lia.
Qed.

(** C29: readiness is answered in bounded time. Whatever the dependencies do,
    hanging ones included, and in whatever order it visits its probes, Go
    answers within its three seconds and the time after which its Redis client
    gives up; Python and JavaScript, which limit every probe on its own, answer
    within eight seconds. *)
Theorem readiness_bounded bucket order :
  order ≡ₚ ["redis"; "sqs"; "s3"] →
  (spent (go_readiness bucket order) ≤ 3000 + redis_ms)%N ∧ (spent readyz ≤ 8000)%N ∧ (spent js_readiness ≤ 8000)%N.
Proof using gives_up_by.
  intros Horder. split; [|split].
  - assert (Hone : redis_probes order = 1%N).
    { unfold redis_probes. by rewrite Horder. }
    pose proof (go_round_spent bucket order no_round 0 ltac:(vm_compute; discriminate)) as Hs. rewrite Hone in Hs.
    unfold go_readiness, readyTimeout in *. lia.
  - exact (own_limits_spent _ _ probe_limit _ no_round python_probe_elapsed).
  - exact (own_limits_spent _ _ probe_limit _ no_round js_probe_elapsed).
Qed.

(** ** Readiness *)

(** A dependency that answers a probe after [d] milliseconds. *)
Definition answers_in (name : string) (d : N) : Prop := replies name 0 = mkReply (Some d) None.


Context (steady : ∀ name now, replies name now = replies name 0).
#[local] Set Default Proof Using "Type".

Lemma python_ready : ready readyz = true ↔
  ∃ d1 d2 d3, answers_in "redis" d1 ∧ answers_in "sqs" d2 ∧ answers_in "s3" d3 ∧
    (d1 < 2000 ∧ d2 < 3000 ∧ d3 < 3000)%N.
Proof using steady.
  unfold readyz, python_check.
  rewrite (own_limits_ready python_describe (λ name now, within 3000 python_timeout (python_ping name now))).
  2: { intros name now. unfold python_ping, RedisRepository_ping. by rewrite (steady "redis" now), (steady name now). }
  rewrite !Forall_cons, Forall_nil. unfold python_ping, RedisRepository_ping. simpl. rewrite within_within_ready, !within_ready.
  unfold answers_in. naive_solver lia.
Qed.

Lemma js_ready : ready js_readiness = true ↔
  ∃ d1 d2 d3, answers_in "redis" d1 ∧ answers_in "sqs" d2 ∧ answers_in "s3" d3 ∧
    (d1 < 2000 ∧ d2 < 3000 ∧ d3 < 3000)%N.
Proof using steady.
  unfold js_readiness, withTimeout.
  rewrite (own_limits_ready text (λ name now, within READINESS_TIMEOUT_MS probe_timeout (js_ping name now))).
  2: { intros name now. unfold js_ping, RedisService_ping, SqsService_ping, S3Service_ping.
       by rewrite (steady "redis" now), (steady "sqs" now), (steady "s3" now). }
  rewrite !Forall_cons, Forall_nil. unfold js_ping, RedisService_ping, SqsService_ping, S3Service_ping. simpl. rewrite !within_within_ready.
  unfold answers_in. unfold READINESS_TIMEOUT_MS, REDIS_COMMAND_TIMEOUT_MS, AWS_OPERATION_TIMEOUT_MS. naive_solver lia.
Qed.

(** When an interface is ready: with dependencies that answer as quickly
    whenever they are asked, Python and JavaScript answer 200 exactly when Redis
    answers within two seconds and SQS and S3 within three each. *)
Theorem readiness_status :
  ((readiness_answer readyz).1 = 200 ↔ ∃ d1 d2 d3, answers_in "redis" d1 ∧ answers_in "sqs" d2 ∧ answers_in "s3" d3 ∧
     (d1 < 2000 ∧ d2 < 3000 ∧ d3 < 3000)%N) ∧
  ((readiness_answer js_readiness).1 = 200 ↔ ∃ d1 d2 d3, answers_in "redis" d1 ∧ answers_in "sqs" d2 ∧ answers_in "s3" d3 ∧
     (d1 < 2000 ∧ d2 < 3000 ∧ d3 < 3000)%N).
Proof using steady.
  assert (H200 : ∀ r, (readiness_answer r).1 = 200 ↔ ready r = true) by (intros r; unfold readiness_answer; by destruct (ready r)).
  rewrite !H200. split; [apply python_ready|apply js_ready].
Qed.
End Health.

(** ** Concrete dependencies *)

Module HealthSample.
(** Dependencies that all answer after [d] milliseconds, and hanging ones. *)
Definition steadily (d : N) : string → N → reply := λ _ _, mkReply (Some d) None.
Definition hanging : string → N → reply := λ _ _, mkReply None None.

Definition probes : list string := ["redis"; "sqs"; "s3"].

(** A client that gives up after its read timeout of three seconds. *)
Definition client : GoRedis := mkGoRedis (λ _, 3000%N) (mkFailure "*net.OpError" "i/o timeout").
End HealthSample.

Lemma readiness_status_witness : (readiness_answer (readyz (HealthSample.steadily 500))).1 = 200.
Proof.
  apply (readiness_status (HealthSample.steadily 500) (λ _ _, eq_refl)).
  exists 500%N, 500%N, 500%N. split_and!; reflexivity.
Defined.

Lemma readiness_bounded_witness :
  (spent (go_readiness HealthSample.hanging HealthSample.client "taskforge-jobs" (reverse HealthSample.probes)) ≤ 6000)%N.
Proof.
  apply (readiness_bounded HealthSample.hanging HealthSample.client 3000 (λ _, N.le_refl _) "taskforge-jobs"
    (reverse HealthSample.probes)). rewrite reverse_Permutation. reflexivity.
Defined.

(** Dependencies that each take a second and a half: Python and JavaScript are
    ready, Go is not. *)
Example slow_dependencies :
  let replies := HealthSample.steadily 1500 in
  (readiness_answer (readyz replies)).1 = 200 ∧ (readiness_answer (js_readiness replies)).1 = 200 ∧
  (readiness_answer (go_readiness replies HealthSample.client "taskforge-jobs" HealthSample.probes)).1 = 503.
Proof. vm_compute. split_and!; reflexivity. Qed.

(** Hanging dependencies: what the answers say, and when they come. In Go it
    depends on the order in which the probes are visited. *)
Example hanging_dependencies :
  let go := go_readiness HealthSample.hanging HealthSample.client "taskforge-jobs" in
  spent (go HealthSample.probes) = 3000%N ∧ spent (go (reverse HealthSample.probes)) = 6000%N
  ∧ spent (readyz HealthSample.hanging) = 8000%N ∧ spent (js_readiness HealthSample.hanging) = 8000%N
  ∧ checks (go HealthSample.probes) !! "s3" = Some "head bucket taskforge-jobs: context deadline exceeded"
  ∧ checks (readyz HealthSample.hanging) !! "redis" = Some "TimeoutError"
  ∧ checks (js_readiness HealthSample.hanging) !! "sqs" = Some "probe timeout".
Proof. vm_compute. split_and!; reflexivity. Qed.
