(* ===== verification/ApiAdapters.v ===== *)
(** * The adapters of the interfaces, and the time a request takes

    The repositories between the services of an interface and its
    dependencies: redisrepo, sqsrepo and s3repo (Go), repositories/*.py
    (Python), infra/*.service.ts (JavaScript), with the limits they put on
    every call, as instances of [ApiServices]. On top of them, how long the
    routes take and what a slow or hanging dependency makes them answer.
    Durations are in milliseconds.

    What the clients of Redis, SQS and S3 do is given by [Dependencies]: the
    reaction to a call when it is left alone, with the delay after which it
    comes (if ever). A call that is cut off may have taken effect all the
    same. When the Redis client of Go gives up ([GoRedis]), and how long boto3
    takes under the limits it is configured with, are parameters. *)

From S2P Require Import Prelude Utf8 Json Filesystem Effects Testbed MessageValidation WorkerSample.
From S2P Require Import Api ApiGo ApiPython ApiJs ApiContract Posting ApiSample ApiHealth.

(** ** Dependencies *)

(** What a call does when it is left alone. *)
Record reaction (A : Type) := mkReaction { after : option N; result : A + failure }.
Arguments mkReaction {A} after result.
Arguments after {A} _.
Arguments result {A} _.

Class Dependencies (Y : Type) := {
  dep_uuid : Y → string * Y;
  dep_now : Y → Z * Y;
  (** signing is a local computation: bucket, key, lifetime; its duration *)
  dep_sign : string → string → Z → Y → N * (string + failure) * Y;
  dep_get : string → Y → reaction (option string) * Y;
  (** key, value, expiry in seconds *)
  dep_set : string → string → option Z → Y → reaction unit * Y;
  (** queue, body, group *)
  dep_send : string → string → string → Y → reaction unit * Y;
  (** [send_message] of a boto3 client configured with a timeout for connecting,
      one for every read, and a number of attempts; its duration *)
  dep_boto : N → N → nat → string → string → string → Y → N * (unit + failure) * Y;
}.

(** A call under a deadline: how long it takes and how it ends. *)
Definition under {A} (limit : N) (expired : failure) (r : reaction A) : N * (A + failure) :=
  match after r with
  | Some d => if (d <? limit)%N then (d, result r) else (limit, inr expired)
  | None => (limit, inr expired)
  end.

(** The time that has passed, and the dependencies. *)
Record Timed (Y : Type) := mkTimed { clock : N; inner : Y }.
Arguments mkTimed {Y} clock inner.
Arguments clock {Y} _.
Arguments inner {Y} _.

Section Adapters.
Context {Y : Type} `{Dependencies Y}.

(** A call through an adapter: the clock advances, an error becomes the text
    [wrap] makes of it. *)
Definition timed_call {A} (wrap : failure → string) (op : Y → N * (A + failure) * Y)
    (t : Timed Y) : expected A * Timed Y :=
  let '(d, r, y) := op (inner t) in
  (match r with inl a => Expected a | inr f => Unexpected (wrap f) end, mkTimed (clock t + d) y).

Definition limited {A} (limit : N) (expired : failure) (op : Y → reaction A * Y) (y : Y) : N * (A + failure) * Y :=
  let '(r, y') := op y in (under limit expired r, y').

(** No time passes. *)
Definition at_once {A} (op : Y → A * Y) (t : Timed Y) : A * Timed Y :=
  let '(a, y) := op (inner t) in (a, mkTimed (clock t) y).

(** ** Go *)

Context (client : GoRedis).

(** [Get], where [redis.Nil] is no error but a missing key, and [Set], for
    which a lifetime of zero keeps the key forever. *)
Definition redisrepo_Get (key : string) : Timed Y → expected (option string) * Timed Y :=
  timed_call (λ f, "redis get " +:+ key +:+ ": " +:+ text f) (limited (gives_up client redisTimeout) (gave_up client) (dep_get key)).
Definition redisrepo_Set (key value : string) (ttl : Z) : Timed Y → expected unit * Timed Y :=
  timed_call (λ f, "redis set " +:+ key +:+ ": " +:+ text f)
    (limited (gives_up client redisTimeout) (gave_up client) (dep_set key value (if ttl =? 0 then None else Some ttl))).
Definition sqsrepo_Enqueue (queueURL body messageGroupID : string) : Timed Y → expected unit * Timed Y :=
  timed_call (λ f, "send message: " +:+ text f)
    (limited sqsTimeout deadline_exceeded (dep_send queueURL body messageGroupID)).
Definition s3repo_PresignPut (bucket key : string) (ttl : Z) : Timed Y → expected string * Timed Y :=
  timed_call (λ f, "presign put " +:+ key +:+ ": " +:+ text f) (dep_sign bucket key ttl).

Definition go_adapters (bucket queueURL : string) : ApiServices (Timed Y) := {|
  new_uuid := at_once dep_uuid; api_now := at_once dep_now;
  presign_put := s3repo_PresignPut bucket;
  store_get := redisrepo_Get; store_set := redisrepo_Set; enqueue := sqsrepo_Enqueue queueURL;
|}.

(** ** Python *)

Definition OPERATION_TIMEOUT : N := 2000.
Definition connect_timeout : N := 2000.
Definition read_timeout : N := 2000.
Definition total_max_attempts : nat := 2.
(** [ex=ttl_sec if ttl_sec > 0 else None] *)
Definition expiry (ttl_sec : Z) : option Z := if 0 <? ttl_sec then Some ttl_sec else None.

Definition RedisRepository_get (key : string) : Timed Y → expected (option string) * Timed Y :=
  timed_call text (limited OPERATION_TIMEOUT python_timeout (dep_get key)).
Definition RedisRepository_set (key value : string) (ttl_sec : Z) : Timed Y → expected unit * Timed Y :=
  timed_call text (limited OPERATION_TIMEOUT python_timeout (dep_set key value (expiry ttl_sec))).
Definition SQSRepository_enqueue (queue_url body message_group_id : string) : Timed Y → expected unit * Timed Y :=
  timed_call text (dep_boto connect_timeout read_timeout total_max_attempts queue_url body message_group_id).
Definition S3Repository_presign_put (bucket key : string) (ttl_sec : Z) : Timed Y → expected string * Timed Y :=
  timed_call text (dep_sign bucket key ttl_sec).

Definition python_adapters (bucket queue_url : string) : ApiServices (Timed Y) := {|
  new_uuid := at_once dep_uuid; api_now := at_once dep_now;
  presign_put := S3Repository_presign_put bucket;
  store_get := RedisRepository_get; store_set := RedisRepository_set; enqueue := SQSRepository_enqueue queue_url;
|}.

(** ** JavaScript *)

Definition RedisService_get (key : string) : Timed Y → expected (option string) * Timed Y :=
  timed_call text (limited REDIS_COMMAND_TIMEOUT_MS command_timed_out (dep_get key)).
Definition RedisService_set (key value : string) (ttlSec : Z) : Timed Y → expected unit * Timed Y :=
  timed_call text (limited REDIS_COMMAND_TIMEOUT_MS command_timed_out
    (if 0 <? ttlSec then dep_set key value (Some ttlSec) else dep_set key value None)).
Definition SqsService_enqueue (queueUrl body messageGroupId : string) : Timed Y → expected unit * Timed Y :=
  timed_call text (limited AWS_OPERATION_TIMEOUT_MS js_aborted (dep_send queueUrl body messageGroupId)).
Definition S3Service_presignPut (bucketName key : string) (presignTtlSec : Z) : Timed Y → expected string * Timed Y :=
  timed_call text (dep_sign bucketName key presignTtlSec).

Definition js_adapters (bucketName queueUrl : string) : ApiServices (Timed Y) := {|
  new_uuid := at_once dep_uuid; api_now := at_once dep_now;
  presign_put := S3Service_presignPut bucketName;
  store_get := RedisService_get; store_set := RedisService_set; enqueue := SqsService_enqueue queueUrl;
|}.

End Adapters.

(** ** Time and results along the calls of a route *)

Lemma under_time {A} limit expired (r : reaction A) : ((under limit expired r).1 ≤ limit)%N.
Proof. unfold under. destruct (after r) as [d|]; simpl; [|lia]. destruct (N.ltb_spec d limit); simpl; lia. Qed.

(** It answers well before the limit. *)
Definition prompt (limit : N) (r : reaction unit) : Prop :=
  ∃ d, r = mkReaction (Some d) (inl ()) ∧ (d < limit)%N.

Lemma under_ok limit expired (r : reaction unit) : (under limit expired r).2 = inl () ↔ prompt limit r.
Proof.
  unfold under, prompt. destruct r as [[d|] res]; simpl; [|naive_solver].
  destruct (N.ltb_spec d limit); simpl; [naive_solver|]. split; [done|]. intros (d' & [= -> _] & ?). lia.
Qed.

Section Conforms.
Context {Y : Type} {S : ApiServices (Timed Y)}.
Context (P : ApiEvent → Prop) (cost : ApiEvent → N).

Definition total (es : list ApiEvent) : N := foldr (λ e n, cost e + n)%N 0%N es.

(** Every call satisfies [P], and the time that passes is paid for by the
    calls. *)
Definition conforms {E A} (m : Api (Timed Y) E A) : Prop :=
  ∀ t, Forall P (m t).2 ∧ (clock (m t).1.2 ≤ clock t + total (m t).2)%N.

(** The operations, one by one. *)
Record conforming : Prop := {
  conform_uuid t : clock (new_uuid t).2 = clock t;
  conform_now t : clock (api_now t).2 = clock t;
  conform_presign key ttl t : let '(r, t') := presign_put key ttl t in
    P (ApPresign key ttl r) ∧ (clock t' ≤ clock t + cost (ApPresign key ttl r))%N;
  conform_get key t : let '(r, t') := store_get key t in
    P (ApGet key r) ∧ (clock t' ≤ clock t + cost (ApGet key r))%N;
  conform_set key value ttl t : let '(r, t') := store_set key value ttl t in
    P (ApSet key value ttl r) ∧ (clock t' ≤ clock t + cost (ApSet key value ttl r))%N;
  conform_send body group t : let '(r, t') := enqueue body group t in
    P (ApSend body group r) ∧ (clock t' ≤ clock t + cost (ApSend body group r))%N;
}.

Lemma total_app es es' : total (es ++ es') = (total es + total es')%N.
Proof. induction es as [|e es IH]; simpl; [done|]. rewrite IH. lia. Qed.

Lemma conforms_ret {E A} (a : A) : conforms (mret a : Api (Timed Y) E A).
Proof. intros t. simpl. split; [constructor|lia]. Qed.
Lemma conforms_fail {E A} (e : E) : conforms (fail e : Api (Timed Y) E A).
Proof. intros t. simpl. split; [constructor|lia]. Qed.
Lemma conforms_orElse {E A} (r : expected A) (wrap : string → E) : conforms (orElse r wrap).
Proof. destruct r; [apply conforms_ret|apply conforms_fail]. Qed.

Lemma conforms_bind {E A B} (m : Api (Timed Y) E A) (f : A → Api (Timed Y) E B) :
  conforms m → (∀ a, conforms (f a)) → conforms (m ≫= f).
Proof.
  intros Hm Hf t. unfold mbind, Api_bind. specialize (Hm t).
  destruct (m t) as [[[a|e] t1] es1]; simpl in *; [|done].
  specialize (Hf a t1). destruct (f a t1) as [[r t2] es2]; simpl in *.
  destruct Hm, Hf. split; [by apply Forall_app|]. rewrite total_app. lia.
Qed.

Context (HS : conforming).
#[local] Set Default Proof Using "HS".

Lemma conforms_uuid {E} : conforms (NewUuid : Api (Timed Y) E string).
Proof.
  intros t. unfold NewUuid, api_call. pose proof (conform_uuid HS t). destruct (new_uuid t). simpl in *.
  split; [constructor|lia].
Qed.
Lemma conforms_now {E} : conforms (ApiNow : Api (Timed Y) E Z).
Proof.
  intros t. unfold ApiNow, api_call. pose proof (conform_now HS t). destruct (api_now t). simpl in *.
  split; [constructor|lia].
Qed.
Lemma conforms_presign {E} key ttl : conforms (PresignPut key ttl : Api (Timed Y) E (expected string)).
Proof.
  intros t. unfold PresignPut, api_call. pose proof (conform_presign HS key ttl t) as Hc.
  destruct (presign_put key ttl t); simpl in *. destruct Hc. split; [by repeat constructor|lia].
Qed.
Lemma conforms_get {E} key : conforms (StoreGet key : Api (Timed Y) E (expected (option string))).
Proof.
  intros t. unfold StoreGet, api_call. pose proof (conform_get HS key t) as Hc.
  destruct (store_get key t); simpl in *. destruct Hc. split; [by repeat constructor|lia].
Qed.
Lemma conforms_set {E} key value ttl : conforms (StoreSet key value ttl : Api (Timed Y) E (expected unit)).
Proof.
  intros t. unfold StoreSet, api_call. pose proof (conform_set HS key value ttl t) as Hc.
  destruct (store_set key value ttl t); simpl in *. destruct Hc. split; [by repeat constructor|lia].
Qed.
Lemma conforms_send {E} body group : conforms (Enqueue body group : Api (Timed Y) E (expected unit)).
Proof.
  intros t. unfold Enqueue, api_call. pose proof (conform_send HS body group t) as Hc.
  destruct (enqueue body group t); simpl in *. destruct Hc. split; [by repeat constructor|lia].
Qed.

Lemma conforms_presign_all cfg job_id files urls : conforms (presign_all cfg job_id files urls).
Proof.
  revert urls. induction files as [|f files IH]; intros urls; simpl; [apply conforms_ret|].
  apply conforms_bind; [apply conforms_presign|intros r].
  apply conforms_bind; [apply conforms_orElse|intros url]. apply IH.
Qed.

Lemma conforms_create encode cfg name files task : conforms (create_spec encode cfg name files task).
Proof.
  unfold create_spec. apply conforms_bind; [apply conforms_uuid|intros job_id].
  apply conforms_bind; [apply conforms_now|intros time].
  apply conforms_bind; [apply conforms_presign_all|intros urls].
  apply conforms_bind; [apply conforms_set|intros set].
  apply conforms_bind; [apply conforms_orElse|intros _].
  apply conforms_bind; [apply conforms_send|intros sent].
  apply conforms_bind; [apply conforms_orElse|intros _]. apply conforms_ret.
Qed.

Lemma conforms_post encode js_length validation_message cfg q :
  conforms (post encode js_length validation_message cfg q).
Proof.
  intros t. destruct (accepts js_length q) eqn:Hok.
  - pose proof (conforms_create encode cfg (asked_name q) (asked_files q) (asked_task q) t) as Hc.
    rewrite (post_accepted encode js_length validation_message cfg q t Hok).
    by destruct (create_spec _ _ _ _ _ t) as [[r t'] es].
  - rewrite (post_rejected encode js_length validation_message cfg q t Hok). apply (conforms_ret (E := Empty_set)).
Qed.

End Conforms.

(** ** The routes on the adapters *)

Definition succeeded {A} (r : expected A) : Prop := ∃ a, r = Expected a.

(** The status code of an answer. *)
Definition status_of (r : response + Empty_set) : Z :=
  match r with inl (code, _) => code | inr e => match e with end end.

Lemma wrapped_succeeded {A} wrap (r : A + failure) :
  succeeded (match r with inl a => Expected a | inr f => Unexpected (wrap f) end) ↔ ∃ a, r = inl a.
Proof. unfold succeeded. destruct r; naive_solver. Qed.

Lemma unit_result (r : unit + failure) : (∃ a, r = inl a) ↔ r = inl ().
Proof. split; [intros [[] ->]|intros ->]; by eauto. Qed.


Section Routes.
Context {Y : Type} `{Dependencies Y}.
Context (client : GoRedis).
Context (bucket queue : string).

Definition adapters (q : posting) : ApiServices (Timed Y) :=
  match q with
  | ViaGo _ => go_adapters client bucket queue
  | ViaPython _ => python_adapters bucket queue
  | ViaJs _ => js_adapters bucket queue
  end.

(** The expiry a lifetime is sent to Redis as. *)
Definition sent_expiry (q : posting) (ttl : Z) : option Z :=
  match q with ViaGo _ => if ttl =? 0 then None else Some ttl | _ => expiry ttl end.

(** The request was taken by the queue in time. *)
Definition delivered (q : posting) (body group : string) (y : Y) : Prop :=
  match q with
  | ViaPython _ =>
      (dep_boto connect_timeout read_timeout total_max_attempts queue body group y).1.2 = inl ()
  | _ => prompt 5000 (dep_send queue body group y).1
  end.

(** The time Redis has to confirm a document. *)
Definition set_limit (q : posting) : N :=
  match q with ViaGo _ => gives_up client redisTimeout | _ => 2000 end.

(** What every call of a creation results in. *)
Definition call_result (q : posting) (e : ApiEvent) : Prop :=
  match e with
  | ApPresign key ttl r => ∃ y, succeeded r ↔ ∃ url, (dep_sign bucket key ttl y).1.2 = inl url
  | ApGet _ _ => True
  | ApSet key value ttl r => ∃ y, succeeded r ↔ prompt (set_limit q) (dep_set key value (sent_expiry q ttl) y).1
  | ApSend body group r => ∃ y, succeeded r ↔ delivered q body group y
  end.

(** Signing takes at most [sign], the Redis client of Go gives up after
    [redis_ms] at the latest, and boto3 with its configuration ends a call
    within [boto_ms]. *)
Context (sign redis_ms boto_ms : N).
Context (sign_time : ∀ key ttl y, ((dep_sign bucket key ttl y).1.1 ≤ sign)%N).
Context (gives_up_by : ∀ left, (gives_up client left ≤ redis_ms)%N).
Context (boto_time : ∀ body group y,
  ((dep_boto connect_timeout read_timeout total_max_attempts queue body group y).1.1 ≤ boto_ms)%N).

(** The longest a call to Redis and one to the queue can take. *)
Definition redis_limit (q : posting) : N := match q with ViaGo _ => redis_ms | _ => 2000 end.
Definition queue_limit (q : posting) : N := match q with ViaPython _ => boto_ms | _ => 5000 end.

Definition call_limit (q : posting) (e : ApiEvent) : N :=
  match e with
  | ApPresign _ _ _ => sign
  | ApGet _ _ | ApSet _ _ _ _ => redis_limit q
  | ApSend _ _ _ => queue_limit q
  end.

(** A call through an adapter under a limit. *)
Lemma limited_call {A} wrap limit expired (op : Y → reaction A * Y) (t : Timed Y) :
  let '(r, t') := timed_call wrap (limited limit expired op) t in
  (clock t' ≤ clock t + limit)%N ∧ (succeeded r ↔ ∃ a, (under limit expired (op (inner t)).1).2 = inl a).
Proof.
  unfold timed_call, limited. destruct (op (inner t)) as [r y]. cbn [fst].
  pose proof (under_time limit expired r) as Hu. destruct (under limit expired r) as [d res]; simpl in *.
  split; [lia|apply wrapped_succeeded].
Qed.

(** A write under a limit, and the sending of a request. *)
Lemma limited_unit wrap limit expired (op : Y → reaction unit * Y) (t : Timed Y) :
  let '(r, t') := timed_call wrap (limited limit expired op) t in
  (clock t' ≤ clock t + limit)%N ∧ (succeeded r ↔ prompt limit (op (inner t)).1).
Proof.
  pose proof (limited_call wrap limit expired op t) as Hc. destruct (timed_call _ _ t) as [r t'].
  destruct Hc as [Ht Hr]. split; [done|]. by rewrite Hr, unit_result, under_ok.
Qed.

Lemma sign_call wrap key ttl (t : Timed Y) :
  let '(r, t') := timed_call wrap (dep_sign bucket key ttl) t in
  (clock t' ≤ clock t + sign)%N ∧ (succeeded r ↔ ∃ url, (dep_sign bucket key ttl (inner t)).1.2 = inl url).
Proof using sign_time.
  unfold timed_call. specialize (sign_time key ttl (inner t)).
  destruct (dep_sign bucket key ttl (inner t)) as [[d res] y]; simpl in *.
  split; [lia|apply wrapped_succeeded].
Qed.

Lemma boto_call body group (t : Timed Y) :
  let '(r, t') := timed_call text (dep_boto connect_timeout read_timeout total_max_attempts queue body group) t in
  (clock t' ≤ clock t + boto_ms)%N ∧
  (succeeded r ↔ (dep_boto connect_timeout read_timeout total_max_attempts queue body group (inner t)).1.2 = inl ()).
Proof using boto_time.
  unfold timed_call. specialize (boto_time body group (inner t)).
  destruct (dep_boto _ _ _ _ _ _ (inner t)) as [[d res] y]. cbn [fst snd clock] in *.
  split; [lia|]. by rewrite wrapped_succeeded, unit_result.
Qed.

(** A call of the Redis client of Go. *)
Lemma go_redis_call {A} (call : expected A * Timed Y) (t : Timed Y) (Q : Prop) :
  (let '(r, t') := call in (clock t' ≤ clock t + gives_up client redisTimeout)%N ∧ (succeeded r ↔ Q)) →
  let '(r, t') := call in (clock t' ≤ clock t + redis_ms)%N ∧ (succeeded r ↔ Q).
Proof using gives_up_by. destruct call as [r t']. intros [Ht Hr]. specialize (gives_up_by redisTimeout). split; [lia|done]. Qed.

Lemma at_once_clock {A} (op : Y → A * Y) (t : Timed Y) : clock (at_once op t).2 = clock t.
Proof. unfold at_once. by destruct (op (inner t)). Qed.

(** From what is known of a call to what is recorded of it. *)
Lemma recorded {A} (call : expected A * Timed Y) (t : Timed Y) limit (Q R : expected A → Prop) :
  (let '(r, t') := call in (clock t' ≤ clock t + limit)%N ∧ Q r) → (∀ r, Q r → R r) →
  let '(r, t') := call in R r ∧ (clock t' ≤ clock t + limit)%N.
Proof. destruct call as [r t']. intros [Ht Hq] HR. split; [by apply HR|done]. Qed.

(** The adapters keep to the limits, and their results are those of the
    dependencies. *)
Lemma adapters_conform q : conforming (S := adapters q) (call_result q) (call_limit q).
Proof using sign_time gives_up_by boto_time.
  assert (Hjs : ∀ key value ttl t, RedisService_set key value ttl t =
    timed_call text (limited 2000 command_timed_out (dep_set key value (expiry ttl))) t).
  { intros. unfold RedisService_set, expiry. by destruct (0 <? ttl). }
  destruct q as [dto|request|dto]; (split;
    [apply at_once_clock|apply at_once_clock
    |intros key ttl t; refine (recorded _ _ _ _ _ (sign_call _ key ttl t) _); by eexists
    |intros key t|intros key value ttl t; simpl|intros body group t]).
  - refine (recorded _ _ _ _ _ (go_redis_call _ _ _ (limited_call _ _ _ (dep_get key) t)) _). done.
  - refine (recorded _ _ _ _ _ (go_redis_call _ _ _ (limited_unit _ _ _ (dep_set _ _ _) t)) _). by eexists.
  - refine (recorded _ _ _ _ _ (limited_unit _ 5000 _ (dep_send _ _ _) t) _). by eexists.
  - refine (recorded _ _ _ _ _ (limited_call _ 2000 _ (dep_get key) t) _). done.
  - refine (recorded _ _ _ _ _ (limited_unit _ 2000 _ (dep_set _ _ _) t) _). by eexists.
  - refine (recorded _ _ _ _ _ (boto_call body group t) _). by eexists.
  - refine (recorded _ _ _ _ _ (limited_call _ 2000 _ (dep_get key) t) _). done.
  - rewrite Hjs. refine (recorded _ _ _ _ _ (limited_unit _ 2000 _ (dep_set _ _ _) t) _). by eexists.
  - refine (recorded _ _ _ _ _ (limited_unit _ 5000 _ (dep_send _ _ _) t) _). by eexists.
Qed.

(** ** How long a request takes *)

Context (encode : json → string) (js_length : string → Z) (validation_message : Js.CreateJobDto → string).
Context (cfg : ApiSettings).

Definition posted_on (q : posting) : Api (Timed Y) Empty_set response :=
  post (H := adapters q) encode js_length validation_message cfg q.

(** What Redis and the queue can take of a creation. *)
Definition post_limit (q : posting) : N := redis_limit q + queue_limit q.

Lemma creation_total q job_id now name files task es r :
  creation encode cfg job_id now name files task es r →
  (total (call_limit q) es ≤ N.of_nat (length files) * sign + post_limit q)%N.
Proof.
  assert (Hp : ∀ urls, total (call_limit q) (presigns cfg job_id urls) = (N.of_nat (length urls) * sign)%N).
  { induction urls as [|u urls IH]; [done|]. cbn [presigns fmap list_fmap total foldr call_limit length].
    change (foldr _ _ _) with (total (call_limit q) (presigns cfg job_id urls)). rewrite IH. lia. }
  unfold post_limit. intros [urls f rest e ->|urls e ->|urls e ->|urls ->]; rewrite total_app, Hp;
    rewrite ?length_app, length_fmap; simpl; lia.
Qed.

Lemma post_time q (t : Timed Y) :
  (clock (posted_on q t).1.2 ≤ clock t + N.of_nat (length (asked_files q)) * sign + post_limit q)%N.
Proof using sign_time gives_up_by boto_time.
  unfold posted_on. destruct (accepts js_length q) eqn:Hok.
  - destruct (conforms_post _ _ (adapters_conform q) encode js_length validation_message cfg q t) as [_ Ht].
    destruct (post_creation (H := adapters q) encode js_length validation_message cfg q t Hok) as (r & Hc & _).
    apply (creation_total q) in Hc. lia.
  - rewrite (post_rejected (H := adapters q)) by done. simpl. lia.
Qed.

(** A read of a document, and nothing else that takes time. *)
Lemma read_time {E A} (S : ApiServices (Timed Y)) limit key (f : expected (option string) → Api (Timed Y) E A) t :
  (clock (store_get key t).2 ≤ clock t + limit)%N → (∀ v t, clock (f v t).1.2 = clock t) →
  (clock ((StoreGet key ≫= f) t).1.2 ≤ clock t + limit)%N.
Proof.
  intros Hget Hf. unfold mbind, Api_bind, StoreGet, api_call. destruct (store_get key t) as [v t'].
  specialize (Hf v t'). destruct (f v t') as [[r t''] es]. simpl in *. lia.
Qed.

Lemma adapter_get_time q key (t : Timed Y) : (clock (store_get (ApiServices := adapters q) key t).2 ≤ clock t + redis_limit q)%N.
Proof using sign_time gives_up_by boto_time.
  pose proof (conform_get _ _ (adapters_conform q) key t) as Hc.
  by destruct (store_get (ApiServices := adapters q) key t) as [v t']; destruct Hc.
Qed.

Context (valid_json uuid_parses : string → bool) (loads js_parse : string → option json).

(** The two reading routes of the interface that [q] was posted to. *)
Definition job_route (q : posting) (job_id : string) : Api (Timed Y) Empty_set response :=
  let S := adapters q in
  match q with
  | ViaGo _ => Go.Get (H := S) valid_json uuid_parses job_id
  | ViaPython _ => Python.get_job_route (H := S) loads job_id
  | ViaJs _ => Js.get (H := S) js_parse job_id
  end.
Definition tasks_route (q : posting) : Api (Timed Y) Empty_set response :=
  let S := adapters q in
  match q with
  | ViaGo _ => Go.List (H := S) valid_json
  | ViaPython _ => Python.get_tasks_route (H := S) loads
  | ViaJs _ => Js.tasks (H := S) js_parse
  end.

(** Reading through a service: nothing after the read takes time. *)
Lemma go_read_time dto key not_json (t : Timed Y) :
  (clock (Go.read_document (H := adapters (ViaGo dto)) valid_json key not_json t).1.2 ≤ clock t + redis_ms)%N.
Proof using sign_time gives_up_by boto_time.
  apply (read_time (adapters (ViaGo dto))); [apply (adapter_get_time (ViaGo dto))|]. intros [[text|]|e] t'; [|done..].
  unfold mbind, Api_bind. simpl. by destruct (valid_json text).
Qed.

Lemma python_read_time request key missing (t : Timed Y) :
  (clock (Python.load_document (H := adapters (ViaPython request)) loads key missing t).1.2 ≤ clock t + 2000)%N.
Proof using sign_time gives_up_by boto_time.
  apply (read_time (adapters (ViaPython request))); [apply (adapter_get_time (ViaPython request))|]. intros [[text|]|e] t'; [|done..].
  unfold mbind, Api_bind. simpl. by destruct (loads text).
Qed.

Lemma js_read_time dto key missing (t : Timed Y) :
  (clock (Js.load_document (H := adapters (ViaJs dto)) js_parse key missing t).1.2 ≤ clock t + 2000)%N.
Proof using sign_time gives_up_by boto_time.
  apply (read_time (adapters (ViaJs dto))); [apply (adapter_get_time (ViaJs dto))|]. intros [[text|]|e] t'; [|done..].
  unfold mbind, Api_bind. simpl. by destruct (js_parse text).
Qed.

Lemma go_answer_clock {A} (m : Api (Timed Y) Go.error A) ok failed (t : Timed Y) :
  clock (Go.answer m ok failed t).1.2 = clock (m t).1.2.
Proof. unfold Go.answer. by destruct (m t) as [[??]?]. Qed.
Lemma python_guard_clock {A} (m : Api (Timed Y) Python.exception A) ok (t : Timed Y) :
  clock (Python.guard m ok t).1.2 = clock (m t).1.2.
Proof. unfold Python.guard. by destruct (m t) as [[??]?]. Qed.
Lemma js_guard_clock {A} (m : Api (Timed Y) Js.exception A) ok (t : Timed Y) :
  clock (Js.guard m ok t).1.2 = clock (m t).1.2.
Proof. unfold Js.guard. by destruct (m t) as [[??]?]. Qed.

(** C25: every request is answered in bounded time. Whatever Redis and SQS do,
    hanging included, a creation ends within the time of signing its files plus
    seven seconds in JavaScript, two seconds and the time boto3 takes in Python,
    five seconds and the time after which the Redis client gives up in Go;
    reading a job or the task catalog ends within two seconds, in Go within the
    time after which the Redis client gives up. *)
Theorem requests_bounded q job_id (t : Timed Y) :
  (clock (posted_on q t).1.2 ≤ clock t + N.of_nat (length (asked_files q)) * sign + post_limit q)%N ∧
  (clock (job_route q job_id t).1.2 ≤ clock t + redis_limit q)%N ∧
  (clock (tasks_route q t).1.2 ≤ clock t + redis_limit q)%N.
Proof using sign_time gives_up_by boto_time.
  split; [apply post_time|]. unfold job_route, tasks_route. destruct q as [dto|request|dto]; split.
  - unfold Go.Get. destruct (negb _); [simpl; lia|]. rewrite go_answer_clock. apply go_read_time.
  - unfold Go.List. rewrite go_answer_clock. apply go_read_time.
  - unfold Python.get_job_route. destruct (negb _); [simpl; lia|]. rewrite python_guard_clock. apply python_read_time.
  - unfold Python.get_tasks_route. rewrite python_guard_clock. apply python_read_time.
  - unfold Js.get, Js.getJob. rewrite js_guard_clock. destruct (negb _); [simpl; lia|]. apply js_read_time.
  - unfold Js.tasks. rewrite js_guard_clock. apply js_read_time.
Qed.

(** ** What a creation is answered

    With dependencies that react alike whenever they are asked. *)

Context (set_reply send_reply : reaction unit) (boto_result : unit + failure).






End Routes.

(** ** Concrete dependencies *)

Module AdapterSample.
(** A request reaches the queue whether or not its sender still waits for the
    answer. *)
Definition send (body group : string) (y : Sim) : Sim := sim_with_queue y (sim_queue y ++ [(body, group)]).

(** Attempts to send with a connection that is made after a millisecond and a
    response after [sqs], with pauses of half a second. *)
Fixpoint boto (sqs : option N) (connect read : N) (attempts : nat) (body group : string) (y : Sim)
    : N * (unit + failure) * Sim :=
  match attempts with
  | O => (0%N, inr python_timeout, y)
  | S rest =>
      let '(d, r) := under read python_timeout (mkReaction sqs (inl ())) in
      match r, rest with
      | inr _, S _ =>
          let '(d', r', y') := boto sqs connect read rest body group (send body group y) in
          ((N.min 1 connect + d + 500 + d')%N, r', y')
      | _, _ => ((N.min 1 connect + d)%N, r, send body group y)
      end
  end.

(** The simulated services, with a delay for every dependency; signing takes
    five milliseconds. *)
Definition deps (redis sqs : option N) : Dependencies Sim := {|
  dep_uuid := new_uuid; dep_now := api_now;
  dep_sign bucket key _ y := (5%N, inl ("https://" +:+ bucket +:+ "/" +:+ key), y);
  dep_get key y := (mkReaction redis (inl (sim_redis y !! key)), y);
  dep_set key value _ y := (mkReaction redis (inl ()), sim_with_redis y (<[key := value]> (sim_redis y)));
  dep_send _ body group y := (mkReaction sqs (inl ()), send body group y);
  dep_boto connect read attempts _ body group y := boto sqs connect read attempts body group y;
|}.

Lemma boto_time sqs body group (y : Sim) :
  ((boto sqs connect_timeout read_timeout total_max_attempts body group y).1.1 ≤ 4502)%N.
Proof.
  pose proof (under_time read_timeout python_timeout (mkReaction sqs (inl ()))) as Hu. cbn [boto total_max_attempts].
  destruct (under read_timeout python_timeout (mkReaction sqs (inl ()))) as [d [[]|f]]; simpl in *;
    unfold connect_timeout, read_timeout in *; lia.
Qed.

Definition start : Timed Sim := mkTimed 0 ApiSample.services.
Definition python : posting := ViaPython (Python.mkRequest "wordcount" [] ["a.txt"] None).

Definition posted (redis sqs : option N) (q : posting) : (response + Empty_set) * Timed Sim * list ApiEvent :=
  posted_on (H := deps redis sqs) HealthSample.client "taskforge-jobs" "queue" ApiSample.encode size (λ _, "") ApiSample.settings q start.

End AdapterSample.

(** Dependencies that never answer. *)
Lemma requests_bounded_witness :
  (clock (AdapterSample.posted None None ApiSample.go).1.2 ≤ 8005)%N.
Proof.
  apply (requests_bounded (H := AdapterSample.deps None None) HealthSample.client "taskforge-jobs" "queue" 5 3000 4502
    (λ _ _ _, N.le_refl _) (λ _, N.le_refl _) (AdapterSample.boto_time None) ApiSample.encode size (λ _, "") ApiSample.settings
    (λ _, true) (λ _, true) (λ _, None) (λ _, None) ApiSample.go "7d444840-9dc0-11d1-b245-5ffdce74fad2"
    AdapterSample.start).
Defined.


(** A Redis that hangs: 500 once the client has given up, nothing sent. *)
Example hanging_redis :
  let r := AdapterSample.posted None (Some 20%N) ApiSample.go in
  status_of r.1.1 = 500 ∧ clock r.1.2 = 3005%N ∧ sim_queue (inner r.1.2) = [].
Proof. vm_compute. split_and!; reflexivity. Qed.

(** A queue that answers too late: the client is told 500, and the request may
    be on the queue all the same; Python, which tries again, has sent it twice
    (one message for a queue that deduplicates by content). *)
Example late_queue :
  let go := AdapterSample.posted (Some 10%N) (Some 6000%N) ApiSample.go in
  let python := AdapterSample.posted (Some 10%N) (Some 6000%N) AdapterSample.python in
  status_of go.1.1 = 500 ∧ clock go.1.2 = 5015%N ∧ length (sim_queue (inner go.1.2)) = 1%nat
  ∧ status_of python.1.1 = 500 ∧ clock python.1.2 = 4517%N ∧ length (sim_queue (inner python.1.2)) = 2%nat.
Proof. vm_compute. split_and!; reflexivity. Qed.
