(* ===== verification/ApiWorker.v ===== *)
(** * From the interface to the worker

    A job posted to an interface and handled by the worker: the message on the
    queue is read back as the request that was posted, the uploaded inputs are
    fetched into the inputs directory under their own names, and an accepted
    job is settled. *)

From S2P Require Import Prelude Utf8 Json Filesystem Effects Testbed MessageValidation Configurations.
From S2P Require Import TaskDLQ TaskExecutor WorkerStatus Worker StatusSchema WorkerTrace WorkerSafety WorkerProtocol.
From S2P Require Import WorkerSample WorkerTransfers WorkerHistory.
From S2P Require Import Api ApiGo ApiPython ApiJs ApiContract Posting ApiSample ApiProperties.
Import MessageValidation.

(** ** Names *)

Lemma find_last_of_app c p s : ¬ str_In c s → find_last_of c (p +:+ String c s) = Some (String.length p).
Proof.
  intros Hn. induction p as [|d p IH]; [|change (String d p +:+ String c s) with (String d (p +:+ String c s));
    cbn [find_last_of String.length]; by rewrite IH].
  simpl. assert (Hnone : find_last_of c s = None).
  { pose proof (find_last_of_spec c s) as Hs. destruct (find_last_of c s) as [i|]; [|done].
    destruct Hs as [_ [p Hp]]. destruct Hn. rewrite Hp. apply str_In_app. right. by left. }
  by rewrite Hnone, bool_decide_eq_true_2.
Qed.

Lemma str_drop_after p c s : str_drop (S (String.length p)) (p +:+ String c s) = s.
Proof. induction p as [|d p IH]; [by destruct s|exact IH]. Qed.

(** The worker recovers the name an input was uploaded under. *)
Lemma key_filename_input job_id f : ¬ str_In "/" f → key_filename (input_key job_id f) = f.
Proof.
  intros Hf. unfold key_filename, input_key.
  replace ("jobs/" +:+ job_id +:+ "/inputs/" +:+ f) with (("jobs/" +:+ job_id +:+ "/inputs") +:+ String "/" f)
    by (by rewrite !str_app_assoc).
  rewrite find_last_of_app by done. apply str_drop_after.
Qed.

Lemma uuid_no_nul s : is_uuid s = true → ¬ str_In "000" s.
Proof. intros Hs Hin. apply is_uuid_spec in Hs as [_ Hs]. by apply (proj1 (str_forallb_In _ _) Hs) in Hin. Qed.

Lemma input_key_no_nul job_id f : is_uuid job_id = true → ¬ str_In "000" f → ¬ str_In "000" (input_key job_id f).
Proof.
  intros Hid%uuid_no_nul Hf. unfold input_key. rewrite !str_In_app. simpl. intuition discriminate.
Qed.

Lemma path_div_no_nul p c : ¬ str_In "000" p → ¬ str_In "000" c → ¬ str_In "000" (path_div p c).
Proof.
  intros Hp Hc. unfold path_div. repeat case_match; rewrite ?str_In_app; simpl; intuition discriminate.
Qed.

(** Where the input [f] of a job goes. *)
Definition input_target (cfg : ApiSettings) (job_id inputs f : string) : string * string * string :=
  (api_bucket cfg, input_key job_id f, path_div inputs f).

Lemma entry_target_input cfg job_id inputs f :
  is_uuid job_id = true → safe_filename f → ¬ str_In "000" f →
  ¬ str_In "000" (api_bucket cfg) → ¬ str_In "000" inputs →
  entry_target inputs (download_entry_of (api_bucket cfg) job_id f) = Some (input_target cfg job_id inputs f).
Proof.
  intros Hid (_ & Hslash & _) Hf Hb Hi. unfold entry_target, download_entry_of, input_target.
  change (get_string _ "bucket") with (Some (api_bucket cfg)).
  change (get_string _ "key") with (Some (input_key job_id f)). cbv iota.
  rewrite (c_str_id (api_bucket cfg)), (c_str_id (input_key job_id f)), key_filename_input by
    (done || by apply input_key_no_nul).
  by rewrite c_str_id by (by apply path_div_no_nul).
Qed.

(** ** The posted request, read by the worker *)

Section Handover.
Context {X : Type} `{ApiServices X} `{UL : !UuidLaws X}.
Context {Y : Type} `{Services Y} `{FL : !FileLaws Y} `{JsonCodec} `{JL : !JsonCodecLaws}.
Context (encode : json → string) (js_length : string → Z) (validation_message : Js.CreateJobDto → string).
Context (cfg : ApiSettings).

Abbreviation post := (post encode js_length validation_message cfg).

(** Both sides speak JSON: what the interface encodes, the worker reads back. *)
Definition encodes : Prop := ∀ v, json_wf v = true → parse (encode v) = inl v.

(** A request with its strings in Unicode, and the settings of the
    interface. *)
Record interoperable (q : posting) : Prop := {
  inter_length : js_length "" = 0;
  inter_bucket : api_bucket cfg ≠ "" ∧ valid_utf8 (api_bucket cfg) = true;
  inter_unicode : unicode q;
  inter_timeout : ¬ null_timeout q;
}.

Definition posted_message (q : posting) (x : X) : object :=
  request_message cfg (issued x).1 (issued x).2 (asked_task q) (asked_files q).

Lemma posted_message_wf q (x : X) :
  interoperable q → accepts js_length q = true → json_wf (JObject (posted_message q x)) = true.
Proof using UL.
  intros [Hl [_ Hb] (Hn & Ha & Hf) Ht] Hok. unfold posted_message.
  change (issued x).2 with (format_utc (api_now (new_uuid x).2).1).
  apply request_message_wf; [exact Hb|exact (uuid_utf8 _ (new_uuid_form x))|exact Hf|].
  rewrite asked_task_of by done. apply request_task_wf; [done..|]. intros t Htime.
  eapply accepted_timeout in Htime; [|done]. unfold in_int64, INT64_MIN, INT64_MAX. lia.
Qed.

Lemma posted_message_valid q (x : X) :
  interoperable q → accepts js_length q = true → validate_request (posted_message q x) = Expected ().
Proof using UL.
  intros [Hl [Hb _] _ Ht] Hok. unfold posted_message. rewrite asked_task_of by done.
  apply request_message_valid; [apply new_uuid_form| |done]. by eapply request_task_valid, accepted_name.
Qed.

(** What an accepted request puts on the queue. *)
Lemma posted_sent q (x : X) body group r :
  ApSend body group r ∈ (post q x).2 →
  accepts js_length q = true ∧ body = encode (JObject (posted_message q x)).
Proof.
  intros Hin. destruct (accepts js_length q) eqn:Hok; [|by rewrite post_rejected in Hin; [apply elem_of_nil in Hin|]].
  split; [done|]. destruct (post_creation encode js_length validation_message cfg q x Hok) as (res & Hc & _).
  exact (creation_sends _ _ _ _ _ _ _ _ _ _ _ _ Hc Hin).
Qed.

Lemma posted_success q (x : X) document :
  (post q x).1.1 = inl (202, document) →
  ApSend (encode (JObject (posted_message q x))) (group_id cfg) (Expected ()) ∈ (post q x).2.
Proof.
  intros Hans. destruct (accepts js_length q) eqn:Hok.
  - destruct (post_creation encode js_length validation_message cfg q x Hok) as (r & Hc & Ha).
    rewrite Hans in Ha. injection Ha as Ha.
    destruct Hc as [| | |urls Hu]; [by destruct q..|]. apply elem_of_app. right. right. left.
  - rewrite post_rejected in Hans by done. destruct q; simpl in Hans; simplify_eq;
      [by destruct (Go.binding_ok _)|unfold Python.validation_error in *; by case_match].
Qed.

(** C22: an input uploaded through an interface reaches the task under its own
    name. The message an interface enqueued is read back by the worker, and
    when fetching the inputs of that message succeeds, the objects fetched are
    exactly those the upload URLs were signed for, in order, each stored as
    the file of its name directly inside the inputs directory (for names other
    than [.] and without NUL bytes). *)
Theorem inputs_arrive q (x : X) body group r inputs (s : Machine Y) :
  encodes → interoperable q → ApSend body group r ∈ (post q x).2 →
  ¬ str_In "000" (api_bucket cfg) → ¬ str_In "000" inputs →
  Forall (λ f, f ≠ "." ∧ ¬ str_In "000" f) (asked_files q) →
  ∃ message, parse body = inl (JObject message) ∧
    let '(o, s', es) := Worker.download_inputs message inputs s in
    o = Returned (Expected ()) →
    successes es = input_target cfg (issued x).1 inputs <$> asked_files q ∧
    Forall (λ f, resolve (files s) (path_div inputs f) = resolve (files s) inputs ++ [f]) (asked_files q).
Proof using UL.
  intros Henc Hq Hin Hb Hi Hf. apply posted_sent in Hin as [Hok ->].
  exists (posted_message q x). split; [by apply Henc, posted_message_wf|].
  pose proof (accepted_files js_length q Hok) as Hsafe.
  unfold Worker.download_inputs, mbind, M_bind.
  rewrite (at_array_run _ _ (download_entry_of (api_bucket cfg) (issued x).1 <$> asked_files q)) by done.
  pose proof (posted_message_valid q x Hq Hok) as Hv. apply valid_request_iff, request_downloads in Hv as (l & Hl & Hv).
  injection Hl as <-.
  pose proof (download_entries_attempts _ inputs s Hv) as He. unfold mbind, M_bind in He.
  destruct (Worker.download_entries _ inputs s) as [[o s'] es].
  destruct He as (_ & fetched & rest & Hall & Hs & [[-> ->]|[[e ->] _]]); [intros _|done].
  rewrite app_nil_r in Hall. subst fetched. split.
  - apply (inj (fmap (M := list) Some)). etrans; [exact Hs|]. rewrite <-!list_fmap_compose. apply list_fmap_ext.
    intros i f Hif. apply list_elem_of_lookup_2 in Hif. rewrite Forall_forall in Hf, Hsafe.
    simpl. apply entry_target_input; [apply new_uuid_form|by apply Hsafe|by apply Hf|done..].
  - eapply Forall_impl; [apply Forall_and; split; [exact Hsafe|exact Hf]|].
    intros f [Hsf [Hdot _]]. by apply resolve_child, safe_filename_plain.
Qed.

Context (w : Worker.t).
Context (redis_accepts : ∀ key text ttl (y : Y), (redis_set key text ttl y).1 = Expected ()).
Abbreviation max_retry := (TaskDLQ.max_retry_count (Worker.task_dlq w)).

(** C10: a job that was accepted is settled. When an interface answers 202 to a
    request in Unicode without an explicit null timeout, the request is on the
    queue, and a worker that handles it, and each retry it asks for, on a
    healthy file system and with a Redis that accepts writes, ends after at
    most one more message than its retry limit with [done] or [failed] recorded
    for the identifier the client was given (unless the job was already
    finished or a retry counter overflows). *)
Theorem accepted_job_is_settled q (x : X) document (s : Machine Y) :
  encodes → interoperable q → (post q x).1.1 = inl (202, document) →
  healthy (files s) → max_retry ≤ INT_MAX →
  ∃ body o s' es, ApSend body (group_id cfg) (Expected ()) ∈ (post q x).2 ∧
    deliver w (S (Z.to_nat max_retry)) body s = Some (o, s', es) ∧
    (o = Undefined ∨ o = Returned (Expected ()) ∧ settled w (issued x).1 es).
Proof using FL JL UL redis_accepts.
  intros Henc Hq Hans Hh Hmax. pose proof (posted_success q x document Hans) as Hin.
  destruct (posted_sent _ _ _ _ _ Hin) as [Hok _].
  pose proof (posted_message_wf q x Hq Hok) as Hwf.
  destruct (deliver_settles w redis_accepts (S (Z.to_nat max_retry)) (encode (JObject (posted_message q x))) (posted_message q x) (issued x).1 s)
    as (o & s' & es & Hd & Ho); [exact Hh|exact (Henc _ Hwf)|exact Hwf|exact (posted_message_valid q x Hq Hok)
      |reflexivity|exact Hmax|lia|].
  exists (encode (JObject (posted_message q x))), o, s', es. exact (conj Hin (conj Hd Ho)).
Qed.

End Handover.

(** ** A concrete job, from the interface to the worker *)

Section HandoverWitnesses.
Import RefCodec.

Lemma sample_encodes : encodes ApiSample.encode.
Proof. intros v Hv. exact (parse_serialize v Hv). Qed.

Lemma sample_interoperable : interoperable size ApiSample.settings ApiSample.go.
Proof.
  split; [reflexivity|split; [discriminate|reflexivity]| |simpl; tauto].
  split_and!; repeat constructor.
Qed.

Lemma inputs_arrive_witness :
  ∃ body group r message, ApSend body group r ∈ (ApiSample.posted ApiSample.go).2 ∧ parse body = inl (JObject message).
Proof.
  assert (Hin : ∃ body group r, ApSend body group r ∈ (ApiSample.posted ApiSample.go).2).
  { eexists _, _, _. vm_compute. right. right. left. }
  destruct Hin as (body & group & r & Hin).
  destruct (inputs_arrive ApiSample.encode size (λ _, "") ApiSample.settings ApiSample.go ApiSample.services
    body group r "/tmp/inputs" (Sample.machine ∅ 0) sample_encodes sample_interoperable Hin) as (message & Hp & _).
  - vm_compute. intuition discriminate.
  - vm_compute. intuition discriminate.
  - constructor; [|constructor]. split; [discriminate|vm_compute; intuition discriminate].
  - exists body, group, r, message. split; assumption.
Defined.

Lemma accepted_job_is_settled_witness :
  ∃ body o s' es, ApSend body "jobs" (Expected ()) ∈ (ApiSample.posted ApiSample.go).2 ∧
    deliver Sample.worker sample_fuel body (Sample.machine ∅ 0) = Some (o, s', es) ∧
    (o = Undefined ∨ o = Returned (Expected ()) ∧
       settled Sample.worker "7d444840-9dc0-11d1-b245-5ffdce74fad2" es).
Proof.
  assert (Hans : ∃ document, (ApiSample.posted ApiSample.go).1.1 = inl (202, document)) by (eexists; vm_compute; reflexivity).
  destruct Hans as [document Hans].
  apply (accepted_job_is_settled ApiSample.encode size (λ _, "") ApiSample.settings Sample.worker sim_accepts ApiSample.go
    ApiSample.services document (Sample.machine ∅ 0) sample_encodes sample_interoperable Hans sim_fs_healthy).
  vm_compute. discriminate.
Defined.
End HandoverWitnesses.
