(* ===== verification/DocumentFields.v ===== *)
(** * What every status document tells a client

    The fields [task_name] and [enqueued_at] of a job: whatever is stored when
    a message is handled (nothing, an expired or an unreadable entry), every
    document the worker writes carries them, taken from the message; and since
    a retry carries the message along, they are those of the posted request
    for as long as the job is worked on. *)

From S2P Require Import Prelude Utf8 Json Filesystem Effects Testbed MessageValidation Configurations.
From S2P Require Import TaskDLQ TaskExecutor WorkerStatus Worker StatusSchema WorkerTrace WorkerSafety WorkerProtocol.
From S2P Require Import WorkerSample WorkerProperties WorkerTransfers WorkerHistory.
From S2P Require Import Api ApiGo ApiPython ApiJs ApiContract Posting ApiSample ApiProperties ApiWorker.
Import MessageValidation.

(** The task and the time a document or a message names. *)
Record identifies (d : object) (name enqueued_at : string) : Prop := {
  identifies_task : d !! "task_name" = Some (JString name);
  identifies_time : d !! "enqueued_at" = Some (JString enqueued_at);
}.

Definition names_job (message : object) (name enqueued_at : string) : Prop :=
  (∃ task, get_object message "task" = Some task ∧ get_string task "name" = Some name) ∧
  get_string message "enqueued_at" = Some enqueued_at.

Lemma contract_fields_identify message name t :
  names_job message name t → identifies (contract_fields message) name t.
Proof.
  intros [(task & Htask & Hname) Ht]. unfold contract_fields. rewrite Htask, Hname, Ht.
  split; by simplify_map_eq.
Qed.

(** Updates that carry the fields of a message put them into the document,
    whatever it is merged over. *)
Lemma carried_fields_stored message updates existing id st time name t :
  names_job message name t → carries message updates →
  identifies (merge_status existing id st updates time) name t.
Proof.
  intros [H1 H2]%contract_fields_identify Hc. unfold carries in Hc.
  split; rewrite merge_status_lookup; case_bool_decide; try done;
    [by rewrite (lookup_weaken _ _ _ _ H1 Hc)|by rewrite (lookup_weaken _ _ _ _ H2 Hc)].
Qed.

Lemma names_job_counted message name t n :
  names_job message name t → names_job (<["dlq_try_count" := JInt64 n]> message) name t.
Proof.
  unfold names_job, get_object, get_string, at_. intros [(task & Hm & Ht) He].
  split; [exists task; split; [|done]|]; by simplify_map_eq.
Qed.

(** ** One message *)

Section Documents.
Context {X : Type} `{Services X} `{JsonCodec}.
Context (w : Worker.t).

(** A write of a document of the job of [message] that names its task and
    time. *)
Definition complete_event (message : object) (name t : string) (e : Event) : Prop :=
  match e with
  | EvRedisSet key text ttl _ =>
      get_string message "job_id" = Some key ∧ is_valid_job_id key = true ∧
      ttl = Some (redis_ttl_sec_ (Worker.configurations w)) ∧
      ∃ d, text = serialize (JObject d) ∧ identifies d name t
  | _ => True
  end.

Lemma handle_message_complete body message name t :
  parse body = inl (JObject message) → names_job message name t →
  emits (complete_event message name t) (Worker.handle_message w body : M X (expected unit)).
Proof.
  intros Hp Hn. eapply (handle_message_emits w); try done.
  - intros id st updates e Hid Hval Hc (existing & time & r & ->).
    split_and!; [done..|]. eexists. split; [done|]. by eapply carried_fields_stored.
  - by intros id n e _ _ _ [? ->].
Qed.

(** C17: every status document is complete. Whatever message is handled, valid or
    not, and whatever is stored for the job, every document written on any
    branch (running, done, failed, put back, rejected) is a document of the
    job of the message with its task name and the time it was enqueued, kept
    for the configured lifetime. *)
Theorem documents_complete body message name t (s : Machine X) key text ttl r :
  parse body = inl (JObject message) → names_job message name t →
  EvRedisSet key text ttl r ∈ (Worker.handle_message w body s).2 →
  get_string message "job_id" = Some key ∧ is_valid_job_id key = true ∧
  ttl = Some (redis_ttl_sec_ (Worker.configurations w)) ∧
  ∃ d, text = serialize (JObject d) ∧ identifies d name t.
Proof.
  intros Hp Hn Hin. pose proof (handle_message_complete body message name t Hp Hn s) as Hall.
  rewrite Forall_forall in Hall. exact (Hall _ Hin).
Qed.

(** ** A message and its retries *)

(** [body'] is [body] or was published, on some machine, while handling such a
    message. *)
Inductive descends (body : string) : string → Prop :=
| descends_self : descends body body
| descends_retry body' (s : Machine X) out group dedup r :
    descends body body' → EvSend out group dedup r ∈ (Worker.handle_message w body' s).2 →
    descends body out.

Context `{JL : !JsonCodecLaws}.

(** A retry is the same request with another count. *)
Lemma descends_message body body' message :
  TaskDLQ.max_retry_count (Worker.task_dlq w) ≤ INT_MAX →
  parse body = inl (JObject message) → json_wf (JObject message) = true → descends body body' →
  ∃ message', parse body' = inl (JObject message') ∧ json_wf (JObject message') = true ∧
    get_string message' "job_id" = get_string message "job_id" ∧
    ∀ name t, names_job message name t → names_job message' name t.
Proof using JL.
  intros Hmax Hp Hwf. induction 1 as [|body' s out group dedup r _ IH Hin]; [by exists message|].
  destruct IH as (message' & Hp' & Hwf' & Hid & Hn).
  destruct (send_in_trace w _ _ _ _ _ _ _ Hp' Hin) as (id & n & _ & _ & (Hlow & _ & Hup) & -> & _).
  assert (Hint : in_int n) by (unfold in_int, INT_MIN; lia).
  pose proof (count_insert_wf message' n Hwf' Hint) as Hwf''.
  exists (<["dlq_try_count" := JInt64 n]> message'). split_and!; [by apply parse_serialize|done| |].
  - unfold get_string, at_ in *. by rewrite lookup_insert_ne.
  - intros name t Hm. by apply names_job_counted, Hn.
Qed.

End Documents.

(** ** From the posted request on *)

(** What creation stores names the task and the time. *)
Lemma creation_document encode cfg job_id now name files task es r key value ttl saved :
  creation encode cfg job_id now name files task es r → ApSet key value ttl saved ∈ es →
  key = job_id ∧ ∃ d, value = encode (JObject d) ∧ identifies d name now.
Proof.
  assert (Hp : ∀ urls, ApSet key value ttl saved ∉ presigns cfg job_id urls).
  { intros urls Hin. unfold presigns in Hin. by apply list_elem_of_fmap in Hin as (u & ? & _). }
  intros Hc Hin.
  assert (Hset : ∃ saved', ApSet key value ttl saved = record_queued encode cfg job_id name now saved').
  { destruct Hc as [urls f rest e ?|urls e ?|urls e ?|urls ?];
      apply elem_of_app in Hin as [Hin|Hin]; try (by destruct (Hp urls)); set_solver. }
  destruct Hset as [saved' [= -> -> _ _]]. split; [done|]. by eexists.
Qed.

Section Posted.
Context {X : Type} `{ApiServices X} `{UL : !UuidLaws X}.
Context {Y : Type} `{Services Y} `{JsonCodec} `{JL : !JsonCodecLaws}.
Context (encode : json → string) (js_length : string → Z) (validation_message : Js.CreateJobDto → string).
Context (cfg : ApiSettings) (w : Worker.t).

Abbreviation post := (post encode js_length validation_message cfg).

Lemma posted_names q (x : X) : names_job (posted_message cfg q x) (asked_name q) (issued x).2.
Proof.
  split; [exists (asked_task q); split; [done|]|done].
  destruct q as [dto|request|dto]; simpl; unfold Go.queueTask, Python.task, Js.task; by repeat case_match.
Qed.

(** C23: a client sees one task and one time of enqueueing throughout. For a
    request that was put on the queue, the document the interface stored and
    every document a worker writes while handling the request or any of its
    retries, whatever is stored meanwhile, is stored under the identifier of
    the job and names the task that was asked for and the time of creation. *)
Theorem posted_fields_kept q (x : X) body group sent :
  encodes encode → interoperable js_length cfg q → TaskDLQ.max_retry_count (Worker.task_dlq w) ≤ INT_MAX →
  ApSend body group sent ∈ (post q x).2 →
  (∀ key value ttl r, ApSet key value ttl r ∈ (post q x).2 →
     key = (issued x).1 ∧ ∃ d, value = encode (JObject d) ∧ identifies d (asked_name q) (issued x).2) ∧
  (∀ body' (s : Machine Y) key text ttl r, descends (X := Y) w body body' →
     EvRedisSet key text ttl r ∈ (Worker.handle_message w body' s).2 →
     key = (issued x).1 ∧ ∃ d, text = serialize (JObject d) ∧ identifies d (asked_name q) (issued x).2).
Proof using JL UL.
  intros Henc Hq Hmax Hin. split.
  - intros key value ttl r Hset.
    destruct (posted_sent encode js_length validation_message cfg _ _ _ _ _ Hin) as [Hok _].
    destruct (post_creation encode js_length validation_message cfg q x Hok) as (res & Hc & _).
    exact (creation_document _ _ _ _ _ _ _ _ _ _ _ _ _ Hc Hset).
  - intros body' s key text ttl r Hd Hset. apply posted_sent in Hin as [Hok ->].
    pose proof (posted_message_wf js_length cfg q x Hq Hok) as Hwf.
    destruct (descends_message w _ body' (posted_message cfg q x) Hmax (Henc _ Hwf) Hwf Hd)
      as (message & Hp & _ & Hid & Hn).
    pose proof (handle_message_complete w body' message _ _ Hp (Hn _ _ (posted_names q x)) s) as Hall.
    rewrite Forall_forall in Hall. destruct (Hall _ Hset) as (Hkey & _ & _ & Hdoc). rewrite Hid in Hkey.
    change (Some (issued x).1 = Some key) in Hkey. injection Hkey as Hkey. exact (conj (eq_sym Hkey) Hdoc).
Qed.

End Posted.

(** ** Concrete documents *)

Section DocumentWitnesses.
Import RefCodec.

Lemma documents_complete_witness :
  ∃ key text ttl r, EvRedisSet key text ttl r ∈ (Worker.handle_message Sample.worker Sample.body (Sample.machine ∅ 1)).2 ∧
    ∃ d, text = ref_serialize (JObject d) ∧ identifies d "wordcount" "2024-02-29T12:00:00Z".
Proof.
  assert (Hin : ∃ key text ttl r,
    EvRedisSet key text ttl r ∈ (Worker.handle_message Sample.worker Sample.body (Sample.machine ∅ 1)).2).
  { eexists _, _, _, _. apply (list_elem_of_lookup_2 _ 3). vm_compute. reflexivity. }
  destruct Hin as (key & text & ttl & r & Hin). exists key, text, ttl, r. split; [exact Hin|].
  destruct (documents_complete Sample.worker Sample.body Sample.message "wordcount" "2024-02-29T12:00:00Z"
    (Sample.machine ∅ 1) key text ttl r) as (_ & _ & _ & Hd);
    [exact Sample.body_parses|split; [eexists; split; reflexivity|reflexivity]|exact Hin|exact Hd].
Defined.

Lemma posted_fields_kept_witness :
  ∃ body group r, ApSend body group r ∈ (ApiSample.posted ApiSample.go).2 ∧
    ∀ (s : Machine Sim) key text ttl r',
      EvRedisSet key text ttl r' ∈ (Worker.handle_message Sample.worker body s).2 →
      ∃ d, text = ref_serialize (JObject d) ∧ identifies d "wordcount" (issued ApiSample.services).2.
Proof.
  assert (Hin : ∃ body group r, ApSend body group r ∈ (ApiSample.posted ApiSample.go).2).
  { eexists _, _, _. vm_compute. right. right. left. }
  destruct Hin as (body & group & r & Hin). exists body, group, r. split; [exact Hin|].
  intros s key text ttl r' Hset.
  destruct (posted_fields_kept (Y := Sim) ApiSample.encode size (λ _, "") ApiSample.settings Sample.worker
    ApiSample.go ApiSample.services body group r) as [_ Hw];
    [exact sample_encodes|exact sample_interoperable|vm_compute; discriminate|exact Hin|].
  apply (Hw body s key text ttl r' (descends_self _ _) Hset).
Defined.
End DocumentWitnesses.
