(* ===== verification/PostedResults.v ===== *)
(** * From the posted request to the results

    A job with a shipped task, from the request a client posts to the objects
    its results are: the interface, the worker with its temporary directory,
    the script and the uploads together ([posted_job_results]). *)

From S2P Require Import Prelude Utf8 Json Filesystem Effects Testbed MessageValidation Configurations.
From S2P Require Import TaskDLQ TaskExecutor TaskScripts WorkerStatus Worker WorkerTrace WorkerSample WorkerTransfers TaskResults.
From S2P Require Import Api ApiGo ApiPython ApiJs ApiContract Posting ApiSample ApiProperties ApiWorker.
Import MessageValidation.

(** ** Making directories *)

Lemma prefix_snoc_cases {A} (p l : list A) a : p `prefix_of` l ++ [a] → p `prefix_of` l ∨ p = l ++ [a].
Proof.
  intros [k Hk]. destruct k as [|b k _] using rev_ind; [right; by rewrite app_nil_r in Hk|left].
  rewrite app_assoc in Hk. apply app_inj_tail in Hk as [-> _]. by exists k.
Qed.

(** Nothing but directories on the way to [r]. *)
Definition clear_way (m : gmap (list string) node) (r : list string) : Prop :=
  ∀ p, p ≠ [] → p `prefix_of` r → m !! p = None ∨ m !! p = Some Directory.

Lemma make_dirs_made fs d todo :
  (∀ op p, denied fs op p = false) →
  (∀ p, p ≠ [] → p `prefix_of` todo → nodes fs !! (d ++ p) = None ∨ nodes fs !! (d ++ p) = Some Directory) →
  ∃ m, make_dirs fs d todo = (with_nodes fs m, true) ∧
    (∀ p, p ≠ [] → p `prefix_of` todo → m !! (d ++ p) = Some Directory) ∧
    (∀ q, (∀ p, p ≠ [] → p `prefix_of` todo → q ≠ d ++ p) → m !! q = nodes fs !! q).
Proof.
  revert fs d. induction todo as [|c todo IH]; intros fs d Hallow Hway; cbn [make_dirs].
  { exists (nodes fs). split; [by destruct fs|]. split; [|done]. by intros p Hp ->%prefix_nil_inv. }
  set (fs1 := if bool_decide (nodes fs !! (d ++ [c]) = Some Directory) then fs
              else with_nodes fs (<[d ++ [c] := Directory]> (nodes fs))).
  assert (Hhere : nodes fs1 !! (d ++ [c]) = Some Directory).
  { unfold fs1. case_bool_decide; [done|]. apply lookup_insert_eq. }
  assert (Hother : ∀ q, q ≠ d ++ [c] → nodes fs1 !! q = nodes fs !! q).
  { intros q Hq. unfold fs1. case_bool_decide; [done|]. by apply lookup_insert_ne. }
  assert (Hdeep : ∀ p, p ≠ [] → (d ++ [c]) ++ p ≠ d ++ [c]).
  { intros p Hp Heq. apply Hp. apply (f_equal length) in Heq. rewrite !length_app in Heq. destruct p; [done|simpl in Heq; lia]. }
  destruct (IH fs1 (d ++ [c])) as (m & Hm & Hdirs & Hrest).
  { intros op p. unfold fs1. case_bool_decide; apply Hallow. }
  { intros p Hp Hpre. rewrite Hother by (by apply Hdeep). rewrite <-app_assoc. apply Hway; [done|by apply prefix_cons]. }
  exists m. split; [|split].
  - destruct (Hway [c]) as [Hnone|Hdir]; [done|by apply prefix_cons, prefix_nil| |].
    + rewrite Hnone, Hallow. unfold fs1 in Hm. rewrite bool_decide_eq_false_2 in Hm by (by rewrite Hnone). exact Hm.
    + rewrite Hdir. unfold fs1 in Hm. by rewrite bool_decide_eq_true_2 in Hm.
  - intros [|c' p] Hp Hpre; [done|]. apply prefix_cons_inv_1 in Hpre as Hc. apply prefix_cons_inv_2 in Hpre. subst c'.
    destruct (decide (p = [])) as [->|Hne].
    + rewrite Hrest; [done|]. intros p Hp' _ Heq. by eapply Hdeep.
    + change (c :: p) with ([c] ++ p). rewrite app_assoc. by apply Hdirs.
  - intros q Hq. rewrite Hrest.
    + apply Hother. apply (Hq [c]); [done|]. by apply prefix_cons, prefix_nil.
    + intros p Hp Hpre Heq. apply (Hq (c :: p)); [done|by apply prefix_cons|]. by rewrite Heq, <-app_assoc.
Qed.

Section Fresh.
Context {Y : Type} `{Services Y}.

(** Where the directory of a job can be made and there was none before, it is
    fresh. *)
Lemma temp_dir_fresh job_id temp (s : Machine Y) :
  let R := resolve (files s) (job_root temp job_id) in
  temp_directory (files s) = Some temp → (∀ op p, denied (files s) op p = false) → plain_name job_id →
  clear_way (nodes (files s)) R → (∀ q, R `prefix_of` q → nodes (files s) !! q = None) →
  ∃ m, make_temp_dir job_id s = (Returned (job_root temp job_id), mkMachine (with_nodes (files s) m) (ext s), []) ∧
    fresh_root (with_nodes (files s) m) (job_root temp job_id).
Proof.
  intros R Htemp Hallow Hid Hway Habsent.
  assert (Hroot : R ≠ []) by (unfold R, job_root; rewrite resolve_child by done; by intros [_ ?]%app_eq_nil).
  set (root := job_root temp job_id) in *.
  assert (Hsub : ∀ sub fs, sub ∈ ["inputs"; "outputs"] → resolve fs (path_div root sub) = resolve fs root ++ [sub]).
  { intros sub fs Hsub. apply resolve_child, sub_plain. set_solver. }
  destruct (make_dirs_made (files s) [] (R ++ ["inputs"]) Hallow) as (m1 & Hm1 & Hdirs1 & Hrest1).
  { intros p Hp [Hpre| ->]%prefix_snoc_cases; simpl; [by apply Hway|left; apply Habsent; by exists ["inputs"]]. }
  assert (Hout : R ++ ["outputs"] ≠ R ++ ["inputs"]) by (by intros [_ ?]%app_inj_tail).
  assert (Hlong : ∀ (q : list string) sub p, p `prefix_of` R ++ [sub] → q = p → (length q ≤ S (length R))%nat).
  { intros q sub p Hp ->. apply prefix_length in Hp. rewrite length_app in Hp. simpl in Hp. lia. }
  destruct (make_dirs_made (with_nodes (files s) m1) [] (R ++ ["outputs"])) as (m2 & Hm2 & Hdirs2 & Hrest2).
  { done. }
  { intros p Hp [Hpre| ->]%prefix_snoc_cases; simpl.
    - right. apply (Hdirs1 p); [done|]. by apply prefix_app_r.
    - left. rewrite Hrest1; [apply Habsent; by exists ["outputs"]|].
      intros p _ [Hpre| ->]%prefix_snoc_cases; [|done]. simpl. intros <-.
      apply prefix_length in Hpre. rewrite length_app in Hpre. simpl in Hpre. lia. }
  exists m2. split.
  - unfold make_temp_dir, mbind, M_bind, get_files, set_files, unwrap, mret, M_ret. rewrite Htemp.
    fold (job_root temp job_id). fold root. unfold create_directories. simpl.
    rewrite (Hsub "inputs") by set_solver. fold R. rewrite Hm1. simpl.
    rewrite (Hsub "outputs") by set_solver. change (resolve (with_nodes (files s) m1) root) with R. by rewrite Hm2.
  - assert (Hin2 : m2 !! (R ++ ["inputs"]) = Some Directory).
    { rewrite Hrest2; [apply (Hdirs1 (R ++ ["inputs"])); [by destruct R|done]|].
      intros p _ [Hpre| ->]%prefix_snoc_cases; [|by intros ?%symmetry]. simpl. intros <-.
      apply prefix_length in Hpre. rewrite length_app in Hpre. simpl in Hpre. lia. }
    split.
    + split; [unfold root, job_root|].
      { apply path_div_nonempty, Hid. }
      rewrite resolve_with_nodes. change (resolve (files s) root) with R.
      destruct R as [|a l] eqn:HR; [done|]. simpl. apply (Hdirs2 (a :: l)); [done|by apply prefix_app_r].
    + intros sub. rewrite resolve_with_nodes. fold R. rewrite !elem_of_cons.
      intros [->|[->|[]%not_elem_of_nil]]; simpl; [done|]. apply (Hdirs2 (R ++ ["outputs"])); [by destruct R|done].
    + intros sub name Hs. rewrite resolve_with_nodes. fold R. simpl. rewrite Hrest2, Hrest1.
      * apply Habsent. rewrite <-app_assoc. by eexists.
      * intros p _ Hpre Heq. apply (Hlong _ _ _ Hpre) in Heq. rewrite !length_app in Heq. simpl in Heq. lia.
      * intros p _ Hpre Heq. apply (Hlong _ _ _ Hpre) in Heq. rewrite !length_app in Heq. simpl in Heq. lia.
    + exact Hallow.
Qed.
End Fresh.

Lemma suffix_no_nul t : ¬ str_In "000" (task_suffix t).
Proof. destruct t; apply (bool_decide_eq_true_1 _); vm_compute; reflexivity. Qed.
Lemma output_prefix_no_nul job_id : ¬ str_In "000" job_id → ¬ str_In "000" (output_prefix_of job_id).
Proof. intros Hid. unfold output_prefix_of. rewrite !str_In_app. simpl. intuition discriminate. Qed.

Section Posted.
Context {X : Type} `{ApiServices X} `{UL : !UuidLaws X}.
Context {Y : Type} `{Services Y} `{TL : !TransferLaws Y} `{JsonCodec}.
Context (encode : json → string) (js_length : string → Z) (validation_message : Js.CreateJobDto → string).
Context (cfg : ApiSettings) (w : Worker.t).

Abbreviation post := (post encode js_length validation_message cfg).
Abbreviation bucket := (c_str (s3_bucket_ (Worker.configurations w))).

(** Names the scripts can read: not [.], no NUL, no newline at the end. *)
Definition script_filename (f : string) : Prop := f ≠ "." ∧ ¬ str_In "000" f ∧ strip_newlines f = f.

(** A worker that can make the directory of a job, for the first time. *)
Record ready_for (fs : FileSystem) (temp job_id : string) : Prop := {
  ready_temp : temp_directory fs = Some temp ∧ ¬ str_In "000" temp;
  ready_allowed op p : denied fs op p = false;
  ready_way : clear_way (nodes fs) (resolve fs (job_root temp job_id));
  ready_absent q : resolve fs (job_root temp job_id) `prefix_of` q → nodes fs !! q = None;
}.

Lemma silent {A} (m : M Y A) s o s' es : emits (λ _, False) m → m s = (o, s', es) → es = [].
Proof using Type. intros Hm Hr. specialize (Hm s). rewrite Hr in Hm. destruct es; [done|]. by apply Forall_cons in Hm as [[] _]. Qed.

(** A processed job of a registered task: what happens inside its directory. *)
Lemma process_job_inside message task job_id name body definition (s s' : Machine Y) es :
  is_valid_job_id job_id = true → message !! "job_id" = Some (JString job_id) → message !! "task" = Some (JObject task) →
  task !! "name" = Some (JString name) → terminal_text (redis_get job_id (ext s)).1 = false →
  TaskExecutor.find_task (Worker.task_executor w) (c_str name) = Some definition →
  Worker.process_job w message body s = (Returned (Expected ()), s', es) →
  ∃ root s1 s2 s3 es1,
    files s1 = files s ∧ make_temp_dir job_id s1 = (Returned root, s2, []) ∧
    Worker.run_job w message task job_id (c_str name) definition root s2 = (Returned (Expected ()), s3, es1) ∧
    uploads es = uploads es1.
Proof using Type.
  intros Hid Hm Htask Hname Hterm Hfind. unfold Worker.process_job. intros Hr.
  bind_inv Hr as (id & s1 & es1 & es2 & K1 & Hr & ->). rewrite (at_string_run _ _ job_id), valid_job_id_c_str in K1 by done.
  injection K1 as <- <- <-.
  bind_inv Hr as (t & s2 & es3 & es4 & K2 & Hr & ->). rewrite (at_object_run _ _ task) in K2 by done. injection K2 as <- <- <-.
  bind_inv Hr as (n & s3 & es5 & es6 & K3 & Hr & ->). rewrite (at_string_run _ _ name) in K3 by done. injection K3 as <- <- <-.
  bind_inv Hr as (b & s4 & es7 & es8 & K4 & Hr & ->). rewrite is_terminal_run, Hterm in K4. injection K4 as <- <- <-.
  rewrite Hfind in Hr. bind_inv Hr as ([] & s5 & es9 & es10 & K5 & Hr & ->). unfold Worker.status in K5.
  match type of K5 with set_job_status ?t ?i ?st ?u ?m = _ =>
    destruct (set_job_status_run t i st u m) as (existing & updated_at & saved & x & _ & Heq) end.
  rewrite Heq in K5. injection K5 as <- <-.
  unfold with_temp_dir in Hr. bind_inv Hr as (root & s6 & es11 & es12 & K6 & Hr & ->).
  assert (es11 = []) as -> by (eapply silent; [|exact K6]; unfold make_temp_dir; emits_tac).
  apply with_cleanup_Returned in Hr as (s7 & es13 & o & es14 & K7 & K8 & ->).
  exists root, (mkMachine (files s) x), s6, s7, es13. split; [done|]. split; [exact K6|]. split; [exact K7|].
  assert (es14 = []) as -> by (eapply silent; [|exact K8]; unfold remove_temp_dir; emits_tac).
  simpl. rewrite !app_nil_r. by destruct saved.
Qed.

(** The files of a posted request, where the worker puts them. *)
Lemma posted_goes_to q (x : X) inputs :
  accepts js_length q = true → ¬ str_In "000" (api_bucket cfg) → ¬ str_In "000" inputs →
  Forall script_filename (asked_files q) →
  Forall2 (goes_to inputs) (download_entry_of (api_bucket cfg) (issued x).1 <$> asked_files q) (asked_files q).
Proof using UL.
  intros Hok Hb Hi Hf. pose proof (accepted_files js_length q Hok) as Hsafe.
  induction Hf as [|f files Hf _ IH]; [constructor|]. apply Forall_cons in Hsafe as [Hs Hsafe].
  constructor; [|by apply IH]. eexists _, _. apply entry_target_input; [apply new_uuid_form|done|apply Hf|done..].
Qed.

Lemma posted_task_name q : ¬ null_timeout q → asked_task q !! "name" = Some (JString (asked_name q)).
Proof using Type. intros Hn. rewrite asked_task_of by done. unfold request_task_of. by destruct (asked_timeout q). Qed.

(** C14: the results of a posted job. A request is posted through any of the
    three interfaces and put on the queue; the worker reads it back, and when
    it processes the job with a shipped task to its end, the client's input
    files an asterisk matches (at least one) have a result each: the object
    [jobs/<id>/outputs/<file><suffix>] of the worker's bucket. Nothing else is
    uploaded. (The file system of the worker denies nothing and has no directory
    for the job yet; file names are other than [.], without NUL bytes, and do not end
    in a newline.) *)
Theorem posted_job_results q (x : X) body group r collate t definition temp (s : Machine Y) :
  encodes encode → interoperable js_length cfg q → ApSend body group r ∈ (post q x).2 →
  ¬ str_In "000" (api_bucket cfg) → Forall script_filename (asked_files q) →
  TaskExecutor.find_task (Worker.task_executor w) (c_str (asked_name q)) = Some definition →
  (∀ l, collate l ≡ₚ l) →
  runs_script (TaskExecutor.resolve_executable (Worker.task_executor w) (task_executable definition)) (task_run collate t) →
  ready_for (files s) temp (issued x).1 → terminal_text (redis_get (issued x).1 (ext s)).1 = false →
  ∃ message, parse body = inl (JObject message) ∧
    ∀ s' es, Worker.process_job w message body s = (Returned (Expected ()), s', es) →
      (∃ f, f ∈ asked_files q ∧ star_matches f = true) ∧
      ∀ b key, (∃ path, (b, key, path) ∈ uploads es) ↔
        b = bucket ∧ ∃ f, f ∈ asked_files q ∧ star_matches f = true ∧
          key = output_prefix_of (issued x).1 +:+ f +:+ task_suffix t.
Proof using TL UL.
  intros Henc Hq Hin Hb Hf Hfind Hperm Hscript [[Htemp Hnul] Hallow Hway Habsent] Hterm.
  apply posted_sent in Hin as [Hok ->]. exists (posted_message cfg q x). split; [by apply Henc, posted_message_wf with js_length|].
  intros s' es Hr. pose proof (new_uuid_form x) as Hid. pose proof (uuid_valid_job_id _ Hid) as Hvalid.
  pose proof (uuid_no_nul _ Hid) as Hidnul.
  assert (Hidplain : plain_name (issued x).1).
  { rewrite <-(str_app_nil_r (issued x).1). apply valid_job_id_plain; [exact Hvalid|by intros []]. }
  destruct (process_job_inside (posted_message cfg q x) (asked_task q) (issued x).1 (asked_name q) _ definition s s' es
    Hvalid eq_refl eq_refl (posted_task_name q (inter_timeout _ _ _ Hq)) Hterm Hfind Hr)
    as (root & s1 & s2 & s3 & es1 & Hfiles & Hmake & Hrun & ->).
  rewrite <-Hfiles in *.
  destruct (temp_dir_fresh (issued x).1 temp s1 Htemp Hallow Hidplain Hway Habsent) as (m & Hmade & Hfresh).
  rewrite Hmade in Hmake. injection Hmake as <- <-.
  assert (Hinputs : ¬ str_In "000" (inputs_dir (job_root temp (issued x).1))).
  { unfold inputs_dir, job_root. repeat apply path_div_no_nul; try done; apply (bool_decide_eq_true_1 _); vm_compute; reflexivity. }
  assert (Hnames : Forall (λ f, plain_name f ∧ strip_newlines f = f) (asked_files q)).
  { pose proof (accepted_files js_length q Hok) as Hsafe. rewrite Forall_forall in *. intros f Hin.
    destruct (Hf f Hin) as (Hdot & _ & Hs). split; [|done]. apply safe_filename_plain; [by apply Hsafe|done]. }
  destruct (job_results w collate t _ _ _ _ _ _ _ _ (output_prefix_of (issued x).1) (mkMachine (with_nodes (files s1) m) (ext s1)) _ _ Hperm Hscript
    (posted_message_valid _ _ q x Hq Hok) eq_refl eq_refl (posted_goes_to q x _ Hok Hb Hinputs Hf) Hnames Hfresh Hrun) as [Hsome Hup].
  split; [exact Hsome|].
  assert (Hkey : ∀ f, f ∈ asked_files q → c_str (c_str (output_prefix_of (issued x).1) +:+ f +:+ task_suffix t)
    = output_prefix_of (issued x).1 +:+ f +:+ task_suffix t).
  { intros f Hin. rewrite Forall_forall in Hf. destruct (Hf f Hin) as (_ & Hfn & _). pose proof (suffix_no_nul t) as Hsn.
    assert (Hpn : ¬ str_In "000" (output_prefix_of (issued x).1)) by (by apply output_prefix_no_nul).
    rewrite (c_str_id _ Hpn). apply c_str_id. rewrite !str_In_app. intuition. }
  intros b key. split.
  - intros [path [-> (f & Hin & Hstar & -> & _)]%Hup]. split; [done|]. exists f. split_and!; [done..|by apply Hkey].
  - intros [-> (f & Hin & Hstar & ->)]. eexists. apply Hup. split; [done|]. exists f. split_and!; [done..|by rewrite Hkey|done].
Qed.
End Posted.

(** ** A concrete job *)

Module PostedSample.
Import RefCodec.

Definition message : object := posted_message ApiSample.settings ApiSample.go ApiSample.services.
Definition body : string := ApiSample.encode (JObject message).
Definition job_id : string := (issued ApiSample.services).1.

(** The world after the client has uploaded its file. *)
Definition uploaded : Sim :=
  sim_with_objects ApiSample.services {[("taskforge-jobs", input_key job_id "a.txt") := "hello world"]}.
Definition machine : Machine Sim := mkMachine sim_fs uploaded.

Definition run : outcome (expected unit) * Machine Sim * list Event :=
  @Worker.process_job Sim ResultsSample.script_services _ Sample.worker message body machine.

Example posted_run_uploads : uploads run.2 =
  [("taskforge-jobs", "jobs/7d444840-9dc0-11d1-b245-5ffdce74fad2/outputs/a.txt.wordcount.txt",
    "/tmp/taskforge/7d444840-9dc0-11d1-b245-5ffdce74fad2/outputs/a.txt.wordcount.txt")].
Proof. vm_compute. reflexivity. Qed.

Lemma machine_ready : ready_for (files machine) "/tmp" job_id.
Proof.
  split.
  - split; [reflexivity|]. apply (bool_decide_eq_true_1 _). vm_compute. reflexivity.
  - intros op p. reflexivity.
  - intros p Hp Hpre.
    assert (Hall : forallb (λ p, bool_decide (p = []) || bool_decide (sim_fs.(nodes) !! p = None ∨ sim_fs.(nodes) !! p = Some Directory))
      ((λ n, take n (resolve sim_fs (job_root "/tmp" job_id))) <$> seq 0 4) = true) by (vm_compute; reflexivity).
    rewrite forallb_forall in Hall. assert (Hin : p = take (length p) (resolve sim_fs (job_root "/tmp" job_id))).
    { destruct Hpre as [k Hk]. change (files machine) with sim_fs in Hk. rewrite Hk. by rewrite take_app_length. }
    specialize (Hall p). rewrite !bool_decide_eq_false_2 in Hall by done. apply (bool_decide_eq_true_1 _), Hall.
    apply list_elem_of_In, list_elem_of_fmap. exists (length p). split; [exact Hin|]. apply elem_of_seq.
    apply prefix_length in Hpre. vm_compute (length (resolve _ _)) in Hpre. lia.
  - intros q Hq. destruct (nodes _ !! q) as [n|] eqn:Hn; [exfalso|done].
    assert (Hall : forallb (λ kn, negb (bool_decide (resolve sim_fs (job_root "/tmp" job_id) `prefix_of` kn.1)))
      (map_to_list (nodes sim_fs)) = true) by (vm_compute; reflexivity).
    rewrite forallb_forall in Hall. apply elem_of_map_to_list, list_elem_of_In, Hall in Hn.
    by rewrite bool_decide_eq_true_2 in Hn.
Qed.
End PostedSample.

Lemma posted_job_results_witness : ∃ f, f ∈ ["a.txt"] ∧ star_matches f = true.
Proof.
  destruct PostedSample.run as [[o s'] es] eqn:Hrun.
  assert (Ho : o = Returned (Expected ())).
  { change o with (o, s', es).1.1. rewrite <-Hrun. vm_compute. reflexivity. }
  rewrite Ho in Hrun.
  destruct (@posted_job_results Sim sim_api sim_uuid Sim ResultsSample.script_services ResultsSample.script_transfers
    RefCodec.ref_codec ApiSample.encode size (λ _, "") ApiSample.settings Sample.worker ApiSample.go ApiSample.services
    PostedSample.body "jobs" (Expected ()) id (Wordcount ScriptSample.wc)
    (mkTask "wordcount" "tasks/wordcount.sh" "counts words") "/tmp" PostedSample.machine
    sample_encodes sample_interoperable) as (message & Hp & Hres).
  - vm_compute. right. right. left.
  - apply (bool_decide_eq_true_1 _). vm_compute. reflexivity.
  - repeat constructor; [discriminate|]. apply (bool_decide_eq_true_1 _). vm_compute. reflexivity.
  - vm_compute. reflexivity.
  - intros l. reflexivity.
  - apply ResultsSample.script_child.
  - exact PostedSample.machine_ready.
  - vm_compute. reflexivity.
  - assert (Hm : message = PostedSample.message).
    { assert (Hread : @parse RefCodec.ref_codec PostedSample.body = inl (JObject PostedSample.message)) by (vm_compute; reflexivity).
      rewrite Hread in Hp. by injection Hp as <-. }
    subst message. exact (proj1 (Hres s' es Hrun)).
Defined.
