(* ===== verification/Interleaving.v ===== *)
(** * Interfaces and workers running at the same time

    Any number of creations and of handlings, by any number of workers, with
    their calls interleaved in any way: a history is a list of calls, each made
    by a creation or by a handling.  Nothing is assumed about the services but
    that a message is handled only after it was sent.  The claim is the one the
    interfaces order their calls for: the initial document of a job is written
    before any worker writes for the job, so it never overwrites a later
    status. *)

From S2P Require Import Prelude Utf8 Json Filesystem Effects Testbed MessageValidation Configurations.
From S2P Require Import TaskDLQ TaskExecutor WorkerStatus Worker StatusSchema WorkerTrace WorkerSafety WorkerProtocol.
From S2P Require Import WorkerSample WorkerProperties WorkerTransfers WorkerHistory.
From S2P Require Import Api ApiGo ApiPython ApiJs ApiContract Posting ApiSample ApiProperties ApiWorker.
Import MessageValidation.

(** ** Histories *)

(** A call, and which creation or handling made it. *)
Inductive occurrence :=
| ByApi (c : nat) (e : ApiEvent)
| ByWorker (h : nat) (e : Event).

Definition api_calls (c : nat) (g : list occurrence) : list ApiEvent :=
  omap (λ o, match o with ByApi c' e => if decide (c' = c) then Some e else None | _ => None end) g.
Definition worker_calls (h : nat) (g : list occurrence) : list Event :=
  omap (λ o, match o with ByWorker h' e => if decide (h' = h) then Some e else None | _ => None end) g.

Lemma api_calls_app c g g' : api_calls c (g ++ g') = api_calls c g ++ api_calls c g'.
Proof. apply omap_app. Qed.

Lemma worker_calls_app h g g' : worker_calls h (g ++ g') = worker_calls h g ++ worker_calls h g'.
Proof. apply omap_app. Qed.

Lemma api_calls_at c (g : list occurrence) i e :
  g !! i = Some (ByApi c e) → api_calls c g = api_calls c (take i g) ++ e :: api_calls c (drop (S i) g).
Proof.
  intros Hi. rewrite <-(take_drop_middle g i _ Hi) at 1. rewrite api_calls_app. simpl. by rewrite decide_True.
Qed.

Lemma worker_calls_elem h (g : list occurrence) i e : g !! i = Some (ByWorker h e) → e ∈ worker_calls h g.
Proof.
  intros Hi. unfold worker_calls. apply list_elem_of_omap. exists (ByWorker h e).
  split; [by eapply list_elem_of_lookup_2|]. by rewrite decide_True.
Qed.

Lemma api_calls_some c (g : list occurrence) i e : g !! i = Some (ByApi c e) → api_calls c g ≠ [].
Proof. intros Hi. rewrite (api_calls_at _ _ _ _ Hi). by destruct (api_calls c (take i g)). Qed.

(** A call of a creation is somewhere in the history. *)
Lemma api_calls_elem c (g : list occurrence) e : e ∈ api_calls c g → ∃ i, g !! i = Some (ByApi c e).
Proof.
  unfold api_calls. intros (o & Hin & Ho)%list_elem_of_omap. destruct o as [c' e'|]; [|done].
  destruct (decide (c' = c)) as [->|]; [|done]. simplify_eq. by apply list_elem_of_lookup_1.
Qed.

(** ** The order of the calls of one creation *)

Definition is_set (e : ApiEvent) : bool := match e with ApSet _ _ _ _ => true | _ => false end.
Definition is_send (e : ApiEvent) : bool := match e with ApSend _ _ _ => true | _ => false end.

(** The status is recorded before the request is sent, and once. *)
Definition set_then_send (es : list ApiEvent) : Prop :=
  (∀ before e after, es = before ++ e :: after → is_set e = true → forallb (λ a, negb (is_send a)) before = true) ∧
  (∀ before e after, es = before ++ e :: after → is_send e = true → ∃ a, a ∈ before ∧ is_set a = true).

Lemma set_then_send_prefix es es' : es' `prefix_of` es → set_then_send es → set_then_send es'.
Proof.
  intros [rest ->] [Hset Hsend]. split; intros before e after ->; rewrite <-app_assoc in *.
  - exact (Hset before e (after ++ rest) eq_refl).
  - exact (Hsend before e (after ++ rest) eq_refl).
Qed.

(** Calls of other kinds in front change nothing. *)
Lemma set_then_send_app es es' :
  forallb (λ a, negb (is_set a) && negb (is_send a)) es = true → set_then_send es' → set_then_send (es ++ es').
Proof.
  intros Hes [Hset Hsend]. rewrite forallb_forall in Hes.
  assert (Hother : ∀ e, e ∈ es → is_set e = false ∧ is_send e = false).
  { intros e He. apply list_elem_of_In, Hes in He. by bool_to_prop. }
  assert (Hsplit : ∀ before e after, es ++ es' = before ++ e :: after → is_set e || is_send e = true →
    ∃ k, before = es ++ k ∧ es' = k ++ e :: after).
  { intros before e after Heq He. apply app_eq_app in Heq as [k [[-> Hk]|[-> Hk]]]; [|by exists k].
    destruct k as [|e' k]; simplify_eq/=; [exists []; by rewrite !app_nil_r|].
    destruct (Hother e') as [H1 H2]; [set_solver|]. by rewrite H1, H2 in He. }
  split; intros before e after Heq He.
  - destruct (Hsplit before e after Heq) as (k & -> & Hk); [by rewrite He|].
    rewrite forallb_app, (Hset k e after Hk He), andb_true_r. apply forallb_forall. intros a Ha.
    by rewrite (proj2 (Hother a (proj2 (list_elem_of_In _ _) Ha))).
  - destruct (Hsplit before e after Heq) as (k & -> & Hk); [by rewrite He, orb_true_r|].
    destruct (Hsend k e after Hk He) as (a & Ha & Has). exists a. split; [set_solver|done].
Qed.

Lemma creation_ordered encode cfg job_id now name files task es r :
  creation encode cfg job_id now name files task es r → set_then_send es.
Proof.
  assert (Hp : ∀ urls, forallb (λ a, negb (is_set a) && negb (is_send a)) (presigns cfg job_id urls) = true).
  { intros urls. unfold presigns. induction urls; [done|]. by simpl. }
  assert (Hpair : ∀ a b, is_set a = true → is_send b = true → set_then_send [a; b]).
  { intros a b Ha Hb. split; intros [|x [|y [|]]] e after ?; simplify_eq/=; try done.
    - by destruct e.
    - by destruct e.
    - exists x. split; [set_solver|done]. }
  intros [urls f rest e _|urls e _|urls e _|urls _]; (apply set_then_send_app; [apply Hp|]); try (by apply Hpair).
  - split; intros [|x [|]] ? after ?; by simplify_eq/=.
  - split; intros [|x [|]] ? after ?; by simplify_eq/=.
Qed.

(** A creation writes under its own identifier only. *)
Lemma creation_sets encode cfg job_id now name files task es r key value ttl set :
  creation encode cfg job_id now name files task es r → ApSet key value ttl set ∈ es → key = job_id.
Proof.
  assert (Hp : ∀ urls, ApSet key value ttl set ∉ presigns cfg job_id urls).
  { intros urls Hin. unfold presigns in Hin. by apply list_elem_of_fmap in Hin as (u & ? & _). }
  intros [urls f rest e _|urls e _|urls e _|urls _] Hin; apply elem_of_app in Hin as [Hin|Hin];
    try (by destruct (Hp urls)); unfold record_queued, send_request in Hin; set_solver.
Qed.

(** ** The system *)

Section System.
Context {X : Type} `{ApiServices X} `{UL : !UuidLaws X}.
Context {Y : Type} `{Services Y} `{JsonCodec} `{JL : !JsonCodecLaws}.
Context (encode : json → string) (js_length : string → Z) (validation_message : Js.CreateJobDto → string).
Context (cfg : ApiSettings).

Abbreviation post := (post encode js_length validation_message cfg).

(** What was posted, and what the services gave each creation; which message
    each handling works on, by which worker, and what the services gave it. *)
Context (posted : nat → posting) (x : nat → X).
Context (body : nat → string) (worker : nat → Worker.t) (s : nat → Machine Y).

Definition job_of (c : nat) : string := (issued (x c)).1.

(** [sent_by b o]: the call [o] put [b] on the queue. *)
Definition sent_by (b : string) (o : occurrence) : Prop :=
  (∃ c group, o = ByApi c (ApSend b group (Expected ()))) ∨
  (∃ h group dedup, o = ByWorker h (EvSend b group dedup (Expected ()))).

(** A history: every creation and handling has made a part of its calls, in
    its own order, creations work on different identifiers, and what is
    handled was sent before. *)
Record history (g : list occurrence) : Prop := {
  hist_api c : api_calls c g `prefix_of` (post (posted c) (x c)).2;
  hist_worker h : worker_calls h g `prefix_of` (Worker.handle_message (worker h) (body h) (s h)).2;
  hist_fresh c c' : api_calls c g ≠ [] → api_calls c' g ≠ [] → job_of c = job_of c' → c = c';
  hist_sent i h e : g !! i = Some (ByWorker h e) → ∃ j o, (j < i)%nat ∧ g !! j = Some o ∧ sent_by (body h) o;
}.

(** The setting: encoders and settings that fit, retry limits in range. *)
Record sound_setting : Prop := {
  setting_encodes : encodes encode;
  setting_requests c : interoperable js_length cfg (posted c);
  setting_limits h : TaskDLQ.max_retry_count (Worker.task_dlq (worker h)) ≤ INT_MAX;
}.

#[local] Set Default Proof Using "Type UL JL".

Lemma api_call_of g c i e : history g → g !! i = Some (ByApi c e) → e ∈ (post (posted c) (x c)).2.
Proof.
  intros Hg Hi. eapply elem_of_prefix; [|exact (hist_api _ Hg c)].
  rewrite (api_calls_at _ _ _ _ Hi). set_solver.
Qed.

Lemma worker_call_of g h i e :
  history g → g !! i = Some (ByWorker h e) → e ∈ (Worker.handle_message (worker h) (body h) (s h)).2.
Proof.
  intros Hg Hi. eapply elem_of_prefix; [|exact (hist_worker _ Hg h)]. by eapply worker_calls_elem.
Qed.

Lemma history_ordered g c : history g → set_then_send (api_calls c g).
Proof.
  intros Hg. eapply set_then_send_prefix; [exact (hist_api _ Hg c)|].
  destruct (accepts js_length (posted c)) eqn:Hok.
  - destruct (post_creation encode js_length validation_message cfg (posted c) (x c) Hok) as (r & Hc & _).
    exact (creation_ordered _ _ _ _ _ _ _ _ _ Hc).
  - rewrite post_rejected by done. split; by intros [] ? ? ?.
Qed.

(** The message of a handling is a request for a job that was created, whose
    request was sent before. *)
Lemma handled_request g i h e :
  sound_setting → history g → g !! i = Some (ByWorker h e) →
  ∃ message c j b group, parse (body h) = inl (JObject message) ∧ json_wf (JObject message) = true ∧
    validate_request message = Expected () ∧ get_string message "job_id" = Some (job_of c) ∧ (j < i)%nat ∧ g !! j = Some (ByApi c (ApSend b group (Expected ()))).
Proof.
  intros Hset Hg. revert h e. induction (lt_wf i) as [i _ IH]. intros h e Hi.
  destruct (hist_sent _ Hg i h e Hi) as (j & o & Hj & Ho & [(c & group & ->)|(h' & group & dedup & ->)]).
  - destruct (posted_sent _ _ _ _ _ _ _ _ _ (api_call_of g c j _ Hg Ho)) as [Hok Hb].
    pose proof (posted_message_wf js_length cfg (posted c) (x c) (setting_requests Hset c) Hok) as Hwf.
    exists (posted_message cfg (posted c) (x c)), c, j, (body h), group.
    split; [rewrite Hb; exact (setting_encodes Hset _ Hwf)|]. split; [exact Hwf|].
    split; [exact (posted_message_valid js_length cfg (posted c) (x c) (setting_requests Hset c) Hok)|].
    split; [reflexivity|]. split; [exact Hj|exact Ho].
  - destruct (IH j Hj h' _ Ho) as (message & c & j' & b & group' & Hp & Hwf & Hv & Hid & Hj' & Ho').
    destruct (send_in_trace (worker h') _ _ _ _ _ _ _ Hp (worker_call_of g h' j _ Hg Ho))
      as (id & n & _ & _ & (Hlow & Hgt & Hup) & Hout & _).
    assert (Hint : in_int n).
    { pose proof (setting_limits Hset h'). unfold in_int, INT_MIN. lia. }
    pose proof (count_insert_wf message n Hwf Hint) as Hwf'.
    exists (<["dlq_try_count" := JInt64 n]> message), c, j', b, group'.
    split; [rewrite Hout; exact (parse_serialize _ Hwf')|]. split; [exact Hwf'|].
    split; [by apply valid_request_iff, valid_request_count, valid_request_iff|].
    split; [apply get_string_Some; rewrite lookup_insert_ne by done; by apply get_string_Some|].
    split; [lia|exact Ho'].
Qed.

Lemma set_key g c j key value ttl r :
  history g → g !! j = Some (ByApi c (ApSet key value ttl r)) → key = job_of c.
Proof.
  intros Hg Hj. pose proof (api_call_of g c j _ Hg Hj) as Hin.
  destruct (accepts js_length (posted c)) eqn:Hok; [|rewrite post_rejected in Hin by done; by apply elem_of_nil in Hin].
  destruct (post_creation encode js_length validation_message cfg (posted c) (x c) Hok) as (res & Hc & _).
  exact (creation_sets _ _ _ _ _ _ _ _ _ _ _ _ _ Hc Hin).
Qed.

(** A request is sent after the status of its job was recorded. *)
Lemma recorded_before_sent g c j b group r :
  history g → g !! j = Some (ByApi c (ApSend b group r)) →
  ∃ j' value ttl r', (j' < j)%nat ∧ g !! j' = Some (ByApi c (ApSet (job_of c) value ttl r')).
Proof.
  intros Hg Hj. destruct (proj2 (history_ordered g c Hg) _ _ _ (api_calls_at c g j _ Hj) eq_refl) as (a & Ha & Hset).
  apply api_calls_elem in Ha as [j' Hj']. apply lookup_take_Some in Hj' as [Hj' Hlt].
  destruct a as [| |key value ttl r'|]; try discriminate Hset.
  pose proof (set_key g c j' _ _ _ _ Hg Hj') as ->. by exists j', value, ttl, r'.
Qed.

Lemma never_recorded_after_sent g c j j' b group r key value ttl r' :
  history g → g !! j = Some (ByApi c (ApSend b group r)) → g !! j' = Some (ByApi c (ApSet key value ttl r')) →
  (j' < j)%nat.
Proof.
  intros Hg Hj Hj'. destruct (Nat.lt_trichotomy j' j) as [Hlt|[->|Hlt]]; [done|by rewrite Hj in Hj'|].
  pose proof (proj1 (history_ordered g c Hg) _ _ _ (api_calls_at c g j' _ Hj') eq_refl) as Hno.
  assert (Htake : take j' g !! j = Some (ByApi c (ApSend b group r))) by (by rewrite lookup_take_lt).
  rewrite (api_calls_at c (take j' g) j _ Htake), forallb_app in Hno. simpl in Hno. by rewrite andb_false_r in Hno.
Qed.

(** A worker that writes for a created job handles a valid request for it,
    and the request of that job was sent before. *)
Lemma writer_job g c i h e :
  sound_setting → history g → api_calls c g ≠ [] → g !! i = Some (ByWorker h e) → writes_key (job_of c) e →
  ∃ message j b group, parse (body h) = inl (JObject message) ∧ validate_request message = Expected () ∧
    get_string message "job_id" = Some (job_of c) ∧ (j < i)%nat ∧ g !! j = Some (ByApi c (ApSend b group (Expected ()))).
Proof.
  intros Hset Hg Hc Hi Hw.
  destruct (handled_request g i h e Hset Hg Hi) as (message & c1 & j1 & b & group & Hp & _ & Hv & Hid & Hj1 & Ho).
  assert (c1 = c) as ->.
  { apply (hist_fresh _ Hg); [by eapply api_calls_some|exact Hc|]. destruct (addressed_dec (job_of c) (body h)) as [(m & Hp' & Hid')|Hno].
    - rewrite Hp in Hp'. injection Hp' as <-. rewrite Hid in Hid'. by injection Hid'.
    - pose proof (other_message_keys (worker h) (job_of c) (body h) (λ m Hm, Hno (ex_intro _ m Hm)) (s h)) as Hall.
      rewrite Forall_forall in Hall. by destruct (Hall e (worker_call_of g h i e Hg Hi)). }
  by exists message, j1, b, group.
Qed.

(** C20: the initial document never overwrites a later status. In every
    history of concurrent creations and handlings, by the time a worker writes
    a status for a job that an interface created, the interface has written
    the initial document of that job, and every write of an interface under
    that identifier comes before the worker's. *)
Theorem initial_document_first g c i h e :
  sound_setting → history g → api_calls c g ≠ [] →
  g !! i = Some (ByWorker h e) → writes_key (job_of c) e →
  (∃ j value ttl r, (j < i)%nat ∧ g !! j = Some (ByApi c (ApSet (job_of c) value ttl r))) ∧
  ∀ j c' value ttl r, g !! j = Some (ByApi c' (ApSet (job_of c) value ttl r)) → (j < i)%nat.
Proof.
  intros Hset Hg Hc Hi Hw. destruct (writer_job g c i h e Hset Hg Hc Hi Hw) as (_ & j1 & b & group & _ & _ & _ & Hj1 & Ho).
  split.
  - destruct (recorded_before_sent g c j1 _ _ _ Hg Ho) as (j & value & ttl & r & Hlt & Hj).
    exists j, value, ttl, r. split; [lia|done].
  - intros j c' value ttl r Hj. pose proof (set_key g c' j _ _ _ _ Hg Hj) as Hk. apply (hist_fresh _ Hg) in Hk as <-; [|exact Hc|by eapply api_calls_some].
    pose proof (never_recorded_after_sent g c j1 j _ _ _ _ _ _ _ Hg Ho Hj). lia.
Qed.

End System.

(** ** A concrete history: one job, created and then handled *)

Section HistoryWitness.
Import RefCodec.

Definition sample_message : object := posted_message ApiSample.settings ApiSample.go ApiSample.services.
Definition sample_body : string := ApiSample.encode (JObject sample_message).
Definition sample_handling : list Event := (Worker.handle_message Sample.worker sample_body (Sample.machine ∅ 0)).2.
Definition sample_history : list occurrence :=
  (ByApi 0 <$> (ApiSample.posted ApiSample.go).2) ++ (ByWorker 0 <$> sample_handling).

Lemma api_calls_tagged c c' es : api_calls c (ByApi c' <$> es) = if decide (c' = c) then es else [].
Proof.
  induction es as [|e es IH]; [by case_decide|].
  change (ByApi c' <$> e :: es) with ([ByApi c' e] ++ (ByApi c' <$> es)). rewrite api_calls_app, IH.
  unfold api_calls. simpl. by case_decide.
Qed.

Lemma worker_calls_tagged h h' es : worker_calls h (ByWorker h' <$> es) = if decide (h' = h) then es else [].
Proof.
  induction es as [|e es IH]; [by case_decide|].
  change (ByWorker h' <$> e :: es) with ([ByWorker h' e] ++ (ByWorker h' <$> es)). rewrite worker_calls_app, IH.
  unfold worker_calls. simpl. by case_decide.
Qed.

Lemma sample_api_calls c : api_calls c sample_history = if decide (0%nat = c) then (ApiSample.posted ApiSample.go).2 else [].
Proof.
  unfold sample_history. rewrite api_calls_app, api_calls_tagged.
  assert (Hw : ∀ es, api_calls c (ByWorker 0 <$> es) = []) by (intros es; by induction es).
  by rewrite Hw, app_nil_r.
Qed.

Lemma sample_worker_calls h : worker_calls h sample_history = if decide (0%nat = h) then sample_handling else [].
Proof.
  unfold sample_history. rewrite worker_calls_app, worker_calls_tagged.
  assert (Ha : ∀ es, worker_calls h (ByApi 0 <$> es) = []) by (intros es; by induction es).
  by rewrite Ha.
Qed.

Abbreviation sample_is_history :=
  (history ApiSample.encode size (λ _, "") ApiSample.settings (λ _, ApiSample.go) (λ _, ApiSample.services)
     (λ _, sample_body) (λ _, Sample.worker) (λ _, Sample.machine ∅ 0) sample_history).

Lemma sample_history_ok : sample_is_history.
Proof.
  split.
  - intros c. rewrite sample_api_calls. case_decide; [reflexivity|apply prefix_nil].
  - intros h. rewrite sample_worker_calls. case_decide; [reflexivity|apply prefix_nil].
  - intros c c'. rewrite !sample_api_calls. repeat case_decide; congruence.
  - intros i h e Hi. assert (Hlen : length (ByApi 0 <$> (ApiSample.posted ApiSample.go).2) = 3%nat) by (vm_compute; reflexivity).
    destruct (decide (i < 3)%nat) as [Hlt|Hge].
    + exfalso. unfold sample_history in Hi. rewrite lookup_app_l, list_lookup_fmap in Hi by lia.
      by apply fmap_Some in Hi as (a & _ & ?).
    + exists 2%nat, (ByApi 0 (ApSend sample_body "jobs" (Expected ()))). split; [lia|].
      split; [vm_compute; reflexivity|]. left. by exists 0%nat, "jobs".
Qed.

Lemma sample_setting :
  sound_setting ApiSample.encode size ApiSample.settings (λ _, ApiSample.go) (λ _, Sample.worker).
Proof. split; [exact sample_encodes|intros _; exact sample_interoperable|intros _; vm_compute; discriminate]. Qed.

Lemma initial_document_first_witness :
  ∃ j value ttl r, (j < 6)%nat ∧
    sample_history !! j = Some (ByApi 0 (ApSet (issued ApiSample.services).1 value ttl r)).
Proof.
  assert (Hi : ∃ value ttl r, sample_history !! 6%nat =
    Some (ByWorker 0 (EvRedisSet (issued ApiSample.services).1 value ttl r))) by (eexists _, _, _; vm_compute; reflexivity).
  destruct Hi as (value & ttl & r & Hi).
  refine (proj1 (initial_document_first ApiSample.encode size (λ _, "") ApiSample.settings (λ _, ApiSample.go)
    (λ _, ApiSample.services) (λ _, sample_body) (λ _, Sample.worker) (λ _, Sample.machine ∅ 0)
    sample_history 0 6 0 _ sample_setting sample_history_ok _ Hi _)).
  - rewrite sample_api_calls. vm_compute. discriminate.
  - exists value, ttl, r. reflexivity.
Defined.
End HistoryWitness.
