(* ===== verification/SharedStore.v ===== *)
(** * Interfaces and workers on one store

    The histories of [Interleaving] on a shared Redis: a read returns what the
    calls before it have stored, or fails.  Whatever the interleaving, stored
    documents stay typed ([concurrent_documents_typed]).  A finished job stays
    finished under concurrency too, except for a handling that looked at the
    job before it was finished, or whose look failed
    ([finished_unless_overtaken]); such a handling can overwrite the status
    ([finished_job_overtaken]). *)

From S2P Require Import Prelude Utf8 Json Filesystem Effects Testbed MessageValidation Configurations.
From S2P Require Import TaskDLQ TaskExecutor WorkerStatus Worker StatusSchema WorkerTrace WorkerSafety WorkerProtocol.
From S2P Require Import WorkerSample WorkerProperties WorkerTransfers WorkerHistory JobStates.
From S2P Require Import Api ApiGo ApiPython ApiJs ApiContract Posting ApiSample ApiProperties ApiWorker Interleaving.
Import MessageValidation.

(** ** The shared store *)

Definition store_step (store : gmap string string) (o : occurrence) : gmap string string :=
  match o with
  | ByApi _ (ApSet key value _ (Expected _)) => <[key := value]> store
  | ByWorker _ e => replay_event store e
  | _ => store
  end.

(** The store after the first [i] calls. *)
Definition store_at (store : gmap string string) (g : list occurrence) (i : nat) : gmap string string :=
  foldl store_step store (take i g).

(** Reads return what was stored last, or fail: the store is out of reach, or
    the entry is missing or has expired. *)
Definition consistent (store : gmap string string) (g : list occurrence) : Prop :=
  ∀ i h key text, g !! i = Some (ByWorker h (EvRedisGet key (Expected text))) →
    store_at store g i !! key = Some text.

Lemma store_at_S store g i o : g !! i = Some o → store_at store g (S i) = store_step (store_at store g i) o.
Proof. intros Hi. unfold store_at. by rewrite (take_S_r _ _ _ Hi), foldl_app. Qed.

Lemma store_at_end store g i : g !! i = None → store_at store g (S i) = store_at store g i.
Proof. intros Hi. apply lookup_ge_None in Hi. unfold store_at. by rewrite !take_ge by lia. Qed.

(** The calls of a handling up to one of them. *)
Lemma worker_calls_at h (g : list occurrence) i e :
  g !! i = Some (ByWorker h e) → worker_calls h g = worker_calls h (take i g) ++ e :: worker_calls h (drop (S i) g).
Proof.
  intros Hi. rewrite <-(take_drop_middle g i _ Hi) at 1. rewrite worker_calls_app. unfold worker_calls at 2.
  simpl. by rewrite decide_True.
Qed.

Lemma worker_calls_find h (g : list occurrence) e : e ∈ worker_calls h g → ∃ i, g !! i = Some (ByWorker h e).
Proof.
  unfold worker_calls. intros (o & Hin & Ho)%list_elem_of_omap. destruct o as [|h' e']; [done|].
  destruct (decide (h' = h)) as [->|]; [|done]. simplify_eq. by apply list_elem_of_lookup_1.
Qed.

(** ** Typed documents *)

Section Rely.
Context `{JsonCodec} (k : string).

Lemma rely_typed_prefix es es' : rely_typed k (es ++ es') → rely_typed k es.
Proof. induction es as [|e es IH]; simpl; [done|]. intros [He Hes]. split; [done|]. intros Hr. by apply IH, Hes. Qed.

Lemma rely_typed_split before e after :
  rely_typed k (before ++ e :: after) → Forall (typed_read k) before → typed_event k e.
Proof. intros Ht Hb. induction Hb as [|b before Hr _ IH]; simpl in Ht; [apply Ht|]. by apply IH, Ht. Qed.
End Rely.

Lemma queued_document_wf job_id name time :
  valid_utf8 job_id = true → valid_utf8 name = true →
  json_wf (JObject (queued_document job_id name (format_utc time))) = true.
Proof. intros Hid Hn. unfold queued_document, json_wf. repeat apply json_wf_insert; try done; apply format_utc_utf8. Qed.

(** The only document a creation stores is the queued one of its job. *)
Lemma creation_stores encode cfg job_id now name files task es r key value ttl set :
  creation encode cfg job_id now name files task es r → ApSet key value ttl set ∈ es →
  key = job_id ∧ value = encode (JObject (queued_document job_id name now)).
Proof.
  intros Hc Hin. split; [by eapply creation_sets|].
  assert (Hp : ∀ urls, ApSet key value ttl set ∉ presigns cfg job_id urls).
  { intros urls Hu. unfold presigns in Hu. by apply list_elem_of_fmap in Hu as (u & ? & _). }
  destruct Hc as [urls f rest e _|urls e _|urls e _|urls _]; apply elem_of_app in Hin as [Hin|Hin];
    try (by destruct (Hp urls)); unfold record_queued, send_request in Hin; set_solver.
Qed.

(** ** The check before the writes *)

(** A handling of a valid request writes for its job only after it has read
    the job and not found it finished. *)
Lemma checked_before_writing {Y} `{Services Y} `{JsonCodec} w body message job_id (s : Machine Y) before e after :
  parse body = inl (JObject message) → validate_request message = Expected () →
  get_string message "job_id" = Some job_id →
  (Worker.handle_message w body s).2 = before ++ e :: after → writes_key job_id e →
  ∃ r, EvRedisGet job_id r ∈ before ∧ terminal_text r = false.
Proof.
  intros Hp Hv Hid%get_string_Some Htrace (value & ttl & r & ->).
  destruct (handle_message_checks w body message job_id s Hp Hv Hid) as [rest Hrest].
  exists (redis_get job_id (ext s)).1. split.
  - rewrite Hrest in Htrace. destruct before as [|a [|b before]]; simplify_eq/=. set_solver.
  - destruct (redis_get job_id (ext s)).1 as [text|err] eqn:Hget; [|done].
    destruct (terminal_text (Expected text)) eqn:Hterm; [|done]. exfalso.
    apply valid_request_iff in Hv as Hval. destruct (request_task _ Hval) as (task & Htask & Ht).
    destruct (task_has_name _ Ht) as (name & Hname & _).
    rewrite (handle_message_terminal w body message task job_id name text) in Htrace by done. simpl in Htrace.
    destruct before as [|a [|b [|c [|]]]]; simplify_eq/=.
Qed.

Section Shared.
Context {X : Type} `{ApiServices X} `{UL : !UuidLaws X}.
Context {Y : Type} `{Services Y} `{JsonCodec} `{JL : !JsonCodecLaws}.
Context (encode : json → string) (js_length : string → Z) (validation_message : Js.CreateJobDto → string).
Context (cfg : ApiSettings).
Context (posted : nat → posting) (x : nat → X).
Context (body : nat → string) (worker : nat → Worker.t) (s : nat → Machine Y).
Context (store : gmap string string).

Abbreviation post := (post encode js_length validation_message cfg).
Abbreviation job_of := (job_of x).
Abbreviation history := (history encode js_length validation_message cfg posted x body worker s).
Abbreviation sound_setting := (sound_setting encode js_length cfg posted worker).
#[local] Set Default Proof Using "Type UL JL".

(** What an interface stores is typed. *)
Lemma interface_write_typed g c i key value ttl r :
  sound_setting → history g → g !! i = Some (ByApi c (ApSet key value ttl r)) → typed_text key value.
Proof.
  intros Hset Hg Hi. pose proof (api_call_of _ _ _ _ _ _ _ _ _ g c i _ Hg Hi) as Hin.
  destruct (accepts js_length (posted c)) eqn:Hok; [|rewrite post_rejected in Hin by done; by apply elem_of_nil in Hin].
  destruct (post_creation encode js_length validation_message cfg (posted c) (x c) Hok) as (res & Hc & _).
  destruct (creation_stores _ _ _ _ _ _ _ _ _ _ _ _ _ Hc Hin) as [-> ->]. intros d Hp.
  destruct (setting_requests _ _ _ _ _ Hset c) as [_ _ (Hname & _) _].
  pose proof (queued_document_wf (issued (x c)).1 (asked_name (posted c)) (api_now (new_uuid (x c)).2).1
    (uuid_utf8 _ (new_uuid_form (x c))) Hname) as Hwf.
  pose proof (setting_encodes _ _ _ _ _ Hset _ Hwf) as Henc.
  change (format_utc _) with (issued (x c)).2 in Henc. rewrite Henc in Hp. injection Hp as <-. apply queued_document_schema.
Qed.

(** What a worker stores is typed, as long as the store was. *)
Lemma worker_write_typed g k i h e :
  history g → consistent store g → (∀ j, (j < i)%nat → typed_store k (store_at store g j)) →
  g !! i = Some (ByWorker h e) → typed_event k e.
Proof.
  intros Hg Hcons Hbefore Hi.
  destruct (hist_worker _ _ _ _ _ _ _ _ _ _ Hg h) as [rest Hrest]. rewrite (worker_calls_at h g i e Hi) in Hrest.
  pose proof (typed_handle_message (worker h) k (body h) (s h)) as Ht. rewrite Hrest in Ht.
  apply rely_typed_prefix, rely_typed_split in Ht; [done|].
  apply Forall_forall. intros a Ha. apply worker_calls_find in Ha as [j Hj].
  apply lookup_take_Some in Hj as [Hj Hlt]. apply (typed_store_read k (store_at store g j)); [by apply Hbefore|].
  destruct a as [| | | |key [text|]| | | | | | | |]; try done. exact (Hcons j h key text Hj).
Qed.

Lemma store_typed g k i :
  sound_setting → history g → consistent store g → typed_store k store → typed_store k (store_at store g i).
Proof.
  intros Hset Hg Hcons Hs. induction (lt_wf i) as [i _ IH]. destruct i as [|i]; [done|].
  destruct (g !! i) as [o|] eqn:Hi; [rewrite (store_at_S _ _ _ _ Hi)|rewrite store_at_end by done; apply IH; lia].
  specialize (IH i ltac:(lia)) as Hstore. destruct o as [c e|h e].
  - destruct e as [| |key value ttl [[]|]|]; try done. intros text. simpl.
    rewrite lookup_insert_Some. intros [[-> <-]|[_ Ht]]; [|by apply Hstore].
    exact (interface_write_typed g c i _ _ _ _ Hset Hg Hi).
  - apply (replay_typed k [e]); [done|]. constructor; [|done].
    apply (worker_write_typed g k i h e); [done..| |done]. intros j Hj. apply IH. lia.
Qed.

(** C12: status documents keep their type under concurrency. In every history
    of concurrent creations and handlings on one store, whatever workers
    handle the same job at the same time, every document that is stored for a
    job, by an interface or by a worker, and can be parsed has the fields and
    types of the contract. *)
Theorem concurrent_documents_typed g k :
  sound_setting → history g → consistent store g → typed_store k store →
  (∀ i, typed_store k (store_at store g i)) ∧
  (∀ i h e, g !! i = Some (ByWorker h e) → typed_event k e) ∧
  (∀ i c value ttl r, g !! i = Some (ByApi c (ApSet k value ttl r)) → typed_text k value).
Proof.
  intros Hset Hg Hcons Hs. split; [intros i; by apply store_typed|]. split.
  - intros i h e Hi. apply (worker_write_typed g k i h e); [done..| |done]. intros j _. by apply store_typed.
  - intros i c value ttl r Hi. exact (interface_write_typed g c i _ _ _ _ Hset Hg Hi).
Qed.

(** No interface writes for a job after a worker has. *)
Lemma interface_writes_over g c q h e i c' value ttl r :
  sound_setting → history g → api_calls c g ≠ [] → g !! q = Some (ByWorker h e) → writes_key (job_of c) e →
  g !! i = Some (ByApi c' (ApSet (job_of c) value ttl r)) → (i < q)%nat.
Proof.
  intros Hset Hg Hc Hq Hw Hi.
  destruct (writer_job _ _ _ _ _ _ _ _ _ g c q h e Hset Hg Hc Hq Hw) as (_ & j & b & group & _ & _ & _ & Hj & Ho).
  pose proof (set_key _ _ _ _ _ _ _ _ _ g c' i _ _ _ _ Hg Hi) as Hk.
  apply (hist_fresh _ _ _ _ _ _ _ _ _ _ Hg) in Hk as <-; [|exact Hc|by eapply api_calls_some].
  pose proof (never_recorded_after_sent _ _ _ _ _ _ _ _ _ g c j i _ _ _ _ _ _ _ Hg Ho Hi). lia.
Qed.

(** C16: a finished job stays finished, unless it is overtaken or out of sight.
    Once a worker has recorded a job as done or failed, in any interleaving of
    workers (and redelivered messages) and interfaces to which no explicit null
    timeout was posted, its document is not written again, unless a handling
    writes whose look at the job came before it was finished or failed (Redis
    did not answer, or the document had expired). *)
Theorem finished_unless_overtaken g c p text :
  sound_setting → history g → consistent store g → api_calls c g ≠ [] →
  (∃ q h e, (q < p)%nat ∧ g !! q = Some (ByWorker h e) ∧ writes_key (job_of c) e) →
  store_at store g p !! job_of c = Some text → terminal_text (Expected text) = true →
  (∀ i h e, (p ≤ i)%nat → g !! i = Some (ByWorker h e) → writes_key (job_of c) e →
     ∀ j r, g !! j = Some (ByWorker h (EvRedisGet (job_of c) r)) → (p ≤ j)%nat ∧ ∃ seen, r = Expected seen) →
  ∀ i, (p ≤ i)%nat → store_at store g i !! job_of c = Some text.
Proof.
  intros Hset Hg Hcons Hc (q & hq & eq & Hq & Hgq & Hwq) Hp Hterm Hlate.
  intros i. induction (lt_wf i) as [i _ IH]. intros Hi.
  destruct (decide (i = p)) as [->|Hne]; [done|]. destruct i as [|i]; [lia|].
  destruct (g !! i) as [o|] eqn:Hgi; [rewrite (store_at_S _ _ _ _ Hgi)|rewrite store_at_end by done; apply IH; lia].
  pose proof (IH i ltac:(lia) ltac:(lia)) as Hstore.
  destruct o as [c' e|h e].
  - destruct e as [| |key value ttl [[]|]|]; try done. simpl. rewrite lookup_insert_ne; [done|]. intros ->.
    pose proof (interface_writes_over g c q hq eq i c' _ _ _ Hset Hg Hc Hgq Hwq Hgi). lia.
  - destruct (decide (writes_key (job_of c) e)) as [Hw|Hno].
    + exfalso. destruct (writer_job _ _ _ _ _ _ _ _ _ g c i h e Hset Hg Hc Hgi Hw)
        as (message & _ & _ & _ & Hparse & Hv & Hid & _ & _).
      destruct (hist_worker _ _ _ _ _ _ _ _ _ _ Hg h) as [rest Hrest]. rewrite (worker_calls_at h g i e Hgi) in Hrest.
      rewrite <-app_assoc in Hrest.
      destruct (checked_before_writing _ _ _ _ _ _ _ _ Hparse Hv Hid Hrest Hw) as (r & Hr & Hopen).
      apply worker_calls_find in Hr as [j Hj]. apply lookup_take_Some in Hj as [Hj Hlt].
      destruct (Hlate i h e ltac:(lia) Hgi Hw j r Hj) as [Hpj [seen ->]].
      pose proof (Hcons j h _ seen Hj) as Hseen. rewrite IH in Hseen by lia. congruence.
    + destruct e as [| | | | |key v t [[]|]| | | | | | |]; try done. simpl. rewrite lookup_insert_ne; [done|].
      intros ->. by destruct Hno; eexists _, _, _.
Qed.

End Shared.

(** ** Concrete histories *)

(** [consistent], as a function. *)
Fixpoint consistentb (store : gmap string string) (g : list occurrence) : bool :=
  match g with
  | [] => true
  | o :: g =>
      match o with
      | ByWorker _ (EvRedisGet key r) =>
          match r with Expected text => bool_decide (store !! key = Some text) | Unexpected _ => true end
      | _ => true
      end && consistentb (store_step store o) g
  end.

Lemma consistentb_ok store g : consistentb store g = true → consistent store g.
Proof.
  intros Hg i h key text Hi. revert store Hg Hi. revert i. induction g as [|o g IH]; intros i store Hg Hi; [done|].
  simpl in Hg. apply andb_true_iff in Hg as [Ho Hg]. destruct i as [|i].
  - injection Hi as ->. by apply bool_decide_eq_true in Ho.
  - exact (IH i (store_step store o) Hg Hi).
Qed.

Module Race.
Import RefCodec.

(** A job without inputs, its message, and the store after its creation. *)
Definition request : posting := ViaGo (Go.mkDTO "wordcount" None [] 0).
Definition creation_calls : list ApiEvent := (ApiSample.posted request).2.
Definition job : string := (issued ApiSample.services).1.
Definition body : string := ApiSample.encode (JObject (posted_message ApiSample.settings request ApiSample.services)).
Definition created : list occurrence := ByApi 0 <$> creation_calls.
Definition store0 : gmap string string := store_at ∅ created 2.

(** A handling of the message that finds the store as given. *)
Definition handling (store : gmap string string) : list Event :=
  (Worker.handle_message Sample.worker body (Sample.machine store 0)).2.

(** The calls before the first write, and the write; the calls before the last
    write, and the write. *)
Definition is_write (e : Event) : bool := match e with EvRedisSet _ _ _ _ => true | _ => false end.
Fixpoint to_write (es : list Event) : list Event * list Event :=
  match es with
  | [] => ([], [])
  | e :: es => if is_write e then ([], [e]) else let '(l, w) := to_write es in (e :: l, w)
  end.
Definition to_last_write (es : list Event) : list Event * list Event :=
  let '(after, w) := to_write (reverse es) in (take (length es - length after - length w) es, w).

Definition first_handling : list Event := handling store0.
Definition running_store : gmap string string := replay (to_last_write first_handling).1 store0.
Definition second_handling : list Event := handling running_store.

(** The message is delivered a second time while the first handling runs: the
    second one reads the job, the first records that it is done, and the
    second goes on to record that it is running. *)
Definition overtaking : list occurrence :=
  created ++ (ByWorker 0 <$> (to_last_write first_handling).1) ++ (ByWorker 1 <$> (to_write second_handling).1)
    ++ (ByWorker 0 <$> (to_last_write first_handling).2) ++ (ByWorker 1 <$> (to_write second_handling).2).

(** The message is delivered again after the first handling has ended. *)
Definition done_store : gmap string string := replay first_handling store0.
Definition redelivered : list occurrence :=
  created ++ (ByWorker 0 <$> first_handling) ++ (ByWorker 1 <$> handling done_store).

(** The histories of the job in which the second handling finds [store]. *)
Abbreviation machines := (λ store h, Sample.machine (match h with O => store0 | S _ => store end) 0).
Abbreviation is_history := (λ store g,
  history ApiSample.encode size (λ _, "") ApiSample.settings (λ _, request) (λ _, ApiSample.services)
    (λ _, body) (λ _, Sample.worker) (machines store) g).

Lemma history_of store g :
  take 2 g = created → api_calls 0 g `prefix_of` creation_calls → (∀ c, api_calls (S c) g = []) →
  worker_calls 0 g `prefix_of` first_handling → worker_calls 1 g `prefix_of` handling store →
  (∀ h, worker_calls (S (S h)) g = []) → is_history store g.
Proof.
  intros Htake Ha Hac Hw0 Hw1 Hw. split.
  - intros [|c]; [exact Ha|rewrite Hac; apply prefix_nil].
  - intros [|[|h]]; [exact Hw0|exact Hw1|rewrite Hw; apply prefix_nil].
  - intros [|c] [|c']; rewrite ?Hac; congruence.
  - intros i h e Hi. assert (Hsent : g !! 1%nat = Some (ByApi 0 (ApSend body "jobs" (Expected ())))).
    { rewrite <-(lookup_take_lt g 2) by lia. rewrite Htake. vm_compute. reflexivity. }
    assert (Hset : ∃ a, g !! 0%nat = Some (ByApi 0 a)).
    { rewrite <-(lookup_take_lt g 2) by lia. rewrite Htake. eexists. vm_compute. reflexivity. }
    destruct Hset as [a Hset]. destruct i as [|[|i]]; [congruence..|].
    exists 1%nat, (ByApi 0 (ApSend body "jobs" (Expected ()))). split; [lia|]. split; [done|]. left. by eexists _, _.
Qed.

Ltac history_tac :=
  apply history_of;
  [vm_compute; reflexivity
  |eexists; vm_compute; reflexivity
  |intros c; vm_compute; reflexivity
  |match goal with |- ?l `prefix_of` ?r => exists (drop (length l) r) end; vm_compute; reflexivity
  |match goal with |- ?l `prefix_of` ?r => exists (drop (length l) r) end; vm_compute; reflexivity
  |intros h; vm_compute; reflexivity].

Lemma overtaking_history : is_history running_store overtaking.
Proof. history_tac. Qed.
Lemma redelivered_history : is_history done_store redelivered.
Proof. history_tac. Qed.

Lemma request_interoperable : interoperable size ApiSample.settings request.
Proof.
  split; [reflexivity|split; [discriminate|reflexivity]| |simpl; tauto].
  split_and!; repeat constructor.
Qed.

Lemma setting : sound_setting ApiSample.encode size ApiSample.settings (λ _, request) (λ _, Sample.worker).
Proof. split; [exact sample_encodes|intros _; exact request_interoperable|intros _; vm_compute; discriminate]. Qed.

(** A finished job can be overtaken. When the message of a job is delivered a
    second time while the first handling still runs (the queue does so when the
    visibility timeout passes), the second handling may read the job just
    before the first records that it is done, and then records that the job is
    running: the finished status is overwritten, on a consistent store. *)
Example finished_job_overtaken :
  is_history running_store overtaking ∧ consistent ∅ overtaking ∧
  stored_state job (store_at ∅ overtaking 14) = JDone ∧
  stored_state job (store_at ∅ overtaking 15) = JRunning.
Proof.
  split; [exact overtaking_history|]. split; [apply consistentb_ok; vm_compute; reflexivity|].
  split; vm_compute; reflexivity.
Qed.

Lemma concurrent_documents_typed_witness : typed_store job (store_at ∅ overtaking 15).
Proof.
  refine (proj1 (concurrent_documents_typed ApiSample.encode size (λ _, "") ApiSample.settings (λ _, request)
    (λ _, ApiSample.services) (λ _, body) (λ _, Sample.worker) (machines running_store) ∅ overtaking job
    setting overtaking_history _ _) 15%nat).
  - apply consistentb_ok. vm_compute. reflexivity.
  - intros text Ht. rewrite lookup_empty in Ht. discriminate Ht.
Defined.

(** Where the first handling of [redelivered] has ended. *)
Definition finished_at : nat := 2 + length first_handling.
Definition final_text : string := default "" (done_store !! job).

Lemma finished_stored : store_at ∅ redelivered finished_at !! job = Some final_text.
Proof. vm_compute. reflexivity. Qed.
Lemma final_terminal : terminal_text (Expected final_text) = true.
Proof. vm_compute. reflexivity. Qed.

Lemma finished_unless_overtaken_witness : store_at ∅ redelivered (length redelivered) !! job = Some final_text.
Proof.
  apply (finished_unless_overtaken ApiSample.encode size (λ _, "") ApiSample.settings (λ _, request)
    (λ _, ApiSample.services) (λ _, body) (λ _, Sample.worker) (machines done_store) ∅ redelivered 0 finished_at final_text
    setting redelivered_history); [| | |exact finished_stored|exact final_terminal| |].
  - apply consistentb_ok. vm_compute. reflexivity.
  - vm_compute. discriminate.
  - eexists 5%nat, 0%nat, _. split; [vm_compute; lia|]. split; [vm_compute; reflexivity|]. eexists _, _, _. vm_compute. reflexivity.
  - intros i h e Hi Hgi (v & t & r & ->). exfalso.
    assert (Hnone : Forall (λ o, ∀ h v t r, o ≠ ByWorker h (EvRedisSet job v t r)) (drop finished_at redelivered)).
    { vm_compute. repeat constructor; discriminate. }
    rewrite Forall_forall in Hnone. eapply Hnone; [|reflexivity].
    apply (list_elem_of_lookup_2 _ (i - finished_at)). rewrite lookup_drop.
    replace (finished_at + (i - finished_at))%nat with i by lia. exact Hgi.
  - vm_compute. lia.
Defined.
End Race.
